(** * OpenCLInfo: the property-tree library (lib/clInfo.cpp), the older
      stand-alone tool (clDiag.cpp) and the command line printers.

    The development has two layers.  The builders of the library are
    embedded over an explicit model of the memory pool: every
    [cliValue], [cliProperty] and [cliNode] is a cell of a typed region
    of the pool, pointers are cell indices, and the intrusive [next]
    links are followed and overwritten exactly as the C++ code does.
    The printers only read a finished tree; they are embedded over the
    tree that a walk along [firstProperty]/[value]/[firstChild]/[next]
    sees, and a pair of read-back functions connects the two layers. *)

From Stdlib Require Import ZArith Ascii String DecimalString Lia Sorted.
From stdpp Require Import base option list strings.

Local Open Scope string_scope.
Local Open Scope list_scope.

(** ** Version (lib/clInfo.cpp, [struct Version]) *)

Section VersionOperators.
Local Open Scope Z_scope.

(** [int major], [int minor]: C++ [int]s, compared but never added, so
    their values are modelled as integers in [Z]. *)
Record Version := mkVersion { major : Z; minor : Z }.

(** [Version (const int major)] delegates to [Version (major, 0)]. *)
Definition Version1 (major : Z) : Version := mkVersion major 0.

(** [operator==] *)
Definition Version_eq (a other : Version) : bool :=
  (major a =? major other) && (minor a =? minor other).

(** [operator!=] *)
Definition Version_ne (a other : Version) : bool :=
  negb (major a =? major other) || negb (minor a =? minor other).

(** [operator<] *)
Definition Version_lt (a other : Version) : bool :=
  if negb (major a =? major other) then major a <? major other
  else minor a <? minor other.

(** [operator<=] *)
Definition Version_le (a other : Version) : bool :=
  if negb (major a =? major other) then major a <? major other
  else minor a <=? minor other.

(** [operator>=] *)
Definition Version_ge (a other : Version) : bool :=
  if negb (major a =? major other) then major a >? major other
  else minor a >=? minor other.

(** [operator>] *)
Definition Version_gt (a other : Version) : bool :=
  if negb (major a =? major other) then major a >? major other
  else minor a >? minor other.

(** The lexicographic order on (major, minor) that the operators are
    compared with. *)
Definition lex_lt (a b : Version) : Prop :=
  major a < major b \/ (major a = major b /\ minor a < minor b).

End VersionOperators.

(** ** The data model (lib/clInfo.h) *)

(** [enum cliPropertyType]; zero-filled memory reads as the first
    enumerator. *)
Inductive cliPropertyType :=
| CLI_PropertyType_Int64
| CLI_PropertyType_Bool
| CLI_PropertyType_String.

(** [enum cliStatus] *)
Inductive cliStatus := CLI_Success | CLI_Error.

(** A pointer into one of the typed regions of the pool: [None] is
    [nullptr], [Some a] the address of cell [a] of the region. *)
Definition ptr := option nat.

(** A [const char*]: [nullptr] or the text up to the terminating NUL.
    Strings are never changed once a pointer to them is stored, so they
    are kept by value. *)
Definition cstr := option string.

(** The anonymous union of [cliValue]: the member written last.
    [U_zero] is the all-zero bit pattern of freshly allocated pool
    memory ([i == 0], [b == false], [s == nullptr]). *)
Inductive cliUnion :=
| U_zero
| U_i (i : Z)
| U_b (b : bool)
| U_s (s : string).

Record cliValue := mkValue {
  v_union : cliUnion;
  v_next : ptr
}.

Record cliProperty := mkProperty {
  p_value : ptr;
  p_name : cstr;
  p_hint : cstr;
  p_next : ptr;
  p_type : cliPropertyType
}.

Record cliNode := mkNode {
  n_name : cstr;
  n_kind : cstr;
  n_firstChild : ptr;
  n_next : ptr;
  n_firstProperty : ptr
}.

(** ** The memory pool (lib/clInfo.cpp, [struct Pool])

    [Pool::Allocate] hands out consecutive, never reused, 8-byte aligned
    pieces of blocks created by [std::vector<unsigned char> (BlockSize)],
    which value-initialises the bytes: every allocation is fresh and
    zero-filled.  The model keeps one region per cell type and lets an
    address be the index of the cell in its region; [Allocate<T>] appends
    a zero cell.  The only failure of [Allocate] is its size guard. *)
Record Pool := mkPool {
  values : list cliValue;
  properties : list cliProperty;
  nodes : list cliNode
}.

Definition empty_pool : Pool := mkPool [] [] [].

Definition BlockSize : Z := 1048576%Z.

Definition zero_value : cliValue := mkValue U_zero None.
Definition zero_property : cliProperty :=
  mkProperty None None None None CLI_PropertyType_Int64.
Definition zero_node : cliNode := mkNode None None None None None.

(** ** Effects

    A computation of the library runs on the pool, may write diagnostic
    lines to [std::cerr], and ends normally, with [std::bad_alloc]
    thrown, or outside defined behaviour (a read through an invalid
    pointer or past a buffer, a loop that does not end). *)
Inductive outcome (A : Type) :=
| Ok (a : A)
| BadAlloc
| Stuck.
Arguments Ok {A} a.
Arguments BadAlloc {A}.
Arguments Stuck {A}.

(** A line on [std::cerr]: [#expr " failed with error code " r] of
    [NIV_SAFE_CL], or a plain message. *)
Inductive Diag :=
| Failed (expr : string) (r : Z)
| Message (text : string).

Definition M (A : Type) : Type := Pool -> outcome A * Pool * list Diag.

Definition ret {A} (a : A) : M A := fun p => (Ok a, p, []).

Definition bind {A B} (m : M A) (k : A -> M B) : M B :=
  fun p =>
    match m p with
    | (Ok a, p1, d1) =>
        match k a p1 with
        | (r, p2, d2) => (r, p2, d1 ++ d2)
        end
    | (BadAlloc, p1, d1) => (BadAlloc, p1, d1)
    | (Stuck, p1, d1) => (Stuck, p1, d1)
    end.

Notation "x <- m ;; k" := (bind m (fun x => k))
  (at level 100, m at next level, right associativity).
Notation "m ;;; k" := (bind m (fun _ => k))
  (at level 100, right associativity).

Definition throw_bad_alloc {A} : M A := fun p => (BadAlloc, p, []).
Definition undefined {A} : M A := fun p => (Stuck, p, []).
Definition cerr (d : Diag) : M unit := fun p => (Ok tt, p, [d]).
Definition get_pool : M Pool := fun p => (Ok p, p, []).

(** [void* Allocate (int size)]: the guard; the bytes themselves are
    only ever used for string storage, which the model keeps by value. *)
Definition Allocate (size : Z) : M unit :=
  if (size <? 0)%Z || (size >=? BlockSize)%Z then throw_bad_alloc else ret tt.

(** [Allocate<cliValue> ()], [Allocate<cliProperty> ()],
    [Allocate<cliNode> ()]: [sizeof (T)] passes the guard. *)
Definition Allocate_cliValue : M nat :=
  fun p => (Ok (length (values p)),
            mkPool (values p ++ [zero_value]) (properties p) (nodes p), []).

Definition Allocate_cliProperty : M nat :=
  fun p => (Ok (length (properties p)),
            mkPool (values p) (properties p ++ [zero_property]) (nodes p), []).

Definition Allocate_cliNode : M nat :=
  fun p => (Ok (length (nodes p)),
            mkPool (values p) (properties p) (nodes p ++ [zero_node]), []).

(** Reads and writes through a pointer; a pointer that addresses no
    cell is outside defined behaviour. *)
Definition load_value (a : nat) : M cliValue :=
  fun p => match values p !! a with
           | Some c => (Ok c, p, [])
           | None => (Stuck, p, [])
           end.

Definition store_value (a : nat) (f : cliValue -> cliValue) : M unit :=
  fun p => match values p !! a with
           | Some c => (Ok tt, mkPool (<[a := f c]> (values p)) (properties p) (nodes p), [])
           | None => (Stuck, p, [])
           end.

Definition load_property (a : nat) : M cliProperty :=
  fun p => match properties p !! a with
           | Some c => (Ok c, p, [])
           | None => (Stuck, p, [])
           end.

Definition store_property (a : nat) (f : cliProperty -> cliProperty) : M unit :=
  fun p => match properties p !! a with
           | Some c => (Ok tt, mkPool (values p) (<[a := f c]> (properties p)) (nodes p), [])
           | None => (Stuck, p, [])
           end.

Definition load_node (a : nat) : M cliNode :=
  fun p => match nodes p !! a with
           | Some c => (Ok c, p, [])
           | None => (Stuck, p, [])
           end.

Definition store_node (a : nat) (f : cliNode -> cliNode) : M unit :=
  fun p => match nodes p !! a with
           | Some c => (Ok tt, mkPool (values p) (properties p) (<[a := f c]> (nodes p)), [])
           | None => (Stuck, p, [])
           end.

(** Field assignments. *)
Definition set_v_union (u : cliUnion) (c : cliValue) := mkValue u (v_next c).
Definition set_v_next (q : ptr) (c : cliValue) := mkValue (v_union c) q.

Definition set_p_value (q : ptr) (c : cliProperty) :=
  mkProperty q (p_name c) (p_hint c) (p_next c) (p_type c).
Definition set_p_name (s : cstr) (c : cliProperty) :=
  mkProperty (p_value c) s (p_hint c) (p_next c) (p_type c).
Definition set_p_hint (s : cstr) (c : cliProperty) :=
  mkProperty (p_value c) (p_name c) s (p_next c) (p_type c).
Definition set_p_next (q : ptr) (c : cliProperty) :=
  mkProperty (p_value c) (p_name c) (p_hint c) q (p_type c).
Definition set_p_type (t : cliPropertyType) (c : cliProperty) :=
  mkProperty (p_value c) (p_name c) (p_hint c) (p_next c) t.

Definition set_n_name (s : cstr) (c : cliNode) :=
  mkNode s (n_kind c) (n_firstChild c) (n_next c) (n_firstProperty c).
Definition set_n_kind (s : cstr) (c : cliNode) :=
  mkNode (n_name c) s (n_firstChild c) (n_next c) (n_firstProperty c).
Definition set_n_firstChild (q : ptr) (c : cliNode) :=
  mkNode (n_name c) (n_kind c) q (n_next c) (n_firstProperty c).
Definition set_n_next (q : ptr) (c : cliNode) :=
  mkNode (n_name c) (n_kind c) (n_firstChild c) q (n_firstProperty c).
Definition set_n_firstProperty (q : ptr) (c : cliNode) :=
  mkNode (n_name c) (n_kind c) (n_firstChild c) (n_next c) q.

(** ** Raw attribute buffers

    A buffer is the sequence of its bytes.  Reading a C string from a
    buffer yields the text before the first NUL; a buffer without NUL
    would be read past its end. *)
Definition NUL : ascii := Ascii.zero.
Definition SPACE : ascii := " "%char.

Fixpoint c_str (buffer : list ascii) : option string :=
  match buffer with
  | [] => None
  | c :: rest =>
      if Ascii.eqb c NUL then Some EmptyString
      else match c_str rest with
           | Some s => Some (String c s)
           | None => None
           end
  end.

(** The bytes of a C string with its terminator (for building buffers). *)
Definition bytes_of (s : string) : list ascii := list_ascii_of_string s ++ [NUL].

(** Reads an unsigned little-endian integer of [n] bytes (the hosts the
    tool runs on store the least significant byte first). *)
Fixpoint le_uint (n : nat) (buffer : list ascii) : option Z :=
  match n with
  | O => Some 0%Z
  | S n' =>
      match buffer with
      | [] => None
      | b :: rest =>
          match le_uint n' rest with
          | Some hi => Some (Z.of_N (N_of_ascii b) + 256 * hi)%Z
          | None => None
          end
      end
  end.

(** [static_cast<int> (std::size_t)] and [static_cast<std::int64_t>]
    of an unsigned 64-bit value: two's complement wrap-around. *)
Definition static_cast_int (x : Z) : Z :=
  ((x + 2147483648) mod 4294967296 - 2147483648)%Z.

Definition static_cast_int64 (x : Z) : Z :=
  ((x + 9223372036854775808) mod 18446744073709551616 - 9223372036854775808)%Z.

(** [sizeof (cl_uint)], [sizeof (cl_ulong)] (fixed by the OpenCL
    platform header) and [sizeof (std::size_t)] on a 64-bit host. *)
Definition sizeof_cl_uint : nat := 4.
Definition sizeof_cl_ulong : nat := 8.
Definition sizeof_size_t : nat := 8.

(** ** Values

    [CreateValue] for a [const char*] argument: the cell is allocated first,
    then [strlen (value) + 1] bytes for the copy.  When the cast of the
    length wraps to a size no larger than the length, [memcpy] would
    write past the allocation. *)
Definition CreateValue_s (value : string) : M nat :=
  v <- Allocate_cliValue ;;
  let l := Z.of_nat (String.length value) in
  let size := (static_cast_int l + 1)%Z in
  Allocate size ;;;
  if (size <=? l)%Z then undefined
  else store_value v (set_v_union (U_s value)) ;;; ret v.

(** [CreateValue] for a [std::int64_t] argument *)
Definition CreateValue_i (value : Z) : M nat :=
  v <- Allocate_cliValue ;;
  store_value v (set_v_union (U_i value)) ;;;
  ret v.

(** [CreateValue] for a [bool] argument *)
Definition CreateValue_b (value : bool) : M nat :=
  v <- Allocate_cliValue ;;
  store_value v (set_v_union (U_b value)) ;;;
  ret v.

(** The function pointer type [CreateFunc]: pool, buffer and size to
    the head of a value list. *)
Definition CreateFunc : Type := list ascii -> nat -> M ptr.

(** [template <typename T> struct PropertyFetcher] *)
Record PropertyFetcher (T : Type) := mkPropertyFetcher {
  info : T;
  n : cstr;
  cf : CreateFunc;
  type : cliPropertyType;
  h : cstr
}.
Arguments mkPropertyFetcher {T} info n cf type h.
Arguments info {T} _.
Arguments n {T} _.
Arguments cf {T} _.
Arguments type {T} _.
Arguments h {T} _.

(** The idiom that appends a cell to a value list under construction:
    [if (last) { last->next = value; last = value; }
     else { result = value; last = value; }]
    The pair returned is [(result, last)]. *)
Definition append_value (result last : ptr) (value : nat) : M (ptr * ptr) :=
  match last with
  | Some l =>
      store_value l (set_v_next (Some value)) ;;;
      ret (result, Some value)
  | None => ret (Some value, Some value)
  end.

(** [CreateChar] *)
Definition CreateChar : CreateFunc := fun buffer _ =>
  match c_str buffer with
  | Some s => v <- CreateValue_s s ;; ret (Some v)
  | None => undefined
  end.

(** *** [CreateCharList]

    The tokenizer works in place: [p] is an index into the buffer and
    the delimiter that ends a token is overwritten with NUL before the
    token is copied from its start [s]. *)

(** Dereferencing [p]; a read past the end of the buffer is undefined. *)
Definition deref (buffer : list ascii) (p : nat) : M ascii :=
  match buffer !! p with
  | Some c => ret c
  | None => undefined
  end.

(** The inner loop that advances [p] while it addresses neither NUL
    nor a space, run on the bytes from [p] on: the number of increments, if the loop stops inside the buffer. *)
Fixpoint skip_token (rest : list ascii) : option nat :=
  match rest with
  | [] => None
  | c :: rest' =>
      if negb (Ascii.eqb c NUL) && negb (Ascii.eqb c SPACE)
      then match skip_token rest' with
           | Some k => Some (S k)
           | None => None
           end
      else Some O
  end.

(** The loop that advances [p] while it addresses a space (skip all
    following spaces), run on the bytes from [p] on. *)
Fixpoint skip_spaces (rest : list ascii) : option nat :=
  match rest with
  | [] => None
  | c :: rest' =>
      if Ascii.eqb c SPACE
      then match skip_spaces rest' with
           | Some k => Some (S k)
           | None => None
           end
      else Some O
  end.

(** One round of the outer loop (while [p] does not address NUL) per
    unit of fuel;
    every round advances [p], so the length of the buffer is enough
    fuel. *)
Fixpoint CreateCharList_loop (fuel : nat) (buffer : list ascii) (p : nat)
    (result last : ptr) : M ptr :=
  c <- deref buffer p ;;
  if Ascii.eqb c NUL then ret result
  else
    match fuel with
    | O => undefined
    | S fuel' =>
        let s := p in
        match skip_token (drop p buffer) with
        | None => undefined
        | Some k =>
            let p := p + k in
            c <- deref buffer p ;;
            bp <- (if Ascii.eqb c SPACE then
                     let buffer := <[p := NUL]> buffer in
                     let p := S p in
                     match skip_spaces (drop p buffer) with
                     | Some j => ret (buffer, p + j)
                     | None => undefined
                     end
                   else ret (buffer, p)) ;;
            let '(buffer, p) := bp in
            match c_str (drop s buffer) with
            | None => undefined
            | Some tok =>
                value <- CreateValue_s tok ;;
                rl <- append_value result last value ;;
                CreateCharList_loop fuel' buffer p (fst rl) (snd rl)
            end
        end
    end.

Definition CreateCharList : CreateFunc := fun buffer _ =>
  CreateCharList_loop (length buffer) buffer 0 None None.

(** [CreateUInt] *)
Definition CreateUInt : CreateFunc := fun buffer _ =>
  match le_uint sizeof_cl_uint buffer with
  | Some x => v <- CreateValue_i x ;; ret (Some v)
  | None => undefined
  end.

(** [CreateULong] *)
Definition CreateULong : CreateFunc := fun buffer _ =>
  match le_uint sizeof_cl_ulong buffer with
  | Some x => v <- CreateValue_i (static_cast_int64 x) ;; ret (Some v)
  | None => undefined
  end.

(** [CreateSizeT] *)
Definition CreateSizeT : CreateFunc := fun buffer _ =>
  match le_uint sizeof_size_t buffer with
  | Some x => v <- CreateValue_i (static_cast_int64 x) ;; ret (Some v)
  | None => undefined
  end.

(** [CreateSizeTList]: the loop over [i < size / sizeof (std::size_t)],
    [entries] being the bytes not yet read. *)
Fixpoint CreateSizeTList_loop (count : nat) (entries : list ascii)
    (result last : ptr) : M ptr :=
  match count with
  | O => ret result
  | S count' =>
      match le_uint sizeof_size_t entries with
      | None => undefined
      | Some x =>
          v <- CreateValue_i (static_cast_int64 x) ;;
          rl <- append_value result last v ;;
          CreateSizeTList_loop count' (drop sizeof_size_t entries) (fst rl) (snd rl)
      end
  end.

Definition CreateSizeTList : CreateFunc := fun buffer size =>
  CreateSizeTList_loop (size / sizeof_size_t) buffer None None.

(** [CreateBool]: [cl_bool] is a [cl_uint]. *)
Definition CreateBool : CreateFunc := fun buffer _ =>
  match le_uint sizeof_cl_uint buffer with
  | Some x => v <- CreateValue_b (negb (x =? 0)%Z) ;; ret (Some v)
  | None => undefined
  end.

(** *** Bit fields *)

(** [template <typename T> struct BitfieldFetcher] *)
Record BitfieldFetcher := mkBitfieldFetcher {
  value : Z;
  bf_n : string
}.

(** The body of the range-for of [CreateBitfield], over the entries not
    yet visited.  The name is a string literal: the pointer is stored,
    nothing is copied. *)
Fixpoint CreateBitfield_loop (config : Z) (fields : list BitfieldFetcher)
    (result lastValue : ptr) : M ptr :=
  match fields with
  | [] => ret result
  | field :: fields' =>
      if (Z.land config (value field) =? value field)%Z then
        v <- Allocate_cliValue ;;
        store_value v (set_v_union (U_s (bf_n field))) ;;;
        rl <- match lastValue with
              | Some l =>
                  store_value l (set_v_next (Some v)) ;;;
                  c <- load_value l ;;
                  ret (result, v_next c)
              | None => ret (Some v, Some v)
              end ;;
        CreateBitfield_loop config fields' (fst rl) (snd rl)
      else CreateBitfield_loop config fields' result lastValue
  end.

Definition CreateBitfield (config : Z) (fields : list BitfieldFetcher) : M ptr :=
  CreateBitfield_loop config fields None None.

(** ** The OpenCL header

    [CL/cl.h] belongs to the OpenCL SDK, not to the repository.  The
    enumerators the library names are taken as parameters: everything
    below holds for any values of them.  Handles are opaque numbers,
    and an attribute identifier ([cl_device_info], [cl_platform_info])
    is kept as the enumerator that names it; [NIV_VALUESTRING (v)]
    expands to the enumerator and its spelling. *)
Class cl_h := {
  CL_SUCCESS : Z;
  (* cl_device_fp_config *)
  CL_FP_DENORM : Z;
  CL_FP_INF_NAN : Z;
  CL_FP_ROUND_TO_NEAREST : Z;
  CL_FP_ROUND_TO_ZERO : Z;
  CL_FP_ROUND_TO_INF : Z;
  CL_FP_FMA : Z;
  CL_FP_SOFT_FLOAT : Z;
  (* cl_device_exec_capabilities *)
  CL_EXEC_KERNEL : Z;
  CL_EXEC_NATIVE_KERNEL : Z;
  (* cl_device_mem_cache_type *)
  CL_READ_ONLY_CACHE : Z;
  CL_READ_WRITE_CACHE : Z;
  (* cl_device_local_mem_type *)
  CL_LOCAL : Z;
  CL_GLOBAL : Z;
  (* cl_device_affinity_domain *)
  CL_DEVICE_AFFINITY_DOMAIN_NUMA : Z;
  CL_DEVICE_AFFINITY_DOMAIN_L4_CACHE : Z;
  CL_DEVICE_AFFINITY_DOMAIN_L3_CACHE : Z;
  CL_DEVICE_AFFINITY_DOMAIN_L2_CACHE : Z;
  CL_DEVICE_AFFINITY_DOMAIN_L1_CACHE : Z;
  CL_DEVICE_AFFINITY_DOMAIN_NEXT_PARTITIONABLE : Z;
  (* cl_device_partition_property *)
  CL_DEVICE_PARTITION_EQUALLY : Z;
  CL_DEVICE_PARTITION_BY_COUNTS : Z;
  CL_DEVICE_PARTITION_BY_AFFINITY_DOMAIN : Z;
  (* cl_command_queue_properties *)
  CL_QUEUE_OUT_OF_ORDER_EXEC_MODE_ENABLE : Z;
  CL_QUEUE_PROFILING_ENABLE : Z;
  (* cl_device_type *)
  CL_DEVICE_TYPE_CPU : Z;
  CL_DEVICE_TYPE_GPU : Z;
  CL_DEVICE_TYPE_ACCELERATOR : Z;
  CL_DEVICE_TYPE_DEFAULT : Z;
  CL_DEVICE_TYPE_CUSTOM : Z;
  (* cl_device_svm_capabilities *)
  CL_DEVICE_SVM_COARSE_GRAIN_BUFFER : Z;
  CL_DEVICE_SVM_FINE_GRAIN_BUFFER : Z;
  CL_DEVICE_SVM_FINE_GRAIN_SYSTEM : Z;
  CL_DEVICE_SVM_ATOMICS : Z;
  (* cl_channel_order *)
  CL_R : Z;
  CL_A : Z;
  CL_RG : Z;
  CL_RA : Z;
  CL_RGB : Z;
  CL_RGBA : Z;
  CL_BGRA : Z;
  CL_ARGB : Z;
  CL_INTENSITY : Z;
  CL_LUMINANCE : Z;
  CL_Rx : Z;
  CL_RGx : Z;
  CL_RGBx : Z;
  CL_DEPTH_STENCIL : Z;
  (* cl_channel_type *)
  CL_SNORM_INT8 : Z;
  CL_SNORM_INT16 : Z;
  CL_UNORM_INT8 : Z;
  CL_UNORM_INT16 : Z;
  CL_UNORM_SHORT_565 : Z;
  CL_UNORM_SHORT_555 : Z;
  CL_UNORM_INT_101010 : Z;
  CL_SIGNED_INT8 : Z;
  CL_SIGNED_INT16 : Z;
  CL_SIGNED_INT32 : Z;
  CL_UNSIGNED_INT8 : Z;
  CL_UNSIGNED_INT16 : Z;
  CL_UNSIGNED_INT32 : Z;
  CL_HALF_FLOAT : Z;
  CL_FLOAT : Z;
  (* cl_mem_object_type *)
  CL_MEM_OBJECT_IMAGE1D : Z;
  CL_MEM_OBJECT_IMAGE2D : Z;
  CL_MEM_OBJECT_IMAGE3D : Z;
  CL_MEM_OBJECT_IMAGE1D_BUFFER : Z;
  CL_MEM_OBJECT_IMAGE1D_ARRAY : Z;
  CL_MEM_OBJECT_IMAGE2D_ARRAY : Z
}.

Definition cl_platform_id := Z.
Definition cl_device_id := Z.
Definition cl_context := Z.
Definition cl_platform_info := string.
Definition cl_device_info := string.

Record cl_image_format := mk_cl_image_format {
  image_channel_order : Z;
  image_channel_data_type : Z
}.

(** [#define NIV_VALUESTRING(v) v, #v] *)
Definition NIV_VALUESTRING (v : string) : string * string := (v, v).

(** An initializer [{NIV_VALUESTRING (v), cf, type}] or
    [{NIV_VALUESTRING (v), cf, type, hint}] of a [PropertyFetcher]. *)
Definition fetcher (vn : string * string) (cf : CreateFunc)
    (type : cliPropertyType) (h : cstr) : PropertyFetcher string :=
  mkPropertyFetcher (fst vn) (Some (snd vn)) cf type h.

(** An initializer [{NIV_VALUESTRING (v)}] of a [BitfieldFetcher]. *)
Definition bitfield (v : Z) (spelling : string) : BitfieldFetcher :=
  mkBitfieldFetcher v spelling.

(** The driver: the entry points of the OpenCL API that the library
    calls.  An entry point is a function from the input arguments to
    the status it returns and what it stores through its output
    pointers.  [clGetPlatformInfo] and [clGetDeviceInfo] take the
    object, the attribute and [param_value_size], and yield the status,
    [param_value_size_ret] and the bytes stored to [param_value]; the
    enumerations take [num_entries] and yield the status, the count and
    the entries stored. *)
Definition GetInfoFunction (O I : Type) : Type :=
  O -> I -> nat -> Z * nat * list ascii.

Record Driver := mkDriver {
  clGetPlatformIDs : nat -> Z * nat * list cl_platform_id;
  clGetPlatformInfo : GetInfoFunction cl_platform_id cl_platform_info;
  clGetDeviceIDs : cl_platform_id -> nat -> Z * nat * list cl_device_id;
  clGetDeviceInfo : GetInfoFunction cl_device_id cl_device_info;
  clCreateContext : cl_device_id -> Z * cl_context;
  clGetSupportedImageFormats :
    cl_context -> Z -> nat -> Z * nat * list cl_image_format
}.

(** A [std::vector<T> (count)] (value-initialised) after the callee
    stored [written] at its start. *)
Definition filled {T} (zero : T) (count : nat) (written : list T) : list T :=
  take count (written ++ replicate count zero).

Section WithHeader.
Context {hdr : cl_h}.

(** [#define NIV_SAFE_CL(expr)]: when the status is not [CL_SUCCESS],
    write the line to [std::cerr] and return [nullptr] from the
    enclosing function; [returned] is what that return means to the
    enclosing function of the model, [k] the rest of the function. *)
Definition NIV_SAFE_CL {A} (expr : string) (r : Z) (returned : A) (k : M A) : M A :=
  if (r =? CL_SUCCESS)%Z then k
  else cerr (Failed expr r) ;;; ret returned.

(** The bit field decoders.  [cl_bitfield] is a [cl_ulong];
    [cl_device_mem_cache_type] and [cl_device_local_mem_type] are
    [cl_uint]s; [cl_device_partition_property] is an [intptr_t]. *)
Definition CreateDeviceFPConfig : CreateFunc := fun buffer _ =>
  match le_uint sizeof_cl_ulong buffer with
  | None => undefined
  | Some config =>
      CreateBitfield config
        [ bitfield CL_FP_DENORM "CL_FP_DENORM";
          bitfield CL_FP_INF_NAN "CL_FP_INF_NAN";
          bitfield CL_FP_ROUND_TO_NEAREST "CL_FP_ROUND_TO_NEAREST";
          bitfield CL_FP_ROUND_TO_ZERO "CL_FP_ROUND_TO_ZERO";
          bitfield CL_FP_ROUND_TO_INF "CL_FP_ROUND_TO_INF";
          bitfield CL_FP_FMA "CL_FP_FMA";
          bitfield CL_FP_SOFT_FLOAT "CL_FP_SOFT_FLOAT" ]
  end.

Definition CreateDeviceExecCapabilities : CreateFunc := fun buffer _ =>
  match le_uint sizeof_cl_ulong buffer with
  | None => undefined
  | Some config =>
      CreateBitfield config
        [ bitfield CL_EXEC_KERNEL "CL_EXEC_KERNEL";
          bitfield CL_EXEC_NATIVE_KERNEL "CL_EXEC_NATIVE_KERNEL" ]
  end.

Definition CreateDeviceMemCacheType : CreateFunc := fun buffer _ =>
  match le_uint sizeof_cl_uint buffer with
  | None => undefined
  | Some config =>
      CreateBitfield config
        [ bitfield CL_READ_ONLY_CACHE "CL_READ_ONLY_CACHE";
          bitfield CL_READ_WRITE_CACHE "CL_READ_WRITE_CACHE" ]
  end.

Definition CreateDeviceLocalMemType : CreateFunc := fun buffer _ =>
  match le_uint sizeof_cl_uint buffer with
  | None => undefined
  | Some config =>
      CreateBitfield config
        [ bitfield CL_LOCAL "CL_LOCAL";
          bitfield CL_GLOBAL "CL_GLOBAL" ]
  end.

Definition CreateDeviceAffinityDomain : CreateFunc := fun buffer _ =>
  match le_uint sizeof_cl_ulong buffer with
  | None => undefined
  | Some config =>
      CreateBitfield config
        [ bitfield CL_DEVICE_AFFINITY_DOMAIN_NUMA "CL_DEVICE_AFFINITY_DOMAIN_NUMA";
          bitfield CL_DEVICE_AFFINITY_DOMAIN_L4_CACHE "CL_DEVICE_AFFINITY_DOMAIN_L4_CACHE";
          bitfield CL_DEVICE_AFFINITY_DOMAIN_L3_CACHE "CL_DEVICE_AFFINITY_DOMAIN_L3_CACHE";
          bitfield CL_DEVICE_AFFINITY_DOMAIN_L2_CACHE "CL_DEVICE_AFFINITY_DOMAIN_L2_CACHE";
          bitfield CL_DEVICE_AFFINITY_DOMAIN_L1_CACHE "CL_DEVICE_AFFINITY_DOMAIN_L1_CACHE";
          bitfield CL_DEVICE_AFFINITY_DOMAIN_NEXT_PARTITIONABLE
            "CL_DEVICE_AFFINITY_DOMAIN_NEXT_PARTITIONABLE" ]
  end.

Definition CreateDevicePartitionProperty : CreateFunc := fun buffer _ =>
  match le_uint sizeof_size_t buffer with
  | None => undefined
  | Some config =>
      CreateBitfield (static_cast_int64 config)
        [ bitfield CL_DEVICE_PARTITION_EQUALLY "CL_DEVICE_PARTITION_EQUALLY";
          bitfield CL_DEVICE_PARTITION_BY_COUNTS "CL_DEVICE_PARTITION_BY_COUNTS";
          bitfield CL_DEVICE_PARTITION_BY_AFFINITY_DOMAIN
            "CL_DEVICE_PARTITION_BY_AFFINITY_DOMAIN" ]
  end.

Definition CreateCommandQueueProperties : CreateFunc := fun buffer _ =>
  match le_uint sizeof_cl_ulong buffer with
  | None => undefined
  | Some config =>
      CreateBitfield config
        [ bitfield CL_QUEUE_OUT_OF_ORDER_EXEC_MODE_ENABLE
            "CL_QUEUE_OUT_OF_ORDER_EXEC_MODE_ENABLE";
          bitfield CL_QUEUE_PROFILING_ENABLE "CL_QUEUE_PROFILING_ENABLE" ]
  end.

Definition CreateDeviceType : CreateFunc := fun buffer _ =>
  match le_uint sizeof_cl_ulong buffer with
  | None => undefined
  | Some config =>
      CreateBitfield config
        [ bitfield CL_DEVICE_TYPE_CPU "CL_DEVICE_TYPE_CPU";
          bitfield CL_DEVICE_TYPE_GPU "CL_DEVICE_TYPE_GPU";
          bitfield CL_DEVICE_TYPE_ACCELERATOR "CL_DEVICE_TYPE_ACCELERATOR";
          bitfield CL_DEVICE_TYPE_DEFAULT "CL_DEVICE_TYPE_DEFAULT";
          bitfield CL_DEVICE_TYPE_CUSTOM "CL_DEVICE_TYPE_CUSTOM" ]
  end.

Definition CreateDeviceSVMCapabilities : CreateFunc := fun buffer _ =>
  match le_uint sizeof_cl_ulong buffer with
  | None => undefined
  | Some config =>
      CreateBitfield config
        [ bitfield CL_DEVICE_SVM_COARSE_GRAIN_BUFFER "CL_DEVICE_SVM_COARSE_GRAIN_BUFFER";
          bitfield CL_DEVICE_SVM_FINE_GRAIN_BUFFER "CL_DEVICE_SVM_FINE_GRAIN_BUFFER";
          bitfield CL_DEVICE_SVM_FINE_GRAIN_SYSTEM "CL_DEVICE_SVM_FINE_GRAIN_SYSTEM";
          bitfield CL_DEVICE_SVM_ATOMICS "CL_DEVICE_SVM_ATOMICS" ]
  end.

(** A [switch] over enumerators with a [default]: the first case whose
    label equals the value. *)
Fixpoint switch_string (x : Z) (cases : list (Z * string)) (default : string) : string :=
  match cases with
  | [] => default
  | (label, s) :: cases' => if (x =? label)%Z then s else switch_string x cases' default
  end.

Definition ChannelOrderToString (order : Z) : string :=
  switch_string order
    [ (CL_R, "R"); (CL_A, "A"); (CL_RG, "RG"); (CL_RA, "RA"); (CL_RGB, "RGB");
      (CL_RGBA, "RGBA"); (CL_BGRA, "BGRA"); (CL_ARGB, "ARGB");
      (CL_INTENSITY, "INTENSITY"); (CL_LUMINANCE, "LUMINANCE"); (CL_Rx, "Rx");
      (CL_RGx, "RGx"); (CL_RGBx, "RGBx"); (CL_DEPTH_STENCIL, "DEPTH_STENCIL") ]
    "Unknown channel order".

Definition ChannelDataTypeToString (type : Z) : string :=
  switch_string type
    [ (CL_SNORM_INT8, "int8_snorm"); (CL_SNORM_INT16, "int16_snorm");
      (CL_UNORM_INT8, "int8_unorm"); (CL_UNORM_INT16, "int16_unorm");
      (CL_UNORM_SHORT_565, "short565_unorm"); (CL_UNORM_SHORT_555, "short555_unorm");
      (CL_UNORM_INT_101010, "int101010_unorm"); (CL_SIGNED_INT8, "sint8");
      (CL_SIGNED_INT16, "sint16"); (CL_SIGNED_INT32, "sint32");
      (CL_UNSIGNED_INT8, "uint8"); (CL_UNSIGNED_INT16, "uint16");
      (CL_UNSIGNED_INT32, "uint32"); (CL_HALF_FLOAT, "half"); (CL_FLOAT, "float") ]
    "Unknown channel data type".

(** ** [ParseVersion]

    [std::atoi]: optional white space, an optional sign, then decimal
    digits up to the first other character; a value that does not fit
    an [int] is undefined. *)
Definition isspace (c : ascii) : bool :=
  let k := nat_of_ascii c in ((k =? 32) || ((9 <=? k) && (k <=? 13)))%nat.

Definition digit_of (c : ascii) : option Z :=
  let k := nat_of_ascii c in
  if ((48 <=? k) && (k <=? 57))%nat then Some (Z.of_nat k - 48)%Z else None.

Fixpoint atoi_digits (s : string) (acc : Z) : Z :=
  match s with
  | EmptyString => acc
  | String c s' =>
      match digit_of c with
      | Some d => atoi_digits s' (10 * acc + d)%Z
      | None => acc
      end
  end.

Fixpoint atoi_skip (s : string) : string :=
  match s with
  | EmptyString => EmptyString
  | String c s' => if isspace c then atoi_skip s' else s
  end.

Definition atoi (s : string) : option Z :=
  let s := atoi_skip s in
  let v := match s with
           | String "-"%char s' => (- atoi_digits s' 0)%Z
           | String "+"%char s' => atoi_digits s' 0
           | _ => atoi_digits s 0
           end in
  if (-2147483648 <=? v)%Z && (v <=? 2147483647)%Z then Some v else None.

(** The scanning loops of [ParseVersion] advance [s] until it addresses
    the character [c] and do not stop at the terminating NUL: the text
    before [c] and the text after it, if [c] occurs. *)
Fixpoint scan_until (c : ascii) (s : string) : option (string * string) :=
  match s with
  | EmptyString => None
  | String x s' =>
      if Ascii.eqb x c then Some (EmptyString, s')
      else match scan_until c s' with
           | Some (before, after) => Some (String x before, after)
           | None => None
           end
  end.

(** [ParseVersion]: skip to the first space, copy up to the dot, copy
    up to the next space; both copies go to 16-byte arrays and are
    asserted shorter than 16.  [None] stands for the runs outside
    defined behaviour (a delimiter is missing, an assertion fails, a
    number does not fit). *)
Definition ParseVersion (s : string) : option Version :=
  match scan_until SPACE s with
  | None => None
  | Some (_, s) =>
      match scan_until "."%char s with
      | None => None
      | Some (majorVersion, s) =>
          if negb (String.length majorVersion <? 16)%nat then None else
          match scan_until SPACE s with
          | None => None
          | Some (minorVersion, _) =>
              if negb (String.length minorVersion <? 16)%nat then None else
              match atoi majorVersion, atoi minorVersion with
              | Some major, Some minor => Some (mkVersion major minor)
              | _, _ => None
              end
          end
      end
  end.

(** ** Sorting by name

    The comparison of the [std::sort] call in [GatherDeviceInfo]:
    [strcmp (a.n, b.n) < 0], the order of the byte strings.  (The names
    of the tables are never null.) *)
Definition strcmp_lt (a b : cstr) : bool :=
  match a, b with
  | Some x, Some y => String.ltb x y
  | _, _ => false
  end.

(** [std::sort] yields the sorted arrangement of its input; which of
    two entries with the same name comes first is not specified, and in
    the tables below entries with the same name are the same entry.
    The model sorts by insertion. *)
Fixpoint sort_insert {A} (less : A -> A -> bool) (x : A) (l : list A) : list A :=
  match l with
  | [] => [x]
  | y :: l' => if less x y then x :: y :: l' else y :: sort_insert less x l'
  end.

Definition std_sort {A} (less : A -> A -> bool) (l : list A) : list A :=
  foldr (sort_insert less) [] l.

(** ** The attribute tables of [GatherDeviceInfo] and [GatherOpenCLInfo]

    All of [CL_VERSION_1_0], [CL_VERSION_1_1], [CL_VERSION_1_2] and
    [CL_VERSION_2_0] are taken as defined (an OpenCL 2.0 header). *)

Definition infos_CL_shared : list (PropertyFetcher cl_device_info) := [
  fetcher (NIV_VALUESTRING "CL_DEVICE_ADDRESS_BITS") CreateUInt CLI_PropertyType_Int64 (Some "The default compute device address space size specified as an unsigned integer value in bits.");
  fetcher (NIV_VALUESTRING "CL_DEVICE_AVAILABLE") CreateBool CLI_PropertyType_Bool None;
  fetcher (NIV_VALUESTRING "CL_DEVICE_COMPILER_AVAILABLE") CreateBool CLI_PropertyType_Bool None;
  fetcher (NIV_VALUESTRING "CL_DEVICE_DOUBLE_FP_CONFIG") CreateDeviceFPConfig CLI_PropertyType_String None;
  fetcher (NIV_VALUESTRING "CL_DEVICE_ENDIAN_LITTLE") CreateBool CLI_PropertyType_Bool None;
  fetcher (NIV_VALUESTRING "CL_DEVICE_ERROR_CORRECTION_SUPPORT") CreateBool CLI_PropertyType_Bool None;
  fetcher (NIV_VALUESTRING "CL_DEVICE_EXECUTION_CAPABILITIES") CreateDeviceExecCapabilities CLI_PropertyType_String None;
  fetcher (NIV_VALUESTRING "CL_DEVICE_EXTENSIONS") CreateCharList CLI_PropertyType_String None;
  fetcher (NIV_VALUESTRING "CL_DEVICE_GLOBAL_MEM_CACHE_SIZE") CreateULong CLI_PropertyType_Int64 (Some "Size of global memory cache in bytes.");
  fetcher (NIV_VALUESTRING "CL_DEVICE_GLOBAL_MEM_CACHE_TYPE") CreateDeviceMemCacheType CLI_PropertyType_String None;
  fetcher (NIV_VALUESTRING "CL_DEVICE_GLOBAL_MEM_CACHELINE_SIZE") CreateUInt CLI_PropertyType_Int64 (Some "Size of global memory cache line in bytes.");
  fetcher (NIV_VALUESTRING "CL_DEVICE_GLOBAL_MEM_SIZE") CreateULong CLI_PropertyType_Int64 (Some "Size of global device memory in bytes.");
  fetcher (NIV_VALUESTRING "CL_DEVICE_IMAGE2D_MAX_HEIGHT") CreateSizeT CLI_PropertyType_Int64 None;
  fetcher (NIV_VALUESTRING "CL_DEVICE_IMAGE2D_MAX_WIDTH") CreateSizeT CLI_PropertyType_Int64 None;
  fetcher (NIV_VALUESTRING "CL_DEVICE_IMAGE3D_MAX_DEPTH") CreateSizeT CLI_PropertyType_Int64 None;
  fetcher (NIV_VALUESTRING "CL_DEVICE_IMAGE3D_MAX_HEIGHT") CreateSizeT CLI_PropertyType_Int64 None;
  fetcher (NIV_VALUESTRING "CL_DEVICE_IMAGE3D_MAX_WIDTH") CreateSizeT CLI_PropertyType_Int64 None;
  fetcher (NIV_VALUESTRING "CL_DEVICE_IMAGE_SUPPORT") CreateBool CLI_PropertyType_Bool None;
  fetcher (NIV_VALUESTRING "CL_DEVICE_LOCAL_MEM_SIZE") CreateULong CLI_PropertyType_Int64 (Some "Size of local memory arena in bytes. The minimum value is 32 KB for devices that are not of type CL_DEVICE_TYPE_CUSTOM.");
  fetcher (NIV_VALUESTRING "CL_DEVICE_LOCAL_MEM_TYPE") CreateDeviceLocalMemType CLI_PropertyType_String (Some "Type of local memory supported. This can be set to CL_LOCAL implying dedicated local memory storage such as SRAM, or CL_GLOBAL. For custom devices, CL_NONE can also be returned indicating no local memory support.");
  fetcher (NIV_VALUESTRING "CL_DEVICE_MAX_CLOCK_FREQUENCY") CreateUInt CLI_PropertyType_Int64 (Some "Maximum configured clock frequency of the device in MHz.");
  fetcher (NIV_VALUESTRING "CL_DEVICE_MAX_COMPUTE_UNITS") CreateUInt CLI_PropertyType_Int64 (Some "The number of parallel compute units on the OpenCL device. A work-group executes on a single compute unit. The minimum value is 1.");
  fetcher (NIV_VALUESTRING "CL_DEVICE_MAX_CONSTANT_ARGS") CreateUInt CLI_PropertyType_Int64 None;
  fetcher (NIV_VALUESTRING "CL_DEVICE_MAX_CONSTANT_BUFFER_SIZE") CreateULong CLI_PropertyType_Int64 (Some "Max size in bytes of a constant buffer allocation. The minimum value is 64 KB for devices that are not of type CL_DEVICE_TYPE_CUSTOM.");
  fetcher (NIV_VALUESTRING "CL_DEVICE_MAX_MEM_ALLOC_SIZE") CreateULong CLI_PropertyType_Int64 (Some "Max size of memory object allocation in bytes. The minimum value is max (1/4th of CL_DEVICE_GLOBAL_MEM_SIZE, 128*1024*1024) for devices that are not of type CL_DEVICE_TYPE_CUSTOM.");
  fetcher (NIV_VALUESTRING "CL_DEVICE_MAX_PARAMETER_SIZE") CreateSizeT CLI_PropertyType_Int64 (Some "Max size in bytes of the arguments that can be passed to a kernel. The minimum value is 1024 for devices that are not of type CL_DEVICE_TYPE_CUSTOM. For this minimum value, only a maximum of 128 arguments can be passed to a kernel.");
  fetcher (NIV_VALUESTRING "CL_DEVICE_MAX_READ_IMAGE_ARGS") CreateUInt CLI_PropertyType_Int64 None;
  fetcher (NIV_VALUESTRING "CL_DEVICE_MAX_SAMPLERS") CreateUInt CLI_PropertyType_Int64 None;
  fetcher (NIV_VALUESTRING "CL_DEVICE_MAX_WORK_GROUP_SIZE") CreateSizeT CLI_PropertyType_Int64 None;
  fetcher (NIV_VALUESTRING "CL_DEVICE_MAX_WORK_ITEM_DIMENSIONS") CreateUInt CLI_PropertyType_Int64 None;
  fetcher (NIV_VALUESTRING "CL_DEVICE_MAX_WORK_ITEM_SIZES") CreateSizeTList CLI_PropertyType_Int64 None;
  fetcher (NIV_VALUESTRING "CL_DEVICE_MAX_WRITE_IMAGE_ARGS") CreateUInt CLI_PropertyType_Int64 None;
  fetcher (NIV_VALUESTRING "CL_DEVICE_MEM_BASE_ADDR_ALIGN") CreateUInt CLI_PropertyType_Int64 None;
  fetcher (NIV_VALUESTRING "CL_DEVICE_NAME") CreateChar CLI_PropertyType_String None;
  fetcher (NIV_VALUESTRING "CL_DEVICE_OPENCL_C_VERSION") CreateChar CLI_PropertyType_String None;
  fetcher (NIV_VALUESTRING "CL_DEVICE_PREFERRED_VECTOR_WIDTH_CHAR") CreateUInt CLI_PropertyType_Int64 None;
  fetcher (NIV_VALUESTRING "CL_DEVICE_PREFERRED_VECTOR_WIDTH_SHORT") CreateUInt CLI_PropertyType_Int64 None;
  fetcher (NIV_VALUESTRING "CL_DEVICE_PREFERRED_VECTOR_WIDTH_INT") CreateUInt CLI_PropertyType_Int64 None;
  fetcher (NIV_VALUESTRING "CL_DEVICE_PREFERRED_VECTOR_WIDTH_LONG") CreateUInt CLI_PropertyType_Int64 None;
  fetcher (NIV_VALUESTRING "CL_DEVICE_PREFERRED_VECTOR_WIDTH_FLOAT") CreateUInt CLI_PropertyType_Int64 None;
  fetcher (NIV_VALUESTRING "CL_DEVICE_PREFERRED_VECTOR_WIDTH_DOUBLE") CreateUInt CLI_PropertyType_Int64 None;
  fetcher (NIV_VALUESTRING "CL_DEVICE_PREFERRED_VECTOR_WIDTH_HALF") CreateUInt CLI_PropertyType_Int64 None;
  fetcher (NIV_VALUESTRING "CL_DEVICE_PROFILE") CreateChar CLI_PropertyType_String None;
  fetcher (NIV_VALUESTRING "CL_DEVICE_PROFILING_TIMER_RESOLUTION") CreateSizeT CLI_PropertyType_Int64 None;
  fetcher (NIV_VALUESTRING "CL_DEVICE_SINGLE_FP_CONFIG") CreateDeviceFPConfig CLI_PropertyType_String None;
  fetcher (NIV_VALUESTRING "CL_DEVICE_TYPE") CreateDeviceType CLI_PropertyType_String None;
  fetcher (NIV_VALUESTRING "CL_DEVICE_VENDOR") CreateChar CLI_PropertyType_String None;
  fetcher (NIV_VALUESTRING "CL_DEVICE_VENDOR_ID") CreateUInt CLI_PropertyType_Int64 None;
  fetcher (NIV_VALUESTRING "CL_DEVICE_VERSION") CreateChar CLI_PropertyType_String None;
  fetcher (NIV_VALUESTRING "CL_DRIVER_VERSION") CreateChar CLI_PropertyType_String None
].

Definition infos_CL_1_0 : list (PropertyFetcher cl_device_info) := [
  fetcher (NIV_VALUESTRING "CL_DEVICE_MEM_BASE_ADDR_ALIGN") CreateUInt CLI_PropertyType_Int64 None
].

Definition infos_CL_1_1 : list (PropertyFetcher cl_device_info) := [
  fetcher (NIV_VALUESTRING "CL_DEVICE_HOST_UNIFIED_MEMORY") CreateBool CLI_PropertyType_Bool None;
  fetcher (NIV_VALUESTRING "CL_DEVICE_MIN_DATA_TYPE_ALIGN_SIZE") CreateUInt CLI_PropertyType_Int64 None;
  fetcher (NIV_VALUESTRING "CL_DEVICE_NATIVE_VECTOR_WIDTH_CHAR") CreateUInt CLI_PropertyType_Int64 None;
  fetcher (NIV_VALUESTRING "CL_DEVICE_NATIVE_VECTOR_WIDTH_SHORT") CreateUInt CLI_PropertyType_Int64 None;
  fetcher (NIV_VALUESTRING "CL_DEVICE_NATIVE_VECTOR_WIDTH_INT") CreateUInt CLI_PropertyType_Int64 None;
  fetcher (NIV_VALUESTRING "CL_DEVICE_NATIVE_VECTOR_WIDTH_LONG") CreateUInt CLI_PropertyType_Int64 None;
  fetcher (NIV_VALUESTRING "CL_DEVICE_NATIVE_VECTOR_WIDTH_FLOAT") CreateUInt CLI_PropertyType_Int64 None;
  fetcher (NIV_VALUESTRING "CL_DEVICE_NATIVE_VECTOR_WIDTH_DOUBLE") CreateUInt CLI_PropertyType_Int64 None;
  fetcher (NIV_VALUESTRING "CL_DEVICE_NATIVE_VECTOR_WIDTH_HALF") CreateUInt CLI_PropertyType_Int64 None
].

Definition infos_CL_1_2 : list (PropertyFetcher cl_device_info) := [
  fetcher (NIV_VALUESTRING "CL_DEVICE_BUILT_IN_KERNELS") CreateCharList CLI_PropertyType_String None;
  fetcher (NIV_VALUESTRING "CL_DEVICE_IMAGE_BASE_ADDRESS_ALIGNMENT") CreateUInt CLI_PropertyType_Int64 None;
  fetcher (NIV_VALUESTRING "CL_DEVICE_IMAGE_MAX_ARRAY_SIZE") CreateSizeT CLI_PropertyType_Int64 None;
  fetcher (NIV_VALUESTRING "CL_DEVICE_IMAGE_MAX_BUFFER_SIZE") CreateSizeT CLI_PropertyType_Int64 None;
  fetcher (NIV_VALUESTRING "CL_DEVICE_IMAGE_PITCH_ALIGNMENT") CreateUInt CLI_PropertyType_Int64 None;
  fetcher (NIV_VALUESTRING "CL_DEVICE_IMAGE_SUPPORT") CreateBool CLI_PropertyType_Bool None;
  fetcher (NIV_VALUESTRING "CL_DEVICE_LINKER_AVAILABLE") CreateBool CLI_PropertyType_Bool None;
  fetcher (NIV_VALUESTRING "CL_DEVICE_NATIVE_VECTOR_WIDTH_CHAR") CreateUInt CLI_PropertyType_Int64 None;
  fetcher (NIV_VALUESTRING "CL_DEVICE_NATIVE_VECTOR_WIDTH_SHORT") CreateUInt CLI_PropertyType_Int64 None;
  fetcher (NIV_VALUESTRING "CL_DEVICE_NATIVE_VECTOR_WIDTH_INT") CreateUInt CLI_PropertyType_Int64 None;
  fetcher (NIV_VALUESTRING "CL_DEVICE_NATIVE_VECTOR_WIDTH_LONG") CreateUInt CLI_PropertyType_Int64 None;
  fetcher (NIV_VALUESTRING "CL_DEVICE_NATIVE_VECTOR_WIDTH_FLOAT") CreateUInt CLI_PropertyType_Int64 None;
  fetcher (NIV_VALUESTRING "CL_DEVICE_NATIVE_VECTOR_WIDTH_DOUBLE") CreateUInt CLI_PropertyType_Int64 None;
  fetcher (NIV_VALUESTRING "CL_DEVICE_NATIVE_VECTOR_WIDTH_HALF") CreateUInt CLI_PropertyType_Int64 None;
  fetcher (NIV_VALUESTRING "CL_DEVICE_PARTITION_AFFINITY_DOMAIN") CreateDeviceAffinityDomain CLI_PropertyType_String None;
  fetcher (NIV_VALUESTRING "CL_DEVICE_PARTITION_MAX_SUB_DEVICES") CreateUInt CLI_PropertyType_Int64 None;
  fetcher (NIV_VALUESTRING "CL_DEVICE_PARTITION_PROPERTIES") CreateDevicePartitionProperty CLI_PropertyType_String None;
  fetcher (NIV_VALUESTRING "CL_DEVICE_PARTITION_TYPE") CreateDevicePartitionProperty CLI_PropertyType_String None;
  fetcher (NIV_VALUESTRING "CL_DEVICE_PRINTF_BUFFER_SIZE") CreateSizeT CLI_PropertyType_Int64 None;
  fetcher (NIV_VALUESTRING "CL_DEVICE_QUEUE_PROPERTIES") CreateCommandQueueProperties CLI_PropertyType_String None
].

Definition infos_CL_2_0 : list (PropertyFetcher cl_device_info) := [
  fetcher (NIV_VALUESTRING "CL_DEVICE_GLOBAL_VARIABLE_PREFERRED_TOTAL_SIZE") CreateSizeT CLI_PropertyType_Int64 None;
  fetcher (NIV_VALUESTRING "CL_DEVICE_MAX_GLOBAL_VARIABLE_SIZE") CreateSizeT CLI_PropertyType_Int64 None;
  fetcher (NIV_VALUESTRING "CL_DEVICE_MAX_ON_DEVICE_EVENTS") CreateUInt CLI_PropertyType_Int64 None;
  fetcher (NIV_VALUESTRING "CL_DEVICE_MAX_ON_DEVICE_QUEUES") CreateUInt CLI_PropertyType_Int64 None;
  fetcher (NIV_VALUESTRING "CL_DEVICE_MAX_PIPE_ARGS") CreateUInt CLI_PropertyType_Int64 None;
  fetcher (NIV_VALUESTRING "CL_DEVICE_MAX_READ_WRITE_IMAGE_ARGS") CreateUInt CLI_PropertyType_Int64 None;
  fetcher (NIV_VALUESTRING "CL_DEVICE_PIPE_MAX_ACTIVE_RESERVATIONS") CreateUInt CLI_PropertyType_Int64 None;
  fetcher (NIV_VALUESTRING "CL_DEVICE_PIPE_MAX_PACKET_SIZE") CreateUInt CLI_PropertyType_Int64 None;
  fetcher (NIV_VALUESTRING "CL_DEVICE_PREFERRED_GLOBAL_ATOMIC_ALIGNMENT") CreateUInt CLI_PropertyType_Int64 None;
  fetcher (NIV_VALUESTRING "CL_DEVICE_PREFERRED_INTEROP_USER_SYNC") CreateBool CLI_PropertyType_Bool None;
  fetcher (NIV_VALUESTRING "CL_DEVICE_PREFERRED_LOCAL_ATOMIC_ALIGNMENT") CreateUInt CLI_PropertyType_Int64 None;
  fetcher (NIV_VALUESTRING "CL_DEVICE_PREFERRED_PLATFORM_ATOMIC_ALIGNMENT") CreateUInt CLI_PropertyType_Int64 None;
  fetcher (NIV_VALUESTRING "CL_DEVICE_QUEUE_ON_DEVICE_MAX_SIZE") CreateUInt CLI_PropertyType_Int64 None;
  fetcher (NIV_VALUESTRING "CL_DEVICE_QUEUE_ON_DEVICE_PREFERRED_SIZE") CreateUInt CLI_PropertyType_Int64 None;
  fetcher (NIV_VALUESTRING "CL_DEVICE_QUEUE_ON_DEVICE_PROPERTIES") CreateCommandQueueProperties CLI_PropertyType_String None;
  fetcher (NIV_VALUESTRING "CL_DEVICE_QUEUE_ON_HOST_PROPERTIES") CreateCommandQueueProperties CLI_PropertyType_String None;
  fetcher (NIV_VALUESTRING "CL_DEVICE_SVM_CAPABILITIES") CreateDeviceSVMCapabilities CLI_PropertyType_String None
].

(** The platform table, [infos] in [GatherOpenCLInfo]. *)
Definition infos : list (PropertyFetcher cl_platform_info) := [
  fetcher (NIV_VALUESTRING "CL_PLATFORM_PROFILE") CreateChar CLI_PropertyType_String None;
  fetcher (NIV_VALUESTRING "CL_PLATFORM_VERSION") CreateChar CLI_PropertyType_String None;
  fetcher (NIV_VALUESTRING "CL_PLATFORM_NAME") CreateChar CLI_PropertyType_String None;
  fetcher (NIV_VALUESTRING "CL_PLATFORM_VENDOR") CreateChar CLI_PropertyType_String None;
  fetcher (NIV_VALUESTRING "CL_PLATFORM_EXTENSIONS") CreateCharList CLI_PropertyType_String None
].

(** ** [GetValue] and [GetProperties] *)

(** [GetValue]: the size query, the size test, the data query into a
    zero-filled [std::vector<unsigned char> buffer (size)], the decoder. *)
Definition GetValue {O I} (getInfoFunction : GetInfoFunction O I) (clObject : O)
    (info : I) (createFunction : CreateFunc) : M ptr :=
  let '(r, size, _) := getInfoFunction clObject info 0 in
  NIV_SAFE_CL "getInfoFunction (clObject, info, 0, nullptr, &size)" r None
    (if (size =? 0)%nat then ret None
     else
       let '(r, _, written) := getInfoFunction clObject info size in
       let buffer := filled NUL size written in
       NIV_SAFE_CL "getInfoFunction (clObject, info, size, buffer.data (), nullptr)" r None
         (createFunction buffer size)).

(** The loop that skips to the end of the property list: while
    [lastProperty] and [lastProperty->next] are not null, step to
    [lastProperty->next].  One unit of fuel per step. *)
Fixpoint skip_to_last (fuel : nat) (lastProperty : ptr) : M ptr :=
  match lastProperty with
  | None => ret None
  | Some a =>
      c <- load_property a ;;
      match p_next c with
      | None => ret (Some a)
      | Some b =>
          match fuel with
          | O => undefined
          | S fuel' => skip_to_last fuel' (Some b)
          end
      end
  end.

(** The range-for of [GetProperties] over the entries not yet visited;
    [entry] is the loop variable, [info] in the source. *)
Fixpoint GetProperties_loop {O I} (cliNode : nat) (f : GetInfoFunction O I)
    (clObject : O) (container : list (PropertyFetcher I)) (lastProperty : ptr)
    : M unit :=
  match container with
  | [] => ret tt
  | entry :: container' =>
      property <- Allocate_cliProperty ;;
      store_property property (set_p_type (type entry)) ;;;
      store_property property (set_p_name (n entry)) ;;;
      store_property property (set_p_hint (h entry)) ;;;
      v <- GetValue f clObject (info entry) (cf entry) ;;
      store_property property (set_p_value v) ;;;
      lastProperty <- match lastProperty with
                      | Some l =>
                          store_property l (set_p_next (Some property)) ;;;
                          c <- load_property l ;;
                          ret (p_next c)
                      | None =>
                          store_node cliNode (set_n_firstProperty (Some property)) ;;;
                          ret (Some property)
                      end ;;
      GetProperties_loop cliNode f clObject container' lastProperty
  end.

(** [GetProperties].  A walk along a list that ends visits every cell
    once, so the number of property cells bounds its steps. *)
Definition GetProperties {O I} (cliNode : nat) (f : GetInfoFunction O I)
    (clObject : O) (container : list (PropertyFetcher I)) : M unit :=
  c <- load_node cliNode ;;
  p <- get_pool ;;
  lastProperty <- skip_to_last (length (properties p)) (n_firstProperty c) ;;
  GetProperties_loop cliNode f clObject container lastProperty.

Section WithDriver.
Context (drv : Driver).

(** ** [GatherContextInfo] *)

Record ImageType := mkImageType {
  it_type : Z;
  it_n : string
}.

Definition types_CL_1_0 : list ImageType :=
  [ mkImageType CL_MEM_OBJECT_IMAGE1D "Image1D";
    mkImageType CL_MEM_OBJECT_IMAGE2D "Image2D";
    mkImageType CL_MEM_OBJECT_IMAGE3D "Image3D" ].

Definition types_CL_1_2 : list ImageType :=
  [ mkImageType CL_MEM_OBJECT_IMAGE1D_BUFFER "Image1DBuffer";
    mkImageType CL_MEM_OBJECT_IMAGE1D_ARRAY "Image1DArray";
    mkImageType CL_MEM_OBJECT_IMAGE2D_ARRAY "Image2DArray" ].

(** The inner range-for over [formats]. *)
Fixpoint GatherContextInfo_formats (imageFormatNode : nat)
    (formats : list cl_image_format) (lastFormat : ptr) : M unit :=
  match formats with
  | [] => ret tt
  | format :: formats' =>
      formatcliNode <- Allocate_cliNode ;;
      store_node formatcliNode (set_n_name (Some "Format")) ;;;
      channelOrderProperty <- Allocate_cliProperty ;;
      store_property channelOrderProperty (set_p_name (Some "ChannelOrder")) ;;;
      store_property channelOrderProperty (set_p_type CLI_PropertyType_String) ;;;
      v <- CreateValue_s (ChannelOrderToString (image_channel_order format)) ;;
      store_property channelOrderProperty (set_p_value (Some v)) ;;;
      channelDataTypeProperty <- Allocate_cliProperty ;;
      store_property channelDataTypeProperty (set_p_name (Some "ChannelDataType")) ;;;
      store_property channelDataTypeProperty (set_p_type CLI_PropertyType_String) ;;;
      v <- CreateValue_s (ChannelDataTypeToString (image_channel_data_type format)) ;;
      store_property channelDataTypeProperty (set_p_value (Some v)) ;;;
      store_property channelOrderProperty (set_p_next (Some channelDataTypeProperty)) ;;;
      store_node formatcliNode (set_n_firstProperty (Some channelOrderProperty)) ;;;
      lastFormat <- match lastFormat with
                    | Some l =>
                        store_node l (set_n_next (Some formatcliNode)) ;;;
                        c <- load_node l ;;
                        ret (n_next c)
                    | None =>
                        store_node imageFormatNode (set_n_firstChild (Some formatcliNode)) ;;;
                        ret (Some formatcliNode)
                    end ;;
      GatherContextInfo_formats imageFormatNode formats' lastFormat
  end.

(** The outer range-for over [types]; [false] when [NIV_SAFE_CL]
    returned [nullptr] from [GatherContextInfo]. *)
Fixpoint GatherContextInfo_types (ctx : cl_context) (imageFormatsNode : nat)
    (types : list ImageType) (lastImageFormatNode : ptr) : M bool :=
  match types with
  | [] => ret true
  | t :: types' =>
      imageFormatNode <- Allocate_cliNode ;;
      store_node imageFormatNode (set_n_kind (Some (it_n t))) ;;;
      store_node imageFormatNode (set_n_name (Some "ObjectType")) ;;;
      let '(r, numImageFormats, _) := clGetSupportedImageFormats drv ctx (it_type t) 0 in
      NIV_SAFE_CL
        "clGetSupportedImageFormats (ctx, CL_MEM_READ_WRITE, t.type, 0, nullptr, &numImageFormats)"
        r false
        (if (numImageFormats =? 0)%nat then
           GatherContextInfo_types ctx imageFormatsNode types' lastImageFormatNode
         else
           let '(r, _, written) :=
             clGetSupportedImageFormats drv ctx (it_type t) numImageFormats in
           let formats := filled (mk_cl_image_format 0 0) numImageFormats written in
           NIV_SAFE_CL
             "clGetSupportedImageFormats (ctx, CL_MEM_READ_WRITE, t.type, numImageFormats, formats.data (), 0)"
             r false
             (GatherContextInfo_formats imageFormatNode formats None ;;;
              lastImageFormatNode <-
                match lastImageFormatNode with
                | Some l =>
                    store_node l (set_n_next (Some imageFormatNode)) ;;;
                    c <- load_node l ;;
                    ret (n_next c)
                | None =>
                    store_node imageFormatsNode (set_n_firstChild (Some imageFormatNode)) ;;;
                    ret (Some imageFormatNode)
                end ;;
              GatherContextInfo_types ctx imageFormatsNode types' lastImageFormatNode))
  end.

Definition GatherContextInfo (ctx : cl_context) (clVersion : Version) : M ptr :=
  let types := types_CL_1_0 in
  let types :=
    if Version_ge clVersion (mkVersion 1 2) then types ++ types_CL_1_2 else types in
  imageFormatsNode <- Allocate_cliNode ;;
  store_node imageFormatsNode (set_n_name (Some "ImageFormats")) ;;;
  completed <- GatherContextInfo_types ctx imageFormatsNode types None ;;
  if completed then ret (Some imageFormatsNode) else ret None.

(** ** [GatherDeviceInfo] *)

(** The local [propertiesToFetch] of [GatherDeviceInfo] when
    [GetProperties] is called: the shared table, the insertions of the
    [if]/[else if] chain on the parsed version, sorted by name. *)
Definition propertiesToFetch (version : Version) : list (PropertyFetcher cl_device_info) :=
  let propertiesToFetch := infos_CL_shared in
  let propertiesToFetch :=
    if Version_eq version (mkVersion 1 0) then propertiesToFetch ++ infos_CL_1_0
    else if Version_eq version (mkVersion 1 1) then propertiesToFetch ++ infos_CL_1_1
    else if Version_eq version (mkVersion 1 2) then propertiesToFetch ++ infos_CL_1_2
    else if Version_ge version (mkVersion 2 0) then
      (propertiesToFetch ++ infos_CL_1_2) ++ infos_CL_2_0
    else propertiesToFetch in
  std_sort (fun a b => strcmp_lt (n a) (n b)) propertiesToFetch.

Definition GatherDeviceInfo (id : cl_device_id) : M ptr :=
  deviceNode <- Allocate_cliNode ;;
  store_node deviceNode (set_n_name (Some "Device")) ;;;
  let '(r, versionSize, _) := clGetDeviceInfo drv id "CL_DEVICE_VERSION" 0 in
  NIV_SAFE_CL "clGetDeviceInfo (id, CL_DEVICE_VERSION, 0, nullptr, &versionSize)" r None
    (let '(r, _, written) := clGetDeviceInfo drv id "CL_DEVICE_VERSION" versionSize in
     let versionString := filled NUL versionSize written in
     NIV_SAFE_CL
       "clGetDeviceInfo(id, CL_DEVICE_VERSION, versionSize, const_cast<char*> (versionString.data ()), nullptr)"
       r None
       (match c_str (versionString ++ [NUL]) with
        | None => undefined
        | Some text =>
            match ParseVersion text with
            | None => undefined
            | Some version =>
                GetProperties deviceNode (clGetDeviceInfo drv) id
                  (propertiesToFetch version) ;;;
                let '(result, ctx) := clCreateContext drv id in
                (if (result =? CL_SUCCESS)%Z then
                   child <- GatherContextInfo ctx version ;;
                   store_node deviceNode (set_n_firstChild child)
                 else ret tt) ;;;
                ret (Some deviceNode)
            end
        end)).

(** ** [GatherOpenCLInfo] *)

(** The range-for over [deviceIds]. *)
Fixpoint GatherOpenCLInfo_devices (devicesNode : nat) (deviceIds : list cl_device_id)
    (last : ptr) : M unit :=
  match deviceIds with
  | [] => ret tt
  | deviceId :: deviceIds' =>
      deviceNode <- GatherDeviceInfo deviceId ;;
      last <- match last with
              | Some l =>
                  store_node l (set_n_next deviceNode) ;;;
                  c <- load_node l ;;
                  ret (n_next c)
              | None =>
                  store_node devicesNode (set_n_firstChild deviceNode) ;;;
                  ret deviceNode
              end ;;
      GatherOpenCLInfo_devices devicesNode deviceIds' last
  end.

(** The range-for over [platformIds]; [false] when [NIV_SAFE_CL]
    returned [nullptr] from [GatherOpenCLInfo]. *)
Fixpoint GatherOpenCLInfo_platforms (rootNode : nat) (platformIds : list cl_platform_id)
    (lastPlatformNode : ptr) : M bool :=
  match platformIds with
  | [] => ret true
  | platformId :: platformIds' =>
      platformNode <- Allocate_cliNode ;;
      c <- load_node rootNode ;;
      lastPlatformNode <-
        match n_firstChild c with
        | Some _ =>
            match lastPlatformNode with
            | Some l =>
                store_node l (set_n_next (Some platformNode)) ;;;
                c <- load_node l ;;
                ret (n_next c)
            | None => undefined
            end
        | None =>
            store_node rootNode (set_n_firstChild (Some platformNode)) ;;;
            ret (Some platformNode)
        end ;;
      store_node platformNode (set_n_name (Some "Platform")) ;;;
      GetProperties platformNode (clGetPlatformInfo drv) platformId infos ;;;
      let '(r, numDevices, _) := clGetDeviceIDs drv platformId 0 in
      NIV_SAFE_CL
        "clGetDeviceIDs (platformId, CL_DEVICE_TYPE_ALL, 0, nullptr, &numDevices)" r false
        (let '(r, _, written) := clGetDeviceIDs drv platformId numDevices in
         let deviceIds := filled 0%Z numDevices written in
         NIV_SAFE_CL
           "clGetDeviceIDs (platformId, CL_DEVICE_TYPE_ALL, numDevices, deviceIds.data (), 0)"
           r false
           (devicesNode <- Allocate_cliNode ;;
            store_node devicesNode (set_n_name (Some "Devices")) ;;;
            store_node platformNode (set_n_firstChild (Some devicesNode)) ;;;
            GatherOpenCLInfo_devices devicesNode deviceIds None ;;;
            GatherOpenCLInfo_platforms rootNode platformIds' lastPlatformNode))
  end.

Definition GatherOpenCLInfo : M ptr :=
  rootNode <- Allocate_cliNode ;;
  store_node rootNode (set_n_name (Some "Platforms")) ;;;
  let '(r, numPlatforms, _) := clGetPlatformIDs drv 0 in
  NIV_SAFE_CL "clGetPlatformIDs (0, NULL, &numPlatforms)" r None
    (if (numPlatforms <=? 0)%nat then
       cerr (Message "Failed to find any OpenCL platform.") ;;;
       ret None
     else
       let '(r, _, written) := clGetPlatformIDs drv numPlatforms in
       let platformIds := filled 0%Z numPlatforms written in
       NIV_SAFE_CL "clGetPlatformIDs (numPlatforms, platformIds.data (), nullptr)" r None
         (completed <- GatherOpenCLInfo_platforms rootNode platformIds None ;;
          if completed then ret (Some rootNode) else ret None)).

(** ** The document API (lib/clInfo.h, lib/clInfo.cpp) *)

(** [struct cliInfo] *)
Record cliInfo := mk_cliInfo {
  pool : Pool;
  root : ptr
}.

(** [cliInfo_Gather].  [info] is the object the argument points to; the
    result is the status, the object afterwards and the lines written
    to [std::cerr], or nothing when [GatherOpenCLInfo] leaves defined
    behaviour. *)
Definition cliInfo_Gather (info : cliInfo) : option (cliStatus * cliInfo * list Diag) :=
  match root info with
  | Some _ => Some (CLI_Error, info, [])
  | None =>
      match GatherOpenCLInfo (pool info) with
      | (Ok r, p, d) => Some (CLI_Success, mk_cliInfo p r, d)
      | (BadAlloc, p, d) => Some (CLI_Error, mk_cliInfo p (root info), d)
      | (Stuck, _, _) => None
      end
  end.

End WithDriver.
End WithHeader.

(** An output parameter ([cliInfo** info], [cliNode** root]) is [None]
    for a null pointer and [Some x] for the address of a variable that
    holds [x]; a function returns its status and the parameter with
    what the variable holds afterwards. *)

(** [cliInfo_Create]; [new cliInfo] has an empty pool and a null root. *)
Definition cliInfo_Create (info : option (option cliInfo))
    : cliStatus * option (option cliInfo) :=
  match info with
  | None => (CLI_Error, None)
  | Some _ => (CLI_Success, Some (Some (mk_cliInfo empty_pool None)))
  end.

(** [cliInfo_GetRoot] *)
Definition cliInfo_GetRoot (info : option cliInfo) (root_out : option ptr)
    : cliStatus * option ptr :=
  match info with
  | None => (CLI_Error, root_out)
  | Some i =>
      match root i with
      | None => (CLI_Error, root_out)
      | Some r =>
          match root_out with
          | None => (CLI_Error, root_out)
          | Some _ => (CLI_Success, Some (Some r))
          end
      end
  end.

(** [cliInfo_Destroy] *)
Definition cliInfo_Destroy (info : option cliInfo) : cliStatus := CLI_Success.

(** ** The older stand-alone tool (clDiag.cpp)

    clDiag.cpp carries its own copy of the decoders and of
    [GatherDeviceInfo].  The copies of the decoders agree with the
    library except for [CreateCharList], which does not skip the spaces
    that follow a delimiter, and its attribute tables are complete per
    version instead of differences against a shared table.  Its
    [Property] has no hint and its [Property::PT_INT64], [PT_BOOL] and
    [PT_STRING] are the enumerators of [cliPropertyType] in the same
    order; [CreateDeviceExecutionCapabilities] is the library's
    [CreateDeviceExecCapabilities]. *)
Module ClDiag.

Fixpoint CreateCharList_loop (fuel : nat) (buffer : list ascii) (p : nat)
    (result last : ptr) : M ptr :=
  c <- deref buffer p ;;
  if Ascii.eqb c NUL then ret result
  else
    match fuel with
    | O => undefined
    | S fuel' =>
        let s := p in
        match skip_token (drop p buffer) with
        | None => undefined
        | Some k =>
            let p := p + k in
            c <- deref buffer p ;;
            let '(buffer, p) :=
              if Ascii.eqb c SPACE then (<[p := NUL]> buffer, S p) else (buffer, p) in
            match c_str (drop s buffer) with
            | None => undefined
            | Some tok =>
                v <- CreateValue_s tok ;;
                rl <- append_value result last v ;;
                CreateCharList_loop fuel' buffer p (fst rl) (snd rl)
            end
        end
    end.

Definition CreateCharList : CreateFunc := fun buffer _ =>
  CreateCharList_loop (length buffer) buffer 0 None None.

Section WithHeader.
Context {hdr : cl_h}.

Definition infos_CL_1_0 : list (PropertyFetcher cl_device_info) := [
  fetcher (NIV_VALUESTRING "CL_DEVICE_ADDRESS_BITS") CreateUInt CLI_PropertyType_Int64 None;
  fetcher (NIV_VALUESTRING "CL_DEVICE_AVAILABLE") CreateBool CLI_PropertyType_Bool None;
  fetcher (NIV_VALUESTRING "CL_DEVICE_COMPILER_AVAILABLE") CreateBool CLI_PropertyType_Bool None;
  fetcher (NIV_VALUESTRING "CL_DEVICE_DOUBLE_FP_CONFIG") CreateDeviceFPConfig CLI_PropertyType_String None;
  fetcher (NIV_VALUESTRING "CL_DEVICE_ENDIAN_LITTLE") CreateBool CLI_PropertyType_Bool None;
  fetcher (NIV_VALUESTRING "CL_DEVICE_ERROR_CORRECTION_SUPPORT") CreateBool CLI_PropertyType_Bool None;
  fetcher (NIV_VALUESTRING "CL_DEVICE_EXECUTION_CAPABILITIES") CreateDeviceExecCapabilities CLI_PropertyType_String None;
  fetcher (NIV_VALUESTRING "CL_DEVICE_EXTENSIONS") CreateCharList CLI_PropertyType_String None;
  fetcher (NIV_VALUESTRING "CL_DEVICE_GLOBAL_MEM_CACHE_SIZE") CreateULong CLI_PropertyType_Int64 None;
  fetcher (NIV_VALUESTRING "CL_DEVICE_GLOBAL_MEM_CACHE_TYPE") CreateDeviceMemCacheType CLI_PropertyType_String None;
  fetcher (NIV_VALUESTRING "CL_DEVICE_GLOBAL_MEM_CACHELINE_SIZE") CreateUInt CLI_PropertyType_Int64 None;
  fetcher (NIV_VALUESTRING "CL_DEVICE_GLOBAL_MEM_SIZE") CreateULong CLI_PropertyType_Int64 None;
  fetcher (NIV_VALUESTRING "CL_DEVICE_IMAGE2D_MAX_HEIGHT") CreateSizeT CLI_PropertyType_Int64 None;
  fetcher (NIV_VALUESTRING "CL_DEVICE_IMAGE2D_MAX_WIDTH") CreateSizeT CLI_PropertyType_Int64 None;
  fetcher (NIV_VALUESTRING "CL_DEVICE_IMAGE3D_MAX_DEPTH") CreateSizeT CLI_PropertyType_Int64 None;
  fetcher (NIV_VALUESTRING "CL_DEVICE_IMAGE3D_MAX_HEIGHT") CreateSizeT CLI_PropertyType_Int64 None;
  fetcher (NIV_VALUESTRING "CL_DEVICE_IMAGE3D_MAX_WIDTH") CreateSizeT CLI_PropertyType_Int64 None;
  fetcher (NIV_VALUESTRING "CL_DEVICE_IMAGE_SUPPORT") CreateBool CLI_PropertyType_Bool None;
  fetcher (NIV_VALUESTRING "CL_DEVICE_LOCAL_MEM_SIZE") CreateULong CLI_PropertyType_Int64 None;
  fetcher (NIV_VALUESTRING "CL_DEVICE_LOCAL_MEM_TYPE") CreateDeviceLocalMemType CLI_PropertyType_String None;
  fetcher (NIV_VALUESTRING "CL_DEVICE_MAX_CLOCK_FREQUENCY") CreateUInt CLI_PropertyType_Int64 None;
  fetcher (NIV_VALUESTRING "CL_DEVICE_MAX_COMPUTE_UNITS") CreateUInt CLI_PropertyType_Int64 None;
  fetcher (NIV_VALUESTRING "CL_DEVICE_MAX_CONSTANT_ARGS") CreateUInt CLI_PropertyType_Int64 None;
  fetcher (NIV_VALUESTRING "CL_DEVICE_MAX_CONSTANT_BUFFER_SIZE") CreateULong CLI_PropertyType_Int64 None;
  fetcher (NIV_VALUESTRING "CL_DEVICE_MAX_MEM_ALLOC_SIZE") CreateULong CLI_PropertyType_Int64 None;
  fetcher (NIV_VALUESTRING "CL_DEVICE_MAX_PARAMETER_SIZE") CreateSizeT CLI_PropertyType_Int64 None;
  fetcher (NIV_VALUESTRING "CL_DEVICE_MAX_READ_IMAGE_ARGS") CreateUInt CLI_PropertyType_Int64 None;
  fetcher (NIV_VALUESTRING "CL_DEVICE_MAX_SAMPLERS") CreateUInt CLI_PropertyType_Int64 None;
  fetcher (NIV_VALUESTRING "CL_DEVICE_MAX_WORK_GROUP_SIZE") CreateSizeT CLI_PropertyType_Int64 None;
  fetcher (NIV_VALUESTRING "CL_DEVICE_MAX_WORK_ITEM_DIMENSIONS") CreateUInt CLI_PropertyType_Int64 None;
  fetcher (NIV_VALUESTRING "CL_DEVICE_MAX_WORK_ITEM_SIZES") CreateSizeTList CLI_PropertyType_Int64 None;
  fetcher (NIV_VALUESTRING "CL_DEVICE_MAX_WRITE_IMAGE_ARGS") CreateUInt CLI_PropertyType_Int64 None;
  fetcher (NIV_VALUESTRING "CL_DEVICE_MEM_BASE_ADDR_ALIGN") CreateUInt CLI_PropertyType_Int64 None;
  fetcher (NIV_VALUESTRING "CL_DEVICE_MIN_DATA_TYPE_ALIGN_SIZE") CreateUInt CLI_PropertyType_Int64 None;
  fetcher (NIV_VALUESTRING "CL_DEVICE_NAME") CreateChar CLI_PropertyType_String None;
  fetcher (NIV_VALUESTRING "CL_DEVICE_OPENCL_C_VERSION") CreateChar CLI_PropertyType_String None;
  fetcher (NIV_VALUESTRING "CL_DEVICE_PREFERRED_VECTOR_WIDTH_CHAR") CreateUInt CLI_PropertyType_Int64 None;
  fetcher (NIV_VALUESTRING "CL_DEVICE_PREFERRED_VECTOR_WIDTH_SHORT") CreateUInt CLI_PropertyType_Int64 None;
  fetcher (NIV_VALUESTRING "CL_DEVICE_PREFERRED_VECTOR_WIDTH_INT") CreateUInt CLI_PropertyType_Int64 None;
  fetcher (NIV_VALUESTRING "CL_DEVICE_PREFERRED_VECTOR_WIDTH_LONG") CreateUInt CLI_PropertyType_Int64 None;
  fetcher (NIV_VALUESTRING "CL_DEVICE_PREFERRED_VECTOR_WIDTH_FLOAT") CreateUInt CLI_PropertyType_Int64 None;
  fetcher (NIV_VALUESTRING "CL_DEVICE_PREFERRED_VECTOR_WIDTH_DOUBLE") CreateUInt CLI_PropertyType_Int64 None;
  fetcher (NIV_VALUESTRING "CL_DEVICE_PREFERRED_VECTOR_WIDTH_HALF") CreateUInt CLI_PropertyType_Int64 None;
  fetcher (NIV_VALUESTRING "CL_DEVICE_PROFILE") CreateChar CLI_PropertyType_String None;
  fetcher (NIV_VALUESTRING "CL_DEVICE_PROFILING_TIMER_RESOLUTION") CreateSizeT CLI_PropertyType_Int64 None;
  fetcher (NIV_VALUESTRING "CL_DEVICE_SINGLE_FP_CONFIG") CreateDeviceFPConfig CLI_PropertyType_String None;
  fetcher (NIV_VALUESTRING "CL_DEVICE_TYPE") CreateDeviceType CLI_PropertyType_String None;
  fetcher (NIV_VALUESTRING "CL_DEVICE_VENDOR") CreateChar CLI_PropertyType_String None;
  fetcher (NIV_VALUESTRING "CL_DEVICE_VENDOR_ID") CreateUInt CLI_PropertyType_Int64 None;
  fetcher (NIV_VALUESTRING "CL_DEVICE_VERSION") CreateChar CLI_PropertyType_String None;
  fetcher (NIV_VALUESTRING "CL_DRIVER_VERSION") CreateChar CLI_PropertyType_String None
].

Definition infos_CL_1_1 : list (PropertyFetcher cl_device_info) := [
  fetcher (NIV_VALUESTRING "CL_DEVICE_ADDRESS_BITS") CreateUInt CLI_PropertyType_Int64 None;
  fetcher (NIV_VALUESTRING "CL_DEVICE_AVAILABLE") CreateBool CLI_PropertyType_Bool None;
  fetcher (NIV_VALUESTRING "CL_DEVICE_COMPILER_AVAILABLE") CreateBool CLI_PropertyType_Bool None;
  fetcher (NIV_VALUESTRING "CL_DEVICE_DOUBLE_FP_CONFIG") CreateDeviceFPConfig CLI_PropertyType_String None;
  fetcher (NIV_VALUESTRING "CL_DEVICE_ENDIAN_LITTLE") CreateBool CLI_PropertyType_Bool None;
  fetcher (NIV_VALUESTRING "CL_DEVICE_ERROR_CORRECTION_SUPPORT") CreateBool CLI_PropertyType_Bool None;
  fetcher (NIV_VALUESTRING "CL_DEVICE_EXECUTION_CAPABILITIES") CreateDeviceExecCapabilities CLI_PropertyType_String None;
  fetcher (NIV_VALUESTRING "CL_DEVICE_EXTENSIONS") CreateCharList CLI_PropertyType_String None;
  fetcher (NIV_VALUESTRING "CL_DEVICE_GLOBAL_MEM_CACHE_SIZE") CreateULong CLI_PropertyType_Int64 None;
  fetcher (NIV_VALUESTRING "CL_DEVICE_GLOBAL_MEM_CACHE_TYPE") CreateDeviceMemCacheType CLI_PropertyType_String None;
  fetcher (NIV_VALUESTRING "CL_DEVICE_GLOBAL_MEM_CACHELINE_SIZE") CreateUInt CLI_PropertyType_Int64 None;
  fetcher (NIV_VALUESTRING "CL_DEVICE_GLOBAL_MEM_SIZE") CreateULong CLI_PropertyType_Int64 None;
  fetcher (NIV_VALUESTRING "CL_DEVICE_HOST_UNIFIED_MEMORY") CreateBool CLI_PropertyType_Bool None;
  fetcher (NIV_VALUESTRING "CL_DEVICE_IMAGE2D_MAX_HEIGHT") CreateSizeT CLI_PropertyType_Int64 None;
  fetcher (NIV_VALUESTRING "CL_DEVICE_IMAGE2D_MAX_WIDTH") CreateSizeT CLI_PropertyType_Int64 None;
  fetcher (NIV_VALUESTRING "CL_DEVICE_IMAGE3D_MAX_DEPTH") CreateSizeT CLI_PropertyType_Int64 None;
  fetcher (NIV_VALUESTRING "CL_DEVICE_IMAGE3D_MAX_HEIGHT") CreateSizeT CLI_PropertyType_Int64 None;
  fetcher (NIV_VALUESTRING "CL_DEVICE_IMAGE3D_MAX_WIDTH") CreateSizeT CLI_PropertyType_Int64 None;
  fetcher (NIV_VALUESTRING "CL_DEVICE_IMAGE_SUPPORT") CreateBool CLI_PropertyType_Bool None;
  fetcher (NIV_VALUESTRING "CL_DEVICE_LOCAL_MEM_SIZE") CreateULong CLI_PropertyType_Int64 None;
  fetcher (NIV_VALUESTRING "CL_DEVICE_LOCAL_MEM_TYPE") CreateDeviceLocalMemType CLI_PropertyType_String None;
  fetcher (NIV_VALUESTRING "CL_DEVICE_MAX_CLOCK_FREQUENCY") CreateUInt CLI_PropertyType_Int64 None;
  fetcher (NIV_VALUESTRING "CL_DEVICE_MAX_COMPUTE_UNITS") CreateUInt CLI_PropertyType_Int64 None;
  fetcher (NIV_VALUESTRING "CL_DEVICE_MAX_CONSTANT_ARGS") CreateUInt CLI_PropertyType_Int64 None;
  fetcher (NIV_VALUESTRING "CL_DEVICE_MAX_CONSTANT_BUFFER_SIZE") CreateULong CLI_PropertyType_Int64 None;
  fetcher (NIV_VALUESTRING "CL_DEVICE_MAX_MEM_ALLOC_SIZE") CreateULong CLI_PropertyType_Int64 None;
  fetcher (NIV_VALUESTRING "CL_DEVICE_MAX_PARAMETER_SIZE") CreateSizeT CLI_PropertyType_Int64 None;
  fetcher (NIV_VALUESTRING "CL_DEVICE_MAX_READ_IMAGE_ARGS") CreateUInt CLI_PropertyType_Int64 None;
  fetcher (NIV_VALUESTRING "CL_DEVICE_MAX_SAMPLERS") CreateUInt CLI_PropertyType_Int64 None;
  fetcher (NIV_VALUESTRING "CL_DEVICE_MAX_WORK_GROUP_SIZE") CreateSizeT CLI_PropertyType_Int64 None;
  fetcher (NIV_VALUESTRING "CL_DEVICE_MAX_WORK_ITEM_DIMENSIONS") CreateUInt CLI_PropertyType_Int64 None;
  fetcher (NIV_VALUESTRING "CL_DEVICE_MAX_WORK_ITEM_SIZES") CreateSizeTList CLI_PropertyType_Int64 None;
  fetcher (NIV_VALUESTRING "CL_DEVICE_MAX_WRITE_IMAGE_ARGS") CreateUInt CLI_PropertyType_Int64 None;
  fetcher (NIV_VALUESTRING "CL_DEVICE_MEM_BASE_ADDR_ALIGN") CreateUInt CLI_PropertyType_Int64 None;
  fetcher (NIV_VALUESTRING "CL_DEVICE_MIN_DATA_TYPE_ALIGN_SIZE") CreateUInt CLI_PropertyType_Int64 None;
  fetcher (NIV_VALUESTRING "CL_DEVICE_NAME") CreateChar CLI_PropertyType_String None;
  fetcher (NIV_VALUESTRING "CL_DEVICE_NATIVE_VECTOR_WIDTH_CHAR") CreateUInt CLI_PropertyType_Int64 None;
  fetcher (NIV_VALUESTRING "CL_DEVICE_NATIVE_VECTOR_WIDTH_SHORT") CreateUInt CLI_PropertyType_Int64 None;
  fetcher (NIV_VALUESTRING "CL_DEVICE_NATIVE_VECTOR_WIDTH_INT") CreateUInt CLI_PropertyType_Int64 None;
  fetcher (NIV_VALUESTRING "CL_DEVICE_NATIVE_VECTOR_WIDTH_LONG") CreateUInt CLI_PropertyType_Int64 None;
  fetcher (NIV_VALUESTRING "CL_DEVICE_NATIVE_VECTOR_WIDTH_FLOAT") CreateUInt CLI_PropertyType_Int64 None;
  fetcher (NIV_VALUESTRING "CL_DEVICE_NATIVE_VECTOR_WIDTH_DOUBLE") CreateUInt CLI_PropertyType_Int64 None;
  fetcher (NIV_VALUESTRING "CL_DEVICE_NATIVE_VECTOR_WIDTH_HALF") CreateUInt CLI_PropertyType_Int64 None;
  fetcher (NIV_VALUESTRING "CL_DEVICE_OPENCL_C_VERSION") CreateChar CLI_PropertyType_String None;
  fetcher (NIV_VALUESTRING "CL_DEVICE_PREFERRED_VECTOR_WIDTH_CHAR") CreateUInt CLI_PropertyType_Int64 None;
  fetcher (NIV_VALUESTRING "CL_DEVICE_PREFERRED_VECTOR_WIDTH_SHORT") CreateUInt CLI_PropertyType_Int64 None;
  fetcher (NIV_VALUESTRING "CL_DEVICE_PREFERRED_VECTOR_WIDTH_INT") CreateUInt CLI_PropertyType_Int64 None;
  fetcher (NIV_VALUESTRING "CL_DEVICE_PREFERRED_VECTOR_WIDTH_LONG") CreateUInt CLI_PropertyType_Int64 None;
  fetcher (NIV_VALUESTRING "CL_DEVICE_PREFERRED_VECTOR_WIDTH_FLOAT") CreateUInt CLI_PropertyType_Int64 None;
  fetcher (NIV_VALUESTRING "CL_DEVICE_PREFERRED_VECTOR_WIDTH_DOUBLE") CreateUInt CLI_PropertyType_Int64 None;
  fetcher (NIV_VALUESTRING "CL_DEVICE_PREFERRED_VECTOR_WIDTH_HALF") CreateUInt CLI_PropertyType_Int64 None;
  fetcher (NIV_VALUESTRING "CL_DEVICE_PROFILE") CreateChar CLI_PropertyType_String None;
  fetcher (NIV_VALUESTRING "CL_DEVICE_PROFILING_TIMER_RESOLUTION") CreateSizeT CLI_PropertyType_Int64 None;
  fetcher (NIV_VALUESTRING "CL_DEVICE_SINGLE_FP_CONFIG") CreateDeviceFPConfig CLI_PropertyType_String None;
  fetcher (NIV_VALUESTRING "CL_DEVICE_TYPE") CreateDeviceType CLI_PropertyType_String None;
  fetcher (NIV_VALUESTRING "CL_DEVICE_VENDOR") CreateChar CLI_PropertyType_String None;
  fetcher (NIV_VALUESTRING "CL_DEVICE_VENDOR_ID") CreateUInt CLI_PropertyType_Int64 None;
  fetcher (NIV_VALUESTRING "CL_DEVICE_VERSION") CreateChar CLI_PropertyType_String None;
  fetcher (NIV_VALUESTRING "CL_DRIVER_VERSION") CreateChar CLI_PropertyType_String None
].

Definition infos_CL_1_2 : list (PropertyFetcher cl_device_info) := [
  fetcher (NIV_VALUESTRING "CL_DEVICE_ADDRESS_BITS") CreateUInt CLI_PropertyType_Int64 None;
  fetcher (NIV_VALUESTRING "CL_DEVICE_AVAILABLE") CreateBool CLI_PropertyType_Bool None;
  fetcher (NIV_VALUESTRING "CL_DEVICE_BUILT_IN_KERNELS") CreateCharList CLI_PropertyType_String None;
  fetcher (NIV_VALUESTRING "CL_DEVICE_COMPILER_AVAILABLE") CreateBool CLI_PropertyType_Bool None;
  fetcher (NIV_VALUESTRING "CL_DEVICE_DOUBLE_FP_CONFIG") CreateDeviceFPConfig CLI_PropertyType_String None;
  fetcher (NIV_VALUESTRING "CL_DEVICE_ENDIAN_LITTLE") CreateBool CLI_PropertyType_Bool None;
  fetcher (NIV_VALUESTRING "CL_DEVICE_ERROR_CORRECTION_SUPPORT") CreateBool CLI_PropertyType_Bool None;
  fetcher (NIV_VALUESTRING "CL_DEVICE_EXECUTION_CAPABILITIES") CreateDeviceExecCapabilities CLI_PropertyType_String None;
  fetcher (NIV_VALUESTRING "CL_DEVICE_EXTENSIONS") CreateCharList CLI_PropertyType_String None;
  fetcher (NIV_VALUESTRING "CL_DEVICE_GLOBAL_MEM_CACHE_SIZE") CreateULong CLI_PropertyType_Int64 None;
  fetcher (NIV_VALUESTRING "CL_DEVICE_GLOBAL_MEM_CACHE_TYPE") CreateDeviceMemCacheType CLI_PropertyType_String None;
  fetcher (NIV_VALUESTRING "CL_DEVICE_GLOBAL_MEM_CACHELINE_SIZE") CreateUInt CLI_PropertyType_Int64 None;
  fetcher (NIV_VALUESTRING "CL_DEVICE_GLOBAL_MEM_SIZE") CreateULong CLI_PropertyType_Int64 None;
  fetcher (NIV_VALUESTRING "CL_DEVICE_IMAGE2D_MAX_HEIGHT") CreateSizeT CLI_PropertyType_Int64 None;
  fetcher (NIV_VALUESTRING "CL_DEVICE_IMAGE2D_MAX_WIDTH") CreateSizeT CLI_PropertyType_Int64 None;
  fetcher (NIV_VALUESTRING "CL_DEVICE_IMAGE3D_MAX_DEPTH") CreateSizeT CLI_PropertyType_Int64 None;
  fetcher (NIV_VALUESTRING "CL_DEVICE_IMAGE3D_MAX_HEIGHT") CreateSizeT CLI_PropertyType_Int64 None;
  fetcher (NIV_VALUESTRING "CL_DEVICE_IMAGE3D_MAX_WIDTH") CreateSizeT CLI_PropertyType_Int64 None;
  fetcher (NIV_VALUESTRING "CL_DEVICE_IMAGE_BASE_ADDRESS_ALIGNMENT") CreateUInt CLI_PropertyType_Int64 None;
  fetcher (NIV_VALUESTRING "CL_DEVICE_IMAGE_MAX_ARRAY_SIZE") CreateSizeT CLI_PropertyType_Int64 None;
  fetcher (NIV_VALUESTRING "CL_DEVICE_IMAGE_MAX_BUFFER_SIZE") CreateSizeT CLI_PropertyType_Int64 None;
  fetcher (NIV_VALUESTRING "CL_DEVICE_IMAGE_PITCH_ALIGNMENT") CreateUInt CLI_PropertyType_Int64 None;
  fetcher (NIV_VALUESTRING "CL_DEVICE_IMAGE_SUPPORT") CreateBool CLI_PropertyType_Bool None;
  fetcher (NIV_VALUESTRING "CL_DEVICE_LINKER_AVAILABLE") CreateBool CLI_PropertyType_Bool None;
  fetcher (NIV_VALUESTRING "CL_DEVICE_LOCAL_MEM_SIZE") CreateULong CLI_PropertyType_Int64 None;
  fetcher (NIV_VALUESTRING "CL_DEVICE_LOCAL_MEM_TYPE") CreateDeviceLocalMemType CLI_PropertyType_String None;
  fetcher (NIV_VALUESTRING "CL_DEVICE_MAX_CLOCK_FREQUENCY") CreateUInt CLI_PropertyType_Int64 None;
  fetcher (NIV_VALUESTRING "CL_DEVICE_MAX_COMPUTE_UNITS") CreateUInt CLI_PropertyType_Int64 None;
  fetcher (NIV_VALUESTRING "CL_DEVICE_MAX_CONSTANT_ARGS") CreateUInt CLI_PropertyType_Int64 None;
  fetcher (NIV_VALUESTRING "CL_DEVICE_MAX_CONSTANT_BUFFER_SIZE") CreateULong CLI_PropertyType_Int64 None;
  fetcher (NIV_VALUESTRING "CL_DEVICE_MAX_MEM_ALLOC_SIZE") CreateULong CLI_PropertyType_Int64 None;
  fetcher (NIV_VALUESTRING "CL_DEVICE_MAX_PARAMETER_SIZE") CreateSizeT CLI_PropertyType_Int64 None;
  fetcher (NIV_VALUESTRING "CL_DEVICE_MAX_READ_IMAGE_ARGS") CreateUInt CLI_PropertyType_Int64 None;
  fetcher (NIV_VALUESTRING "CL_DEVICE_MAX_SAMPLERS") CreateUInt CLI_PropertyType_Int64 None;
  fetcher (NIV_VALUESTRING "CL_DEVICE_MAX_WORK_GROUP_SIZE") CreateSizeT CLI_PropertyType_Int64 None;
  fetcher (NIV_VALUESTRING "CL_DEVICE_MAX_WORK_ITEM_DIMENSIONS") CreateUInt CLI_PropertyType_Int64 None;
  fetcher (NIV_VALUESTRING "CL_DEVICE_MAX_WORK_ITEM_SIZES") CreateSizeTList CLI_PropertyType_Int64 None;
  fetcher (NIV_VALUESTRING "CL_DEVICE_MAX_WRITE_IMAGE_ARGS") CreateUInt CLI_PropertyType_Int64 None;
  fetcher (NIV_VALUESTRING "CL_DEVICE_MEM_BASE_ADDR_ALIGN") CreateUInt CLI_PropertyType_Int64 None;
  fetcher (NIV_VALUESTRING "CL_DEVICE_NAME") CreateChar CLI_PropertyType_String None;
  fetcher (NIV_VALUESTRING "CL_DEVICE_NATIVE_VECTOR_WIDTH_CHAR") CreateUInt CLI_PropertyType_Int64 None;
  fetcher (NIV_VALUESTRING "CL_DEVICE_NATIVE_VECTOR_WIDTH_SHORT") CreateUInt CLI_PropertyType_Int64 None;
  fetcher (NIV_VALUESTRING "CL_DEVICE_NATIVE_VECTOR_WIDTH_INT") CreateUInt CLI_PropertyType_Int64 None;
  fetcher (NIV_VALUESTRING "CL_DEVICE_NATIVE_VECTOR_WIDTH_LONG") CreateUInt CLI_PropertyType_Int64 None;
  fetcher (NIV_VALUESTRING "CL_DEVICE_NATIVE_VECTOR_WIDTH_FLOAT") CreateUInt CLI_PropertyType_Int64 None;
  fetcher (NIV_VALUESTRING "CL_DEVICE_NATIVE_VECTOR_WIDTH_DOUBLE") CreateUInt CLI_PropertyType_Int64 None;
  fetcher (NIV_VALUESTRING "CL_DEVICE_NATIVE_VECTOR_WIDTH_HALF") CreateUInt CLI_PropertyType_Int64 None;
  fetcher (NIV_VALUESTRING "CL_DEVICE_OPENCL_C_VERSION") CreateChar CLI_PropertyType_String None;
  fetcher (NIV_VALUESTRING "CL_DEVICE_PARTITION_AFFINITY_DOMAIN") CreateDeviceAffinityDomain CLI_PropertyType_String None;
  fetcher (NIV_VALUESTRING "CL_DEVICE_PARTITION_MAX_SUB_DEVICES") CreateUInt CLI_PropertyType_Int64 None;
  fetcher (NIV_VALUESTRING "CL_DEVICE_PARTITION_PROPERTIES") CreateDevicePartitionProperty CLI_PropertyType_String None;
  fetcher (NIV_VALUESTRING "CL_DEVICE_PARTITION_TYPE") CreateDevicePartitionProperty CLI_PropertyType_String None;
  fetcher (NIV_VALUESTRING "CL_DEVICE_PREFERRED_VECTOR_WIDTH_CHAR") CreateUInt CLI_PropertyType_Int64 None;
  fetcher (NIV_VALUESTRING "CL_DEVICE_PREFERRED_VECTOR_WIDTH_SHORT") CreateUInt CLI_PropertyType_Int64 None;
  fetcher (NIV_VALUESTRING "CL_DEVICE_PREFERRED_VECTOR_WIDTH_INT") CreateUInt CLI_PropertyType_Int64 None;
  fetcher (NIV_VALUESTRING "CL_DEVICE_PREFERRED_VECTOR_WIDTH_LONG") CreateUInt CLI_PropertyType_Int64 None;
  fetcher (NIV_VALUESTRING "CL_DEVICE_PREFERRED_VECTOR_WIDTH_FLOAT") CreateUInt CLI_PropertyType_Int64 None;
  fetcher (NIV_VALUESTRING "CL_DEVICE_PREFERRED_VECTOR_WIDTH_DOUBLE") CreateUInt CLI_PropertyType_Int64 None;
  fetcher (NIV_VALUESTRING "CL_DEVICE_PREFERRED_VECTOR_WIDTH_HALF") CreateUInt CLI_PropertyType_Int64 None;
  fetcher (NIV_VALUESTRING "CL_DEVICE_PRINTF_BUFFER_SIZE") CreateSizeT CLI_PropertyType_Int64 None;
  fetcher (NIV_VALUESTRING "CL_DEVICE_PROFILE") CreateChar CLI_PropertyType_String None;
  fetcher (NIV_VALUESTRING "CL_DEVICE_PROFILING_TIMER_RESOLUTION") CreateSizeT CLI_PropertyType_Int64 None;
  fetcher (NIV_VALUESTRING "CL_DEVICE_QUEUE_PROPERTIES") CreateCommandQueueProperties CLI_PropertyType_String None;
  fetcher (NIV_VALUESTRING "CL_DEVICE_SINGLE_FP_CONFIG") CreateDeviceFPConfig CLI_PropertyType_String None;
  fetcher (NIV_VALUESTRING "CL_DEVICE_TYPE") CreateDeviceType CLI_PropertyType_String None;
  fetcher (NIV_VALUESTRING "CL_DEVICE_VENDOR") CreateChar CLI_PropertyType_String None;
  fetcher (NIV_VALUESTRING "CL_DEVICE_VENDOR_ID") CreateUInt CLI_PropertyType_Int64 None;
  fetcher (NIV_VALUESTRING "CL_DEVICE_VERSION") CreateChar CLI_PropertyType_String None;
  fetcher (NIV_VALUESTRING "CL_DRIVER_VERSION") CreateChar CLI_PropertyType_String None
].

Definition infos_CL_2_0 : list (PropertyFetcher cl_device_info) := [
  fetcher (NIV_VALUESTRING "CL_DEVICE_GLOBAL_VARIABLE_PREFERRED_TOTAL_SIZE") CreateSizeT CLI_PropertyType_Int64 None;
  fetcher (NIV_VALUESTRING "CL_DEVICE_MAX_GLOBAL_VARIABLE_SIZE") CreateSizeT CLI_PropertyType_Int64 None;
  fetcher (NIV_VALUESTRING "CL_DEVICE_MAX_ON_DEVICE_EVENTS") CreateUInt CLI_PropertyType_Int64 None;
  fetcher (NIV_VALUESTRING "CL_DEVICE_MAX_ON_DEVICE_QUEUES") CreateUInt CLI_PropertyType_Int64 None;
  fetcher (NIV_VALUESTRING "CL_DEVICE_MAX_PIPE_ARGS") CreateUInt CLI_PropertyType_Int64 None;
  fetcher (NIV_VALUESTRING "CL_DEVICE_MAX_READ_WRITE_IMAGE_ARGS") CreateUInt CLI_PropertyType_Int64 None;
  fetcher (NIV_VALUESTRING "CL_DEVICE_PIPE_MAX_ACTIVE_RESERVATIONS") CreateUInt CLI_PropertyType_Int64 None;
  fetcher (NIV_VALUESTRING "CL_DEVICE_PIPE_MAX_PACKET_SIZE") CreateUInt CLI_PropertyType_Int64 None;
  fetcher (NIV_VALUESTRING "CL_DEVICE_PREFERRED_GLOBAL_ATOMIC_ALIGNMENT") CreateUInt CLI_PropertyType_Int64 None;
  fetcher (NIV_VALUESTRING "CL_DEVICE_PREFERRED_INTEROP_USER_SYNC") CreateBool CLI_PropertyType_Bool None;
  fetcher (NIV_VALUESTRING "CL_DEVICE_PREFERRED_LOCAL_ATOMIC_ALIGNMENT") CreateUInt CLI_PropertyType_Int64 None;
  fetcher (NIV_VALUESTRING "CL_DEVICE_PREFERRED_PLATFORM_ATOMIC_ALIGNMENT") CreateUInt CLI_PropertyType_Int64 None;
  fetcher (NIV_VALUESTRING "CL_DEVICE_QUEUE_ON_DEVICE_MAX_SIZE") CreateUInt CLI_PropertyType_Int64 None;
  fetcher (NIV_VALUESTRING "CL_DEVICE_QUEUE_ON_DEVICE_PREFERRED_SIZE") CreateUInt CLI_PropertyType_Int64 None;
  fetcher (NIV_VALUESTRING "CL_DEVICE_QUEUE_ON_DEVICE_PROPERTIES") CreateCommandQueueProperties CLI_PropertyType_String None;
  fetcher (NIV_VALUESTRING "CL_DEVICE_QUEUE_ON_HOST_PROPERTIES") CreateCommandQueueProperties CLI_PropertyType_String None;
  fetcher (NIV_VALUESTRING "CL_DEVICE_SVM_CAPABILITIES") CreateDeviceSVMCapabilities CLI_PropertyType_String None
].

(** The containers that [GatherDeviceInfo] of clDiag.cpp hands to
    [GetProperties], in call order, for a parsed version: the
    [if]/[else if] chain, then the separate test for 2.0. *)
Definition tables_fetched (version : Version) : list (list (PropertyFetcher cl_device_info)) :=
  (if Version_eq version (mkVersion 1 0) then [infos_CL_1_0]
   else if Version_eq version (mkVersion 1 1) then [infos_CL_1_1]
   else if Version_ge version (mkVersion 1 2) then [infos_CL_1_2]
   else [])
  ++ (if Version_ge version (mkVersion 2 0) then [infos_CL_2_0] else []).

End WithHeader.
End ClDiag.

(** ** The tree as a walk sees it

    The accessors of lib/clInfo.h expose the tree through the links
    [firstProperty], [value], [firstChild] and [next].  The views below
    are what a walk along these links visits: a value list is the list
    of the unions of its cells, a property carries its value list, a
    node its property list and the list of its children. *)
Record PropertyView := mkPropertyView {
  pv_name : cstr;
  pv_hint : cstr;
  pv_type : cliPropertyType;
  pv_values : list cliUnion
}.

#[global] Instance cliPropertyType_eq_dec : EqDecision cliPropertyType.
Proof. solve_decision. Defined.

#[global] Instance cliUnion_eq_dec : EqDecision cliUnion.
Proof. solve_decision. Defined.

#[global] Instance PropertyView_eq_dec : EqDecision PropertyView.
Proof. solve_decision. Defined.

#[local] Unset Elimination Schemes.
Inductive NodeView := mkNodeView {
  nv_name : cstr;
  nv_kind : cstr;
  nv_properties : list PropertyView;
  nv_children : list NodeView
}.
#[local] Set Elimination Schemes.

(** The walks themselves, one unit of fuel per link followed; [None]
    when a link addresses no cell or the fuel runs out. *)
Fixpoint read_values (fuel : nat) (p : Pool) (v : ptr) : option (list cliUnion) :=
  match v with
  | None => Some []
  | Some a =>
      match fuel, values p !! a with
      | S fuel', Some c =>
          match read_values fuel' p (v_next c) with
          | Some l => Some (v_union c :: l)
          | None => None
          end
      | _, _ => None
      end
  end.

Fixpoint read_properties (fuel : nat) (p : Pool) (q : ptr) : option (list PropertyView) :=
  match q with
  | None => Some []
  | Some a =>
      match fuel, properties p !! a with
      | S fuel', Some c =>
          match read_values fuel' p (p_value c), read_properties fuel' p (p_next c) with
          | Some vs, Some l =>
              Some (mkPropertyView (p_name c) (p_hint c) (p_type c) vs :: l)
          | _, _ => None
          end
      | _, _ => None
      end
  end.

(** [read_nodes] reads a sibling list with the subtrees below it. *)
Fixpoint read_nodes (fuel : nat) (p : Pool) (q : ptr) : option (list NodeView) :=
  match q with
  | None => Some []
  | Some a =>
      match fuel, nodes p !! a with
      | S fuel', Some c =>
          match read_properties fuel' p (n_firstProperty c),
                read_nodes fuel' p (n_firstChild c),
                read_nodes fuel' p (n_next c) with
          | Some ps, Some cs, Some l =>
              Some (mkNodeView (n_name c) (n_kind c) ps cs :: l)
          | _, _, _ => None
          end
      | _, _ => None
      end
  end.

(** ** The printers of the command line tool *)

(** The double quote character, and [operator<<] on a stream that is
    the text written so far. *)
Definition dq : string := String (ascii_of_nat 34) EmptyString.

Definition put (s : string) (text : string) : string := String.append s text.
Infix "<<" := put (at level 50, left associativity).

(** [s << v->i]: the decimal numeral. *)
Definition decimal (i : Z) : string := NilZero.string_of_int (Z.to_int i).

(** The members of the union of a value as a printer reads them.  Zero
    memory reads as [0], [false] and the null pointer; reading a member
    other than the one written is left undefined, and so is writing a
    null [const char*] to a stream. *)
Definition read_i (u : cliUnion) : option Z :=
  match u with
  | U_i i => Some i
  | U_zero => Some 0%Z
  | _ => None
  end.

Definition read_b (u : cliUnion) : option bool :=
  match u with
  | U_b b => Some b
  | U_zero => Some false
  | _ => None
  end.

Definition read_s (u : cliUnion) : option string :=
  match u with
  | U_s s => Some s
  | _ => None
  end.

Module JsonPrinter.

(** The [switch (p->type)] in the value loop of [OnProperty]. *)
Definition OnValue (s : string) (type : cliPropertyType) (v : cliUnion) : option string :=
  match type with
  | CLI_PropertyType_Bool =>
      match read_b v with
      | Some true => Some (s << "true")
      | Some false => Some (s << "false")
      | None => None
      end
  | CLI_PropertyType_Int64 =>
      match read_i v with
      | Some i => Some (s << decimal i)
      | None => None
      end
  | CLI_PropertyType_String =>
      match read_s v with
      | Some text => Some (s << dq << text << dq)
      | None => None
      end
  end.

(** The loop over the values of a property: the value, then a comma
    when [v->next] is not null. *)
Fixpoint OnValues (s : string) (type : cliPropertyType) (vs : list cliUnion)
    : option string :=
  match vs with
  | [] => Some s
  | v :: vs' =>
      match OnValue s type v with
      | Some s =>
          let s := match vs' with [] => s | _ :: _ => s << "," end in
          OnValues s type vs'
      | None => None
      end
  end.

Definition OnProperty (s : string) (p : PropertyView) : option string :=
  match pv_name p with
  | None => None
  | Some name =>
      let singleValue := match pv_values p with [_] => true | _ => false end in
      let s := if negb singleValue then s << dq << name << dq << " = ["
               else s << dq << name << dq << " = " in
      match OnValues s (pv_type p) (pv_values p) with
      | Some s => Some (if negb singleValue then s << "]" else s)
      | None => None
      end
  end.

(** The loop over the properties of a node. *)
Fixpoint OnProperties (s : string) (ps : list PropertyView) : option string :=
  match ps with
  | [] => Some s
  | p :: ps' =>
      match OnProperty s p with
      | Some s =>
          let s := match ps' with [] => s | _ :: _ => s << "," end in
          OnProperties s ps'
      | None => None
      end
  end.

Fixpoint OnNode (s : string) (node : NodeView) : option string :=
  match nv_name node with
  | None => None
  | Some name =>
      let s := s << "{ " << dq << name << dq << " : {" in
      let s := s << dq << "Properties" << dq << " : " in
      let s := match nv_properties node with
               | _ :: _ => OnProperties s (nv_properties node)
               | [] => Some (s << "{}")
               end in
      match s with
      | None => None
      | Some s =>
          let s := s << ", " << dq << "Children" << dq << " : " in
          let s := match nv_children node with
                   | _ :: _ =>
                       (fix OnChildren (s : string) (ns : list NodeView) : option string :=
                          match ns with
                          | [] => Some s
                          | n :: ns' =>
                              match OnNode s n with
                              | Some s =>
                                  let s := match ns' with [] => s | _ :: _ => s << "," end in
                                  OnChildren s ns'
                              | None => None
                              end
                          end) s (nv_children node)
                   | [] => Some (s << "{}")
                   end in
          match s with
          | Some s => Some (s << "}")
          | None => None
          end
      end
  end.

(** The loop over the children of a node (the local loop of [OnNode]),
    by name. *)
Fixpoint OnChildren (s : string) (ns : list NodeView) : option string :=
  match ns with
  | [] => Some s
  | n :: ns' =>
      match OnNode s n with
      | Some s =>
          let s := match ns' with [] => s | _ :: _ => s << "," end in
          OnChildren s ns'
      | None => None
      end
  end.

Definition Write (s : string) (tree : NodeView) : option string := OnNode s tree.

End JsonPrinter.

(** The text that [JsonPrinter] writes for one value of a property of
    type [type]. *)
Definition value_text (type : cliPropertyType) (v : cliUnion) : option string :=
  JsonPrinter.OnValue EmptyString type v.

(** A document member [key : text] of the output, as [OnNode] spells
    its two members. *)
Definition member (key text : string) : string :=
  EmptyString << dq << key << dq << " : " << text.

(** ** Linked lists in the pool

    [chain next h q l]: following [next] from [q] through the region
    [h] visits the cells at the addresses [l], in this order, and then
    reaches the null pointer. *)
Inductive chain {T : Type} (next : T -> ptr) (h : list T) : ptr -> list nat -> Prop :=
| chain_null : chain next h None []
| chain_step (a : nat) (c : T) (l : list nat) :
    h !! a = Some c ->
    chain next h (next c) l ->
    chain next h (Some a) (a :: l).

(** The value list that starts at [v] holds the unions [us]. *)
Definition value_at (p : Pool) (a : nat) (u : cliUnion) : Prop :=
  exists c, values p !! a = Some c /\ v_union c = u.

Definition value_list (p : Pool) (v : ptr) (us : list cliUnion) : Prop :=
  exists l, chain v_next (values p) v l /\ Forall2 (value_at p) l us.

(** The property list that starts at [q] reads as the views [ps]. *)
Definition property_at (p : Pool) (a : nat) (pv : PropertyView) : Prop :=
  exists c,
    properties p !! a = Some c /\
    pv_name pv = p_name c /\ pv_hint pv = p_hint c /\ pv_type pv = p_type c /\
    value_list p (p_value c) (pv_values pv).

Definition property_list (p : Pool) (q : ptr) (ps : list PropertyView) : Prop :=
  exists l, chain p_next (properties p) q l /\ Forall2 (property_at p) l ps.

(** The property list of the node at address [node]. *)
Definition node_properties (p : Pool) (node : nat) (ps : list PropertyView) : Prop :=
  exists c, nodes p !! node = Some c /\ property_list p (n_firstProperty c) ps.

(** [p'] keeps the cells of [p] and has no other property or node
    cells: what a decoder may do to the pool. *)
Definition values_grow (p p' : Pool) : Prop :=
  (exists ext, values p' = values p ++ ext) /\
  properties p' = properties p /\
  nodes p' = nodes p.

(** A fetch that returns: on every pool it ends normally with a value
    list (possibly null) and only adds value cells. *)
Definition fetch_returns (m : M ptr) : Prop :=
  forall p, exists v p' d us,
    m p = (Ok v, p', d) /\ values_grow p p' /\ value_list p' v us.

(** The view that [GetProperties] builds for a table entry: name, hint
    and type of the entry, and a value list that the fetch of the entry
    returned. *)
Definition built_by {hdr : cl_h} {O I} (f : GetInfoFunction O I) (clObject : O)
    (entry : PropertyFetcher I) (pv : PropertyView) : Prop :=
  pv_name pv = n entry /\ pv_hint pv = h entry /\ pv_type pv = type entry /\
  exists p0 v p1 d,
    GetValue f clObject (info entry) (cf entry) p0 = (Ok v, p1, d) /\
    value_list p1 v (pv_values pv).

(** A sequence of [GetProperties] calls against one node, one call per
    container, as in [GatherDeviceInfo] of clDiag.cpp. *)
Fixpoint GetProperties_calls {hdr : cl_h} {O I} (cliNode : nat) (f : GetInfoFunction O I)
    (clObject : O) (containers : list (list (PropertyFetcher I))) : M unit :=
  match containers with
  | [] => ret tt
  | container :: containers' =>
      GetProperties cliNode f clObject container ;;;
      GetProperties_calls cliNode f clObject containers'
  end.

(** The entries of a bit field table that a mask selects: those whose
    pattern is fully set in the mask. *)
Definition fully_set (config : Z) (field : BitfieldFetcher) : bool :=
  (Z.land config (value field) =? value field)%Z.

Definition selected_names (config : Z) (fields : list BitfieldFetcher) : list cliUnion :=
  map (fun field => U_s (bf_n field)) (List.filter (fully_set config) fields).

(** A fetch that yields no data: a query reports failure, or the size
    query reports size 0. *)
Definition fetch_fails {hdr : cl_h} {O I} (f : GetInfoFunction O I) (clObject : O)
    (info : I) : Prop :=
  exists r size written,
    f clObject info 0 = (r, size, written) /\
    (r <> CL_SUCCESS \/
     size = 0 \/
     exists r' size' written',
       f clObject info size = (r', size', written') /\ r' <> CL_SUCCESS).

(** The property that [GetProperties] builds for an entry whose fetch
    yields no data. *)
Definition without_values {T} (entry : PropertyFetcher T) : PropertyView :=
  mkPropertyView (n entry) (h entry) (type entry) [].

(** Running a decoder on the bytes of a C string in an empty pool and
    reading the value list it returns. *)
Definition decode_text (cf : CreateFunc) (text : string) : option (list cliUnion) :=
  match cf (bytes_of text) (length (bytes_of text)) empty_pool with
  | (Ok v, p, _) => read_values (length (values p)) p v
  | _ => None
  end.

(** ** A sample header and sample drivers

    Used to run the model on concrete inputs.  The header carries the
    values of the Khronos OpenCL 2.0 [CL/cl.h]. *)
#[local] Instance khronos_cl_h : cl_h := {|
  CL_SUCCESS := 0;
  CL_FP_DENORM := 1;
  CL_FP_INF_NAN := 2;
  CL_FP_ROUND_TO_NEAREST := 4;
  CL_FP_ROUND_TO_ZERO := 8;
  CL_FP_ROUND_TO_INF := 16;
  CL_FP_FMA := 32;
  CL_FP_SOFT_FLOAT := 64;
  CL_EXEC_KERNEL := 1;
  CL_EXEC_NATIVE_KERNEL := 2;
  CL_READ_ONLY_CACHE := 1;
  CL_READ_WRITE_CACHE := 2;
  CL_LOCAL := 1;
  CL_GLOBAL := 2;
  CL_DEVICE_AFFINITY_DOMAIN_NUMA := 1;
  CL_DEVICE_AFFINITY_DOMAIN_L4_CACHE := 2;
  CL_DEVICE_AFFINITY_DOMAIN_L3_CACHE := 4;
  CL_DEVICE_AFFINITY_DOMAIN_L2_CACHE := 8;
  CL_DEVICE_AFFINITY_DOMAIN_L1_CACHE := 16;
  CL_DEVICE_AFFINITY_DOMAIN_NEXT_PARTITIONABLE := 32;
  CL_DEVICE_PARTITION_EQUALLY := 4230;
  CL_DEVICE_PARTITION_BY_COUNTS := 4231;
  CL_DEVICE_PARTITION_BY_AFFINITY_DOMAIN := 4232;
  CL_QUEUE_OUT_OF_ORDER_EXEC_MODE_ENABLE := 1;
  CL_QUEUE_PROFILING_ENABLE := 2;
  CL_DEVICE_TYPE_CPU := 2;
  CL_DEVICE_TYPE_GPU := 4;
  CL_DEVICE_TYPE_ACCELERATOR := 8;
  CL_DEVICE_TYPE_DEFAULT := 1;
  CL_DEVICE_TYPE_CUSTOM := 16;
  CL_DEVICE_SVM_COARSE_GRAIN_BUFFER := 1;
  CL_DEVICE_SVM_FINE_GRAIN_BUFFER := 2;
  CL_DEVICE_SVM_FINE_GRAIN_SYSTEM := 4;
  CL_DEVICE_SVM_ATOMICS := 8;
  CL_R := 4272;
  CL_A := 4273;
  CL_RG := 4274;
  CL_RA := 4275;
  CL_RGB := 4276;
  CL_RGBA := 4277;
  CL_BGRA := 4278;
  CL_ARGB := 4279;
  CL_INTENSITY := 4280;
  CL_LUMINANCE := 4281;
  CL_Rx := 4282;
  CL_RGx := 4283;
  CL_RGBx := 4284;
  CL_DEPTH_STENCIL := 4286;
  CL_SNORM_INT8 := 4304;
  CL_SNORM_INT16 := 4305;
  CL_UNORM_INT8 := 4306;
  CL_UNORM_INT16 := 4307;
  CL_UNORM_SHORT_565 := 4308;
  CL_UNORM_SHORT_555 := 4309;
  CL_UNORM_INT_101010 := 4310;
  CL_SIGNED_INT8 := 4311;
  CL_SIGNED_INT16 := 4312;
  CL_SIGNED_INT32 := 4313;
  CL_UNSIGNED_INT8 := 4314;
  CL_UNSIGNED_INT16 := 4315;
  CL_UNSIGNED_INT32 := 4316;
  CL_HALF_FLOAT := 4317;
  CL_FLOAT := 4318;
  CL_MEM_OBJECT_IMAGE1D := 4340;
  CL_MEM_OBJECT_IMAGE2D := 4337;
  CL_MEM_OBJECT_IMAGE3D := 4338;
  CL_MEM_OBJECT_IMAGE1D_BUFFER := 4342;
  CL_MEM_OBJECT_IMAGE1D_ARRAY := 4341;
  CL_MEM_OBJECT_IMAGE2D_ARRAY := 4339
|}%Z.

(** An entry point that follows the size-then-data protocol for the
    bytes [data]: the status is success, the size is reported, and as
    many bytes as were asked for are stored. *)
Definition answer {T} (data : list T) (num_entries : nat) : Z * nat * list T :=
  (0%Z, length data, take num_entries data).

(** The status [CL_INVALID_VALUE]. *)
Definition CL_INVALID_VALUE : Z := (-30)%Z.

(** A driver with the platforms [platforms], each with the devices
    [devices]; every device reports [version] for [CL_DEVICE_VERSION],
    fails with [CL_INVALID_VALUE] on the attributes in [failing],
    reports the eight bytes 1 0 0 0 0 0 0 0 for every other attribute,
    and creates no context. *)
Definition sample_driver (platforms : list cl_platform_id) (devices : list cl_device_id)
    (version : string) (failing : list string) : Driver :=
  let attribute (name : string) (size : nat) :=
    if bool_decide (name ∈ failing) then (CL_INVALID_VALUE, 0, [])
    else if String.eqb name "CL_DEVICE_VERSION" then answer (bytes_of version) size
    else answer (ascii_of_nat 1 :: replicate 7 NUL) size in
  mkDriver
    (answer platforms)
    (fun _ name size => attribute name size)
    (fun _ => answer devices)
    (fun _ name size => attribute name size)
    (fun _ => (CL_INVALID_VALUE, 0%Z))
    (fun _ _ _ => (CL_INVALID_VALUE, 0, [])).

(** The properties of the first device of the first platform below the
    root [r], as a walk reads them, and their names. *)
Definition first_device_properties (p : Pool) (r : ptr) : option (list PropertyView) :=
  match read_nodes (length (nodes p) + length (properties p) + length (values p) + 1) p r with
  | Some (root_view :: _) =>
      match nv_children root_view with
      | platform :: _ =>
          match nv_children platform with
          | devices :: _ =>
              match nv_children devices with
              | device :: _ => Some (nv_properties device)
              | [] => None
              end
          | [] => None
          end
      | [] => None
      end
  | _ => None
  end.

Definition first_device_property_names (p : Pool) (r : ptr) : option (list cstr) :=
  match first_device_properties p r with
  | Some pvs => Some (map pv_name pvs)
  | None => None
  end.

(** Two tables for two [GetProperties] calls against one node. *)
Definition sample_containers : list (list (PropertyFetcher cl_device_info)) :=
  [ [ fetcher (NIV_VALUESTRING "CL_DEVICE_ADDRESS_BITS") CreateUInt CLI_PropertyType_Int64 None ];
    [ fetcher (NIV_VALUESTRING "CL_DEVICE_NAME") CreateChar CLI_PropertyType_String None;
      fetcher (NIV_VALUESTRING "CL_DEVICE_AVAILABLE") CreateBool CLI_PropertyType_Bool None ] ].

(** The text of the sample attribute bytes 1 0 0 0 0 0 0 0 read as a C
    string. *)
Definition sample_text : string := String (ascii_of_nat 1) EmptyString.

(** ** The attribute selection as the specification words it *)

Section Selection.
Context {hdr : cl_h}.

Definition names {T} (table : list (PropertyFetcher T)) : list cstr := map n table.

(** The version-gated incremental tables of the library, each with the
    version that gates it. *)
Definition gated_tables : list (Version * list (PropertyFetcher cl_device_info)) :=
  [ (mkVersion 1 0, infos_CL_1_0);
    (mkVersion 1 1, infos_CL_1_1);
    (mkVersion 1 2, infos_CL_1_2);
    (mkVersion 2 0, infos_CL_2_0) ].

(** The specification's selection: the baseline table plus every gated
    table whose version is at most the version of the device. *)
Definition tables_up_to (version : Version) : list (PropertyFetcher cl_device_info) :=
  infos_CL_shared ++
  concat (map snd (List.filter (fun vt => Version_le (fst vt) version) gated_tables)).

(** No two neighbours of a table are out of order by name. *)
Definition sorted_by_name {T} (table : list (PropertyFetcher T)) : Prop :=
  Sorted (fun a b => strcmp_lt (n b) (n a) = false) table.

End Selection.

(** ** Tokens

    The tokens of a text as the specification words them: the maximal
    runs of characters other than the space, in order; runs of
    delimiters separate tokens and yield none. *)
Fixpoint span_token (rest : list ascii) : list ascii * list ascii :=
  match rest with
  | [] => ([], [])
  | c :: rest' =>
      if Ascii.eqb c SPACE then ([], rest)
      else let '(tok, after) := span_token rest' in (c :: tok, after)
  end.

Fixpoint drop_spaces (rest : list ascii) : list ascii :=
  match rest with
  | [] => []
  | c :: rest' => if Ascii.eqb c SPACE then drop_spaces rest' else rest
  end.



(** What the tokenizer of the library computes on the rest of a text:
    the run up to the next space (empty when the rest begins with a
    space), then the tokens behind that space and the spaces that
    follow it. *)
Fixpoint library_tokens (fuel : nat) (rest : list ascii) : list string :=
  match fuel, rest with
  | _, [] => []
  | O, _ :: _ => []
  | S fuel', _ :: _ =>
      let '(tok, after) := span_token rest in
      let after := match after with
                   | [] => []
                   | _ :: after' => drop_spaces after'
                   end in
      string_of_list_ascii tok :: library_tokens fuel' after
  end.



(** ** Vocabulary of the proofs: invariants and frames *)

(** A stream only grows. *)
Definition extends (s out : string) : Prop := exists t, out = s << t.

(** Stores to value cells that keep the unions of all cells. *)
Definition keeps_unions (h h' : list cliValue) : Prop :=
  forall a c, h !! a = Some c -> exists c', h' !! a = Some c' /\ v_union c' = v_union c.

(** The state of a value list under construction: the list from
    [result] visits [l], holds [us], ends in [last], and lies wholly at
    or above the address [base]. *)
Definition building (base : nat) (p : Pool) (result last_ : ptr)
    (l : list nat) (us : list cliUnion) : Prop :=
  chain v_next (values p) result l /\
  Forall2 (value_at p) l us /\
  last l = last_ /\
  Forall (fun a => base <= a) l /\
  base <= length (values p).

(** What a step of a construction keeps of the pool. *)
Definition keeps_below (base : nat) (p p' : Pool) : Prop :=
  take base (values p') = take base (values p) /\
  length (values p) <= length (values p') /\
  properties p' = properties p /\
  nodes p' = nodes p.

(** The pool after allocating a value cell and storing its union. *)
Definition with_value (p : Pool) (u : cliUnion) : Pool :=
  mkPool (values p ++ [mkValue u None]) (properties p) (nodes p).

(** Changes of the pool that keep every property cell's own fields
    (all but its link) and every value list. *)
Definition keeps_properties (p p' : Pool) : Prop :=
  (exists ext, values p' = values p ++ ext) /\
  forall x c, properties p !! x = Some c ->
    exists c', properties p' !! x = Some c' /\
               p_name c' = p_name c /\ p_hint c' = p_hint c /\
               p_type c' = p_type c /\ p_value c' = p_value c.

(** Storing the value list of the fresh property cell [a] and linking
    the cell behind [lastProperty], or to the node when the list is
    empty. *)
Definition linked (node a : nat) (v : ptr) (lastProperty : ptr) (p : Pool) : Pool :=
  let stored := alter (set_p_value v) a (properties p) in
  match lastProperty with
  | Some b => mkPool (values p) (alter (set_p_next (Some a)) b stored) (nodes p)
  | None =>
      mkPool (values p) stored (alter (set_n_firstProperty (Some a)) node (nodes p))
  end.

(** The state at the head of the loop of [GetProperties]: the list of
    the node visits [l], reads as [ps] and ends in [lastProperty]. *)
Definition populating (node : nat) (p : Pool) (lastProperty : ptr)
    (l : list nat) (ps : list PropertyView) : Prop :=
  (exists c, nodes p !! node = Some c /\
             chain p_next (properties p) (n_firstProperty c) l) /\
  Forall2 (property_at p) l ps /\
  last l = lastProperty.

(** What [GetProperties] keeps of the pool: old value cells, the nodes
    other than the one populated, and of that one all but its
    [firstProperty]. *)
Definition populate_frame (node : nat) (p p' : Pool) : Prop :=
  (exists ext, values p' = values p ++ ext) /\
  length (nodes p') = length (nodes p) /\
  (forall x, x <> node -> nodes p' !! x = nodes p !! x) /\
  (forall c, nodes p !! node = Some c ->
     exists c', nodes p' !! node = Some c' /\
                n_name c' = n_name c /\ n_kind c' = n_kind c /\
                n_firstChild c' = n_firstChild c /\ n_next c' = n_next c).


(** ** Attribute bytes

    The bytes that a little-endian host stores for the [n] low-order
    bytes of an unsigned integer: what a driver writes to the buffer
    for a [cl_uint], a [cl_ulong] or a [size_t] attribute. *)
Fixpoint le_bytes (n : nat) (x : Z) : list ascii :=
  match n with
  | O => []
  | S n' => ascii_of_N (Z.to_N (x mod 256)) :: le_bytes n' (x / 256)
  end.

(** The [std::int64_t] that an unsigned 64-bit value converts to. *)
Definition as_int64 (x : Z) : Z :=
  if (x <? 9223372036854775808)%Z then x else (x - 18446744073709551616)%Z.

(** The bytes of an array of [size_t]. *)
Definition size_t_entries (xs : list Z) : list ascii := concat (map (le_bytes 8) xs).

(** The text that [CL_DEVICE_VERSION] is specified to hold, as the
    comment in [ParseVersion] pictures it: a prefix without space
    ("OpenCL"), a space, the decimal numerals of the major and the
    minor version with a dot between them, a space, and text of the
    vendor. *)
Definition version_string (prefix : string) (major minor : Z) (vendor : string) : string :=
  prefix +:+ " " +:+ decimal major +:+ "." +:+ decimal minor +:+ " " +:+ vendor.

(** ** Tables compared

    What a consumer of the tree sees of a table entry: the name of the
    attribute and the type of its values. *)
Definition signatures {T} (table : list (PropertyFetcher T)) : list (cstr * cliPropertyType) :=
  map (fun entry => (n entry, type entry)) table.

(** Two lists with the same elements. *)
Definition same_elements {A} (a b : list A) : Prop := forall x, x ∈ a <-> x ∈ b.

(** ** Fields

    The fields of a text: the runs between single spaces, empty where
    two spaces meet or the text begins with one; a space at the end of
    the text ends the last field and opens no other. *)
Fixpoint fields_fuel (fuel : nat) (rest : list ascii) : list string :=
  match fuel, rest with
  | _, [] => []
  | O, _ :: _ => []
  | S fuel', _ :: _ =>
      let '(tok, after) := span_token rest in
      string_of_list_ascii tok
        :: fields_fuel fuel' (match after with [] => [] | _ :: after' => after' end)
  end.

Definition fields (text : string) : list string :=
  fields_fuel (String.length text) (list_ascii_of_string text).


(** ** The other printers of the command line tool *)

(** The line feed character. *)
Definition nl : string := String (ascii_of_nat 10) EmptyString.

(** The text of a value as [XmlPrinter] and [ConsolePrinter] write it:
    the [switch (p->type)] of their value loops. *)
Definition plain_value (s : string) (type : cliPropertyType) (v : cliUnion) : option string :=
  match type with
  | CLI_PropertyType_Bool =>
      match read_b v with
      | Some true => Some (s << "true")
      | Some false => Some (s << "false")
      | None => None
      end
  | CLI_PropertyType_Int64 =>
      match read_i v with
      | Some i => Some (s << decimal i)
      | None => None
      end
  | CLI_PropertyType_String =>
      match read_s v with
      | Some text => Some (s << text)
      | None => None
      end
  end.

Module XmlPrinter.

(** The body of the loop over the values of a property. *)
Definition OnValue (s : string) (type : cliPropertyType) (v : cliUnion) : option string :=
  let s := s << "<Value>" in
  match plain_value s type v with
  | Some s => Some (s << "</Value>")
  | None => None
  end.

Fixpoint OnValues (s : string) (type : cliPropertyType) (vs : list cliUnion)
    : option string :=
  match vs with
  | [] => Some s
  | v :: vs' =>
      match OnValue s type v with
      | Some s => OnValues s type vs'
      | None => None
      end
  end.

Definition OnProperty (s : string) (p : PropertyView) : option string :=
  let t := match pv_type p with
           | CLI_PropertyType_Bool => "bool"
           | CLI_PropertyType_Int64 => "int64"
           | CLI_PropertyType_String => "string"
           end in
  match pv_name p with
  | None => None
  | Some name =>
      let s := s << "<Property Name=" << dq << name << dq << " Type=" << dq << t << dq << ">" in
      match OnValues s (pv_type p) (pv_values p) with
      | Some s => Some (s << "</Property>")
      | None => None
      end
  end.

Fixpoint OnProperties (s : string) (ps : list PropertyView) : option string :=
  match ps with
  | [] => Some s
  | p :: ps' =>
      match OnProperty s p with
      | Some s => OnProperties s ps'
      | None => None
      end
  end.

Fixpoint OnNode (s : string) (node : NodeView) : option string :=
  match nv_name node with
  | None => None
  | Some name =>
      let s := s << "<" << name in
      let s := match nv_kind node with
               | Some kind => s << " Kind=" << dq << kind << dq
               | None => s
               end in
      let s := s << ">" in
      match OnProperties s (nv_properties node) with
      | None => None
      | Some s =>
          match (fix OnChildren (s : string) (ns : list NodeView) : option string :=
                   match ns with
                   | [] => Some s
                   | n :: ns' =>
                       match OnNode s n with
                       | Some s => OnChildren s ns'
                       | None => None
                       end
                   end) s (nv_children node) with
          | Some s => Some (s << "</" << name << ">")
          | None => None
          end
      end
  end.

(** The loop over the children of a node, by name. *)
Fixpoint OnChildren (s : string) (ns : list NodeView) : option string :=
  match ns with
  | [] => Some s
  | n :: ns' =>
      match OnNode s n with
      | Some s => OnChildren s ns'
      | None => None
      end
  end.

Definition Write (s : string) (tree : NodeView) : option string := OnNode s tree.

End XmlPrinter.

Module ConsolePrinter.

(** [Indent]: two spaces per level. *)
Fixpoint Indent (s : string) (indentation : nat) : string :=
  match indentation with
  | O => s
  | S i => Indent (s << "  ") i
  end.

(** [s << std::left << std::setw (fieldWidth) << text]: the text,
    filled with spaces on the right up to the width; a longer text is
    written whole. *)
Definition left_setw (s : string) (fieldWidth : nat) (text : string) : string :=
  s << text << string_of_list_ascii (replicate (fieldWidth - String.length text) SPACE).

(** The loop over the values of a property: the value, then a space
    when [v->next] is not null. *)
Fixpoint OnValues (s : string) (type : cliPropertyType) (vs : list cliUnion)
    : option string :=
  match vs with
  | [] => Some s
  | v :: vs' =>
      match plain_value s type v with
      | Some s =>
          let s := match vs' with [] => s | _ :: _ => s << " " end in
          OnValues s type vs'
      | None => None
      end
  end.

Definition OnProperty (s : string) (p : PropertyView) (fieldWidth indentation : nat)
    : option string :=
  let s := Indent s indentation in
  match pv_name p with
  | None => None
  | Some name =>
      let s := left_setw s fieldWidth name << " : " in
      match OnValues s (pv_type p) (pv_values p) with
      | Some s => Some (s << nl)
      | None => None
      end
  end.

Fixpoint OnProperties (s : string) (ps : list PropertyView) (fieldWidth indentation : nat)
    : option string :=
  match ps with
  | [] => Some s
  | p :: ps' =>
      match OnProperty s p fieldWidth indentation with
      | Some s => OnProperties s ps' fieldWidth indentation
      | None => None
      end
  end.

(** The first loop of [OnNode]: the maximum of [strlen (p->name)]. *)
Fixpoint maxPropertyLength (acc : nat) (ps : list PropertyView) : option nat :=
  match ps with
  | [] => Some acc
  | p :: ps' =>
      match pv_name p with
      | Some name => maxPropertyLength (Nat.max acc (String.length name)) ps'
      | None => None
      end
  end.

Fixpoint OnNode (s : string) (node : NodeView) (indentation : nat) : option string :=
  let s := Indent s indentation in
  match nv_name node with
  | None => None
  | Some name =>
      let s := s << name << nl in
      match maxPropertyLength 0 (nv_properties node) with
      | None => None
      | Some width =>
          match OnProperties s (nv_properties node) width (S indentation) with
          | None => None
          | Some s =>
              (fix OnChildren (s : string) (ns : list NodeView) : option string :=
                 match ns with
                 | [] => Some s
                 | n :: ns' =>
                     match OnNode s n (S indentation) with
                     | Some s => OnChildren (s << nl) ns'
                     | None => None
                     end
                 end) s (nv_children node)
          end
      end
  end.

Fixpoint OnChildren (s : string) (ns : list NodeView) (indentation : nat) : option string :=
  match ns with
  | [] => Some s
  | n :: ns' =>
      match OnNode s n indentation with
      | Some s => OnChildren (s << nl) ns' indentation
      | None => None
      end
  end.

Definition Write (s : string) (tree : NodeView) : option string := OnNode s tree 0.

End ConsolePrinter.

(** ** [main] of the command line tool and the walks of the viewer *)

(** The tree below the node at [a] as a printer walks it from
    [Write]: the properties and the children of the node; the [next]
    link of the node itself is not followed.  A walk follows fewer
    links than the pool has cells unless it runs in a cycle. *)
Definition read_node (p : Pool) (a : nat) : option NodeView :=
  let fuel := length (nodes p) + length (properties p) + length (values p) + 1 in
  match nodes p !! a with
  | Some c =>
      match read_properties fuel p (n_firstProperty c), read_nodes fuel p (n_firstChild c) with
      | Some ps, Some cs => Some (mkNodeView (n_name c) (n_kind c) ps cs)
      | _, _ => None
      end
  | None => None
  end.

Inductive Printer := UseXmlPrinter | UseJsonPrinter | UseConsolePrinter.

(** The tests of [argc] and [argv] in [main]; [args] are the arguments
    behind the program name.  With exactly one argument the printer is
    chosen by its first two characters, and no printer is run when they
    are none of [-x], [-j] and [-c]. *)
Definition selected_printer (args : list string) : option Printer :=
  match args with
  | [arg] =>
      match arg with
      | String "-" (String "x" _) => Some UseXmlPrinter
      | String "-" (String "j" _) => Some UseJsonPrinter
      | String "-" (String "c" _) => Some UseConsolePrinter
      | _ => None
      end
  | _ => Some UseConsolePrinter
  end.

Definition run_printer (printer : Printer) (tree : NodeView) : option string :=
  match printer with
  | UseXmlPrinter => XmlPrinter.Write EmptyString tree
  | UseJsonPrinter => JsonPrinter.Write EmptyString tree
  | UseConsolePrinter => ConsolePrinter.Write EmptyString tree
  end.

Section Main.
Context {hdr : cl_h} (drv : Driver).

(** [main]: the exit status, the text written to [std::cout] and the
    lines written to [std::cerr]; [None] outside defined behaviour.
    The statuses of [cliInfo_Create], [cliInfo_Gather] and
    [cliInfo_GetRoot] are not tested.  The local [root] holds a value
    only if [cliInfo_GetRoot] stored one; a printer that is run reads
    it, and dereferences it. *)
Definition main (args : list string) : option (Z * string * list Diag) :=
  match cliInfo_Create (Some None) with
  | (_, Some (Some info)) =>
      match cliInfo_Gather drv info with
      | None => None
      | Some (_, info, d) =>
          let root := match cliInfo_GetRoot (Some info) (Some None) with
                      | (CLI_Success, Some r) => Some r
                      | _ => None
                      end in
          match selected_printer args with
          | None => Some (0%Z, EmptyString, d)
          | Some printer =>
              match root with
              | Some (Some a) =>
                  match read_node (pool info) a with
                  | Some tree =>
                      match run_printer printer tree with
                      | Some out => Some (0%Z, out, d)
                      | None => None
                      end
                  | None => None
                  end
              | _ => None
              end
          end
      end
  | _ => None
  end.

End Main.

(** The walks of the viewer (InfoUI.cpp) over a node.  The result is
    the pointer returned ([None] inside for [nullptr]); [None] outside
    for a walk that leaves defined behaviour: [strcmp] on a null name,
    or [p->value->s] read through a null [value]. *)
Fixpoint GetPropertyString (wanted : string) (ps : list PropertyView) : option cstr :=
  match ps with
  | [] => Some None
  | p :: ps' =>
      match pv_name p with
      | None => None
      | Some name =>
          if String.eqb name wanted then
            match pv_values p with
            | [] => None
            | U_s s :: _ => Some (Some s)
            | U_zero :: _ => Some None
            | _ :: _ => None
            end
          else GetPropertyString wanted ps'
      end
  end.

Definition GetPlatformName (platform : NodeView) : option cstr :=
  GetPropertyString "CL_PLATFORM_NAME" (nv_properties platform).

Definition GetDeviceName (device : NodeView) : option cstr :=
  GetPropertyString "CL_DEVICE_NAME" (nv_properties device).

(** [GetImageFormats]: the first child named "ImageFormats". *)
Fixpoint GetImageFormats_loop (ns : list NodeView) : option (option NodeView) :=
  match ns with
  | [] => Some None
  | n :: ns' =>
      match nv_name n with
      | None => None
      | Some name =>
          if String.eqb name "ImageFormats" then Some (Some n) else GetImageFormats_loop ns'
      end
  end.

Definition GetImageFormats (device : NodeView) : option (option NodeView) :=
  GetImageFormats_loop (nv_children device).

(** ** Vocabulary for the texts the printers write *)

(** The number of opening braces of a text minus the number of its
    closing braces. *)
Fixpoint brace_excess (s : string) : Z :=
  match s with
  | EmptyString => 0
  | String c s' =>
      ((if Ascii.eqb c "{" then 1 else if Ascii.eqb c "}" then -1 else 0) + brace_excess s')%Z
  end.

(** A text in which every character satisfies [ok]. *)
Definition all_chars (ok : ascii -> bool) (s : string) : Prop :=
  forallb ok (list_ascii_of_string s) = true.

Definition not_brace (c : ascii) : bool :=
  negb (Ascii.eqb c "{") && negb (Ascii.eqb c "}").

(** What the texts of a tree satisfy, by the place they stand in: the
    names of nodes, their kinds, the names of properties, and the
    string values. *)
Definition cstr_holds (P : string -> Prop) (c : cstr) : Prop :=
  match c with
  | Some s => P s
  | None => True
  end.

Definition value_holds (P : string -> Prop) (u : cliUnion) : Prop :=
  match u with
  | U_s s => P s
  | _ => True
  end.

Definition property_texts (property_ok value_ok : string -> Prop) (p : PropertyView) : Prop :=
  cstr_holds property_ok (pv_name p) /\ Forall (value_holds value_ok) (pv_values p).

Fixpoint tree_texts (name_ok kind_ok property_ok value_ok : string -> Prop)
    (tree : NodeView) : Prop :=
  cstr_holds name_ok (nv_name tree) /\
  cstr_holds kind_ok (nv_kind tree) /\
  Forall (property_texts property_ok value_ok) (nv_properties tree) /\
  (fix children (ns : list NodeView) : Prop :=
     match ns with
     | [] => True
     | n :: ns' => tree_texts name_ok kind_ok property_ok value_ok n /\ children ns'
     end) (nv_children tree).

(** A tree without braces in the texts that [JsonPrinter] writes. *)
Definition brace_free (tree : NodeView) : Prop :=
  tree_texts (all_chars not_brace) (fun _ => True) (all_chars not_brace) (all_chars not_brace)
    tree.

(** The number of nodes of a tree, and of a list of trees. *)
Fixpoint node_count (tree : NodeView) : nat :=
  S ((fix children (ns : list NodeView) : nat :=
        match ns with
        | [] => 0
        | n :: ns' => node_count n + children ns'
        end) (nv_children tree)).

Definition sum_counts (ns : list NodeView) : nat := foldr (fun n acc => node_count n + acc) 0 ns.

(** Well-formed XML, as far as the printer goes, over ASCII.  A name
    is a name start character (a letter, [_] or [:]) followed by name
    characters (these, digits, [-] and [.]).  A character of an
    attribute value or of character data is a legal character (tab,
    line feed, carriage return, or from the space on) other than [<]
    and [&]; an attribute value holds no double quote, and character
    data holds no [>], so that it holds no CDATA end marker. *)
Definition is_letter (c : ascii) : bool :=
  let n := nat_of_ascii c in
  ((65 <=? n) && (n <=? 90) || (97 <=? n) && (n <=? 122))%nat.

Definition is_digit (c : ascii) : bool :=
  let n := nat_of_ascii c in ((48 <=? n) && (n <=? 57))%nat.

Definition xml_name_start_char (c : ascii) : bool :=
  is_letter c || Ascii.eqb c "_" || Ascii.eqb c ":".

Definition xml_name_char (c : ascii) : bool :=
  xml_name_start_char c || is_digit c || Ascii.eqb c "-" || Ascii.eqb c ".".

Definition xml_char (c : ascii) : bool :=
  let n := nat_of_ascii c in
  (((32 <=? n) || (n =? 9) || (n =? 10) || (n =? 13)) && (n <? 128))%nat.

Definition xml_attribute_char (c : ascii) : bool :=
  xml_char c && negb (Ascii.eqb c "<" || Ascii.eqb c "&" || Ascii.eqb c (ascii_of_nat 34)).

Definition xml_text_char (c : ascii) : bool :=
  xml_char c && negb (Ascii.eqb c "<" || Ascii.eqb c "&" || Ascii.eqb c ">").

Definition xml_name (s : string) : Prop :=
  match s with
  | EmptyString => False
  | String c s' => xml_name_start_char c = true /\ all_chars xml_name_char s'
  end.

Definition joined (l : list string) : string := foldr String.append EmptyString l.

Definition xml_attribute (a : string * string) : string :=
  " " +:+ fst a +:+ "=" +:+ dq +:+ snd a +:+ dq.

(** An element: the start tag with its attributes, the content, and
    the end tag of the same name. *)
Definition xml_tag (name : string) (attributes : list (string * string))
    (content : list string) : string :=
  "<" +:+ name +:+ joined (map xml_attribute attributes) +:+ ">"
    +:+ joined content +:+ "</" +:+ name +:+ ">".

Inductive xml_element : string -> Prop :=
| xml_element_intro (name : string) (attributes : list (string * string))
    (content : list string) :
    xml_name name ->
    Forall (fun a => xml_name (fst a) /\ all_chars xml_attribute_char (snd a)) attributes ->
    NoDup (map fst attributes) ->
    Forall xml_content content ->
    xml_element (xml_tag name attributes content)
with xml_content : string -> Prop :=
| xml_text (text : string) : all_chars xml_text_char text -> xml_content text
| xml_child (element : string) : xml_element element -> xml_content element.

(** A tree whose texts [XmlPrinter] can write as they are. *)
Definition xml_safe (tree : NodeView) : Prop :=
  tree_texts xml_name (all_chars xml_attribute_char) (all_chars xml_attribute_char)
    (all_chars xml_text_char) tree.

(** A tree that the printers can write: no name of a node or of a
    property is null, and every value holds the member of the union
    that the type of its property names (or is zero memory, which
    reads as 0 and false, but not as a string). *)
Definition value_typed (type : cliPropertyType) (v : cliUnion) : Prop :=
  match type, v with
  | CLI_PropertyType_Int64, (U_i _ | U_zero) => True
  | CLI_PropertyType_Bool, (U_b _ | U_zero) => True
  | CLI_PropertyType_String, U_s _ => True
  | _, _ => False
  end.

Definition property_printable (p : PropertyView) : Prop :=
  pv_name p <> None /\ Forall (value_typed (pv_type p)) (pv_values p).

Fixpoint printable (tree : NodeView) : Prop :=
  nv_name tree <> None /\
  Forall property_printable (nv_properties tree) /\
  (fix children (ns : list NodeView) : Prop :=
     match ns with
     | [] => True
     | n :: ns' => printable n /\ children ns'
     end) (nv_children tree).

(** A run of [n] spaces, and the width of the widest name of a
    property list. *)
Definition spaces (n : nat) : string := string_of_list_ascii (replicate n SPACE).

Definition name_length (p : PropertyView) : nat :=
  match pv_name p with
  | Some name => String.length name
  | None => 0
  end.

Definition widest (ps : list PropertyView) : nat := foldr Nat.max 0 (map name_length ps).

(** The text of one value as [XmlPrinter] and [ConsolePrinter] write
    it: the decimal numeral of an integer, [true] or [false], the
    string as it is.  Zero memory reads as 0 and as false. *)
Inductive scalar_text : cliPropertyType -> cliUnion -> string -> Prop :=
| scalar_int (i : Z) : scalar_text CLI_PropertyType_Int64 (U_i i) (decimal i)
| scalar_int_zero : scalar_text CLI_PropertyType_Int64 U_zero "0"
| scalar_true : scalar_text CLI_PropertyType_Bool (U_b true) "true"
| scalar_false : scalar_text CLI_PropertyType_Bool (U_b false) "false"
| scalar_bool_zero : scalar_text CLI_PropertyType_Bool U_zero "false"
| scalar_string (text : string) : scalar_text CLI_PropertyType_String (U_s text) text.

(** The line of a property in the output of [ConsolePrinter]: a label
    of [column] characters that begins with the indentation and the
    name and is filled with spaces, the separator, the texts of the
    values separated by single spaces, and a line feed. *)
Definition property_line (indentation column : nat) (p : PropertyView) (line : string) : Prop :=
  exists name texts,
    pv_name p = Some name /\
    Forall2 (scalar_text (pv_type p)) (pv_values p) texts /\
    line = (spaces (2 * indentation) +:+ name
              +:+ spaces (column - 2 * indentation - String.length name))
             +:+ " : " +:+ String.concat " " texts +:+ nl /\
    String.length (spaces (2 * indentation) +:+ name
                     +:+ spaces (column - 2 * indentation - String.length name)) = column.

(** The text of a node in the output of [ConsolePrinter] at a level
    of indentation: the line of its name, the lines of its properties
    aligned to the widest property name of the node, and the texts of
    its children one level deeper, each followed by a line feed. *)
#[local] Unset Elimination Schemes.
Inductive console_node : nat -> NodeView -> string -> Prop :=
| console_node_intro (k : nat) (name : string) (kind : cstr) (ps : list PropertyView)
    (cs : list NodeView) (lines below : list string) :
    Forall2 (property_line (S k) (2 * S k + widest ps)) ps lines ->
    Forall2 (console_node (S k)) cs below ->
    console_node k (mkNodeView (Some name) kind ps cs)
      (spaces (2 * k) +:+ name +:+ nl +:+ joined lines
         +:+ joined (map (fun text => text +:+ nl) below)).
#[local] Set Elimination Schemes.

(** The element of a property in the output of [XmlPrinter]: the
    attributes [Name] and [Type], and one element [Value] per value. *)
Definition type_name (type : cliPropertyType) : string :=
  match type with
  | CLI_PropertyType_Bool => "bool"
  | CLI_PropertyType_Int64 => "int64"
  | CLI_PropertyType_String => "string"
  end.

Definition xml_property (p : PropertyView) (text : string) : Prop :=
  exists name texts,
    pv_name p = Some name /\
    Forall2 (scalar_text (pv_type p)) (pv_values p) texts /\
    text = xml_tag "Property" [("Name", name); ("Type", type_name (pv_type p))]
             (map (fun t => xml_tag "Value" [] [t]) texts).

(** The element of a node: its name, the attribute [Kind] when it has
    a kind, the elements of its properties, then those of its
    children. *)
#[local] Unset Elimination Schemes.
Inductive xml_node : NodeView -> string -> Prop :=
| xml_node_intro (name : string) (kind : cstr) (ps : list PropertyView)
    (cs : list NodeView) (ptexts ctexts : list string) :
    Forall2 xml_property ps ptexts ->
    Forall2 xml_node cs ctexts ->
    xml_node (mkNodeView (Some name) kind ps cs)
      (xml_tag name (match kind with Some k => [("Kind", k)] | None => [] end)
         (ptexts ++ ctexts)).
#[local] Set Elimination Schemes.

(** The text of one value in the output of [JsonPrinter]: a string
    between double quotes, a number or a truth value bare. *)
Definition json_scalar (type : cliPropertyType) (v : cliUnion) (text : string) : Prop :=
  exists t,
    scalar_text type v t /\
    text = match type with
           | CLI_PropertyType_String => dq +:+ t +:+ dq
           | _ => t
           end.

(** The text of a property in the output of [JsonPrinter]: the name,
    [ = ], and the bare text of the value when there is exactly one
    value, else the texts of the values separated by commas between
    brackets. *)
Definition json_property (p : PropertyView) (text : string) : Prop :=
  exists name texts,
    pv_name p = Some name /\
    Forall2 (json_scalar (pv_type p)) (pv_values p) texts /\
    text = dq +:+ name +:+ dq +:+ " = "
             +:+ match texts with
                 | [t] => t
                 | _ => "[" +:+ String.concat "," texts +:+ "]"
                 end.

(** What stands behind [Properties] and [Children]: the empty object
    for no text, else the texts separated by commas. *)
Definition json_members (texts : list string) : string :=
  match texts with
  | [] => "{}"
  | _ :: _ => String.concat "," texts
  end.

#[local] Unset Elimination Schemes.
Inductive json_node : NodeView -> string -> Prop :=
| json_node_intro (name : string) (kind : cstr) (ps : list PropertyView)
    (cs : list NodeView) (ptexts ctexts : list string) :
    Forall2 json_property ps ptexts ->
    Forall2 json_node cs ctexts ->
    json_node (mkNodeView (Some name) kind ps cs)
      ("{ " +:+ dq +:+ name +:+ dq +:+ " : {" +:+ member "Properties" (json_members ptexts)
         +:+ ", " +:+ member "Children" (json_members ctexts) +:+ "}").
#[local] Set Elimination Schemes.


(** ** The pool at the level of bytes (lib/clInfo.cpp, [struct Pool])

    The model of the library above keeps the cells of the pool by
    type.  Here [Pool::Allocate] is embedded as written, on blocks of
    bytes, together with the copy that [CreateValue] makes of a
    string.  A block is a function from offsets to bytes; a pointer
    into the pool is a block of the list [blocks_] (whose elements
    never move) and an offset. *)
Module BytePool.

Definition address : Type := nat * Z.

Record state := mk_state {
  blocks_ : list (Z -> ascii);
  currentBlock_ : option nat;
  currentBlockOffset_ : Z
}.

(** A default-constructed pool: no block, no current block, and the
    offset at [BlockSize]. *)
Definition fresh : state := mk_state [] None BlockSize.

(** [std::vector<unsigned char> (BlockSize)]: value-initialised. *)
Definition zero_block : Z -> ascii := fun _ => NUL.

(** [void* Allocate (int size)] *)
Definition Allocate (size : Z) (st : state) : outcome address * state :=
  if ((size <? 0) || (size >=? BlockSize))%Z then (BadAlloc, st)
  else
    let st :=
      if (currentBlockOffset_ st + size >? BlockSize)%Z
      then mk_state (blocks_ st ++ [zero_block]) (Some (length (blocks_ st))) 0
      else st in
    let size := ((size + 7) / 8 * 8)%Z in
    match currentBlock_ st with
    | None => (Stuck, st)
    | Some b =>
        (Ok (b, currentBlockOffset_ st),
         mk_state (blocks_ st) (currentBlock_ st) (currentBlockOffset_ st + size)%Z)
    end.

(** Reading and writing one byte through a pointer; outside the block
    the access is undefined. *)
Definition in_block (offset : Z) : bool := ((0 <=? offset) && (offset <? BlockSize))%Z.

Definition load (st : state) (a : address) : option ascii :=
  match blocks_ st !! fst a with
  | Some block => if in_block (snd a) then Some (block (snd a)) else None
  | None => None
  end.

Definition store (st : state) (a : address) (c : ascii) : option state :=
  match blocks_ st !! fst a with
  | Some block =>
      if in_block (snd a)
      then Some (mk_state
                   (<[fst a := fun offset => if (offset =? snd a)%Z then c else block offset]>
                      (blocks_ st))
                   (currentBlock_ st) (currentBlockOffset_ st))
      else None
  | None => None
  end.

(** [memcpy (dest, src, n)] for the [n] bytes [src]. *)
Fixpoint memcpy (st : state) (dest : address) (src : list ascii) : option state :=
  match src with
  | [] => Some st
  | c :: src' =>
      match store st dest c with
      | Some st => memcpy st (fst dest, snd dest + 1)%Z src'
      | None => None
      end
  end.

(** The C string that starts at an address: the bytes up to the first
    NUL; [fuel] bounds the bytes read. *)
Fixpoint c_string (fuel : nat) (st : state) (a : address) : option string :=
  match fuel with
  | O => None
  | S fuel' =>
      match load st a with
      | None => None
      | Some c =>
          if Ascii.eqb c NUL then Some EmptyString
          else match c_string fuel' st (fst a, snd a + 1)%Z with
               | Some s => Some (String c s)
               | None => None
               end
      end
  end.

(** [sizeof (cliValue)] (a union of eight bytes and a pointer) and the
    size of a pointer on a 64-bit host. *)
Definition sizeof_cliValue : Z := 16.
Definition sizeof_pointer : nat := 8.

Section WithPointers.

(** The bytes that represent a pointer are those of the platform. *)
Context (pointer_bytes : address -> list ascii).

(** [CreateValue] for a [const char*] argument: the cell [v], the copy
    [s] of the string without its terminator, and the assignment of
    [s] to the member [s] of the cell, at offset 0 of the cell. *)
Definition CreateValue (value : string) (st : state) : outcome (address * address) * state :=
  match Allocate sizeof_cliValue st with
  | (Ok v, st) =>
      let l := Z.of_nat (String.length value) in
      match Allocate (static_cast_int l + 1) st with
      | (Ok s, st) =>
          match memcpy st s (list_ascii_of_string value) with
          | Some st =>
              match memcpy st v (pointer_bytes s) with
              | Some st => (Ok (v, s), st)
              | None => (Stuck, st)
              end
          | None => (Stuck, st)
          end
      | (BadAlloc, st) => (BadAlloc, st)
      | (Stuck, st) => (Stuck, st)
      end
  | (BadAlloc, st) => (BadAlloc, st)
  | (Stuck, st) => (Stuck, st)
  end.

End WithPointers.

(** What the proofs say about a pool: a range of bytes, ranges that do
    not meet, the ranges handed out so far, and the state of a pool
    that [Allocate] maintains. *)
Definition range : Type := address * Z.

Definition disjoint (r1 r2 : range) : Prop :=
  fst (fst r1) <> fst (fst r2) \/
  (snd (fst r1) + snd r1 <= snd (fst r2))%Z \/
  (snd (fst r2) + snd r2 <= snd (fst r1))%Z.

Definition within_block (r : range) : Prop :=
  (0 <= snd (fst r) /\ 0 <= snd r /\ snd (fst r) + snd r <= BlockSize)%Z.

(** A range lies in the part of the pool that has been handed out: in
    a block before the current one, or below the offset of the current
    block. *)
Definition handed_out (st : state) (r : range) : Prop :=
  within_block r /\
  exists current, currentBlock_ st = Some current /\
    (fst (fst r) < current \/
     (fst (fst r) = current /\ (snd (fst r) + snd r <= currentBlockOffset_ st)%Z)).

Definition well_formed (st : state) : Prop :=
  (0 <= currentBlockOffset_ st <= BlockSize)%Z /\
  (currentBlockOffset_ st mod 8 = 0)%Z /\
  match currentBlock_ st with
  | None => blocks_ st = [] /\ currentBlockOffset_ st = BlockSize
  | Some current =>
      S current = length (blocks_ st) /\
      exists block, blocks_ st !! current = Some block /\
        forall offset, (currentBlockOffset_ st <= offset < BlockSize)%Z -> block offset = NUL
  end.

(** A sequence of allocations. *)
Fixpoint Allocate_all (sizes : list Z) (st : state) : outcome (list range) * state :=
  match sizes with
  | [] => (Ok [], st)
  | size :: sizes' =>
      match Allocate size st with
      | (Ok a, st) =>
          match Allocate_all sizes' st with
          | (Ok rs, st) => (Ok ((a, size) :: rs), st)
          | (BadAlloc, st) => (BadAlloc, st)
          | (Stuck, st) => (Stuck, st)
          end
      | (BadAlloc, st) => (BadAlloc, st)
      | (Stuck, st) => (Stuck, st)
      end
  end.

(** Two states with the same blocks in number, the same current block
    and the same offset: what a store into the pool keeps. *)
Definition same_shape (st st' : state) : Prop :=
  currentBlock_ st' = currentBlock_ st /\
  currentBlockOffset_ st' = currentBlockOffset_ st /\
  length (blocks_ st') = length (blocks_ st).

End BytePool.

(** ** Trees in the pool

    [node_tree p a hi view]: the node at address [a] and what hangs
    below it read as [view], and every node cell of this subtree lies
    at an address from [a] up to, not including, [hi].  The link of
    the node at [a] to its next sibling is no part of the subtree.
    The children of a node lie above it, in the order of their
    addresses, each with its subtree below the next child. *)
Fixpoint node_tree (p : Pool) (a hi : nat) (view : NodeView) {struct view} : Prop :=
  match view with
  | mkNodeView name kind ps cs =>
      a < hi /\
      exists c, nodes p !! a = Some c /\ n_name c = name /\ n_kind c = kind /\
        property_list p (n_firstProperty c) ps /\
        exists l, chain n_next (nodes p) (n_firstChild c) l /\
          (fix children (cs : list NodeView) (lo : nat) (l : list nat) {struct cs} : Prop :=
             match cs, l with
             | [], [] => True
             | v :: cs', a' :: l' =>
                 lo < a' /\
                 node_tree p a' (match l' with [] => hi | b :: _ => b end) v /\
                 children cs' a' l'
             | _, _ => False
             end) cs a l
  end.

(** The subtrees of the siblings at the addresses [l], between [lo]
    and [hi]. *)
Fixpoint sibling_trees (tree : nat -> nat -> NodeView -> Prop) (lo hi : nat)
    (l : list nat) (cs : list NodeView) {struct cs} : Prop :=
  match cs, l with
  | [], [] => True
  | v :: cs', a' :: l' =>
      lo < a' /\
      tree a' (match l' with [] => hi | b :: _ => b end) v /\
      sibling_trees tree a' hi l' cs'
  | _, _ => False
  end.

(** What a piece of the library that builds a subtree keeps of the
    pool: the value and property cells there were, and the node cells
    below [base]. *)
Definition cells_kept (p p' : Pool) : Prop :=
  (exists ext, values p' = values p ++ ext) /\
  (exists ext, properties p' = properties p ++ ext).

Definition grows_from (base : nat) (p p' : Pool) : Prop :=
  cells_kept p p' /\
  length (nodes p) <= length (nodes p') /\
  forall x, x < base -> nodes p' !! x = nodes p !! x.

(** The node cell at [a] but for one link. *)
Definition node_kept (a : nat) (p p' : Pool) : Prop :=
  forall c, nodes p !! a = Some c ->
    exists c', nodes p' !! a = Some c' /\
               n_name c' = n_name c /\ n_kind c' = n_kind c /\
               n_firstChild c' = n_firstChild c /\ n_firstProperty c' = n_firstProperty c.

Definition parent_kept (a : nat) (p p' : Pool) : Prop :=
  forall c, nodes p !! a = Some c ->
    exists c', nodes p' !! a = Some c' /\
               n_name c' = n_name c /\ n_kind c' = n_kind c /\
               n_next c' = n_next c /\ n_firstProperty c' = n_firstProperty c.

(** The state of a list of children under construction: the children
    of [parent] read as [views], below [hi], and [last_] is null or the
    last of them. *)
Definition children_state (p : Pool) (parent hi : nat) (last_ : ptr)
    (views : list NodeView) : Prop :=
  parent < hi /\ hi <= length (nodes p) /\
  exists c l,
    nodes p !! parent = Some c /\
    chain n_next (nodes p) (n_firstChild c) l /\
    sibling_trees (node_tree p) parent hi l views /\
    match last_ with
    | Some x => last l = Some x
    | None => True
    end.

(** The pool after the code that links a child: behind [last_] when
    there is one, else as the first child of [parent]. *)
Definition linked_child (parent : nat) (last_ : ptr) (new : ptr) (p : Pool) : Pool :=
  mkPool (values p) (properties p)
    (match last_ with
     | Some l => alter (set_n_next new) l (nodes p)
     | None => alter (set_n_firstChild new) parent (nodes p)
     end).

(** ** What [GatherContextInfo] builds *)

Section ImageFormatViews.
Context {hdr : cl_h} (drv : Driver).

(** The node of one supported image format. *)
Definition format_view (format : cl_image_format) : NodeView :=
  mkNodeView (Some "Format") None
    [ mkPropertyView (Some "ChannelOrder") None CLI_PropertyType_String
        [U_s (ChannelOrderToString (image_channel_order format))];
      mkPropertyView (Some "ChannelDataType") None CLI_PropertyType_String
        [U_s (ChannelDataTypeToString (image_channel_data_type format))] ]
    [].

(** The cells of such a node, in a pool [p]. *)
Definition with_format (p : Pool) (format : cl_image_format) : Pool :=
  mkPool
    (values p ++
       [ mkValue (U_s (ChannelOrderToString (image_channel_order format))) None;
         mkValue (U_s (ChannelDataTypeToString (image_channel_data_type format))) None ])
    (properties p ++
       [ mkProperty (Some (length (values p))) (Some "ChannelOrder") None
           (Some (S (length (properties p)))) CLI_PropertyType_String;
         mkProperty (Some (S (length (values p)))) (Some "ChannelDataType") None
           None CLI_PropertyType_String ])
    (nodes p ++ [mkNode (Some "Format") None None None (Some (length (properties p)))]).

(** The children of the node [ImageFormats] for the image types
    [types]: one node per image type for which the driver reports at
    least one format; or the line written when a query fails. *)
Fixpoint object_type_views (ctx : cl_context) (types : list ImageType)
    : list NodeView + Diag :=
  match types with
  | [] => inl []
  | t :: types' =>
      let '(r, numImageFormats, _) := clGetSupportedImageFormats drv ctx (it_type t) 0 in
      if (r =? CL_SUCCESS)%Z then
        if (numImageFormats =? 0)%nat then object_type_views ctx types'
        else
          let '(r, _, written) :=
            clGetSupportedImageFormats drv ctx (it_type t) numImageFormats in
          if (r =? CL_SUCCESS)%Z then
            match object_type_views ctx types' with
            | inl views =>
                inl (mkNodeView (Some "ObjectType") (Some (it_n t)) []
                       (map format_view
                          (filled (mk_cl_image_format 0 0) numImageFormats written))
                     :: views)
            | inr d => inr d
            end
          else
            inr (Failed
                   "clGetSupportedImageFormats (ctx, CL_MEM_READ_WRITE, t.type, numImageFormats, formats.data (), 0)"
                   r)
      else
        inr (Failed
               "clGetSupportedImageFormats (ctx, CL_MEM_READ_WRITE, t.type, 0, nullptr, &numImageFormats)"
               r)
  end.

(** The image types that [GatherContextInfo] asks for. *)
Definition image_types (clVersion : Version) : list ImageType :=
  if Version_ge clVersion (mkVersion 1 2) then types_CL_1_0 ++ types_CL_1_2
  else types_CL_1_0.

End ImageFormatViews.

(** The pool [p'] holds the cells of [p], unchanged, and further
    cells behind them. *)
Definition pool_extended (p p' : Pool) : Prop :=
  (exists ext, values p' = values p ++ ext) /\
  (exists ext, properties p' = properties p ++ ext) /\
  (exists ext, nodes p' = nodes p ++ ext).

(** ** What [GatherDeviceInfo] builds *)

Section DeviceViews.
Context {hdr : cl_h} (drv : Driver).

(** The text that [GatherDeviceInfo] parses as the version of a
    device, or the line of the query that fails.  The text is read
    from a [std::string], which ends in NUL. *)
Definition device_version_text (id : cl_device_id) : string + Diag :=
  let '(r, versionSize, _) := clGetDeviceInfo drv id "CL_DEVICE_VERSION" 0 in
  if (r =? CL_SUCCESS)%Z then
    let '(r, _, written) := clGetDeviceInfo drv id "CL_DEVICE_VERSION" versionSize in
    if (r =? CL_SUCCESS)%Z then
      inl (default EmptyString (c_str (filled NUL versionSize written ++ [NUL])))
    else
      inr (Failed
             "clGetDeviceInfo(id, CL_DEVICE_VERSION, versionSize, const_cast<char*> (versionString.data ()), nullptr)"
             r)
  else
    inr (Failed "clGetDeviceInfo (id, CL_DEVICE_VERSION, 0, nullptr, &versionSize)" r).

(** The children of a device node: the node [ImageFormats] when a
    context is created and every query of the image formats
    succeeds. *)
Definition device_children (id : cl_device_id) (version : Version) : list NodeView :=
  let '(result, ctx) := clCreateContext drv id in
  if (result =? CL_SUCCESS)%Z then
    match object_type_views drv ctx (image_types version) with
    | inl views => [mkNodeView (Some "ImageFormats") None [] views]
    | inr _ => []
    end
  else [].

(** A device whose answers the library can decode: its version text
    parses, and every fetch of the attributes selected for the version
    returns. *)
Definition device_answers (id : cl_device_id) : Prop :=
  match device_version_text id with
  | inl text =>
      exists version,
        ParseVersion text = Some version /\
        forall entry, entry ∈ propertiesToFetch version ->
          fetch_returns (GetValue (clGetDeviceInfo drv) id (info entry) (cf entry))
  | inr _ => True
  end.

(** What [GatherDeviceInfo] returns for a device: no node when a
    version query fails, else a node [Device] with one property per
    attribute selected for the version, in the order of the table. *)
Definition device_gathered (id : cl_device_id) (result : option NodeView) : Prop :=
  match device_version_text id with
  | inl text =>
      exists version news,
        ParseVersion text = Some version /\
        Forall2 (built_by (clGetDeviceInfo drv) id) (propertiesToFetch version) news /\
        result = Some (mkNodeView (Some "Device") None news (device_children id version))
  | inr _ => result = None
  end.

End DeviceViews.

(** ** What [GatherOpenCLInfo] builds *)

(** The loop over the devices of a platform links what
    [GatherDeviceInfo] returns behind the device linked last.  When
    [GatherDeviceInfo] returns the null pointer, the null pointer is
    linked and [last] becomes null; the device gathered next is then
    stored as the first child, which drops the children linked so far.
    [link_result] is one round of the loop on the children and on
    whether [last] is not null. *)
Definition link_result (state : list NodeView * bool) (result : option NodeView)
    : list NodeView * bool :=
  match result, snd state with
  | Some v, true => (fst state ++ [v], true)
  | Some v, false => ([v], true)
  | None, true => (fst state, false)
  | None, false => ([], false)
  end.

Definition linked_devices (results : list (option NodeView)) : list NodeView :=
  fst (fold_left link_result results ([], false)).

Section PlatformViews.
Context {hdr : cl_h} (drv : Driver).

(** The devices of a platform as [GatherOpenCLInfo] enumerates them,
    or the line of the query that fails. *)
Definition platform_devices (platformId : cl_platform_id) : list cl_device_id + Diag :=
  let '(r, numDevices, _) := clGetDeviceIDs drv platformId 0 in
  if (r =? CL_SUCCESS)%Z then
    let '(r, _, written) := clGetDeviceIDs drv platformId numDevices in
    if (r =? CL_SUCCESS)%Z then inl (filled 0%Z numDevices written)
    else
      inr (Failed
             "clGetDeviceIDs (platformId, CL_DEVICE_TYPE_ALL, numDevices, deviceIds.data (), 0)"
             r)
  else
    inr (Failed "clGetDeviceIDs (platformId, CL_DEVICE_TYPE_ALL, 0, nullptr, &numDevices)" r).

(** The line of the first platform whose devices cannot be
    enumerated. *)
Fixpoint first_failure (platformIds : list cl_platform_id) : option Diag :=
  match platformIds with
  | [] => None
  | platformId :: platformIds' =>
      match platform_devices platformId with
      | inl _ => first_failure platformIds'
      | inr d => Some d
      end
  end.

(** A platform whose answers the library can decode. *)
Definition platform_answers (platformId : cl_platform_id) : Prop :=
  (forall entry, entry ∈ infos ->
     fetch_returns (GetValue (clGetPlatformInfo drv) platformId (info entry) (cf entry))) /\
  match platform_devices platformId with
  | inl deviceIds => Forall (device_answers drv) deviceIds
  | inr _ => True
  end.

(** The node of a platform whose devices are enumerated: its
    properties, and one child [Devices] with the devices linked. *)
Definition platform_gathered (platformId : cl_platform_id) (view : NodeView) : Prop :=
  exists deviceIds news results,
    platform_devices platformId = inl deviceIds /\
    Forall2 (built_by (clGetPlatformInfo drv) platformId) infos news /\
    Forall2 (device_gathered drv) deviceIds results /\
    view = mkNodeView (Some "Platform") None news
             [mkNodeView (Some "Devices") None [] (linked_devices results)].

(** The platforms as [GatherOpenCLInfo] enumerates them, or the line
    written when there is none or a query fails. *)
Definition platforms (drv0 : Driver) : list cl_platform_id + Diag :=
  let '(r, numPlatforms, _) := clGetPlatformIDs drv0 0 in
  if (r =? CL_SUCCESS)%Z then
    if (numPlatforms <=? 0)%nat then inr (Message "Failed to find any OpenCL platform.")
    else
      let '(r, _, written) := clGetPlatformIDs drv0 numPlatforms in
      if (r =? CL_SUCCESS)%Z then inl (filled 0%Z numPlatforms written)
      else inr (Failed "clGetPlatformIDs (numPlatforms, platformIds.data (), nullptr)" r)
  else inr (Failed "clGetPlatformIDs (0, NULL, &numPlatforms)" r).

End PlatformViews.

Section GatheredTree.
Context {hdr : cl_h} (drv : Driver).

(** A driver whose answers the library can decode. *)
Definition driver_answers : Prop :=
  match platforms drv with
  | inl platformIds => Forall (platform_answers drv) platformIds
  | inr _ => True
  end.

(** The tree that [GatherOpenCLInfo] returns: none when the platforms
    or the devices of a platform cannot be enumerated, else the node
    [Platforms] with one child per platform. *)
Definition tree_gathered (tree : option NodeView) : Prop :=
  match platforms drv with
  | inl platformIds =>
      match first_failure drv platformIds with
      | None =>
          exists views,
            Forall2 (platform_gathered drv) platformIds views /\
            tree = Some (mkNodeView (Some "Platforms") None [] views)
      | Some _ => tree = None
      end
  | inr _ => tree = None
  end.

End GatheredTree.

(** ** Answers of a driver that the decoders can work on *)

(** A fetch that returns values of the type [type]. *)
Definition fetch_typed (type : cliPropertyType) (m : M ptr) : Prop :=
  forall p, exists v p' d us,
    m p = (Ok v, p', d) /\ values_grow p p' /\ value_list p' v us /\
    Forall (value_typed type) us.

(** What a decoder reads of the bytes it is given: a number of four or
    of eight bytes, as many numbers as the size says, or a text up to
    its NUL. *)
Inductive DecoderKind := Word4 | Word8 | Words | Text.

(** The bytes fit a decoder of this kind: the number is there; the NUL
    of the text is, and the text fits a block of the pool. *)
Definition fits (kind : DecoderKind) (buffer : list ascii) : Prop :=
  match kind with
  | Word4 => 4 <= length buffer
  | Word8 => 8 <= length buffer
  | Words => True
  | Text => NUL ∈ buffer /\ (Z.of_nat (length buffer) < BlockSize)%Z
  end.

Section Kinds.
Context {hdr : cl_h}.

(** The decoders of the library with what they read and the member of
    the union they write. *)
Inductive decoder_kind : CreateFunc -> DecoderKind -> cliPropertyType -> Prop :=
| kind_CreateChar : decoder_kind CreateChar Text CLI_PropertyType_String
| kind_CreateCharList : decoder_kind CreateCharList Text CLI_PropertyType_String
| kind_CreateUInt : decoder_kind CreateUInt Word4 CLI_PropertyType_Int64
| kind_CreateULong : decoder_kind CreateULong Word8 CLI_PropertyType_Int64
| kind_CreateSizeT : decoder_kind CreateSizeT Word8 CLI_PropertyType_Int64
| kind_CreateSizeTList : decoder_kind CreateSizeTList Words CLI_PropertyType_Int64
| kind_CreateBool : decoder_kind CreateBool Word4 CLI_PropertyType_Bool
| kind_CreateDeviceFPConfig :
    decoder_kind CreateDeviceFPConfig Word8 CLI_PropertyType_String
| kind_CreateDeviceExecCapabilities :
    decoder_kind CreateDeviceExecCapabilities Word8 CLI_PropertyType_String
| kind_CreateDeviceMemCacheType :
    decoder_kind CreateDeviceMemCacheType Word4 CLI_PropertyType_String
| kind_CreateDeviceLocalMemType :
    decoder_kind CreateDeviceLocalMemType Word4 CLI_PropertyType_String
| kind_CreateDeviceAffinityDomain :
    decoder_kind CreateDeviceAffinityDomain Word8 CLI_PropertyType_String
| kind_CreateDevicePartitionProperty :
    decoder_kind CreateDevicePartitionProperty Word8 CLI_PropertyType_String
| kind_CreateCommandQueueProperties :
    decoder_kind CreateCommandQueueProperties Word8 CLI_PropertyType_String
| kind_CreateDeviceType : decoder_kind CreateDeviceType Word8 CLI_PropertyType_String
| kind_CreateDeviceSVMCapabilities :
    decoder_kind CreateDeviceSVMCapabilities Word8 CLI_PropertyType_String.

(** An entry of a table with a name, and with a decoder of the
    library that writes the member of the union that the type of the
    entry names. *)
Definition entry_typed {T} (entry : PropertyFetcher T) : Prop :=
  n entry <> None /\ exists kind, decoder_kind (cf entry) kind (type entry).

Section Answers.
Context {O I : Type} (f : GetInfoFunction O I).

(** The answer of the driver for the attribute of an entry: when both
    queries succeed and the size is not 0, the bytes fit the decoder
    of the entry. *)
Definition answer_fits (clObject : O) (entry : PropertyFetcher I) : Prop :=
  let '(r, size, _) := f clObject (info entry) 0 in
  if ((r =? CL_SUCCESS)%Z && negb (size =? 0)%nat)%bool then
    let '(r', _, written) := f clObject (info entry) size in
    if (r' =? CL_SUCCESS)%Z then
      exists kind, decoder_kind (cf entry) kind (type entry) /\
                   fits kind (filled NUL size written)
    else True
  else True.

End Answers.
End Kinds.

Section FittingDriver.
Context {hdr : cl_h} (drv : Driver).

(** A driver whose answers fit the decoders: the answer for every
    attribute of the platform table and of the device tables fits the
    decoder of its entry, and the version text of every device
    parses. *)
Definition driver_fits : Prop :=
  (forall platformId entry,
     entry ∈ infos -> answer_fits (clGetPlatformInfo drv) platformId entry) /\
  (forall id version entry,
     entry ∈ propertiesToFetch version -> answer_fits (clGetDeviceInfo drv) id entry) /\
  (forall id text, device_version_text drv id = inl text -> ParseVersion text <> None).

End FittingDriver.

(** The text that the driver reports for an attribute that is decoded
    by [CreateChar]: none when a query fails, when the size is 0, or
    when the bytes hold no NUL. *)
Definition attribute_text {hdr : cl_h} {O I : Type} (f : GetInfoFunction O I)
    (clObject : O) (info : I) : option string :=
  let '(r, size, _) := f clObject info 0 in
  if ((r =? CL_SUCCESS)%Z && negb (size =? 0)%nat)%bool then
    let '(r', _, written) := f clObject info size in
    if (r' =? CL_SUCCESS)%Z then c_str (filled NUL size written) else None
  else None.

(** ** A driver with contexts and image formats *)

(** A driver with the platforms [platforms], each with the devices
    [devices].  The devices in [broken] fail every query of
    [clGetDeviceInfo] with [CL_INVALID_VALUE]; the others report
    [version] for [CL_DEVICE_VERSION] and the eight bytes
    1 0 0 0 0 0 0 0 for every other attribute.  Every platform reports
    the text [Mock platform] for every attribute, every device gets a
    context, and every image type has the formats [formats]. *)
Definition mock_driver (platforms : list cl_platform_id) (devices : list cl_device_id)
    (version : string) (broken : list cl_device_id) (formats : list cl_image_format)
    : Driver :=
  mkDriver
    (answer platforms)
    (fun _ _ size => answer (bytes_of "Mock platform") size)
    (fun _ => answer devices)
    (fun id name size =>
       if bool_decide (id ∈ broken) then (CL_INVALID_VALUE, 0, [])
       else if String.eqb name "CL_DEVICE_VERSION" then answer (bytes_of version) size
       else answer (ascii_of_nat 1 :: replicate 7 NUL) size)
    (fun id => (0%Z, id))
    (fun _ _ => answer formats).

(** One platform with three devices, of which the second fails its
    queries; one image format (RGBA, 8-bit normalised) per image
    type. *)
Definition sample_mock_driver : Driver :=
  mock_driver [1%Z] [10%Z; 11%Z; 12%Z] "OpenCL 1.2 Mock" [11%Z]
    [mk_cl_image_format 4277 4306].

(** * Properties *)

Section VersionOrder.
Local Open Scope Z_scope.

Ltac version_cases :=
  repeat match goal with
         | v : Version |- _ => destruct v
         end;
  unfold Version_eq, Version_ne, Version_lt, Version_le, Version_ge,
    Version_gt, lex_lt; simpl;
  repeat match goal with
         | |- context [?x =? ?y] => destruct (Z.eqb_spec x y)
         | |- context [?x <? ?y] => destruct (Z.ltb_spec x y)
         | |- context [?x <=? ?y] => destruct (Z.leb_spec x y)
         | |- context [?x >? ?y] => rewrite (Z.gtb_ltb x y)
         | |- context [?x >=? ?y] => rewrite (Z.geb_leb x y)
         end; simpl.

Lemma Version_eq_true a b : Version_eq a b = true <-> a = b.
Proof.
  version_cases; split; intros Hab; try discriminate; try congruence;
    injection Hab; intros; lia.
Qed.

Lemma Version_lt_lex a b : Version_lt a b = true <-> lex_lt a b.
Proof. version_cases; split; intros Hab; try discriminate; try lia; auto. Qed.

Lemma Version_le_lt_eq a b : Version_le a b = Version_lt a b || Version_eq a b.
Proof. version_cases; try reflexivity; lia. Qed.

Lemma Version_le_total a b : Version_le a b = true \/ Version_le b a = true.
Proof. version_cases; auto; lia. Qed.

Lemma Version_le_trans a b c :
  Version_le a b = true -> Version_le b c = true -> Version_le a c = true.
Proof. version_cases; intros; try discriminate; try reflexivity; lia. Qed.

Lemma Version_le_antisym a b :
  Version_le a b = true -> Version_le b a = true -> a = b.
Proof.
  version_cases; intros; try discriminate; try lia; f_equal; lia.
Qed.

(** C7. The six relational operators of [Version] describe one total
    order, the lexicographic order on (major, then minor): [<] is the
    lexicographic strict order, [==] is equality of both fields, [<=] is
    "[<] or [==]", [>=], [>] and [!=] are the converses and the
    complement, [<=] is reflexive, antisymmetric, transitive and total,
    and (1,2) < (2,0), (1,1) < (1,2), (2,0) >= (2,0). *)
Theorem Version_total_order :
  (forall a b, Version_lt a b = true <-> lex_lt a b) /\
  (forall a b, Version_eq a b = true <-> a = b) /\
  (forall a b, Version_le a b = Version_lt a b || Version_eq a b) /\
  (forall a b, Version_ge a b = Version_le b a) /\
  (forall a b, Version_gt a b = Version_lt b a) /\
  (forall a b, Version_ne a b = negb (Version_eq a b)) /\
  (forall a, Version_le a a = true) /\
  (forall a b, Version_le a b = true -> Version_le b a = true -> a = b) /\
  (forall a b c,
      Version_le a b = true -> Version_le b c = true -> Version_le a c = true) /\
  (forall a b, Version_le a b = true \/ Version_le b a = true) /\
  (forall a b, Version_lt a b = negb (Version_le b a)) /\
  Version_lt (mkVersion 1 2) (mkVersion 2 0) = true /\
  Version_lt (mkVersion 1 1) (mkVersion 1 2) = true /\
  Version_ge (mkVersion 2 0) (mkVersion 2 0) = true.
Proof.
  repeat split.
  - apply Version_lt_lex.
  - apply Version_lt_lex.
  - apply Version_eq_true.
  - apply Version_eq_true.
  - apply Version_le_lt_eq.
  - intros a b. version_cases; try reflexivity; lia.
  - intros a b. version_cases; try reflexivity; lia.
  - intros a b. version_cases; reflexivity.
  - intros a. version_cases; try reflexivity; lia.
  - apply Version_le_antisym.
  - apply Version_le_trans.
  - apply Version_le_total.
  - intros a b. version_cases; try reflexivity; lia.
Qed.

End VersionOrder.

(** Decides a closed decidable proposition by evaluation. *)
Ltac decide_by_compute :=
  match goal with |- ?G => apply (bool_decide_unpack G); vm_compute; exact I end.

Ltac split_all := repeat match goal with |- _ /\ _ => split end.

(** Splits a conjunction into its parts, unfolding definitions of
    conjunctions on the way. *)
Ltac split_unfold :=
  repeat match goal with
         | |- _ /\ _ => split
         | |- ?G =>
             let G' := eval hnf in G in
             match G' with _ /\ _ => change G'; split end
         end.

(** ** Regions of the pool *)

Lemma lookup_fresh {A} (l : list A) (x : A) : (l ++ [x]) !! length l = Some x.
Proof. apply list_lookup_middle. reflexivity. Qed.

Lemma insert_fresh {A} (l : list A) (x y : A) : <[length l := y]> (l ++ [x]) = l ++ [y].
Proof.
  replace (length l) with (length l + 0) by lia.
  rewrite insert_app_r. reflexivity.
Qed.

Lemma alter_insert {A} (f : A -> A) (l : list A) (a : nat) (c : A) :
  l !! a = Some c -> alter f a l = <[a := f c]> l.
Proof.
  intros Ha. rewrite list_insert_alter.
  apply list_alter_ext; [intros x Hx; congruence | reflexivity].
Qed.

Lemma alter_fresh {A} (f : A -> A) (l : list A) (x : A) :
  alter f (length l) (l ++ [x]) = l ++ [f x].
Proof. rewrite (alter_insert f _ _ x) by apply lookup_fresh. apply insert_fresh. Qed.

(** ** The document API *)

Section DocumentAPI.
Context {hdr : cl_h}.

Lemma cliInfo_Gather_populated (drv : Driver) (info : cliInfo) (r : nat) :
  root info = Some r -> cliInfo_Gather drv info = Some (CLI_Error, info, []).
Proof. intros Hroot. unfold cliInfo_Gather. rewrite Hroot. reflexivity. Qed.

(** [GatherOpenCLInfo] when the driver reports success and zero
    platforms: the root node is allocated and named, the message is
    written, and the null pointer is returned. *)
Lemma GatherOpenCLInfo_no_platform (drv : Driver) (written : list cl_platform_id) (p : Pool) :
  clGetPlatformIDs drv 0 = (CL_SUCCESS, 0, written) ->
  GatherOpenCLInfo drv p =
    (Ok None,
     mkPool (values p) (properties p)
       (nodes p ++ [mkNode (Some "Platforms") None None None None]),
     [Message "Failed to find any OpenCL platform."]).
Proof.
  intros Hids. unfold GatherOpenCLInfo, bind, Allocate_cliNode, store_node.
  cbn [nodes values properties].
  rewrite lookup_fresh, insert_fresh.
  rewrite Hids. unfold NIV_SAFE_CL. rewrite Z.eqb_refl. reflexivity.
Qed.

(** C8. A gather on a document whose root is already set returns
    [CLI_Error], changes nothing in the document (pool and root) and
    writes nothing. *)
Theorem cliInfo_Gather_second_call (drv : Driver) (info : cliInfo) :
  root info <> None -> cliInfo_Gather drv info = Some (CLI_Error, info, []).
Proof.
  intros Hroot. destruct (root info) as [r|] eqn:E; [|congruence].
  eapply cliInfo_Gather_populated; eassumption.
Qed.

(** C10. [cliInfo_Create] with a null output pointer returns
    [CLI_Error] and creates nothing; with a valid one it stores a
    document whose root is null.  [cliInfo_GetRoot] returns [CLI_Error]
    and leaves the output variable as it was when the document pointer
    is null, the output pointer is null or the root is null; it returns
    [CLI_Success] exactly when all three are non-null, and then stores
    the root.  A fresh document yields no root, and after a gather on a
    document without root [cliInfo_GetRoot] succeeds exactly when
    [GatherOpenCLInfo] returned a root node, which it then yields. *)
Theorem cliInfo_null_safe :
  cliInfo_Create None = (CLI_Error, None) /\
  (forall old, exists doc,
      cliInfo_Create (Some old) = (CLI_Success, Some (Some doc)) /\
      root doc = None /\
      forall out, cliInfo_GetRoot (Some doc) out = (CLI_Error, out)) /\
  (forall out, cliInfo_GetRoot None out = (CLI_Error, out)) /\
  (forall info, cliInfo_GetRoot info None = (CLI_Error, None)) /\
  (forall doc out, root doc = None -> cliInfo_GetRoot (Some doc) out = (CLI_Error, out)) /\
  (forall doc r old,
      root doc = Some r ->
      cliInfo_GetRoot (Some doc) (Some old) = (CLI_Success, Some (Some r))) /\
  (forall info out out',
      cliInfo_GetRoot info out = (CLI_Success, out') ->
      exists doc r old,
        info = Some doc /\ root doc = Some r /\ out = Some old /\ out' = Some (Some r)) /\
  (forall info out st out',
      cliInfo_GetRoot info out = (st, out') -> st = CLI_Error -> out' = out) /\
  (forall drv doc st doc' d old,
      root doc = None ->
      cliInfo_Gather drv doc = Some (st, doc', d) ->
      match fst (fst (GatherOpenCLInfo drv (pool doc))) with
      | Ok (Some r) => cliInfo_GetRoot (Some doc') (Some old) = (CLI_Success, Some (Some r))
      | _ => cliInfo_GetRoot (Some doc') (Some old) = (CLI_Error, Some old)
      end).
Proof.
  split_all.
  - reflexivity.
  - intros old. eexists. split_all; [reflexivity | reflexivity |].
    intros out. reflexivity.
  - reflexivity.
  - intros info. destruct info as [doc|]; [|reflexivity].
    unfold cliInfo_GetRoot. destruct (root doc); reflexivity.
  - intros doc out Hroot. unfold cliInfo_GetRoot. rewrite Hroot. reflexivity.
  - intros doc r old Hroot. unfold cliInfo_GetRoot. rewrite Hroot. reflexivity.
  - intros info out out' Hget. unfold cliInfo_GetRoot in Hget.
    destruct info as [doc|]; [|discriminate].
    destruct (root doc) as [r|] eqn:Hroot; [|discriminate].
    destruct out as [old|]; [|discriminate].
    injection Hget as <-. exists doc, r, old. auto.
  - intros info out st out' Hget ->. unfold cliInfo_GetRoot in Hget.
    destruct info as [doc|]; [|congruence].
    destruct (root doc) as [r|]; [|congruence].
    destruct out as [old|]; congruence.
  - intros drv doc st doc' d old Hroot Hgather. unfold cliInfo_Gather in Hgather.
    rewrite Hroot in Hgather.
    destruct (GatherOpenCLInfo drv (pool doc)) as [[[r| |] p] d0]; cbn;
      try discriminate; injection Hgather as <- <- <-;
      [destruct r as [r|]|]; reflexivity.
Qed.

End DocumentAPI.

(** The second gather of a document that a first gather populated (one
    platform without devices). *)
Lemma cliInfo_Gather_second_call_witness :
  exists info d,
    cliInfo_Gather (sample_driver [1%Z] [] "" []) (mk_cliInfo empty_pool None)
      = Some (CLI_Success, info, d) /\
    root info = Some 0 /\
    cliInfo_Gather (sample_driver [1%Z] [] "" []) info = Some (CLI_Error, info, []).
Proof.
  eexists. eexists. split; [vm_compute; reflexivity|]. split; [reflexivity|].
  apply cliInfo_Gather_second_call. discriminate.
Defined.

(** C5. A driver that reports success and zero platforms: the gather
    writes its message and leaves the root null, so that
    [cliInfo_GetRoot] yields no tree, but the status it returns is
    [CLI_Success]. *)
Theorem cliInfo_Gather_zero_platforms :
  exists info,
    cliInfo_Gather (sample_driver [] [] "" []) (mk_cliInfo empty_pool None)
      = Some (CLI_Success, info, [Message "Failed to find any OpenCL platform."]) /\
    root info = None /\
    (forall out, cliInfo_GetRoot (Some info) out = (CLI_Error, out)).
Proof.
  eexists. split; [vm_compute; reflexivity|]. split; [reflexivity|].
  intros out. reflexivity.
Qed.

(** ** The structured-data printer *)

Lemma append_assoc (a b c : string) :
  String.append (String.append a b) c = String.append a (String.append b c).
Proof.
  induction a as [|x a IH]; [reflexivity|].
  change (String x (String.append (String.append a b) c)
          = String x (String.append a (String.append b c))).
  rewrite IH. reflexivity.
Qed.

Lemma append_empty_r (a : string) : String.append a EmptyString = a.
Proof.
  induction a as [|x a IH]; [reflexivity|].
  change (String x (String.append a EmptyString) = String x a).
  rewrite IH. reflexivity.
Qed.

Lemma append_empty_l (a : string) : String.append EmptyString a = a.
Proof. reflexivity. Qed.

Ltac stream_normalize :=
  unfold member, put; rewrite ?append_assoc, ?append_empty_l.

Lemma put_put (s a b : string) : s << a << b = s << String.append a b.
Proof. unfold put. apply append_assoc. Qed.

Lemma OnValue_text (s : string) (type : cliPropertyType) (v : cliUnion) :
  JsonPrinter.OnValue s type v =
    match value_text type v with
    | Some text => Some (s << text)
    | None => None
    end.
Proof.
  unfold value_text, JsonPrinter.OnValue.
  destruct type.
  - destruct (read_i v); reflexivity.
  - destruct (read_b v) as [[|]|]; reflexivity.
  - destruct (read_s v); [|reflexivity].
    f_equal. rewrite !put_put. reflexivity.
Qed.

(** The value loop writes the texts of the values separated by commas. *)
Lemma OnValues_concat (type : cliPropertyType) (vs : list cliUnion) :
  forall (s : string) (texts : list string),
    Forall2 (fun v text => value_text type v = Some text) vs texts ->
    JsonPrinter.OnValues s type vs = Some (s << String.concat "," texts).
Proof.
  induction vs as [|v vs IH]; intros s texts Hall.
  - apply Forall2_nil_inv_l in Hall as ->. cbn. unfold put.
    rewrite append_empty_r. reflexivity.
  - apply Forall2_cons_inv_l in Hall as (text & texts' & Htext & Hall & ->).
    cbn [JsonPrinter.OnValues]. rewrite OnValue_text, Htext.
    destruct vs as [|v2 vs].
    + apply Forall2_nil_inv_l in Hall as ->. reflexivity.
    + rewrite (IH _ _ Hall).
      apply Forall2_cons_inv_l in Hall as (text2 & texts2 & _ & _ & ->).
      f_equal. cbn [String.concat]. rewrite !put_put. reflexivity.
Qed.

(** Induction on a tree with the hypothesis for every child. *)
Lemma NodeView_forall_ind (P : NodeView -> Prop) :
  (forall name kind ps cs, Forall P cs -> P (mkNodeView name kind ps cs)) ->
  forall node, P node.
Proof.
  intros Hnode. fix IH 1. intros [name kind ps cs]. apply Hnode.
  induction cs as [|c cs IHcs]; constructor; [apply IH | exact IHcs].
Qed.

Lemma OnNode_unfold (s : string) (node : NodeView) :
  JsonPrinter.OnNode s node =
    match nv_name node with
    | None => None
    | Some name =>
        let s := s << "{ " << dq << name << dq << " : {" in
        let s := s << dq << "Properties" << dq << " : " in
        match match nv_properties node with
              | _ :: _ => JsonPrinter.OnProperties s (nv_properties node)
              | [] => Some (s << "{}")
              end with
        | None => None
        | Some s =>
            let s := s << ", " << dq << "Children" << dq << " : " in
            match match nv_children node with
                  | _ :: _ => JsonPrinter.OnChildren s (nv_children node)
                  | [] => Some (s << "{}")
                  end with
            | Some s => Some (s << "}")
            | None => None
            end
        end
    end.
Proof. destruct node as [name kind ps cs]. reflexivity. Qed.

Lemma extends_refl s : extends s s.
Proof. exists EmptyString. unfold put. rewrite append_empty_r. reflexivity. Qed.

Lemma extends_put s out t : extends s out -> extends s (out << t).
Proof. intros [u ->]. exists (String.append u t). rewrite put_put. reflexivity. Qed.

Lemma extends_trans s1 s2 s3 : extends s1 s2 -> extends s2 s3 -> extends s1 s3.
Proof. intros [u ->] [v ->]. exists (String.append u v). rewrite put_put. reflexivity. Qed.

Lemma OnValues_extends type vs : forall s out,
  JsonPrinter.OnValues s type vs = Some out -> extends s out.
Proof.
  induction vs as [|v vs IH]; intros s out Hout; cbn in Hout.
  - injection Hout as <-. apply extends_refl.
  - rewrite OnValue_text in Hout. destruct (value_text type v) as [text|]; [|discriminate].
    apply IH in Hout. eapply extends_trans; [|exact Hout].
    destruct vs; repeat apply extends_put; apply extends_refl.
Qed.

Lemma OnProperty_extends s p out :
  JsonPrinter.OnProperty s p = Some out -> extends s out.
Proof.
  unfold JsonPrinter.OnProperty. destruct (pv_name p) as [name|]; [|discriminate].
  match goal with
  | |- match JsonPrinter.OnValues ?s0 _ _ with _ => _ end = _ -> _ =>
      destruct (JsonPrinter.OnValues s0 (pv_type p) (pv_values p)) as [s1|] eqn:Hvs;
      [|discriminate]
  end.
  intros Hout. injection Hout as <-. apply OnValues_extends in Hvs.
  assert (extends s s1) as Hs1.
  { eapply extends_trans; [|exact Hvs].
    destruct (negb _); repeat apply extends_put; apply extends_refl. }
  destruct (negb _); [apply extends_put|]; exact Hs1.
Qed.

Lemma OnProperties_extends ps : forall s out,
  JsonPrinter.OnProperties s ps = Some out -> extends s out.
Proof.
  induction ps as [|p ps IH]; intros s out Hout; cbn in Hout.
  - injection Hout as <-. apply extends_refl.
  - destruct (JsonPrinter.OnProperty s p) as [s1|] eqn:Hp; [|discriminate].
    apply OnProperty_extends in Hp. apply IH in Hout.
    eapply extends_trans; [|exact Hout].
    destruct ps; [|apply extends_put]; exact Hp.
Qed.

Lemma OnChildren_extends cs :
  Forall (fun c => forall s out, JsonPrinter.OnNode s c = Some out -> extends s out) cs ->
  forall s out, JsonPrinter.OnChildren s cs = Some out -> extends s out.
Proof.
  induction 1 as [|c cs Hc _ IH]; intros s out Hout; cbn in Hout.
  - injection Hout as <-. apply extends_refl.
  - destruct (JsonPrinter.OnNode s c) as [s1|] eqn:Hn; [|discriminate].
    apply Hc in Hn. apply IH in Hout.
    eapply extends_trans; [|exact Hout].
    destruct cs; [|apply extends_put]; exact Hn.
Qed.

Lemma OnNode_extends node : forall s out,
  JsonPrinter.OnNode s node = Some out -> extends s out.
Proof.
  induction node as [name kind ps cs IH] using NodeView_forall_ind.
  intros s out Hout. rewrite OnNode_unfold in Hout. cbn in Hout.
  destruct name as [name|]; [|discriminate].
  match type of Hout with
  | match ?c with _ => _ end = _ => destruct c as [s1|] eqn:Hps; [|discriminate]
  end.
  match type of Hout with
  | match ?c with _ => _ end = _ => destruct c as [s2|] eqn:Hcs; [|discriminate]
  end.
  injection Hout as <-. apply extends_put.
  assert (extends s s1) as H1.
  { destruct ps as [|p ps].
    - injection Hps as <-. repeat apply extends_put. apply extends_refl.
    - apply OnProperties_extends in Hps. eapply extends_trans; [|exact Hps].
      repeat apply extends_put. apply extends_refl. }
  eapply extends_trans; [exact H1|].
  destruct cs as [|c cs].
  - injection Hcs as <-. repeat apply extends_put. apply extends_refl.
  - apply (OnChildren_extends _ IH) in Hcs. eapply extends_trans; [|exact Hcs].
    repeat apply extends_put. apply extends_refl.
Qed.


Lemma json_scalar_value_text (type : cliPropertyType) (v : cliUnion) (text : string) :
  json_scalar type v text -> value_text type v = Some text.
Proof.
  intros (t & Ht & ->). destruct Ht; reflexivity.
Qed.

Lemma value_typed_json_scalar (type : cliPropertyType) (v : cliUnion) :
  value_typed type v -> exists text, json_scalar type v text.
Proof.
  destruct type, v as [|i|[]|text]; cbn; intros H; try contradiction;
    eexists; eexists; (split; [constructor | reflexivity]).
Qed.

Lemma Forall_exists_Forall2 {A B} (R : A -> B -> Prop) (l : list A) :
  Forall (fun x => exists y, R x y) l -> exists l', Forall2 R l l'.
Proof.
  induction 1 as [|x l [y Hy] _ [l' IH]]; [exists []; constructor|].
  exists (y :: l'). constructor; assumption.
Qed.

(** A loop that writes the texts of the elements of a list, with a
    comma between two of them. *)
Lemma separated_loop {A} (separator : string) (body : string -> A -> option string)
    (loop : string -> list A -> option string) :
  (forall s, loop s [] = Some s) ->
  (forall s x l, loop s (x :: l) =
                 match body s x with
                 | Some s => loop (match l with [] => s | _ :: _ => s << separator end) l
                 | None => None
                 end) ->
  forall (l : list A) (texts : list string),
    Forall2 (fun x text => forall s, body s x = Some (s << text)) l texts ->
    forall s, loop s l = Some (s << String.concat separator texts).
Proof.
  intros Hnil Hcons l texts Hall. induction Hall as [|x text l texts Hx Hall IH]; intros s.
  - rewrite Hnil. unfold put. cbn. rewrite append_empty_r. reflexivity.
  - rewrite Hcons, Hx. destruct Hall as [|x2 text2 l texts Hx2 Hall].
    + rewrite Hnil. reflexivity.
    + rewrite IH. cbn [String.concat]. rewrite !put_put. reflexivity.
Qed.

Lemma OnProperty_json (p : PropertyView) (text : string) :
  json_property p text -> forall s, JsonPrinter.OnProperty s p = Some (s << text).
Proof.
  intros (name & texts & Hname & Hall & ->) s.
  unfold JsonPrinter.OnProperty. rewrite Hname.
  assert (Forall2 (fun v t => value_text (pv_type p) v = Some t) (pv_values p) texts) as Hall'.
  { eapply Forall2_impl; [exact Hall|]. intros v t. apply json_scalar_value_text. }
  destruct Hall' as [|v t vs ts Hv Hvs].
  - cbn. f_equal. unfold put. rewrite !append_assoc. reflexivity.
  - destruct Hvs as [|v2 t2 vs ts Hv2 Hvs].
    + cbn [negb JsonPrinter.OnValues]. rewrite OnValue_text, Hv. f_equal.
      unfold put. rewrite !append_assoc. reflexivity.
    + cbn [negb].
      rewrite (OnValues_concat _ (v :: v2 :: vs) _ (t :: t2 :: ts))
        by (repeat constructor; assumption).
      f_equal. unfold put. rewrite !append_assoc. reflexivity.
Qed.

Lemma OnNode_json (node : NodeView) :
  forall text, json_node node text -> forall s, JsonPrinter.OnNode s node = Some (s << text).
Proof.
  induction node as [name kind ps cs IH] using NodeView_forall_ind.
  intros text Htext s. inversion Htext as [name' kind' ps' cs' ptexts ctexts Hps Hcs]; subst.
  rewrite OnNode_unfold. cbn [nv_name nv_properties nv_children]. cbn zeta.
  assert (forall s0, match ps with
                     | [] => Some (s0 << "{}")
                     | _ :: _ => JsonPrinter.OnProperties s0 ps
                     end = Some (s0 << json_members ptexts)) as ->.
  { intros s0. destruct Hps as [|p ptext ps ptexts Hp Hps]; [reflexivity|].
    apply (separated_loop "," JsonPrinter.OnProperty JsonPrinter.OnProperties
             (fun _ => eq_refl) (fun _ _ _ => eq_refl)).
    constructor; [apply OnProperty_json; exact Hp|].
    eapply Forall2_impl; [exact Hps|]. intros p0 t0. apply OnProperty_json. }
  assert (forall s0, match cs with
                     | [] => Some (s0 << "{}")
                     | _ :: _ => JsonPrinter.OnChildren s0 cs
                     end = Some (s0 << json_members ctexts)) as ->.
  { intros s0.
    assert (Forall2 (fun c t => forall s, JsonPrinter.OnNode s c = Some (s << t)) cs ctexts)
      as Hruns.
    { clear -IH Hcs. induction Hcs as [|c t cs ctexts Hc Hcs IHcs]; [constructor|].
      apply Forall_cons in IH as [IHc IH]. constructor; [apply IHc; exact Hc | apply IHcs; exact IH]. }
    destruct Hruns as [|c t cs ctexts Hc Hruns]; [reflexivity|].
    apply (separated_loop "," JsonPrinter.OnNode JsonPrinter.OnChildren
             (fun _ => eq_refl) (fun _ _ _ => eq_refl)).
    constructor; assumption. }
  f_equal. unfold member, put. rewrite !append_assoc. reflexivity.
Qed.

Lemma printable_unfold (tree : NodeView) :
  printable tree <->
  nv_name tree <> None /\ Forall property_printable (nv_properties tree) /\
  Forall printable (nv_children tree).
Proof.
  destruct tree as [name kind ps cs]. cbn [printable nv_name nv_properties nv_children].
  assert ((fix children (ns : list NodeView) : Prop :=
             match ns with
             | [] => True
             | n :: ns' => printable n /\ children ns'
             end) cs <-> Forall printable cs) as ->; [|reflexivity].
  induction cs as [|c cs IH]; [split; [constructor | trivial]|].
  rewrite Forall_cons, <- IH. reflexivity.
Qed.

Lemma printable_json_property (p : PropertyView) :
  property_printable p -> exists text, json_property p text.
Proof.
  intros [Hname Hvalues]. destruct (pv_name p) as [name|] eqn:Hn; [|contradiction].
  destruct (Forall_exists_Forall2 (json_scalar (pv_type p)) (pv_values p)) as [texts Htexts].
  { eapply Forall_impl; [exact Hvalues|]. intros v. apply value_typed_json_scalar. }
  eexists. exists name, texts. split_all; [exact Hn | exact Htexts | reflexivity].
Qed.

Lemma printable_json_node (node : NodeView) :
  printable node -> exists text, json_node node text.
Proof.
  induction node as [name kind ps cs IH] using NodeView_forall_ind.
  intros Hok. apply printable_unfold in Hok as (Hname & Hps & Hcs).
  cbn [nv_name nv_properties nv_children] in *.
  destruct name as [name|]; [|contradiction].
  destruct (Forall_exists_Forall2 json_property ps) as [ptexts Hptexts].
  { eapply Forall_impl; [exact Hps|]. intros p. apply printable_json_property. }
  destruct (Forall_exists_Forall2 json_node cs) as [ctexts Hctexts].
  { rewrite Forall_forall in IH, Hcs. apply Forall_forall. intros c Hc.
    apply (IH c Hc). apply (Hcs c Hc). }
  eexists. econstructor; eassumption.
Qed.

(** C9. In the output of [JsonPrinter]: a property with exactly one
    value is written as its name, [ = ] and the bare text of the value;
    a property with two or more values is written as its name, [ = ]
    and the texts of all its values in list order, separated by commas
    and enclosed in brackets (one text per value); a node without
    properties writes the member [Properties] as the empty object.
    The whole output for a node is its text [json_node]: the name, the
    member [Properties] with the texts of its properties in order
    (each as [json_property] says, bare for one value and bracketed
    otherwise) separated by commas, or the empty object when there is
    none, and the member [Children] likewise; every tree that can be
    printed has such a text. *)
Theorem JsonPrinter_shapes :
  (forall s p name v text,
      pv_name p = Some name ->
      pv_values p = [v] ->
      value_text (pv_type p) v = Some text ->
      JsonPrinter.OnProperty s p = Some (s << dq << name << dq << " = " << text)) /\
  (forall s p name v1 v2 vs texts,
      pv_name p = Some name ->
      pv_values p = v1 :: v2 :: vs ->
      Forall2 (fun v text => value_text (pv_type p) v = Some text) (v1 :: v2 :: vs) texts ->
      length texts = length (v1 :: v2 :: vs) /\
      JsonPrinter.OnProperty s p =
        Some (s << dq << name << dq << " = [" << String.concat "," texts << "]")) /\
  (forall s node name out,
      nv_name node = Some name ->
      nv_properties node = [] ->
      JsonPrinter.OnNode s node = Some out ->
      exists rest,
        out = s << "{ " << dq << name << dq << " : {" << member "Properties" "{}" << rest) /\
  (forall s name kind,
      JsonPrinter.OnNode s (mkNodeView (Some name) kind [] []) =
        Some (s << "{ " << dq << name << dq << " : {" << member "Properties" "{}"
                << ", " << member "Children" "{}" << "}")) /\
  JsonPrinter.OnProperty EmptyString
    (mkPropertyView (Some "N") None CLI_PropertyType_Int64 [U_i 7])
    = Some (EmptyString << dq << "N" << dq << " = 7") /\
  JsonPrinter.OnProperty EmptyString
    (mkPropertyView (Some "E") None CLI_PropertyType_String [U_s "a"; U_s "b"])
    = Some (EmptyString << dq << "E" << dq << " = [" << dq << "a" << dq << ","
              << dq << "b" << dq << "]") /\
  (forall s node text,
      json_node node text -> JsonPrinter.Write s node = Some (s << text)) /\
  (forall node, printable node -> exists text, json_node node text) /\
  (forall type v text, json_scalar type v text <-> value_text type v = Some text) /\
  (forall s name kind p pname v text,
      pv_name p = Some pname ->
      pv_values p = [v] ->
      value_text (pv_type p) v = Some text ->
      JsonPrinter.Write s (mkNodeView (Some name) kind [p] []) =
        Some (s << "{ " << dq << name << dq << " : {"
                << member "Properties" (dq +:+ pname +:+ dq +:+ " = " +:+ text)
                << ", " << member "Children" "{}" << "}")) /\
  JsonPrinter.Write EmptyString
    (mkNodeView (Some "Device") None
       [mkPropertyView (Some "N") None CLI_PropertyType_Int64 [U_i 7];
        mkPropertyView (Some "E") None CLI_PropertyType_String [U_s "a"; U_s "b"]]
       [mkNodeView (Some "Formats") None [] []])
    = Some ("{ " +:+ dq +:+ "Device" +:+ dq +:+ " : {"
              +:+ dq +:+ "Properties" +:+ dq +:+ " : "
              +:+ dq +:+ "N" +:+ dq +:+ " = 7,"
              +:+ dq +:+ "E" +:+ dq +:+ " = [" +:+ dq +:+ "a" +:+ dq +:+ ","
              +:+ dq +:+ "b" +:+ dq +:+ "]"
              +:+ ", " +:+ dq +:+ "Children" +:+ dq +:+ " : "
              +:+ "{ " +:+ dq +:+ "Formats" +:+ dq +:+ " : {"
              +:+ dq +:+ "Properties" +:+ dq +:+ " : {}, "
              +:+ dq +:+ "Children" +:+ dq +:+ " : {}}"
              +:+ "}").
Proof.
  split_all.
  - intros s p name v text Hname Hvalues Htext.
    unfold JsonPrinter.OnProperty. rewrite Hname, Hvalues. cbn [negb].
    cbn [JsonPrinter.OnValues]. rewrite OnValue_text, Htext. reflexivity.
  - intros s p name v1 v2 vs texts Hname Hvalues Hall. split.
    { apply Forall2_length in Hall. symmetry. exact Hall. }
    unfold JsonPrinter.OnProperty. rewrite Hname, Hvalues. cbn [negb].
    rewrite (OnValues_concat _ _ _ _ Hall). reflexivity.
  - intros s node name out Hname Hprops Hout.
    rewrite OnNode_unfold, Hname, Hprops in Hout. cbn zeta in Hout.
    match type of Hout with
    | match ?c with _ => _ end = _ => destruct c as [s2|] eqn:Hcs; [|discriminate]
    end.
    injection Hout as <-.
    assert (extends (s << "{ " << dq << name << dq << " : {" << member "Properties" "{}")
                    s2) as [t ->].
    { destruct (nv_children node) as [|c cs].
      - injection Hcs as <-. unfold member. rewrite !put_put.
        eexists. rewrite !put_put. reflexivity.
      - apply (OnChildren_extends (c :: cs)) in Hcs.
        + eapply extends_trans; [|exact Hcs]. unfold member. rewrite !put_put.
          eexists. rewrite !put_put. reflexivity.
        + apply Forall_forall. intros x _. apply OnNode_extends. }
    eexists. rewrite put_put. reflexivity.
  - intros s name kind. rewrite OnNode_unfold. cbn. f_equal.
    stream_normalize. reflexivity.
  - reflexivity.
  - reflexivity.
  - intros s node text Htext. apply OnNode_json. exact Htext.
  - apply printable_json_node.
  - intros type v text. split; [apply json_scalar_value_text|].
    destruct type, v as [|i|[]|t]; cbn; intros [= <-];
      eexists; (split; [constructor | reflexivity]).
  - intros s name kind p pname v text Hname Hvalues Htext.
    unfold JsonPrinter.Write. rewrite OnNode_unfold.
    cbn [nv_name nv_properties nv_children]. cbn zeta.
    cbn [JsonPrinter.OnProperties]. unfold JsonPrinter.OnProperty.
    rewrite Hname, Hvalues. cbn [negb JsonPrinter.OnValues].
    rewrite OnValue_text, Htext. f_equal. stream_normalize. reflexivity.
  - reflexivity.
Qed.

(** ** Sorting and the attribute selection *)

Section Sorting.
Context {A : Type} (less : A -> A -> bool).

Lemma sort_insert_perm (x : A) (l : list A) : Permutation (sort_insert less x l) (x :: l).
Proof.
  induction l as [|y l IH]; cbn; [reflexivity|].
  destruct (less x y); [reflexivity|].
  rewrite IH. apply perm_swap.
Qed.

Lemma std_sort_perm (l : list A) : Permutation (std_sort less l) l.
Proof.
  induction l as [|x l IH]; cbn; [reflexivity|].
  rewrite sort_insert_perm. constructor. exact IH.
Qed.

Hypothesis less_asym : forall x y, less x y = true -> less y x = false.

Lemma sort_insert_sorted (x : A) (l : list A) :
  Sorted (fun a b => less b a = false) l ->
  Sorted (fun a b => less b a = false) (sort_insert less x l).
Proof.
  induction l as [|y l IH]; intros Hsorted; cbn.
  - repeat constructor.
  - destruct (less x y) eqn:Hxy.
    + constructor; [exact Hsorted|]. constructor. apply less_asym. exact Hxy.
    + apply Sorted_inv in Hsorted as [Hl Hhd].
      constructor; [apply IH; exact Hl|].
      destruct l as [|z l]; cbn.
      * constructor. exact Hxy.
      * destruct (less x z); constructor; [exact Hxy|].
        apply HdRel_inv in Hhd. exact Hhd.
Qed.

Lemma std_sort_sorted (l : list A) : Sorted (fun a b => less b a = false) (std_sort less l).
Proof.
  induction l as [|x l IH]; cbn; [constructor|].
  apply sort_insert_sorted. exact IH.
Qed.

End Sorting.

Lemma strcmp_lt_asym (a b : cstr) : strcmp_lt a b = true -> strcmp_lt b a = false.
Proof.
  destruct a as [x|], b as [y|]; cbn; try discriminate; try reflexivity.
  unfold String.ltb. rewrite (String.compare_antisym y x).
  destruct (String.compare x y); cbn; congruence.
Qed.

Section SelectionFacts.
Context {hdr : cl_h}.

Lemma propertiesToFetch_sorted (version : Version) :
  sorted_by_name (propertiesToFetch version).
Proof.
  unfold sorted_by_name, propertiesToFetch.
  apply (std_sort_sorted (fun a b => strcmp_lt (n a) (n b))).
  intros x y. apply strcmp_lt_asym.
Qed.

(** C1, as the code has it.  For every parsed version the attributes
    fetched for a device are, sorted by name, the shared table plus
    exactly one increment: the 1.0 table for version (1,0), the 1.1
    table for (1,1), the 1.2 table for (1,2), the 1.2 and the 2.0 tables
    for every version from (2,0) on, and nothing for any other
    version.  In particular a device of version (1,2) gets every entry
    of the shared and of the 1.2 table and no entry that only the 2.0
    table has. *)
Theorem propertiesToFetch_selection (version : Version) :
  sorted_by_name (propertiesToFetch version) /\
  (version = mkVersion 1 0 ->
   Permutation (propertiesToFetch version) (infos_CL_shared ++ infos_CL_1_0)) /\
  (version = mkVersion 1 1 ->
   Permutation (propertiesToFetch version) (infos_CL_shared ++ infos_CL_1_1)) /\
  (version = mkVersion 1 2 ->
   Permutation (propertiesToFetch version) (infos_CL_shared ++ infos_CL_1_2)) /\
  (lex_lt (mkVersion 2 0) version \/ version = mkVersion 2 0 ->
   Permutation (propertiesToFetch version)
     (infos_CL_shared ++ infos_CL_1_2 ++ infos_CL_2_0)) /\
  (lex_lt version (mkVersion 2 0) ->
   version <> mkVersion 1 0 -> version <> mkVersion 1 1 -> version <> mkVersion 1 2 ->
   Permutation (propertiesToFetch version) infos_CL_shared) /\
  (forall name,
      name ∈ names (propertiesToFetch (mkVersion 1 2)) <->
      name ∈ names infos_CL_shared \/ name ∈ names infos_CL_1_2) /\
  (forall name,
      name ∈ names infos_CL_2_0 -> name ∉ names (propertiesToFetch (mkVersion 1 2))).
Proof.
  split_all.
  - apply propertiesToFetch_sorted.
  - intros ->. apply std_sort_perm.
  - intros ->. apply std_sort_perm.
  - intros ->. apply std_sort_perm.
  - intros Hge. unfold propertiesToFetch.
    assert (Version_eq version (mkVersion 1 0) = false /\
            Version_eq version (mkVersion 1 1) = false /\
            Version_eq version (mkVersion 1 2) = false /\
            Version_ge version (mkVersion 2 0) = true) as (-> & -> & -> & ->).
    { destruct version as [a b]. unfold lex_lt, Version_eq, Version_ge in *. cbn in *.
      destruct Hge as [[Hlt | [<- Hlt]] | Heq]; [| |injection Heq as -> ->]; cbn;
        repeat match goal with
               | |- context [(?x =? ?y)%Z] => destruct (Z.eqb_spec x y)
               | |- context [(?x >? ?y)%Z] => rewrite (Z.gtb_ltb x y)
               | |- context [(?x >=? ?y)%Z] => rewrite (Z.geb_leb x y)
               | |- context [(?x <? ?y)%Z] => destruct (Z.ltb_spec x y)
               | |- context [(?x <=? ?y)%Z] => destruct (Z.leb_spec x y)
               end; cbn; repeat split; try reflexivity; lia. }
    rewrite std_sort_perm, <- app_assoc. reflexivity.
  - intros Hlt H10 H11 H12. unfold propertiesToFetch.
    assert (Version_eq version (mkVersion 1 0) = false /\
            Version_eq version (mkVersion 1 1) = false /\
            Version_eq version (mkVersion 1 2) = false /\
            Version_ge version (mkVersion 2 0) = false) as (-> & -> & -> & ->).
    { destruct version as [a b]. unfold lex_lt, Version_eq, Version_ge in *. cbn in *.
      repeat match goal with
             | |- context [(?x =? ?y)%Z] => destruct (Z.eqb_spec x y)
             | |- context [(?x >? ?y)%Z] => rewrite (Z.gtb_ltb x y)
             | |- context [(?x >=? ?y)%Z] => rewrite (Z.geb_leb x y)
             | |- context [(?x <? ?y)%Z] => destruct (Z.ltb_spec x y)
             | |- context [(?x <=? ?y)%Z] => destruct (Z.leb_spec x y)
             end; cbn; repeat split; try reflexivity; try lia; subst;
        congruence. }
    apply std_sort_perm.
  - intros name. unfold names.
    assert (Permutation (map n (propertiesToFetch (mkVersion 1 2)))
                        (map n (infos_CL_shared ++ infos_CL_1_2))) as ->.
    { apply Permutation_map. apply std_sort_perm. }
    rewrite map_app, elem_of_app. reflexivity.
  - intros name Hin. unfold names.
    assert (Permutation (map n (propertiesToFetch (mkVersion 1 2)))
                        (map n (infos_CL_shared ++ infos_CL_1_2))) as ->.
    { apply Permutation_map. apply std_sort_perm. }
    revert name Hin. apply Forall_forall.
    decide_by_compute.
Qed.

End SelectionFacts.

(** ** Linked lists in a region *)

Section Chains.
Context {T : Type} (next : T -> ptr).

Lemma chain_functional (h : list T) (q : ptr) (l1 l2 : list nat) :
  chain next h q l1 -> chain next h q l2 -> l1 = l2.
Proof.
  intros H1. revert l2. induction H1 as [|a c l Ha _ IH]; intros l2 H2.
  - inversion H2. reflexivity.
  - inversion H2 as [|a' c' l' Ha' Hl']; subst.
    rewrite Ha in Ha'. injection Ha' as <-. f_equal. apply IH. exact Hl'.
Qed.

Lemma chain_bound (h : list T) (q : ptr) (l : list nat) :
  chain next h q l -> Forall (fun a => a < length h) l.
Proof.
  induction 1 as [|a c l Ha _ IH]; constructor; [|exact IH].
  eapply lookup_lt_Some. exact Ha.
Qed.

Lemma chain_suffix (h : list T) (l1 : list nat) : forall (q : ptr) (a : nat) (l2 : list nat),
  chain next h q (l1 ++ a :: l2) -> chain next h (Some a) (a :: l2).
Proof.
  induction l1 as [|x l1 IH]; intros q a l2 Hc; cbn in Hc.
  - inversion Hc; subst. exact Hc.
  - inversion Hc; subst. eapply IH. eassumption.
Qed.

(** A list that ends visits no cell twice. *)
Lemma chain_NoDup (h : list T) (q : ptr) (l : list nat) :
  chain next h q l -> NoDup l.
Proof.
  induction 1 as [|a c l Ha Hl IH]; constructor; [|exact IH].
  intros Hin. apply list_elem_of_split in Hin as (l1 & l2 & ->).
  pose proof (chain_suffix _ _ _ _ _ Hl) as Hsuf.
  assert (chain next h (Some a) (a :: l1 ++ a :: l2)) as Hwhole
      by (econstructor; eassumption).
  pose proof (chain_functional _ _ _ _ Hsuf Hwhole) as Heq.
  apply (f_equal length) in Heq. cbn in Heq. rewrite length_app in Heq. cbn in Heq. lia.
Qed.

Lemma chain_length (h : list T) (q : ptr) (l : list nat) :
  chain next h q l -> length l <= length h.
Proof.
  intros Hc. pose proof (chain_NoDup _ _ _ Hc) as Hnd.
  pose proof (chain_bound _ _ _ Hc) as Hb.
  transitivity (length (seq 0 (length h))); [|rewrite length_seq; lia].
  apply submseteq_length, NoDup_submseteq; [exact Hnd|].
  intros x Hx. apply elem_of_seq. rewrite Forall_forall in Hb. specialize (Hb x Hx). lia.
Qed.

(** Cells appended to the region do not change a list. *)
Lemma chain_app (h ext : list T) (q : ptr) (l : list nat) :
  chain next h q l -> chain next (h ++ ext) q l.
Proof.
  induction 1 as [|a c l Ha _ IH]; econstructor; [|exact IH].
  apply lookup_app_l_Some. exact Ha.
Qed.

(** A store to a cell outside a list does not change the list. *)
Lemma chain_insert_other (h : list T) (q : ptr) (l : list nat) (b : nat) (c' : T) :
  chain next h q l -> b ∉ l -> chain next (<[b := c']> h) q l.
Proof.
  induction 1 as [|a c l Ha _ IH]; intros Hb; [constructor|].
  apply not_elem_of_cons in Hb as [Hba Hbl].
  econstructor; [|apply IH; exact Hbl].
  rewrite list_lookup_insert_ne by congruence. exact Ha.
Qed.

(** A store that keeps the link of the cell does not change a list. *)
Lemma chain_insert_same_next (h : list T) (q : ptr) (l : list nat) (b : nat) (c c' : T) :
  chain next h q l -> h !! b = Some c -> next c' = next c ->
  chain next (<[b := c']> h) q l.
Proof.
  intros Hc Hb Hnext. induction Hc as [|a c0 l Ha _ IH]; [constructor|].
  destruct (decide (a = b)) as [->|Hne].
  - rewrite Hb in Ha. injection Ha as <-.
    econstructor.
    + apply list_lookup_insert_eq. eapply lookup_lt_Some. exact Hb.
    + rewrite Hnext. exact IH.
  - econstructor; [|exact IH].
    rewrite list_lookup_insert_ne by congruence. exact Ha.
Qed.

(** The last cell of a list has a null link. *)
Lemma chain_last (h : list T) (q : ptr) (l : list nat) (a : nat) :
  chain next h q l -> last l = Some a ->
  exists c, h !! a = Some c /\ next c = None.
Proof.
  induction 1 as [|x c l Hx Hl IH]; intros Hlast; [discriminate|].
  destruct l as [|y l].
  - injection Hlast as <-. exists c. split; [exact Hx|]. inversion Hl. reflexivity.
  - apply IH. exact Hlast.
Qed.

(** Linking a cell behind the last cell of a list appends it. *)
Lemma chain_snoc (h : list T) (q : ptr) (l : list nat) (a b : nat) (c' cb : T) :
  chain next h q l -> last l = Some a ->
  next c' = Some b -> h !! b = Some cb -> next cb = None -> b ∉ l ->
  chain next (<[a := c']> h) q (l ++ [b]).
Proof.
  intros Hc Hlast Hnext Hb Hcb Hnotin.
  induction Hc as [|x c l Hx Hl IH]; [discriminate|].
  apply not_elem_of_cons in Hnotin as [Hbx Hbl].
  destruct l as [|y l].
  - injection Hlast as <-. cbn.
    econstructor.
    + apply list_lookup_insert_eq. eapply lookup_lt_Some. exact Hx.
    + rewrite Hnext. econstructor.
      * rewrite list_lookup_insert_ne by congruence. exact Hb.
      * rewrite Hcb. constructor.
  - assert (x <> a) as Hxa.
    { intros ->.
      destruct (chain_last _ _ _ _ Hl Hlast) as (ca & Ha & Hca).
      rewrite Hx in Ha. injection Ha as <-. rewrite Hca in Hl. inversion Hl. }
    cbn. econstructor.
    + rewrite list_lookup_insert_ne by congruence. exact Hx.
    + apply IH; assumption.
Qed.

End Chains.

(** ** Value lists *)

Lemma bind_Ok {A B} (m : M A) (k : A -> M B) (p p1 : Pool) (a : A) (d1 : list Diag) :
  m p = (Ok a, p1, d1) ->
  bind m k p = (let '(r, p2, d2) := k a p1 in (r, p2, d1 ++ d2)).
Proof. intros Hm. unfold bind. rewrite Hm. destruct (k a p1) as [[r p2] d2]. reflexivity. Qed.

Lemma bind_ret {A B} (a : A) (k : A -> M B) (p : Pool) : bind (ret a) k p = k a p.
Proof. unfold bind, ret. destruct (k a p) as [[r p2] d2]. reflexivity. Qed.

Lemma bind_Ok_nil {A B} (m : M A) (k : A -> M B) (p p1 : Pool) (a : A) :
  m p = (Ok a, p1, []) -> bind m k p = k a p1.
Proof. intros Hm. unfold bind. rewrite Hm. destruct (k a p1) as [[r p2] d2]. reflexivity. Qed.

Lemma values_grow_refl (p : Pool) : values_grow p p.
Proof. split; [exists []; rewrite app_nil_r; reflexivity | split; reflexivity]. Qed.

Lemma values_grow_trans (p1 p2 p3 : Pool) :
  values_grow p1 p2 -> values_grow p2 p3 -> values_grow p1 p3.
Proof.
  intros ([e1 H1] & Hp1 & Hn1) ([e2 H2] & Hp2 & Hn2). split; [|split; congruence].
  exists (e1 ++ e2). rewrite H2, H1, app_assoc. reflexivity.
Qed.

Lemma keeps_unions_refl h : keeps_unions h h.
Proof. intros a c Ha. exists c. auto. Qed.

Lemma keeps_unions_trans h1 h2 h3 :
  keeps_unions h1 h2 -> keeps_unions h2 h3 -> keeps_unions h1 h3.
Proof.
  intros H12 H23 a c Ha. destruct (H12 a c Ha) as (c2 & Ha2 & Hu2).
  destruct (H23 a c2 Ha2) as (c3 & Ha3 & Hu3). exists c3. split; congruence.
Qed.

Lemma keeps_unions_app h ext : keeps_unions h (h ++ ext).
Proof. intros a c Ha. exists c. split; [apply lookup_app_l_Some; exact Ha | reflexivity]. Qed.

Lemma keeps_unions_set_next h a c q :
  h !! a = Some c -> keeps_unions h (<[a := set_v_next q c]> h).
Proof.
  intros Ha b cb Hb. destruct (decide (a = b)) as [<-|Hne].
  - rewrite Ha in Hb. injection Hb as <-. exists (set_v_next q c). split; [|reflexivity].
    apply list_lookup_insert_eq. eapply lookup_lt_Some. exact Ha.
  - exists cb. split; [|reflexivity]. rewrite list_lookup_insert_ne by exact Hne. exact Hb.
Qed.

Lemma value_at_keeps (p p' : Pool) (l : list nat) (us : list cliUnion) :
  keeps_unions (values p) (values p') ->
  Forall2 (value_at p) l us -> Forall2 (value_at p') l us.
Proof.
  intros Hk Hall. eapply Forall2_impl; [exact Hall|]. intros a u (c & Ha & Hu).
  destruct (Hk a c Ha) as (c' & Ha' & Hu'). exists c'. split; congruence.
Qed.

Lemma value_list_app (p p' : Pool) (ext : list cliValue) (v : ptr) (us : list cliUnion) :
  values p' = values p ++ ext -> value_list p v us -> value_list p' v us.
Proof.
  intros Hext (l & Hc & Hall). exists l. split.
  - rewrite Hext. apply chain_app. exact Hc.
  - eapply value_at_keeps; [|exact Hall]. rewrite Hext. apply keeps_unions_app.
Qed.

Lemma value_list_grow (p p' : Pool) (v : ptr) (us : list cliUnion) :
  values_grow p p' -> value_list p v us -> value_list p' v us.
Proof. intros ([ext Hext] & _ & _). eapply value_list_app. exact Hext. Qed.

(** The walk [read_values] reads what [value_list] describes. *)
Lemma read_values_list (p : Pool) (v : ptr) (us : list cliUnion) :
  value_list p v us -> forall fuel, length us <= fuel -> read_values fuel p v = Some us.
Proof.
  intros (l & Hc & Hall). revert us Hall.
  induction Hc as [|a c l Ha _ IH]; intros us Hall fuel Hfuel.
  - apply Forall2_nil_inv_l in Hall as ->. destruct fuel; reflexivity.
  - apply Forall2_cons_inv_l in Hall as (u & us' & (c' & Ha' & Hu) & Hall & ->).
    rewrite Ha in Ha'. injection Ha' as <-.
    destruct fuel as [|fuel]; [cbn in Hfuel; lia|].
    cbn. rewrite Ha. rewrite (IH us' Hall fuel) by (cbn in Hfuel; lia).
    rewrite Hu. reflexivity.
Qed.

Lemma keeps_below_refl base p : keeps_below base p p.
Proof. repeat split; lia. Qed.

Lemma keeps_below_trans base p1 p2 p3 :
  keeps_below base p1 p2 -> keeps_below base p2 p3 -> keeps_below base p1 p3.
Proof.
  intros (H1 & L1 & P1 & N1) (H2 & L2 & P2 & N2).
  repeat split; [congruence | lia | congruence | congruence].
Qed.

Lemma keeps_below_grow (p p' : Pool) :
  keeps_below (length (values p)) p p' -> values_grow p p'.
Proof.
  intros (Htake & Hlen & Hp & Hn). split; [|split; assumption].
  exists (drop (length (values p)) (values p')).
  rewrite <- (take_drop (length (values p)) (values p')) at 1.
  rewrite Htake, take_ge by lia. reflexivity.
Qed.

Lemma building_start (p : Pool) : building (length (values p)) p None None [] [].
Proof. repeat split; [constructor | constructor | constructor | lia]. Qed.

(** Appending the fresh cell at [v] to a list under construction. *)
Lemma append_value_building (base : nat) (p : Pool) (result last_ : ptr)
    (l : list nat) (us : list cliUnion) (v : nat) (cv : cliValue) :
  building base p result last_ l us ->
  values p !! v = Some cv -> v_next cv = None -> v ∉ l -> base <= v ->
  exists p' result',
    append_value result last_ v p = (Ok (result', Some v), p', []) /\
    building base p' result' (Some v) (l ++ [v]) (us ++ [v_union cv]) /\
    keeps_below base p p'.
Proof.
  intros (Hc & Hall & Hlast & Hbase & Hlen) Hv Hcv Hnotin Hbv.
  unfold append_value. destruct last_ as [a|].
  - destruct (chain_last _ _ _ _ _ Hc Hlast) as (ca & Ha & Hca).
    unfold bind, store_value, ret. rewrite Ha.
    eexists. exists result. split; [reflexivity|].
    assert (a <> v) as Hav.
    { intros ->. apply Hnotin. apply last_Some_elem_of. exact Hlast. }
    assert (base <= a) as Hba.
    { rewrite Forall_forall in Hbase. apply Hbase. apply last_Some_elem_of. exact Hlast. }
    split; [|repeat split; cbn].
    + repeat split; cbn.
      * eapply chain_snoc; eauto.
      * apply Forall2_app.
        -- eapply (value_at_keeps p); [|exact Hall]. cbn.
           apply keeps_unions_set_next. exact Ha.
        -- constructor; [|constructor]. exists cv. split; [|reflexivity].
           cbn. rewrite list_lookup_insert_ne by exact Hav. exact Hv.
      * apply last_snoc.
      * apply Forall_app. split; [exact Hbase | constructor; [exact Hbv | constructor]].
      * rewrite length_insert. exact Hlen.
    + apply take_insert_ge. exact Hba.
    + rewrite length_insert. lia.
  - apply last_None in Hlast. subst l. inversion Hc; subst.
    apply Forall2_nil_inv_l in Hall as ->.
    exists p, (Some v). split; [reflexivity|]. split; [|apply keeps_below_refl].
    repeat split; cbn.
    + econstructor; [exact Hv|]. rewrite Hcv. constructor.
    + constructor; [|constructor]. exists cv. auto.
    + constructor; [exact Hbv | constructor].
    + exact Hlen.
Qed.

Lemma Allocate_store_union {A} (u : cliUnion) (k : nat -> M A) (p : Pool) :
  bind Allocate_cliValue (fun v => bind (store_value v (set_v_union u)) (fun _ => k v)) p
  = k (length (values p)) (with_value p u).
Proof.
  unfold bind, Allocate_cliValue, store_value. cbn [values properties nodes].
  rewrite lookup_fresh, insert_fresh.
  unfold with_value, set_v_union, zero_value. cbn.
  destruct (k _ _) as [[r p2] d2]. reflexivity.
Qed.

Lemma with_value_building base p result last_ l us (u : cliUnion) :
  building base p result last_ l us ->
  building base (with_value p u) result last_ l us /\
  keeps_below base p (with_value p u) /\
  values (with_value p u) !! length (values p) = Some (mkValue u None) /\
  (length (values p) ∉ l) /\
  base <= length (values p).
Proof.
  intros (Hc & Hall & Hlast & Hbase & Hlen). split_all.
  - repeat split; cbn.
    + apply chain_app. exact Hc.
    + eapply (value_at_keeps p); [|exact Hall]. apply keeps_unions_app.
    + exact Hlast.
    + exact Hbase.
    + rewrite length_app. lia.
  - repeat split; cbn.
    + apply take_app_le. exact Hlen.
    + rewrite length_app. lia.
  - apply lookup_fresh.
  - intros Hin. apply chain_bound in Hc. rewrite Forall_forall in Hc.
    specialize (Hc _ Hin). lia.
  - exact Hlen.
Qed.

Lemma CreateValue_i_run (value : Z) (p : Pool) :
  CreateValue_i value p = (Ok (length (values p)), with_value p (U_i value), []).
Proof. unfold CreateValue_i. rewrite Allocate_store_union. reflexivity. Qed.

Lemma CreateValue_b_run (value : bool) (p : Pool) :
  CreateValue_b value p = (Ok (length (values p)), with_value p (U_b value), []).
Proof. unfold CreateValue_b. rewrite Allocate_store_union. reflexivity. Qed.

(** The linking code of [CreateBitfield], which reads [lastValue->next]
    back, links as [append_value] does. *)
Lemma CreateBitfield_link (result lastValue : ptr) (v : nat) (p : Pool) :
  match lastValue with
  | Some l =>
      store_value l (set_v_next (Some v)) ;;;
      c <- load_value l ;;
      ret (result, v_next c)
  | None => ret (Some v, Some v)
  end p = append_value result lastValue v p.
Proof.
  destruct lastValue as [l|]; [|reflexivity].
  unfold append_value, bind, store_value, load_value, ret.
  destruct (values p !! l) as [c|] eqn:Hl; [|reflexivity].
  cbn [values]. rewrite list_lookup_insert_eq by (eapply lookup_lt_Some; exact Hl).
  reflexivity.
Qed.

Lemma CreateBitfield_loop_building (config : Z) (fields : list BitfieldFetcher) :
  forall base p result lastValue l us,
    building base p result lastValue l us ->
    exists p' result' last' l',
      CreateBitfield_loop config fields result lastValue p = (Ok result', p', []) /\
      building base p' result' last' (l ++ l') (us ++ selected_names config fields) /\
      keeps_below base p p'.
Proof.
  induction fields as [|field fields IH]; intros base p result lastValue l us Hb.
  - exists p, result, lastValue, []. cbn. unfold selected_names. cbn.
    rewrite !app_nil_r. split; [reflexivity|]. split; [exact Hb | apply keeps_below_refl].
  - cbn [CreateBitfield_loop]. unfold selected_names. cbn [List.filter].
    fold (fully_set config field). destruct (fully_set config field) eqn:Hset.
    + rewrite Allocate_store_union.
      destruct (with_value_building _ _ _ _ _ _ (U_s (bf_n field)) Hb)
        as (Hb1 & Hk1 & Hv & Hnotin & Hbase).
      destruct (append_value_building _ _ _ _ _ _ _ _ Hb1 Hv eq_refl Hnotin Hbase)
        as (p2 & result2 & Happ & Hb2 & Hk2).
      erewrite bind_Ok; [|rewrite CreateBitfield_link; exact Happ].
      destruct (IH _ _ _ _ _ _ Hb2) as (p3 & result3 & last3 & l3 & Hrun & Hb3 & Hk3).
      cbn [fst snd]. rewrite Hrun.
      exists p3, result3, last3, (length (values p) :: l3). split; [reflexivity|].
      split.
      * cbn [map]. rewrite <- !app_assoc in Hb3. exact Hb3.
      * eapply keeps_below_trans; [exact Hk1|].
        eapply keeps_below_trans; [exact Hk2 | exact Hk3].
    + apply IH. exact Hb.
Qed.

(** C3. For every mask and every table, [CreateBitfield] returns
    normally with a value list that holds, in table order, the names of
    exactly the entries whose pattern is fully set in the mask, one
    string value per entry; the other bits of the mask play no role;
    when no entry matches, the result is the null pointer and the pool
    is unchanged.  Only value cells are added to the pool, and the walk
    along the result reads these names. *)
Theorem CreateBitfield_selected (config : Z) (fields : list BitfieldFetcher) (p : Pool) :
  exists p' result,
    CreateBitfield config fields p = (Ok result, p', []) /\
    value_list p' result (selected_names config fields) /\
    read_values (length (values p')) p' result = Some (selected_names config fields) /\
    values_grow p p' /\
    (result = None <-> List.filter (fully_set config) fields = []) /\
    (List.filter (fully_set config) fields = [] -> p' = p).
Proof.
  destruct (CreateBitfield_loop_building config fields _ _ _ _ _ _ (building_start p))
    as (p' & result & last' & l' & Hrun & (Hc & Hall & Hlast & Hbase & Hlen) & Hk).
  cbn [app] in Hc, Hall.
  assert (value_list p' result (selected_names config fields)) as Hlist
      by (exists l'; split; assumption).
  exists p', result. split_all.
  - exact Hrun.
  - exact Hlist.
  - apply (read_values_list _ _ _ Hlist).
    apply Forall2_length in Hall. rewrite <- Hall. eapply chain_length. exact Hc.
  - apply keeps_below_grow. exact Hk.
  - unfold selected_names in Hall. split.
    + intros ->. inversion Hc; subst. apply Forall2_nil_inv_l in Hall.
      apply map_eq_nil in Hall. exact Hall.
    + intros Hnone. rewrite Hnone in Hall. apply Forall2_nil_inv_r in Hall. subst l'.
      inversion Hc. reflexivity.
  - intros Hnone. clear - Hrun Hnone. unfold CreateBitfield in Hrun.
    assert (forall fs, List.filter (fully_set config) fs = [] ->
            forall result0 lastValue,
              CreateBitfield_loop config fs result0 lastValue p = (Ok result0, p, []))
      as Hsame.
    { clear. induction fs as [|field fs IH]; intros Hnone result0 lastValue; [reflexivity|].
      cbn [List.filter] in Hnone. cbn [CreateBitfield_loop].
      fold (fully_set config field). destruct (fully_set config field); [discriminate|].
      apply IH. exact Hnone. }
    rewrite (Hsame _ Hnone) in Hrun. congruence.
Qed.

(** The example of the specification: mask 0b011 and the table
    (0b001, A), (0b010, B), (0b100, C). *)
Example CreateBitfield_example :
  selected_names 3 [mkBitfieldFetcher 1 "A"; mkBitfieldFetcher 2 "B"; mkBitfieldFetcher 4 "C"]
  = [U_s "A"; U_s "B"].
Proof. reflexivity. Qed.

(** ** Property lists and [GetProperties] *)

Lemma property_at_keeps (p p' : Pool) (l : list nat) (ps : list PropertyView) :
  keeps_properties p p' ->
  Forall2 (property_at p) l ps -> Forall2 (property_at p') l ps.
Proof.
  intros ([ext Hext] & Hk) Hall. eapply Forall2_impl; [exact Hall|].
  intros a pv (c & Ha & Hn & Hh & Ht & Hv).
  destruct (Hk a c Ha) as (c' & Ha' & Hn' & Hh' & Ht' & Hv').
  exists c'. split_all; try congruence.
  rewrite Hv'. eapply value_list_app; eassumption.
Qed.

(** The loop that skips to the end of a list that ends returns its
    last cell, given fuel for its steps. *)
Lemma skip_to_last_chain (p : Pool) (q : ptr) (l : list nat) :
  chain p_next (properties p) q l ->
  forall fuel, length l <= S fuel -> skip_to_last fuel q p = (Ok (last l), p, []).
Proof.
  induction 1 as [|a c l Ha Hl IH]; intros fuel Hfuel.
  - destruct fuel; reflexivity.
  - assert (skip_to_last fuel (Some a) p =
            match p_next c with
            | None => (Ok (Some a), p, [])
            | Some b => match fuel with
                        | O => (Stuck, p, [])
                        | S fuel' => skip_to_last fuel' (Some b) p
                        end
            end) as ->.
    { destruct fuel; cbn; unfold bind, load_property; rewrite Ha;
        destruct (p_next c); try reflexivity.
      destruct (skip_to_last fuel (Some n0) p) as [[r p2] d2]. reflexivity. }
    destruct (p_next c) as [b|] eqn:Hnext.
    + inversion Hl as [|b' cb l' Hb Hl' Hb']; subst.
      destruct fuel as [|fuel]; [cbn in Hfuel; lia|].
      rewrite (IH fuel) by (cbn in Hfuel |- *; lia). reflexivity.
    + inversion Hl; subst. reflexivity.
Qed.

(** Allocating a property cell and storing type, name and hint. *)
Lemma Allocate_store_property {A} (t : cliPropertyType) (nm hh : cstr)
    (k : nat -> M A) (p : Pool) :
  bind Allocate_cliProperty (fun a =>
    bind (store_property a (set_p_type t)) (fun _ =>
    bind (store_property a (set_p_name nm)) (fun _ =>
    bind (store_property a (set_p_hint hh)) (fun _ => k a)))) p
  = k (length (properties p))
      (mkPool (values p) (properties p ++ [mkProperty None nm hh None t]) (nodes p)).
Proof.
  unfold bind, Allocate_cliProperty, store_property. cbn [values properties nodes].
  rewrite lookup_fresh, insert_fresh. cbn [values properties nodes].
  rewrite lookup_fresh, insert_fresh. cbn [values properties nodes].
  rewrite lookup_fresh, insert_fresh.
  unfold set_p_hint, set_p_name, set_p_type, zero_property. cbn.
  destruct (k _ _) as [[r p2] d2]. reflexivity.
Qed.


Lemma value_list_same (p p' : Pool) (v : ptr) (us : list cliUnion) :
  values p' = values p -> value_list p v us -> value_list p' v us.
Proof.
  intros Heq. apply (value_list_app p p' []). rewrite app_nil_r. exact Heq.
Qed.

Lemma store_link_run (node a : nat) (v : ptr) (lastProperty : ptr)
    (k : ptr -> M unit) (p : Pool) :
  is_Some (properties p !! a) ->
  match lastProperty with
  | Some b => is_Some (properties p !! b)
  | None => is_Some (nodes p !! node)
  end ->
  bind (store_property a (set_p_value v)) (fun _ =>
    bind (match lastProperty with
          | Some l =>
              store_property l (set_p_next (Some a)) ;;;
              c <- load_property l ;;
              ret (p_next c)
          | None =>
              store_node node (set_n_firstProperty (Some a)) ;;;
              ret (Some a)
          end) k) p
  = k (Some a) (linked node a v lastProperty p).
Proof.
  intros [cell Hcell] Hlast. unfold linked.
  unfold bind at 1. unfold store_property at 1. rewrite Hcell.
  assert (<[a := set_p_value v cell]> (properties p)
          = alter (set_p_value v) a (properties p)) as Hstored.
  { rewrite list_insert_alter. apply list_alter_ext; [intros x Hx; congruence | reflexivity]. }
  rewrite Hstored. set (stored := alter (set_p_value v) a (properties p)).
  destruct lastProperty as [b|].
  - destruct Hlast as [cb Hcb].
    assert (is_Some (stored !! b)) as [cb' Hcb'].
    { apply lookup_lt_is_Some. unfold stored. rewrite length_alter.
      eapply lookup_lt_Some. exact Hcb. }
    unfold bind, store_property, load_property, ret. cbn [values properties nodes].
    rewrite Hcb'. cbn [values properties nodes].
    rewrite list_lookup_insert_eq by (eapply lookup_lt_Some; exact Hcb').
    assert (<[b := set_p_next (Some a) cb']> stored = alter (set_p_next (Some a)) b stored)
      as ->.
    { rewrite list_insert_alter. apply list_alter_ext; [intros x Hx; congruence | reflexivity]. }
    cbn. destruct (k _ _) as [[r p2] d2]. reflexivity.
  - destruct Hlast as [cn Hcn].
    unfold bind, store_node, ret. cbn [values properties nodes]. rewrite Hcn.
    assert (<[node := set_n_firstProperty (Some a) cn]> (nodes p)
            = alter (set_n_firstProperty (Some a)) node (nodes p)) as ->.
    { rewrite list_insert_alter. apply list_alter_ext; [intros x Hx; congruence | reflexivity]. }
    cbn. destruct (k _ _) as [[r p2] d2]. reflexivity.
Qed.

Section Populate.
Context {hdr : cl_h} {O I : Type} (f : GetInfoFunction O I) (clObject : O).

Lemma populate_frame_refl node p : populate_frame node p p.
Proof.
  unfold populate_frame.
  split_all; [exists []; rewrite app_nil_r; reflexivity | reflexivity | reflexivity |].
  intros c Hc. exists c. auto.
Qed.

Lemma populate_frame_trans node p1 p2 p3 :
  populate_frame node p1 p2 -> populate_frame node p2 p3 -> populate_frame node p1 p3.
Proof.
  intros ([e1 H1] & L1 & O1 & N1) ([e2 H2] & L2 & O2 & N2).
  unfold populate_frame. split_all.
  - exists (e1 ++ e2). rewrite H2, H1, app_assoc. reflexivity.
  - congruence.
  - intros x Hx. rewrite O2, O1 by exact Hx. reflexivity.
  - intros c Hc. destruct (N1 c Hc) as (c2 & Hc2 & ? & ? & ? & ?).
    destruct (N2 c2 Hc2) as (c3 & Hc3 & ? & ? & ? & ?).
    exists c3. split_all; congruence.
Qed.

Lemma linked_populating (node : nat) (p p3 : Pool) (ext : list cliValue)
    (nm hh : cstr) (t : cliPropertyType) (v : ptr) (us : list cliUnion)
    (l : list nat) (ps : list PropertyView) (lastProperty : ptr) :
  populating node p lastProperty l ps ->
  values p3 = values p ++ ext ->
  properties p3 = properties p ++ [mkProperty None nm hh None t] ->
  nodes p3 = nodes p ->
  value_list p3 v us ->
  populating node (linked node (length (properties p)) v lastProperty p3)
    (Some (length (properties p))) (l ++ [length (properties p)])
    (ps ++ [mkPropertyView nm hh t us]) /\
  populate_frame node p (linked node (length (properties p)) v lastProperty p3).
Proof.
  intros ((cn & Hcn & Hchain) & Hall & Hlast) Hvalues Hprops Hnodes Hus.
  set (a := length (properties p)).
  set (cellv := mkProperty v nm hh None t).
  assert (alter (set_p_value v) a (properties p3) = properties p ++ [cellv]) as Hstored.
  { rewrite Hprops. apply alter_fresh. }
  assert (a ∉ l) as Hnotin.
  { intros Hin. apply chain_bound in Hchain. rewrite Forall_forall in Hchain.
    specialize (Hchain _ Hin). unfold a in Hchain. lia. }
  unfold linked. rewrite Hstored. destruct lastProperty as [b|].
  - destruct (chain_last _ _ _ _ _ Hchain Hlast) as (cb & Hb & Hcb).
    assert (b <> a) as Hba.
    { intros ->. apply Hnotin. apply last_Some_elem_of. exact Hlast. }
    assert ((properties p ++ [cellv]) !! b = Some cb) as Hb'
        by (apply lookup_app_l_Some; exact Hb).
    rewrite (alter_insert _ _ _ _ Hb').
    split.
    + unfold populating. cbn [values properties nodes]. split_all.
      * exists cn. split; [rewrite Hnodes; exact Hcn|].
        eapply chain_snoc.
        -- apply chain_app. exact Hchain.
        -- exact Hlast.
        -- reflexivity.
        -- apply lookup_fresh.
        -- reflexivity.
        -- exact Hnotin.
      * apply Forall2_app.
        -- eapply (property_at_keeps p); [|exact Hall]. split.
           ++ exists ext. exact Hvalues.
           ++ intros x c Hx. cbn [properties].
              destruct (decide (x = b)) as [->|Hxb].
              ** rewrite Hb in Hx. injection Hx as <-.
                 exists (set_p_next (Some a) cb). split; [|auto].
                 apply list_lookup_insert_eq. eapply lookup_lt_Some. exact Hb'.
              ** exists c. split; [|auto].
                 rewrite list_lookup_insert_ne by congruence.
                 apply lookup_app_l_Some. exact Hx.
        -- constructor; [|constructor]. exists cellv. cbn [properties]. split_all; try reflexivity.
           ++ rewrite list_lookup_insert_ne by exact Hba. apply lookup_fresh.
           ++ eapply value_list_same; [|exact Hus]. reflexivity.
      * apply last_snoc.
    + unfold populate_frame. cbn [values properties nodes]. split_all.
      * exists ext. exact Hvalues.
      * rewrite Hnodes. reflexivity.
      * intros x _. rewrite Hnodes. reflexivity.
      * intros c Hc. exists c. rewrite Hnodes. auto.
  - apply last_None in Hlast. subst l. apply Forall2_nil_inv_l in Hall. subst ps.
    assert (nodes p3 !! node = Some cn) as Hcn3 by (rewrite Hnodes; exact Hcn).
    rewrite (alter_insert _ _ _ _ Hcn3).
    split.
    + unfold populating. cbn [values properties nodes app]. split_all.
      * exists (set_n_firstProperty (Some a) cn). split.
        -- apply list_lookup_insert_eq. eapply lookup_lt_Some. exact Hcn3.
        -- cbn. econstructor; [apply lookup_fresh|]. constructor.
      * constructor; [|constructor]. exists cellv. cbn [properties]. split_all; try reflexivity.
        -- apply lookup_fresh.
        -- eapply value_list_same; [|exact Hus]. reflexivity.
      * reflexivity.
    + unfold populate_frame. cbn [values properties nodes]. split_all.
      * exists ext. exact Hvalues.
      * rewrite length_insert, Hnodes. reflexivity.
      * intros x Hx. rewrite list_lookup_insert_ne by congruence. rewrite Hnodes. reflexivity.
      * intros c Hc. rewrite Hcn in Hc. injection Hc as <-.
        exists (set_n_firstProperty (Some a) cn). split; [|auto].
        apply list_lookup_insert_eq. eapply lookup_lt_Some. exact Hcn3.
Qed.

Lemma GetProperties_loop_populating (node : nat) (container : list (PropertyFetcher I)) :
  (forall entry, entry ∈ container ->
                 fetch_returns (GetValue f clObject (info entry) (cf entry))) ->
  forall p lastProperty l ps,
    populating node p lastProperty l ps ->
    exists p' d last' l' news,
      GetProperties_loop node f clObject container lastProperty p = (Ok tt, p', d) /\
      populating node p' last' (l ++ l') (ps ++ news) /\
      Forall2 (built_by f clObject) container news /\
      populate_frame node p p'.
Proof.
  induction container as [|entry container IH]; intros Hfetch p lastProperty l ps Hpop.
  - exists p, [], lastProperty, [], []. rewrite !app_nil_r.
    split_all; [reflexivity | exact Hpop | constructor | apply populate_frame_refl].
  - cbn [GetProperties_loop]. rewrite Allocate_store_property.
    set (a := length (properties p)).
    set (p2 := mkPool (values p)
                 (properties p ++ [mkProperty None (n entry) (h entry) None (type entry)])
                 (nodes p)).
    destruct (Hfetch entry (list_elem_of_here _ _) p2)
      as (v & p3 & d & us & Hget & Hgrow & Hus).
    erewrite bind_Ok; [|exact Hget].
    destruct Hgrow as ([ext Hext] & Hprops3 & Hnodes3).
    cbn [properties nodes values p2] in Hprops3, Hnodes3, Hext.
    destruct (linked_populating node p p3 ext (n entry) (h entry) (type entry) v us
                l ps lastProperty Hpop Hext Hprops3 Hnodes3 Hus) as (Hpop5 & Hframe5).
    fold a in Hpop5, Hframe5.
    rewrite store_link_run.
    + destruct (IH (fun e He => Hfetch e (list_elem_of_further _ _ _ He)) _ _ _ _ Hpop5)
        as (p' & d' & last' & l' & news & Hrun & Hpop' & Hbuilt & Hframe').
      rewrite Hrun.
      exists p', (d ++ d'), last', (a :: l'),
        (mkPropertyView (n entry) (h entry) (type entry) us :: news).
      split_all.
      * reflexivity.
      * rewrite <- !app_assoc in Hpop'. exact Hpop'.
      * constructor; [|exact Hbuilt]. unfold built_by. cbn. split_all; try reflexivity.
        exists p2, v, p3, d. split; assumption.
      * eapply populate_frame_trans; eassumption.
    + rewrite Hprops3. eexists. apply lookup_fresh.
    + destruct Hpop as ((cn & Hcn & Hchain) & _ & Hlast). destruct lastProperty as [b|].
      * destruct (chain_last _ _ _ _ _ Hchain Hlast) as (cb & Hb & _).
        rewrite Hprops3. exists cb. apply lookup_app_l_Some. exact Hb.
      * rewrite Hnodes3. exists cn. exact Hcn.
Qed.

Lemma GetProperties_appends (node : nat) (container : list (PropertyFetcher I))
    (p : Pool) (ps : list PropertyView) :
  node_properties p node ps ->
  (forall entry, entry ∈ container ->
                 fetch_returns (GetValue f clObject (info entry) (cf entry))) ->
  exists p' d news,
    GetProperties node f clObject container p = (Ok tt, p', d) /\
    node_properties p' node (ps ++ news) /\
    Forall2 (built_by f clObject) container news /\
    populate_frame node p p'.
Proof.
  intros (cn & Hcn & l & Hchain & Hall) Hfetch.
  assert (populating node p (last l) l ps) as Hpop.
  { unfold populating. split_all; [exists cn; split; assumption | exact Hall | reflexivity]. }
  destruct (GetProperties_loop_populating node container Hfetch _ _ _ _ Hpop)
    as (p' & d & last' & l' & news & Hrun & ((cn' & Hcn' & Hchain') & Hall' & _) & Hbuilt & Hframe).
  exists p', d, news. split_all; [|exists cn'; split; [exact Hcn' | exists (l ++ l'); split; assumption]
                                  | exact Hbuilt | exact Hframe].
  unfold GetProperties.
  erewrite bind_Ok; [|unfold load_node; rewrite Hcn; reflexivity].
  erewrite bind_Ok; [|reflexivity].
  erewrite bind_Ok;
    [|apply (skip_to_last_chain _ _ _ Hchain); apply chain_length in Hchain; lia].
  rewrite Hrun. reflexivity.
Qed.

(** The four ways [GetValue] ends. *)
Lemma GetValue_size_failure (info : I) (createFunction : CreateFunc) (p : Pool)
    (r : Z) (size : nat) (written : list ascii) :
  f clObject info 0 = (r, size, written) -> r <> CL_SUCCESS ->
  GetValue f clObject info createFunction p =
    (Ok None, p, [Failed "getInfoFunction (clObject, info, 0, nullptr, &size)" r]).
Proof.
  intros Hf Hr. unfold GetValue, NIV_SAFE_CL. rewrite Hf.
  destruct (Z.eqb_spec r CL_SUCCESS); [contradiction | reflexivity].
Qed.

Lemma GetValue_empty (info : I) (createFunction : CreateFunc) (p : Pool)
    (written : list ascii) :
  f clObject info 0 = (CL_SUCCESS, 0, written) ->
  GetValue f clObject info createFunction p = (Ok None, p, []).
Proof.
  intros Hf. unfold GetValue, NIV_SAFE_CL. rewrite Hf, Z.eqb_refl. reflexivity.
Qed.

Lemma GetValue_data_failure (info : I) (createFunction : CreateFunc) (p : Pool)
    (r : Z) (size size' : nat) (written written' : list ascii) :
  f clObject info 0 = (CL_SUCCESS, size, written) -> size <> 0 ->
  f clObject info size = (r, size', written') -> r <> CL_SUCCESS ->
  GetValue f clObject info createFunction p =
    (Ok None, p,
     [Failed "getInfoFunction (clObject, info, size, buffer.data (), nullptr)" r]).
Proof.
  intros Hf Hsize Hf' Hr. unfold GetValue, NIV_SAFE_CL. rewrite Hf, Z.eqb_refl.
  destruct (Nat.eqb_spec size 0); [contradiction|]. rewrite Hf'.
  destruct (Z.eqb_spec r CL_SUCCESS); [contradiction | reflexivity].
Qed.

Lemma GetValue_decodes (info : I) (createFunction : CreateFunc) (p : Pool)
    (size size' : nat) (written written' : list ascii) :
  f clObject info 0 = (CL_SUCCESS, size, written) -> size <> 0 ->
  f clObject info size = (CL_SUCCESS, size', written') ->
  GetValue f clObject info createFunction p =
    createFunction (filled NUL size written') size p.
Proof.
  intros Hf Hsize Hf'. unfold GetValue, NIV_SAFE_CL. rewrite Hf, Z.eqb_refl.
  destruct (Nat.eqb_spec size 0); [contradiction|]. rewrite Hf', Z.eqb_refl. reflexivity.
Qed.

(** A fetch that ends with the null pointer and the pool unchanged
    returns. *)
Lemma fetch_returns_null (m : M ptr) :
  (forall p, exists d, m p = (Ok None, p, d)) -> fetch_returns m.
Proof.
  intros Hm p. destruct (Hm p) as [d Hd]. exists None, p, d, [].
  split_all; [exact Hd | apply values_grow_refl |].
  exists []. split; constructor.
Qed.

(** C6. Every sequence of [GetProperties] calls against a node whose
    property list reads as [ps], with fetches that return, ends
    normally, and afterwards the property list of the node reads as
    [ps] followed by one property per table entry, in the order of the
    entries across the calls; each new property carries name, hint and
    type of its entry and a value list its fetch returned.  The
    properties read before are read unchanged, and of the pool only
    the list of this node and new cells are touched. *)
Theorem GetProperties_accumulates (node : nat)
    (containers : list (list (PropertyFetcher I))) (p : Pool) (ps : list PropertyView) :
  node_properties p node ps ->
  (forall container entry,
      container ∈ containers -> entry ∈ container ->
      fetch_returns (GetValue f clObject (info entry) (cf entry))) ->
  exists p' d news,
    GetProperties_calls node f clObject containers p = (Ok tt, p', d) /\
    node_properties p' node (ps ++ news) /\
    Forall2 (built_by f clObject) (concat containers) news /\
    populate_frame node p p'.
Proof.
  revert p ps. induction containers as [|container containers IH]; intros p ps Hnode Hfetch.
  - exists p, [], []. rewrite app_nil_r.
    split_all; [reflexivity | exact Hnode | constructor | apply populate_frame_refl].
  - destruct (GetProperties_appends node container p ps Hnode) as
        (p1 & d1 & news1 & Hrun1 & Hnode1 & Hbuilt1 & Hframe1).
    { intros entry Hentry. eapply Hfetch; [apply list_elem_of_here | exact Hentry]. }
    destruct (IH p1 (ps ++ news1) Hnode1) as (p2 & d2 & news2 & Hrun2 & Hnode2 & Hbuilt2 & Hframe2).
    { intros c e Hc He. eapply Hfetch; [apply list_elem_of_further; exact Hc | exact He]. }
    exists p2, (d1 ++ d2), (news1 ++ news2). split_all.
    + cbn [GetProperties_calls]. erewrite bind_Ok; [|exact Hrun1]. rewrite Hrun2. reflexivity.
    + rewrite app_assoc. exact Hnode2.
    + cbn [concat]. apply Forall2_app; assumption.
    + eapply populate_frame_trans; eassumption.
Qed.

End Populate.

(** ** Fetches that fail *)

Section FetchFailure.
Context {hdr : cl_h} {O I : Type} (f : GetInfoFunction O I) (clObject : O).

Lemma GetValue_fetch_fails (info : I) (createFunction : CreateFunc) (p : Pool) :
  fetch_fails f clObject info ->
  exists d, GetValue f clObject info createFunction p = (Ok None, p, d).
Proof.
  intros (r & size & written & Hf & Hcases).
  destruct (Z.eq_dec r CL_SUCCESS) as [->|Hr].
  - destruct Hcases as [Hr | [-> | (r' & size' & written' & Hf' & Hr')]].
    + contradiction.
    + eexists. eapply GetValue_empty. exact Hf.
    + destruct (Nat.eq_dec size 0) as [->|Hsize].
      * eexists. eapply GetValue_empty. exact Hf.
      * eexists. eapply GetValue_data_failure; eassumption.
  - eexists. eapply GetValue_size_failure; eassumption.
Qed.

Lemma value_list_null (p : Pool) (us : list cliUnion) : value_list p None us -> us = [].
Proof.
  intros (l & Hc & Hall). inversion Hc; subst. apply Forall2_nil_inv_l in Hall. exact Hall.
Qed.

Lemma built_by_fetch_fails (container : list (PropertyFetcher I)) (news : list PropertyView) :
  (forall entry, entry ∈ container -> fetch_fails f clObject (info entry)) ->
  Forall2 (built_by f clObject) container news ->
  news = map without_values container.
Proof.
  intros Hfails Hall. induction Hall as [|entry pv container news Hb _ IH]; [reflexivity|].
  cbn [map]. rewrite IH by (intros e He; apply Hfails; apply list_elem_of_further; exact He).
  f_equal.
  destruct Hb as (Hn & Hh & Ht & p0 & v & p1 & d & Hget & Hus).
  destruct (GetValue_fetch_fails (info entry) (cf entry) p0
              (Hfails entry (list_elem_of_here _ _))) as [d' Hnull].
  rewrite Hnull in Hget. injection Hget as <- <- <-.
  apply value_list_null in Hus.
  destruct pv as [nm hh t us]. cbn in *. subst. reflexivity.
Qed.

(** C4, as the code has it.  [GetValue] returns the null value list
    with the pool unchanged when the size query reports size 0 (nothing
    is written to [std::cerr]), and returns the very same null value
    list when the size query or the data query reports failure, after
    writing the failed call and its status to [std::cerr]; only when
    both queries succeed is the decoder run.  [GetProperties] does not
    see the difference: for a table whose fetches all yield no data it
    ends normally and has appended one property without values per
    entry, in table order, behind the properties the node had. *)
Theorem GetValue_failure_is_null :
  (forall info createFunction p r size written,
      f clObject info 0 = (r, size, written) -> r <> CL_SUCCESS ->
      GetValue f clObject info createFunction p =
        (Ok None, p, [Failed "getInfoFunction (clObject, info, 0, nullptr, &size)" r])) /\
  (forall info createFunction p written,
      f clObject info 0 = (CL_SUCCESS, 0, written) ->
      GetValue f clObject info createFunction p = (Ok None, p, [])) /\
  (forall info createFunction p r size size' written written',
      f clObject info 0 = (CL_SUCCESS, size, written) -> size <> 0 ->
      f clObject info size = (r, size', written') -> r <> CL_SUCCESS ->
      GetValue f clObject info createFunction p =
        (Ok None, p,
         [Failed "getInfoFunction (clObject, info, size, buffer.data (), nullptr)" r])) /\
  (forall info createFunction p size size' written written',
      f clObject info 0 = (CL_SUCCESS, size, written) -> size <> 0 ->
      f clObject info size = (CL_SUCCESS, size', written') ->
      GetValue f clObject info createFunction p =
        createFunction (filled NUL size written') size p) /\
  (forall node container p ps,
      node_properties p node ps ->
      (forall entry, entry ∈ container -> fetch_fails f clObject (info entry)) ->
      exists p' d,
        GetProperties node f clObject container p = (Ok tt, p', d) /\
        node_properties p' node (ps ++ map without_values container)).
Proof.
  split_all.
  - intros. eapply GetValue_size_failure; eassumption.
  - intros. eapply GetValue_empty; eassumption.
  - intros. eapply GetValue_data_failure; eassumption.
  - intros. eapply GetValue_decodes; eassumption.
  - intros node container p ps Hnode Hfails.
    destruct (GetProperties_appends f clObject node container p ps Hnode)
      as (p' & d & news & Hrun & Hnode' & Hbuilt & _).
    { intros entry Hentry. apply fetch_returns_null. intros p0.
      apply GetValue_fetch_fails. apply Hfails. exact Hentry. }
    exists p', d. split; [exact Hrun|].
    rewrite <- (built_by_fetch_fails container news Hfails Hbuilt). exact Hnode'.
Qed.

End FetchFailure.

(** ** Decoders that return *)

Lemma fetch_returns_single (m : M ptr) (u : cliUnion) :
  (forall p, exists d, m p = (Ok (Some (length (values p))), with_value p u, d)) ->
  fetch_returns m.
Proof.
  intros Hm p. destruct (Hm p) as [d Hd].
  exists (Some (length (values p))), (with_value p u), d, [u].
  split_all; [exact Hd | | ].
  - split_unfold; [exists [mkValue u None]; reflexivity | reflexivity | reflexivity].
  - exists [length (values p)]. split.
    + econstructor; [apply lookup_fresh|]. constructor.
    + constructor; [|constructor]. exists (mkValue u None). split; [apply lookup_fresh | reflexivity].
Qed.

Lemma CreateUInt_run (buffer : list ascii) (size : nat) (x : Z) (p : Pool) :
  le_uint sizeof_cl_uint buffer = Some x ->
  CreateUInt buffer size p = (Ok (Some (length (values p))), with_value p (U_i x), []).
Proof.
  intros Hx. unfold CreateUInt. rewrite Hx.
  erewrite bind_Ok; [|apply CreateValue_i_run]. reflexivity.
Qed.

Lemma CreateBool_run (buffer : list ascii) (size : nat) (x : Z) (p : Pool) :
  le_uint sizeof_cl_uint buffer = Some x ->
  CreateBool buffer size p =
    (Ok (Some (length (values p))), with_value p (U_b (negb (x =? 0)%Z)), []).
Proof.
  intros Hx. unfold CreateBool. rewrite Hx.
  erewrite bind_Ok; [|apply CreateValue_b_run]. reflexivity.
Qed.

Lemma CreateBitfield_returns (config : Z) (fields : list BitfieldFetcher) :
  fetch_returns (CreateBitfield config fields).
Proof.
  intros p.
  destruct (CreateBitfield_loop_building config fields _ _ _ _ _ _ (building_start p))
    as (p' & result & last' & l' & Hrun & (Hc & Hall & _) & Hk).
  exists result, p', [], (selected_names config fields).
  split_all; [exact Hrun | apply keeps_below_grow; exact Hk | exists l'; split; assumption].
Qed.

(** ** The tokenizer *)

Lemma span_token_app (rest : list ascii) :
  forall tok after, span_token rest = (tok, after) -> rest = tok ++ after.
Proof.
  induction rest as [|c rest IH]; intros tok after Hspan; cbn in Hspan.
  - injection Hspan as <- <-. reflexivity.
  - destruct (Ascii.eqb c SPACE).
    + injection Hspan as <- <-. reflexivity.
    + destruct (span_token rest) as [t a]. injection Hspan as <- <-.
      cbn. f_equal. apply IH. reflexivity.
Qed.

Lemma span_token_after (rest : list ascii) :
  forall tok after, span_token rest = (tok, after) ->
                    after = [] \/ exists a, after = SPACE :: a.
Proof.
  induction rest as [|c rest IH]; intros tok after Hspan; cbn in Hspan.
  - injection Hspan as <- <-. left. reflexivity.
  - destruct (Ascii.eqb_spec c SPACE) as [->|Hc].
    + injection Hspan as <- <-. right. eexists. reflexivity.
    + destruct (span_token rest) as [t a]. injection Hspan as <- <-.
      eapply IH. reflexivity.
Qed.


(** The inner loop of the tokenizer stops at the end of the token. *)
Lemma skip_token_span (rest : list ascii) (tail : list ascii) :
  NUL ∉ rest ->
  forall tok after, span_token rest = (tok, after) ->
  skip_token (rest ++ NUL :: tail) = Some (length tok).
Proof.
  induction rest as [|c rest IH]; intros Hnul tok after Hspan; cbn in Hspan.
  - injection Hspan as <- <-. reflexivity.
  - apply not_elem_of_cons in Hnul as [Hc Hrest]. cbn.
    destruct (Ascii.eqb_spec c NUL) as [->|_]; [contradiction|].
    destruct (Ascii.eqb c SPACE); cbn.
    + injection Hspan as <- <-. reflexivity.
    + destruct (span_token rest) as [t a] eqn:Ht. injection Hspan as <- <-.
      rewrite (IH Hrest t a eq_refl). reflexivity.
Qed.

(** The loop that skips spaces stops at the first other character. *)
Lemma skip_spaces_drop (rest : list ascii) (tail : list ascii) :
  NUL ∉ rest ->
  exists j, skip_spaces (rest ++ NUL :: tail) = Some j /\
            drop j (rest ++ NUL :: tail) = drop_spaces rest ++ NUL :: tail.
Proof.
  induction rest as [|c rest IH]; intros Hnul.
  - exists 0. split; reflexivity.
  - apply not_elem_of_cons in Hnul as [Hc Hrest]. cbn.
    destruct (Ascii.eqb c SPACE).
    + destruct (IH Hrest) as (j & Hj & Hdrop). exists (S j). rewrite Hj. split; [reflexivity|].
      exact Hdrop.
    + exists 0. split; reflexivity.
Qed.

Lemma drop_spaces_no_NUL (rest : list ascii) : NUL ∉ rest -> NUL ∉ drop_spaces rest.
Proof.
  induction rest as [|c rest IH]; intros Hnul; [exact Hnul|].
  cbn. destruct (Ascii.eqb c SPACE); [|exact Hnul].
  apply IH. apply not_elem_of_cons in Hnul as [_ Hrest]. exact Hrest.
Qed.

Lemma drop_spaces_length (rest : list ascii) : length (drop_spaces rest) <= length rest.
Proof.
  induction rest as [|c rest IH]; [reflexivity|].
  cbn. destruct (Ascii.eqb c SPACE); cbn; lia.
Qed.

Lemma c_str_token (tok tail : list ascii) :
  NUL ∉ tok -> c_str (tok ++ NUL :: tail) = Some (string_of_list_ascii tok).
Proof.
  induction tok as [|c tok IH]; intros Hnul; [reflexivity|].
  apply not_elem_of_cons in Hnul as [Hc Htok]. cbn.
  destruct (Ascii.eqb_spec c NUL) as [->|_]; [contradiction|].
  rewrite (IH Htok). reflexivity.
Qed.

Lemma length_string_of_list_ascii (l : list ascii) :
  String.length (string_of_list_ascii l) = length l.
Proof. induction l as [|c l IH]; cbn; [reflexivity | rewrite IH; reflexivity]. Qed.

Lemma CreateValue_s_run (value : string) (p : Pool) :
  (Z.of_nat (String.length value) + 1 < BlockSize)%Z ->
  CreateValue_s value p = (Ok (length (values p)), with_value p (U_s value), []).
Proof.
  intros Hlen. unfold CreateValue_s, BlockSize in *.
  assert (static_cast_int (Z.of_nat (String.length value)) = Z.of_nat (String.length value))
    as Hcast.
  { unfold static_cast_int. rewrite Z.mod_small by lia. lia. }
  rewrite Hcast.
  assert (Allocate (Z.of_nat (String.length value) + 1) = ret tt) as ->.
  { unfold Allocate, BlockSize. rewrite Z.geb_leb.
    destruct (Z.ltb_spec (Z.of_nat (String.length value) + 1) 0); [lia|].
    destruct (Z.leb_spec 1048576 (Z.of_nat (String.length value) + 1)); [lia|].
    reflexivity. }
  destruct (Z.leb_spec (Z.of_nat (String.length value) + 1) (Z.of_nat (String.length value)));
    [lia|].
  unfold bind, Allocate_cliValue, ret, store_value. cbn [values properties nodes].
  rewrite lookup_fresh. cbn [values properties nodes]. rewrite insert_fresh. reflexivity.
Qed.

Lemma lookup_drop_head {A} (l : list A) (p : nat) (x : A) (rest : list A) :
  drop p l = x :: rest -> l !! p = Some x.
Proof.
  intros Hd. rewrite <- (Nat.add_0_r p). rewrite <- lookup_drop. rewrite Hd. reflexivity.
Qed.

Lemma deref_Some (buffer : list ascii) (p : nat) (c : ascii) :
  buffer !! p = Some c -> deref buffer p = ret c.
Proof. intros Hc. unfold deref. rewrite Hc. reflexivity. Qed.

Lemma CreateCharList_loop_tokens : forall fuel buffer p rest tail base pool result last_ l us,
   drop p buffer = rest ++ NUL :: tail ->
   NUL ∉ rest ->
   length rest <= fuel ->
   (Z.of_nat (length rest) + 1 < BlockSize)%Z ->
   building base pool result last_ l us ->
   exists pool' result' last' l',
     CreateCharList_loop fuel buffer p result last_ pool = (Ok result', pool', []) /\
     building base pool' result' last' (l ++ l') (us ++ map U_s (library_tokens fuel rest)) /\
     keeps_below base pool pool'.
Proof.
  induction fuel as [|fuel IH]; intros buffer p rest tail base pool result last_ l us
                                        Hdrop Hnul Hfuel Hsize Hb.
  - destruct rest as [|c rest]; [|cbn in Hfuel; lia].
    cbn in Hdrop. apply lookup_drop_head in Hdrop.
    exists pool, result, last_, []. cbn [CreateCharList_loop].
    rewrite (deref_Some _ _ _ Hdrop), bind_ret. cbn.
    rewrite !app_nil_r. split_all; [reflexivity | exact Hb | apply keeps_below_refl].
  - destruct rest as [|c rest].
    + cbn in Hdrop. apply lookup_drop_head in Hdrop.
      exists pool, result, last_, []. cbn [CreateCharList_loop].
      rewrite (deref_Some _ _ _ Hdrop), bind_ret. cbn.
      rewrite !app_nil_r. split_all; [reflexivity | exact Hb | apply keeps_below_refl].
    + pose proof (lookup_drop_head _ _ _ _ Hdrop) as Hc.
      assert (c <> NUL) as HcNUL by (intros ->; apply Hnul; left).
      destruct (span_token (c :: rest)) as [tok after] eqn:Hspan.
      pose proof (span_token_app _ _ _ Hspan) as Hrest.
      pose proof (skip_token_span _ tail Hnul _ _ Hspan) as Hskip.
      assert ((NUL ∉ tok) /\ (NUL ∉ after)) as [Htok Hafter].
      { rewrite Hrest in Hnul. apply not_elem_of_app in Hnul. exact Hnul. }
      assert (length tok + length after = length (c :: rest)) as Hlen.
      { rewrite Hrest, length_app. reflexivity. }
      set (k := length tok) in *.
      set (value := string_of_list_ascii tok).
      assert (CreateValue_s value pool
              = (Ok (length (values pool)), with_value pool (U_s value), [])) as Hvalue.
      { apply CreateValue_s_run. unfold value. rewrite length_string_of_list_ascii.
        cbn [length] in *. lia. }
      destruct (with_value_building _ _ _ _ _ _ (U_s value) Hb)
        as (Hb1 & Hk1 & Hv & Hnotin & Hbase).
      destruct (append_value_building _ _ _ _ _ _ _ _ Hb1 Hv eq_refl Hnotin Hbase)
        as (pool2 & result2 & Happ & Hb2 & Hk2).
      cbn [v_union] in Hb2.
      assert (exists buffer' p' rest',
                 CreateCharList_loop (S fuel) buffer p result last_ pool
                 = CreateCharList_loop fuel buffer' p' result2 (Some (length (values pool))) pool2 /\
                 drop p' buffer' = rest' ++ NUL :: tail /\
                 (NUL ∉ rest') /\ length rest' <= length rest /\
                 rest' = match after with [] => [] | _ :: after' => drop_spaces after' end)
        as (buffer' & p' & rest' & Hstep & Hdrop' & Hnul' & Hlen' & Hrest').
      { assert (forall i, buffer !! (p + i) = (tok ++ after ++ NUL :: tail) !! i) as Hat.
        { intros i. rewrite <- lookup_drop, Hdrop, Hrest, <- app_assoc. reflexivity. }
        assert (CreateCharList_loop (S fuel) buffer p result last_ pool =
                bind (deref buffer (p + k)) (fun c0 =>
                  bind (if Ascii.eqb c0 SPACE then
                          match skip_spaces (drop (S (p + k)) (<[p + k := NUL]> buffer)) with
                          | Some j => ret (<[p + k := NUL]> buffer, S (p + k) + j)
                          | None => undefined
                          end
                        else ret (buffer, p + k)) (fun bp =>
                    let '(buffer0, p0) := bp in
                    match c_str (drop p buffer0) with
                    | Some tok0 =>
                        bind (CreateValue_s tok0) (fun value0 =>
                          bind (append_value result last_ value0) (fun rl =>
                            CreateCharList_loop fuel buffer0 p0 (fst rl) (snd rl)))
                    | None => undefined
                    end)) pool) as ->.
        { cbn [CreateCharList_loop]. rewrite (deref_Some _ _ _ Hc), bind_ret.
          destruct (Ascii.eqb_spec c NUL) as [->|_]; [contradiction|].
          rewrite Hdrop, Hskip. reflexivity. }
        destruct (span_token_after _ _ _ Hspan) as [-> | [a ->]].
        - exists buffer, (p + k), []. rewrite app_nil_r in Hrest.
          split_all; [| |apply not_elem_of_nil|cbn; lia|reflexivity].
          + rewrite (deref_Some _ _ NUL), bind_ret.
            2:{ rewrite Hat. apply list_lookup_middle. reflexivity. }
            change (Ascii.eqb NUL SPACE) with false. cbn iota. rewrite bind_ret.
            rewrite Hdrop, Hrest, (c_str_token _ _ Htok).
            rewrite (bind_Ok_nil _ _ _ _ _ Hvalue), (bind_Ok_nil _ _ _ _ _ Happ).
            reflexivity.
          + rewrite <- drop_drop, Hdrop, Hrest. apply drop_app_length.
        - destruct (skip_spaces_drop a tail) as (j & Hj & Hdropj).
          { apply not_elem_of_cons in Hafter as [_ Ha]. exact Ha. }
          assert (drop (S (p + k)) (<[p + k := NUL]> buffer) = a ++ NUL :: tail) as Hdrop1.
          { rewrite drop_insert_lt by lia.
            replace (S (p + k)) with (p + S k) by lia.
            rewrite <- drop_drop, Hdrop, Hrest, <- app_assoc.
            change ((SPACE :: a) ++ NUL :: tail) with ([SPACE] ++ (a ++ NUL :: tail)).
            rewrite app_assoc. apply drop_app_length'.
            rewrite length_app. cbn. unfold k. lia. }
          exists (<[p + k := NUL]> buffer), (S (p + k) + j), (drop_spaces a).
          split_all.
          + rewrite (deref_Some _ _ SPACE), bind_ret.
            2:{ rewrite Hat. apply list_lookup_middle. reflexivity. }
            change (Ascii.eqb SPACE SPACE) with true. cbn iota.
            rewrite Hdrop1, Hj, bind_ret.
            assert (drop p (<[p + k := NUL]> buffer) = tok ++ NUL :: a ++ NUL :: tail) as ->.
            { rewrite drop_insert_ge by lia. replace (p + k - p) with k by lia.
              rewrite Hdrop, Hrest, <- app_assoc. unfold k.
              rewrite insert_app_r_alt by lia. rewrite Nat.sub_diag. reflexivity. }
            rewrite (c_str_token _ _ Htok).
            rewrite (bind_Ok_nil _ _ _ _ _ Hvalue), (bind_Ok_nil _ _ _ _ _ Happ).
            reflexivity.
          + rewrite <- drop_drop, Hdrop1. exact Hdropj.
          + apply drop_spaces_no_NUL. apply not_elem_of_cons in Hafter as [_ Ha]. exact Ha.
          + pose proof (drop_spaces_length a). cbn [length] in Hlen. lia.
          + reflexivity. }
      destruct (IH buffer' p' rest' tail base pool2 result2 (Some (length (values pool)))
                  (l ++ [length (values pool)]) (us ++ [U_s value]) Hdrop' Hnul')
        as (pool3 & result3 & last3 & l3 & Hrun & Hb3 & Hk3);
        [cbn [length] in Hfuel; lia | cbn [length] in Hsize; lia | exact Hb2 |].
      exists pool3, result3, last3, (length (values pool) :: l3).
      rewrite Hstep. split; [exact Hrun|]. split.
      * cbn [library_tokens]. rewrite Hspan. rewrite <- Hrest'. cbn [map].
        rewrite <- !app_assoc in Hb3. exact Hb3.
      * eapply keeps_below_trans; [exact Hk1|].
        eapply keeps_below_trans; [exact Hk2 | exact Hk3].
Qed.




Lemma span_token_length (rest : list ascii) :
  forall tok after, span_token rest = (tok, after) -> length after <= length rest.
Proof.
  intros tok after Hspan. rewrite (span_token_app _ _ _ Hspan), length_app. lia.
Qed.





(** ** Runs on the sample drivers *)

(** Two calls against a fresh node, on a driver that fails on
    [CL_DEVICE_NAME]. *)
Lemma GetProperties_accumulates_witness :
  let drv := sample_driver [1%Z] [10%Z] "OpenCL 1.2 Mock" ["CL_DEVICE_NAME"] in
  let p := mkPool [] [] [zero_node] in
  exists p' d news,
    GetProperties_calls 0 (clGetDeviceInfo drv) 10%Z sample_containers p = (Ok tt, p', d) /\
    node_properties p' 0 ([] ++ news) /\
    Forall2 (built_by (clGetDeviceInfo drv) 10%Z) (concat sample_containers) news /\
    populate_frame 0 p p'.
Proof.
  apply GetProperties_accumulates.
  - exists zero_node. split; [reflexivity|]. exists []. split; constructor.
  - intros container entry Hc He. unfold sample_containers in Hc.
    apply elem_of_cons in Hc as [-> | Hc];
      [|apply elem_of_cons in Hc as [-> | Hc]; [|apply elem_of_nil in Hc; contradiction]].
    + apply elem_of_cons in He as [-> | He]; [|apply elem_of_nil in He; contradiction].
      apply (fetch_returns_single _ (U_i 1)). intros p0. eexists.
      erewrite GetValue_decodes; [|reflexivity|discriminate|reflexivity].
      apply CreateUInt_run. reflexivity.
    + apply elem_of_cons in He as [-> | He];
        [|apply elem_of_cons in He as [-> | He]; [|apply elem_of_nil in He; contradiction]].
      * apply fetch_returns_null. intros p0. eexists.
        eapply GetValue_size_failure; [reflexivity|]. discriminate.
      * apply (fetch_returns_single _ (U_b true)). intros p0. eexists.
        erewrite GetValue_decodes; [|reflexivity|discriminate|reflexivity].
        apply (CreateBool_run _ _ 1). reflexivity.
Defined.

(** C1, the claim refuted.  [CL_DEVICE_HOST_UNIFIED_MEMORY] stands in
    the 1.1 table, and (1,1) <= (1,2), so the union of the tables up to
    (1,2) has it; the attributes fetched for version (1,2) do not, and
    neither does the device node gathered from a driver that reports
    "OpenCL 1.2 Mock".  The same holds in clDiag.cpp, whose 1.1 table
    has the attribute and whose only table fetched for (1,2) has not. *)
Lemma selection_is_not_cumulative :
  let version := mkVersion 1 2 in
  let name := Some "CL_DEVICE_HOST_UNIFIED_MEMORY" in
  Version_le (mkVersion 1 1) version = true /\
  name ∈ names infos_CL_1_1 /\
  name ∈ names (tables_up_to version) /\
  (name ∉ names (propertiesToFetch version)) /\
  (exists p d r,
      GatherOpenCLInfo (sample_driver [1%Z] [10%Z] "OpenCL 1.2 Mock" []) empty_pool
        = (Ok r, p, d) /\
      first_device_property_names p r = Some (names (propertiesToFetch version)) /\
      ParseVersion "OpenCL 1.2 Mock" = Some version) /\
  name ∈ names ClDiag.infos_CL_1_1 /\
  ClDiag.tables_fetched version = [ClDiag.infos_CL_1_2] /\
  (name ∉ names ClDiag.infos_CL_1_2).
Proof.
  cbv zeta. split_all.
  - reflexivity.
  - decide_by_compute.
  - decide_by_compute.
  - decide_by_compute.
  - eexists. eexists. eexists. split; [vm_compute; reflexivity|].
    split; vm_compute; reflexivity.
  - decide_by_compute.
  - reflexivity.
  - decide_by_compute.
Qed.

(** C4, the claim refuted.  On a driver whose size query for
    [CL_DEVICE_NAME] fails with [CL_INVALID_VALUE], the fetch returns
    the null value list that it also returns for an empty attribute;
    the gather is not aborted: it returns [CLI_Success] with a root, the
    device node has all the properties of its version,
    [CL_DEVICE_NAME] among them without values, and [CL_DEVICE_VENDOR],
    fetched after it, with its value. *)
Lemma fetch_failure_is_swallowed :
  let drv := sample_driver [1%Z] [10%Z] "OpenCL 1.2 Mock" ["CL_DEVICE_NAME"] in
  let line := Failed "getInfoFunction (clObject, info, 0, nullptr, &size)" CL_INVALID_VALUE in
  GetValue (clGetDeviceInfo drv) 10%Z "CL_DEVICE_NAME" CreateChar empty_pool
    = (Ok None, empty_pool, [line]) /\
  exists info pvs,
    cliInfo_Gather drv (mk_cliInfo empty_pool None) = Some (CLI_Success, info, [line]) /\
    root info = Some 0 /\
    first_device_properties (pool info) (root info) = Some pvs /\
    map pv_name pvs = names (propertiesToFetch (mkVersion 1 2)) /\
    mkPropertyView (Some "CL_DEVICE_NAME") None CLI_PropertyType_String [] ∈ pvs /\
    mkPropertyView (Some "CL_DEVICE_VENDOR") None CLI_PropertyType_String [U_s sample_text]
      ∈ pvs.
Proof.
  cbv zeta. split; [reflexivity|].
  eexists. eexists. split; [vm_compute; reflexivity|].
  split; [reflexivity|]. split; [vm_compute; reflexivity|].
  split; [vm_compute; reflexivity|].
  split; decide_by_compute.
Qed.

(** C2.  [CreateCharList] of the library on a text that begins with a
    space returns an empty string as first value.  The three examples
    of the claim hold for it.  The copy in clDiag.cpp does not collapse
    the double space. *)
Theorem CreateCharList_leading_space :
  decode_text CreateCharList " A" = Some [U_s ""; U_s "A"] /\
  decode_text CreateCharList " " = Some [U_s ""] /\
  decode_text CreateCharList "A B  C" = Some [U_s "A"; U_s "B"; U_s "C"] /\
  CreateCharList (bytes_of "") 1 empty_pool = (Ok None, empty_pool, []) /\
  decode_text CreateCharList "onlyone" = Some [U_s "onlyone"] /\
  decode_text ClDiag.CreateCharList "A B  C" = Some [U_s "A"; U_s "B"; U_s ""; U_s "C"].
Proof. split_all; reflexivity. Qed.

(** ** The decoders on the bytes of a driver *)

Lemma le_uint_le_bytes (n : nat) : forall (x : Z) (rest : list ascii),
  le_uint n (le_bytes n x ++ rest) = Some (x mod 256 ^ Z.of_nat n)%Z.
Proof.
  induction n as [|n IH]; intros x rest.
  - cbn. rewrite Z.mod_1_r. reflexivity.
  - cbn [le_bytes le_uint app]. rewrite IH.
    rewrite N_ascii_embedding.
    2:{ pose proof (Z.mod_pos_bound x 256). lia. }
    rewrite Z2N.id by (pose proof (Z.mod_pos_bound x 256); lia).
    f_equal. rewrite Nat2Z.inj_succ, Z.pow_succ_r by lia.
    rewrite Z.rem_mul_r by lia. reflexivity.
Qed.

Lemma le_uint_exact (n : nat) (x : Z) (rest : list ascii) :
  (0 <= x < 256 ^ Z.of_nat n)%Z -> le_uint n (le_bytes n x ++ rest) = Some x.
Proof. intros Hx. rewrite le_uint_le_bytes, Z.mod_small by exact Hx. reflexivity. Qed.

Lemma le_uint_short (n : nat) : forall (buffer : list ascii),
  length buffer < n -> le_uint n buffer = None.
Proof.
  induction n as [|n IH]; intros buffer Hlen; [lia|].
  destruct buffer as [|b rest]; [reflexivity|].
  cbn [le_uint]. rewrite IH by (cbn in Hlen; lia). reflexivity.
Qed.

Lemma length_le_bytes (n : nat) : forall x, length (le_bytes n x) = n.
Proof. induction n as [|n IH]; intros x; cbn; [reflexivity | rewrite IH; reflexivity]. Qed.

Lemma static_cast_int64_as_int64 (x : Z) :
  (0 <= x < 18446744073709551616)%Z -> static_cast_int64 x = as_int64 x.
Proof.
  intros Hx. unfold static_cast_int64, as_int64.
  destruct (Z.ltb_spec x 9223372036854775808).
  - rewrite Z.mod_small by lia. lia.
  - replace (x + 9223372036854775808)%Z
      with (x - 9223372036854775808 + 1 * 18446744073709551616)%Z by lia.
    rewrite Z.mod_add by lia. rewrite Z.mod_small by lia. lia.
Qed.

(** X1. [CreateUInt] and [CreateBool] on the four bytes of a [cl_uint]
    [x] (whatever follows them in the buffer, whatever size is passed):
    one fresh value cell is appended to the pool and returned; it holds
    [x] itself as the 64-bit integer, respectively whether [x] is not
    zero, and its link is null. *)
Theorem CreateUInt_CreateBool_decode (x : Z) (rest : list ascii) (size : nat) (p : Pool) :
  (0 <= x < 4294967296)%Z ->
  CreateUInt (le_bytes 4 x ++ rest) size p
    = (Ok (Some (length (values p))), with_value p (U_i x), []) /\
  CreateBool (le_bytes 4 x ++ rest) size p
    = (Ok (Some (length (values p))), with_value p (U_b (negb (x =? 0)%Z)), []).
Proof.
  intros Hx. split.
  - apply CreateUInt_run. apply (le_uint_exact 4). exact Hx.
  - apply CreateBool_run. apply (le_uint_exact 4). exact Hx.
Qed.

Lemma CreateUInt_CreateBool_decode_witness :
  CreateUInt (le_bytes 4 4294967295 ++ [NUL]) 4 empty_pool
    = (Ok (Some 0), mkPool [mkValue (U_i 4294967295) None] [] [], []) /\
  CreateBool (le_bytes 4 4294967295 ++ [NUL]) 4 empty_pool
    = (Ok (Some 0), mkPool [mkValue (U_b true) None] [] [], []).
Proof. apply (CreateUInt_CreateBool_decode 4294967295 [NUL] 4 empty_pool). lia. Defined.

(** X2. [CreateULong] and [CreateSizeT] on the eight bytes of an
    unsigned 64-bit [x]: the value cell holds [x] converted to
    [std::int64_t], that is [x] below 2^63 and [x - 2^64], a negative
    number, from 2^63 on. *)
Theorem CreateULong_CreateSizeT_decode (x : Z) (rest : list ascii) (size : nat) (p : Pool) :
  (0 <= x < 18446744073709551616)%Z ->
  CreateULong (le_bytes 8 x ++ rest) size p
    = (Ok (Some (length (values p))), with_value p (U_i (as_int64 x)), []) /\
  CreateSizeT (le_bytes 8 x ++ rest) size p
    = (Ok (Some (length (values p))), with_value p (U_i (as_int64 x)), []) /\
  (x < 9223372036854775808 -> as_int64 x = x)%Z /\
  (9223372036854775808 <= x -> as_int64 x = x - 18446744073709551616 /\ as_int64 x < 0)%Z.
Proof.
  intros Hx.
  assert (le_uint 8 (le_bytes 8 x ++ rest) = Some x) as Hread
      by (apply (le_uint_exact 8); exact Hx).
  split_all.
  - unfold CreateULong, sizeof_cl_ulong. rewrite Hread.
    rewrite static_cast_int64_as_int64 by exact Hx.
    erewrite bind_Ok; [|apply CreateValue_i_run]. reflexivity.
  - unfold CreateSizeT, sizeof_size_t. rewrite Hread.
    rewrite static_cast_int64_as_int64 by exact Hx.
    erewrite bind_Ok; [|apply CreateValue_i_run]. reflexivity.
  - intros Hlow. unfold as_int64. destruct (Z.ltb_spec x 9223372036854775808); lia.
  - intros Hhigh. unfold as_int64. destruct (Z.ltb_spec x 9223372036854775808); lia.
Qed.

Lemma CreateULong_CreateSizeT_decode_witness :
  CreateULong (le_bytes 8 18446744073709551615) 8 empty_pool
    = (Ok (Some 0), mkPool [mkValue (U_i (-1)) None] [] [], []) /\
  CreateSizeT (le_bytes 8 18446744073709551615) 8 empty_pool
    = (Ok (Some 0), mkPool [mkValue (U_i (-1)) None] [] [], []).
Proof.
  destruct (CreateULong_CreateSizeT_decode 18446744073709551615 [] 8 empty_pool)
    as (HL & HS & _); [lia|].
  rewrite app_nil_r in HL, HS. split; [exact HL | exact HS].
Defined.

Lemma length_filled {T} (zero : T) (count : nat) (written : list T) :
  length (filled zero count written) = count.
Proof.
  unfold filled. rewrite length_take, length_app, length_replicate. lia.
Qed.

(** X3. [GetValue] trusts the size that the driver reports: the buffer
    has exactly that many bytes, and the fixed-width decoders read
    [sizeof (cl_uint)] or eight bytes whatever its size.  When both
    queries succeed and the size reported is smaller than the width of
    the decoder, the decoder reads past the end of the buffer. *)
Theorem GetValue_trusts_reported_size {hdr : cl_h} {O I} (f : GetInfoFunction O I)
    (clObject : O) (info : I) (size size' : nat) (written written' : list ascii) (p : Pool) :
  f clObject info 0 = (CL_SUCCESS, size, written) ->
  f clObject info size = (CL_SUCCESS, size', written') ->
  (0 < size < 4 ->
     GetValue f clObject info CreateUInt p = (Stuck, p, []) /\
     GetValue f clObject info CreateBool p = (Stuck, p, [])) /\
  (0 < size < 8 ->
     GetValue f clObject info CreateULong p = (Stuck, p, []) /\
     GetValue f clObject info CreateSizeT p = (Stuck, p, [])).
Proof.
  intros Hsize Hdata. split; intros Hrange.
  - rewrite !(GetValue_decodes f clObject info _ p size size' written written' Hsize)
      by (lia || exact Hdata).
    unfold CreateUInt, CreateBool, sizeof_cl_uint.
    rewrite (le_uint_short 4) by (rewrite length_filled; lia). split; reflexivity.
  - rewrite !(GetValue_decodes f clObject info _ p size size' written written' Hsize)
      by (lia || exact Hdata).
    unfold CreateULong, CreateSizeT, sizeof_cl_ulong, sizeof_size_t.
    rewrite (le_uint_short 8) by (rewrite length_filled; lia). split; reflexivity.
Qed.

Lemma GetValue_trusts_reported_size_witness :
  GetValue (fun (_ : cl_device_id) (_ : cl_device_info) n => answer [NUL; NUL] n) 10%Z
    "CL_DEVICE_ADDRESS_BITS" CreateUInt empty_pool = (Stuck, empty_pool, []).
Proof.
  refine (proj1 (proj1 (GetValue_trusts_reported_size
                          (fun (_ : cl_device_id) (_ : cl_device_info) n => answer [NUL; NUL] n)
                          10%Z "CL_DEVICE_ADDRESS_BITS" 2 2 [] [NUL; NUL] empty_pool
                          eq_refl eq_refl) _)).
  lia.
Defined.

Lemma CreateSizeTList_loop_building (xs : list Z) (tail : list ascii) :
  Forall (fun x => 0 <= x < 18446744073709551616)%Z xs ->
  forall base p result last_ l us,
    building base p result last_ l us ->
    exists p' result' last' l',
      CreateSizeTList_loop (length xs) (size_t_entries xs ++ tail) result last_ p
        = (Ok result', p', []) /\
      building base p' result' last' (l ++ l') (us ++ map (fun x => U_i (as_int64 x)) xs) /\
      keeps_below base p p'.
Proof.
  induction xs as [|x xs IH]; intros Hrange base p result last_ l us Hb.
  - exists p, result, last_, []. cbn. rewrite !app_nil_r.
    split; [reflexivity|]. split; [exact Hb | apply keeps_below_refl].
  - apply Forall_cons in Hrange as [Hx Hrange].
    cbn [length CreateSizeTList_loop]. unfold size_t_entries. cbn [map concat].
    rewrite <- app_assoc. unfold sizeof_size_t.
    rewrite (le_uint_exact 8) by exact Hx.
    rewrite static_cast_int64_as_int64 by exact Hx.
    rewrite (bind_Ok_nil _ _ _ _ _ (CreateValue_i_run (as_int64 x) p)).
    destruct (with_value_building _ _ _ _ _ _ (U_i (as_int64 x)) Hb)
      as (Hb1 & Hk1 & Hv & Hnotin & Hbase).
    destruct (append_value_building _ _ _ _ _ _ _ _ Hb1 Hv eq_refl Hnotin Hbase)
      as (p2 & result2 & Happ & Hb2 & Hk2).
    rewrite (bind_Ok_nil _ _ _ _ _ Happ). cbn [fst snd].
    rewrite drop_app_length' by (symmetry; apply length_le_bytes).
    destruct (IH Hrange _ _ _ _ _ _ Hb2) as (p3 & result3 & last3 & l3 & Hrun & Hb3 & Hk3).
    fold (size_t_entries xs). rewrite Hrun.
    exists p3, result3, last3, (length (values p) :: l3). split; [reflexivity|].
    split.
    + cbn [map]. rewrite <- !app_assoc in Hb3. exact Hb3.
    + eapply keeps_below_trans; [exact Hk1|].
      eapply keeps_below_trans; [exact Hk2 | exact Hk3].
Qed.

(** X4. [CreateSizeTList] on the bytes of an array of [size_t]
    followed by fewer than eight further bytes, with the size of the
    whole: it returns a value list with one integer per entry, in
    order, each converted to [std::int64_t]; the trailing bytes are
    ignored, and for fewer than eight bytes the result is the null
    pointer.  Only value cells are added to the pool. *)
Theorem CreateSizeTList_decodes (xs : list Z) (tail : list ascii) (p : Pool) :
  Forall (fun x => 0 <= x < 18446744073709551616)%Z xs ->
  length tail < 8 ->
  exists p' result,
    CreateSizeTList (size_t_entries xs ++ tail) (8 * length xs + length tail) p
      = (Ok result, p', []) /\
    value_list p' result (map (fun x => U_i (as_int64 x)) xs) /\
    read_values (length (values p')) p' result = Some (map (fun x => U_i (as_int64 x)) xs) /\
    values_grow p p' /\
    (result = None <-> xs = []).
Proof.
  intros Hrange Htail.
  destruct (CreateSizeTList_loop_building xs tail Hrange _ _ _ _ _ _ (building_start p))
    as (p' & result & last' & l' & Hrun & (Hc & Hall & Hlast & Hbase & Hlen) & Hk).
  cbn [app] in Hc, Hall.
  assert (value_list p' result (map (fun x => U_i (as_int64 x)) xs)) as Hlist
      by (exists l'; split; assumption).
  exists p', result. split_all.
  - unfold CreateSizeTList, sizeof_size_t.
    replace ((8 * length xs + length tail) / 8) with (length xs); [exact Hrun|].
    rewrite Nat.mul_comm, Nat.div_add_l, Nat.div_small by lia. lia.
  - exact Hlist.
  - apply (read_values_list _ _ _ Hlist).
    apply Forall2_length in Hall. rewrite <- Hall. eapply chain_length. exact Hc.
  - apply keeps_below_grow. exact Hk.
  - split.
    + intros ->. inversion Hc; subst. apply Forall2_nil_inv_l in Hall.
      apply map_eq_nil in Hall. exact Hall.
    + intros ->. apply Forall2_nil_inv_r in Hall. subst l'. inversion Hc. reflexivity.
Qed.

Lemma CreateSizeTList_decodes_witness :
  exists p' result,
    CreateSizeTList (size_t_entries [1024; 18446744073709551615; 1]%Z ++ [NUL; NUL; NUL]) 27
      empty_pool = (Ok result, p', []) /\
    read_values (length (values p')) p' result = Some [U_i 1024; U_i (-1); U_i 1].
Proof.
  destruct (CreateSizeTList_decodes [1024; 18446744073709551615; 1]%Z [NUL; NUL; NUL]
              empty_pool) as (p' & result & Hrun & _ & Hread & _).
  - repeat constructor; lia.
  - cbn. lia.
  - exists p', result. split; [exact Hrun | exact Hread].
Defined.

Lemma c_str_bytes_of (text : string) (rest : list ascii) :
  NUL ∉ list_ascii_of_string text -> c_str (bytes_of text ++ rest) = Some text.
Proof.
  intros Hnul. unfold bytes_of. rewrite <- app_assoc. cbn [app].
  rewrite c_str_token by exact Hnul. rewrite string_of_list_ascii_of_string. reflexivity.
Qed.

Lemma c_str_no_NUL (buffer : list ascii) : NUL ∉ buffer -> c_str buffer = None.
Proof.
  induction buffer as [|c buffer IH]; intros Hnul; [reflexivity|].
  apply not_elem_of_cons in Hnul as [Hc Hrest]. cbn.
  destruct (Ascii.eqb_spec c NUL) as [->|_]; [contradiction|].
  rewrite (IH Hrest). reflexivity.
Qed.

Lemma CreateValue_s_too_long (value : string) (p : Pool) :
  (BlockSize <= Z.of_nat (String.length value) + 1 <= 2147483647)%Z ->
  CreateValue_s value p
    = (BadAlloc, mkPool (values p ++ [zero_value]) (properties p) (nodes p), []).
Proof.
  intros Hlen. unfold CreateValue_s, BlockSize in *.
  assert (static_cast_int (Z.of_nat (String.length value)) = Z.of_nat (String.length value))
    as Hcast.
  { unfold static_cast_int. rewrite Z.mod_small by lia. lia. }
  rewrite Hcast.
  assert (Allocate (Z.of_nat (String.length value) + 1) = throw_bad_alloc) as ->.
  { unfold Allocate, BlockSize. rewrite Z.geb_leb.
    destruct (Z.ltb_spec (Z.of_nat (String.length value) + 1) 0); [lia|].
    destruct (Z.leb_spec 1048576 (Z.of_nat (String.length value) + 1)); [|lia].
    reflexivity. }
  reflexivity.
Qed.

(** X5. [CreateChar] copies the text up to the first NUL of the buffer
    into one fresh value cell, whatever follows the NUL and whatever
    size is passed; when the text with its terminator does not fit a
    block of the pool, [std::bad_alloc] is thrown after the cell was
    allocated; a buffer without NUL is read past its end. *)
Theorem CreateChar_decodes (text : string) (rest : list ascii) (size : nat) (p : Pool) :
  NUL ∉ list_ascii_of_string text ->
  ((Z.of_nat (String.length text) + 1 < BlockSize)%Z ->
     CreateChar (bytes_of text ++ rest) size p
       = (Ok (Some (length (values p))), with_value p (U_s text), [])) /\
  ((BlockSize <= Z.of_nat (String.length text) + 1 <= 2147483647)%Z ->
     CreateChar (bytes_of text ++ rest) size p
       = (BadAlloc, mkPool (values p ++ [zero_value]) (properties p) (nodes p), [])) /\
  CreateChar (list_ascii_of_string text) size p = (Stuck, p, []).
Proof.
  intros Hnul. split_all.
  - intros Hlen. unfold CreateChar. rewrite c_str_bytes_of by exact Hnul.
    rewrite (bind_Ok_nil _ _ _ _ _ (CreateValue_s_run text p Hlen)). reflexivity.
  - intros Hlen. unfold CreateChar. rewrite c_str_bytes_of by exact Hnul.
    unfold bind. rewrite (CreateValue_s_too_long text p Hlen). reflexivity.
  - unfold CreateChar. rewrite c_str_no_NUL by exact Hnul. reflexivity.
Qed.

Lemma CreateChar_decodes_witness :
  CreateChar (bytes_of "Mock Device" ++ bytes_of "ignored") 20 empty_pool
    = (Ok (Some 0), mkPool [mkValue (U_s "Mock Device") None] [] [], []).
Proof.
  refine (proj1 (CreateChar_decodes "Mock Device" (bytes_of "ignored") 20 empty_pool _) _).
  - decide_by_compute.
  - vm_compute. reflexivity.
Defined.

(** ** [ParseVersion] *)

From Stdlib Require DecimalFacts DecimalPos.

Lemma append_cons (c : ascii) (a b : string) : String c a +:+ b = String c (a +:+ b).
Proof. reflexivity. Qed.

Lemma append_nil (b : string) : "" +:+ b = b.
Proof. reflexivity. Qed.

Lemma scan_until_app (c : ascii) (s1 s2 : string) :
  c ∉ list_ascii_of_string s1 -> scan_until c (s1 +:+ String c s2) = Some (s1, s2).
Proof.
  induction s1 as [|x s1 IH]; intros Hc.
  - rewrite append_nil. cbn. rewrite Ascii.eqb_refl. reflexivity.
  - cbn [list_ascii_of_string] in Hc. apply not_elem_of_cons in Hc as [Hx Hs1].
    rewrite append_cons. cbn [scan_until].
    destruct (Ascii.eqb_spec x c) as [->|_]; [contradiction|].
    rewrite (IH Hs1). reflexivity.
Qed.

Lemma scan_until_absent (c : ascii) (s : string) :
  c ∉ list_ascii_of_string s -> scan_until c s = None.
Proof.
  induction s as [|x s IH]; intros Hc; [reflexivity|].
  cbn [list_ascii_of_string] in Hc. apply not_elem_of_cons in Hc as [Hx Hs].
  cbn [scan_until]. destruct (Ascii.eqb_spec x c) as [->|_]; [contradiction|].
  rewrite (IH Hs). reflexivity.
Qed.

(** Decimal numerals: the numeral that a stream writes for a number is
    read back by [std::atoi]. *)
Lemma digits_string_of_uint (d : Decimal.uint) :
  Forall (fun c => c <> SPACE /\ c <> "."%char) (list_ascii_of_string (NilEmpty.string_of_uint d)).
Proof.
  induction d; cbn; constructor; try assumption; split; discriminate.
Qed.

Lemma length_string_of_uint (d : Decimal.uint) :
  String.length (NilEmpty.string_of_uint d) = Decimal.nb_digits d.
Proof. induction d; cbn; congruence. Qed.

Lemma usize_nb_digits (d : Decimal.uint) :
  DecimalPos.Unsigned.usize d = N.of_nat (Decimal.nb_digits d).
Proof. induction d; cbn [DecimalPos.Unsigned.usize Decimal.nb_digits]; lia. Qed.

Lemma of_uint_acc_value (d : Decimal.uint) (acc : positive) :
  Z.pos (Pos.of_uint_acc d acc)
  = (Z.pos acc * 10 ^ Z.of_nat (Decimal.nb_digits d) + Z.of_N (Pos.of_uint d))%Z.
Proof.
  change (Z.pos (Pos.of_uint_acc d acc)) with (Z.of_N (N.pos (Pos.of_uint_acc d acc))).
  rewrite DecimalPos.Unsigned.of_uint_acc_rev, DecimalPos.Unsigned.of_uint_alt.
  rewrite usize_nb_digits. rewrite N2Z.inj_add, N2Z.inj_mul, N2Z.inj_pow, nat_N_Z.
  cbn. lia.
Qed.


Lemma atoi_digits_string_of_uint (d : Decimal.uint) : forall acc : Z,
  atoi_digits (NilEmpty.string_of_uint d) acc
  = (acc * 10 ^ Z.of_nat (Decimal.nb_digits d) + Z.of_N (Pos.of_uint d))%Z.
Proof.
  induction d; intros acc;
    cbn [NilEmpty.string_of_uint atoi_digits Decimal.nb_digits];
    [cbn; lia | ..];
    match goal with
    | |- context [digit_of ?c] =>
        let v := eval vm_compute in (digit_of c) in change (digit_of c) with v
    end;
    cbv iota; rewrite IHd; cbn [Pos.of_uint Z.of_N];
    rewrite ?of_uint_acc_value, Nat2Z.inj_succ, Z.pow_succ_r by lia; ring.
Qed.

Lemma to_uint_head (p : positive) :
  exists c s, NilEmpty.string_of_uint (Pos.to_uint p) = String c s /\
              isspace c = false /\ c <> "-"%char /\ c <> "+"%char /\
              (10 ^ Z.of_nat (String.length s) <= Z.pos p)%Z.
Proof.
  pose proof (DecimalPos.Unsigned.to_of (Pos.to_uint p)) as Hnorm.
  rewrite DecimalPos.Unsigned.of_to in Hnorm. cbn [N.to_uint] in Hnorm.
  pose proof (DecimalPos.Unsigned.of_to p) as Hval.
  pose proof (DecimalPos.Unsigned.to_uint_nonzero p) as Hnz.
  unfold Decimal.unorm in Hnorm.
  pose proof (DecimalFacts.nzhead_nonzero (Pos.to_uint p)) as Hhead.
  apply (f_equal Z.of_N) in Hval. cbn [Z.of_N] in Hval.
  destruct (Decimal.nzhead (Pos.to_uint p)) as [|d|d|d|d|d|d|d|d|d|d];
    [exfalso; apply Hnz; exact Hnorm | exfalso; eapply Hhead; reflexivity | ..];
    rewrite Hnorm in Hval |- *; cbn [NilEmpty.string_of_uint Pos.of_uint Z.of_N] in Hval |- *;
    (eexists; eexists; split; [reflexivity|]);
    (split; [reflexivity|]); (split; [discriminate|]); (split; [discriminate|]);
    rewrite length_string_of_uint;
    rewrite of_uint_acc_value in Hval;
    pose proof (N2Z.is_nonneg (Pos.of_uint d));
    assert (0 < 10 ^ Z.of_nat (Decimal.nb_digits d))%Z by (apply Z.pow_pos_nonneg; lia);
    nia.
Qed.

Lemma atoi_decimal (z : Z) :
  (0 <= z <= 2147483647)%Z ->
  atoi (decimal z) = Some z /\
  (String.length (decimal z) < 16)%nat /\
  Forall (fun c => c <> SPACE /\ c <> "."%char) (list_ascii_of_string (decimal z)).
Proof.
  intros Hz. unfold decimal. destruct z as [|p|p]; [| |lia].
  - split; [reflexivity|]. split; [cbn; lia|]. cbn. repeat constructor; discriminate.
  - cbn [Z.to_int NilZero.string_of_int]. unfold NilZero.string_of_uint.
    pose proof (DecimalPos.Unsigned.to_uint_nonnil p) as Hnonnil.
    assert (match Pos.to_uint p with
            | Decimal.Nil => "0"
            | _ => NilEmpty.string_of_uint (Pos.to_uint p)
            end = NilEmpty.string_of_uint (Pos.to_uint p)) as ->
        by (destruct (Pos.to_uint p); [contradiction | reflexivity ..]).
    destruct (to_uint_head p) as (c & s & Hs & Hspace & Hminus & Hplus & Hpow).
    split_all.
    + unfold atoi. rewrite Hs. cbn [atoi_skip]. rewrite Hspace.
      assert (atoi_digits (String c s) 0 = Z.pos p) as Hvalue.
      { rewrite <- Hs. rewrite atoi_digits_string_of_uint.
        unfold Z.of_N. rewrite DecimalPos.Unsigned.of_to. lia. }
      assert (match String c s with
              | String "-"%char s' => (- atoi_digits s' 0)%Z
              | String "+"%char s' => atoi_digits s' 0
              | _ => atoi_digits (String c s) 0
              end = Z.pos p) as ->.
      { rewrite <- Hvalue.
        destruct c as [[] [] [] [] [] [] [] []]; try reflexivity; exfalso;
          first [apply Hminus; reflexivity | apply Hplus; reflexivity]. }
      destruct (Z.leb_spec (-2147483648) (Z.pos p)); [|lia].
      destruct (Z.leb_spec (Z.pos p) 2147483647); [|lia]. reflexivity.
    + rewrite Hs. cbn [String.length].
      assert (String.length s < 10)%nat; [|lia].
      destruct (Nat.lt_ge_cases (String.length s) 10) as [|Hge]; [assumption|].
      assert (10 ^ 10 <= 10 ^ Z.of_nat (String.length s))%Z
        by (apply Z.pow_le_mono_r; lia).
      lia.
    + apply digits_string_of_uint.
Qed.

Lemma Forall_not_elem (c : ascii) (P : ascii -> Prop) (l : list ascii) :
  Forall P l -> ~ P c -> c ∉ l.
Proof.
  intros Hall Hc Hin. rewrite Forall_forall in Hall. apply Hc. apply Hall. exact Hin.
Qed.

(** X6. [ParseVersion] reads back the versions of a well-formed
    version string: for every prefix without a space, all major and
    minor numbers that fit an [int], and every vendor text, the string
    prefix, space, major, dot, minor, space, vendor parses to
    (major, minor). *)
Theorem ParseVersion_round_trip (prefix vendor : string) (major minor : Z) :
  SPACE ∉ list_ascii_of_string prefix ->
  (0 <= major <= 2147483647)%Z ->
  (0 <= minor <= 2147483647)%Z ->
  ParseVersion (version_string prefix major minor vendor) = Some (mkVersion major minor).
Proof.
  intros Hprefix Hmajor Hminor.
  destruct (atoi_decimal major Hmajor) as (Hamajor & Hlmajor & Hdmajor).
  destruct (atoi_decimal minor Hminor) as (Haminor & Hlminor & Hdminor).
  unfold version_string, ParseVersion.
  change (" " +:+ decimal major +:+ "." +:+ decimal minor +:+ " " +:+ vendor)
    with (String SPACE (decimal major +:+ String "." (decimal minor +:+ String SPACE vendor))).
  rewrite scan_until_app by exact Hprefix.
  rewrite scan_until_app.
  2:{ eapply Forall_not_elem; [exact Hdmajor|]. intros [_ Hdot]. apply Hdot. reflexivity. }
  destruct (Nat.ltb_spec (String.length (decimal major)) 16) as [_|]; [|lia]. cbn [negb].
  rewrite scan_until_app.
  2:{ eapply Forall_not_elem; [exact Hdminor|]. intros [Hsp _]. apply Hsp. reflexivity. }
  destruct (Nat.ltb_spec (String.length (decimal minor)) 16) as [_|]; [|lia]. cbn [negb].
  rewrite Hamajor, Haminor. reflexivity.
Qed.

Lemma ParseVersion_round_trip_witness :
  ParseVersion "OpenCL 2.0 Mock Platform" = Some (mkVersion 2 0) /\
  ParseVersion "OpenCL 1.2 " = Some (mkVersion 1 2).
Proof.
  split.
  - apply (ParseVersion_round_trip "OpenCL" "Mock Platform" 2 0); [|lia|lia].
    decide_by_compute.
  - apply (ParseVersion_round_trip "OpenCL" "" 1 2); [|lia|lia].
    decide_by_compute.
Defined.

(** X7. [ParseVersion] needs all three delimiters.  Its scanning
    loops do not stop at the end of the string: a version string
    without a space, without a dot behind the first space, or without
    a space behind the dot (such as "OpenCL 1.2", which ends with the
    minor number) is read past its terminator. *)
Theorem ParseVersion_missing_delimiter (prefix a b : string) :
  SPACE ∉ list_ascii_of_string prefix ->
  "."%char ∉ list_ascii_of_string a ->
  SPACE ∉ list_ascii_of_string b ->
  ParseVersion prefix = None /\
  ParseVersion (prefix +:+ " " +:+ a) = None /\
  ParseVersion (prefix +:+ " " +:+ a +:+ "." +:+ b) = None.
Proof.
  intros Hprefix Ha Hb. unfold ParseVersion. split_all.
  - rewrite scan_until_absent by exact Hprefix. reflexivity.
  - change (" " +:+ a) with (String SPACE a).
    rewrite scan_until_app by exact Hprefix.
    rewrite scan_until_absent by exact Ha. reflexivity.
  - change (" " +:+ a +:+ "." +:+ b) with (String SPACE (a +:+ String "." b)).
    rewrite scan_until_app by exact Hprefix.
    rewrite scan_until_app by exact Ha.
    rewrite scan_until_absent by exact Hb.
    destruct (negb _); reflexivity.
Qed.

Lemma ParseVersion_missing_delimiter_witness :
  ParseVersion "OpenCL" = None /\
  ParseVersion "OpenCL 1" = None /\
  ParseVersion "OpenCL 1.2" = None.
Proof.
  apply (ParseVersion_missing_delimiter "OpenCL" "1" "2");
    decide_by_compute.
Defined.

(** ** The attribute tables *)

Section TableFacts.
Context {hdr : cl_h}.

(** The five ways the version tests of [GatherDeviceInfo] come out. *)
Lemma selection_cases (version : Version) :
  (version = mkVersion 1 0) \/ (version = mkVersion 1 1) \/ (version = mkVersion 1 2) \/
  (Version_eq version (mkVersion 1 0) = false /\
   Version_eq version (mkVersion 1 1) = false /\
   Version_eq version (mkVersion 1 2) = false /\
   Version_ge version (mkVersion 2 0) = true /\
   Version_ge version (mkVersion 1 2) = true) \/
  (Version_eq version (mkVersion 1 0) = false /\
   Version_eq version (mkVersion 1 1) = false /\
   Version_eq version (mkVersion 1 2) = false /\
   Version_ge version (mkVersion 2 0) = false).
Proof.
  destruct version as [a b]. unfold Version_eq, Version_ge. cbn.
  repeat match goal with
         | |- context [(?x =? ?y)%Z] => destruct (Z.eqb_spec x y)
         | |- context [(?x >? ?y)%Z] => rewrite (Z.gtb_ltb x y)
         | |- context [(?x >=? ?y)%Z] => rewrite (Z.geb_leb x y)
         | |- context [(?x <? ?y)%Z] => destruct (Z.ltb_spec x y)
         | |- context [(?x <=? ?y)%Z] => destruct (Z.leb_spec x y)
         end; subst; cbn; try lia; intuition (try congruence; try lia).
Qed.

(** X8. The names of the attributes fetched for a device are pairwise
    distinct exactly when the parsed version is neither (1,0) nor
    (1,2) nor at least (2,0): the 1.0 table repeats
    [CL_DEVICE_MEM_BASE_ADDR_ALIGN] and the 1.2 table repeats
    [CL_DEVICE_IMAGE_SUPPORT] of the shared table, so that a device node of
    these versions carries two properties of that name. *)
Theorem device_attribute_names_distinct (version : Version) :
  NoDup (names (propertiesToFetch version)) <->
  version <> mkVersion 1 0 /\ version <> mkVersion 1 2 /\
  Version_ge version (mkVersion 2 0) = false.
Proof.
  destruct (selection_cases version)
    as [-> | [-> | [-> | [(E10 & E11 & E12 & G20 & G12) | (E10 & E11 & E12 & G20)]]]].
  - split; [intros Hnodup; exfalso; revert Hnodup; decide_by_compute|].
    intros (H & _). congruence.
  - split; [intros _; split_all; [discriminate | discriminate | reflexivity]|].
    intros _. decide_by_compute.
  - split; [intros Hnodup; exfalso; revert Hnodup; decide_by_compute|].
    intros (_ & H & _). congruence.
  - split; [|intros (_ & _ & H); congruence].
    intros Hnodup; exfalso; revert Hnodup.
    unfold propertiesToFetch. rewrite E10, E11, E12, G20. decide_by_compute.
  - assert (version <> mkVersion 1 0) by (intros ->; discriminate).
    assert (version <> mkVersion 1 2) by (intros ->; discriminate).
    split; [intros _; split_all; assumption|].
    intros _. unfold propertiesToFetch. rewrite E10, E11, E12, G20. decide_by_compute.
Qed.

Lemma same_elements_decide {A} (a b : list A) :
  Forall (fun x => x ∈ b) a -> Forall (fun x => x ∈ a) b -> same_elements a b.
Proof.
  intros Hab Hba x. rewrite Forall_forall in Hab, Hba. split; [apply Hab | apply Hba].
Qed.

(** X9. The library and clDiag.cpp fetch the same attributes, with
    the same value types, exactly for the versions (1,1), (1,2) and
    from (2,0) on.  For (1,0) clDiag.cpp also fetches
    [CL_DEVICE_MIN_DATA_TYPE_ALIGN_SIZE]; for the other versions the
    library fetches its shared table, and clDiag.cpp its 1.2 table
    from (1,2) on and nothing below. *)
Theorem library_and_clDiag_attributes (version : Version) :
  same_elements (signatures (propertiesToFetch version))
                (signatures (concat (ClDiag.tables_fetched version)))
  <-> version = mkVersion 1 1 \/ version = mkVersion 1 2 \/
      Version_ge version (mkVersion 2 0) = true.
Proof.
  destruct (selection_cases version)
    as [-> | [-> | [-> | [(E10 & E11 & E12 & G20 & G12) | (E10 & E11 & E12 & G20)]]]].
  - split; [|intros [H | [H | H]]; discriminate].
    intros Hsame. exfalso.
    assert ((Some "CL_DEVICE_MIN_DATA_TYPE_ALIGN_SIZE", CLI_PropertyType_Int64)
              ∈ signatures (concat (ClDiag.tables_fetched (mkVersion 1 0)))) as Hin
        by decide_by_compute.
    apply Hsame in Hin. revert Hin. decide_by_compute.
  - split; [intros _; left; reflexivity|]. intros _.
    apply same_elements_decide; decide_by_compute.
  - split; [intros _; right; left; reflexivity|]. intros _.
    apply same_elements_decide; decide_by_compute.
  - split; [intros _; right; right; exact G20|]. intros _.
    unfold propertiesToFetch, ClDiag.tables_fetched. rewrite E10, E11, E12, G20, G12.
    apply same_elements_decide; decide_by_compute.
  - split.
    + intros Hsame. exfalso. revert Hsame.
      unfold propertiesToFetch, ClDiag.tables_fetched. rewrite E10, E11, E12, G20.
      destruct (Version_ge version (mkVersion 1 2)); intros Hsame.
      * assert ((Some "CL_DEVICE_BUILT_IN_KERNELS", CLI_PropertyType_String)
                  ∈ signatures (concat ([ClDiag.infos_CL_1_2] ++ []))) as Hin
            by decide_by_compute.
        apply Hsame in Hin. revert Hin. decide_by_compute.
      * assert ((Some "CL_DEVICE_NAME", CLI_PropertyType_String)
                  ∈ signatures (std_sort (fun a b => strcmp_lt (n a) (n b)) infos_CL_shared))
            as Hin by decide_by_compute.
        apply Hsame in Hin. revert Hin. decide_by_compute.
    + intros [-> | [-> | H]]; [discriminate | discriminate | congruence].
Qed.

End TableFacts.

(** ** The two tokenizers on every text *)







Lemma length_list_ascii_of_string (text : string) :
  length (list_ascii_of_string text) = String.length text.
Proof.
  rewrite <- (length_string_of_list_ascii (list_ascii_of_string text)).
  rewrite string_of_list_ascii_of_string. reflexivity.
Qed.






(** ** The printers *)

Lemma brace_excess_append (a b : string) :
  brace_excess (a +:+ b) = (brace_excess a + brace_excess b)%Z.
Proof.
  induction a as [|c a IH]; [reflexivity|].
  rewrite append_cons. cbn [brace_excess]. rewrite IH. lia.
Qed.

Lemma brace_excess_put (s t : string) :
  brace_excess (s << t) = (brace_excess s + brace_excess t)%Z.
Proof. apply brace_excess_append. Qed.

Lemma brace_excess_all_chars (s : string) : all_chars not_brace s -> brace_excess s = 0%Z.
Proof.
  unfold all_chars. induction s as [|c s IH]; [reflexivity|].
  cbn [list_ascii_of_string forallb brace_excess]. intros Hall.
  apply andb_true_iff in Hall as [Hc Hs]. rewrite (IH Hs).
  unfold not_brace in Hc. apply andb_true_iff in Hc as [H1 H2].
  destruct (Ascii.eqb c "{"); [discriminate|]. destruct (Ascii.eqb c "}"); [discriminate|].
  reflexivity.
Qed.

Lemma all_chars_string_of_uint (ok : ascii -> bool) (d : Decimal.uint) :
  forallb ok (list_ascii_of_string "0123456789") = true ->
  all_chars ok (NilEmpty.string_of_uint d).
Proof.
  intros Hok. unfold all_chars. cbn [list_ascii_of_string forallb] in Hok.
  repeat (apply andb_true_iff in Hok as [? Hok]).
  induction d; cbn [NilEmpty.string_of_uint list_ascii_of_string forallb];
    [reflexivity | apply andb_true_iff; split; assumption ..].
Qed.

Lemma all_chars_decimal (ok : ascii -> bool) (i : Z) :
  forallb ok (list_ascii_of_string "-0123456789") = true -> all_chars ok (decimal i).
Proof.
  intros Hok. cbn [list_ascii_of_string forallb] in Hok.
  apply andb_true_iff in Hok as [Hminus Hdigits].
  assert (forall d, all_chars ok (NilZero.string_of_uint d)) as Huint.
  { intros d. unfold NilZero.string_of_uint.
    pose proof (all_chars_string_of_uint ok d Hdigits) as Hd.
    destruct d; try exact Hd. unfold all_chars. cbn.
    cbn [forallb] in Hdigits. apply andb_true_iff in Hdigits as [H0 _].
    rewrite H0. reflexivity. }
  unfold decimal. destruct (Z.to_int i) as [d|d]; cbn [NilZero.string_of_int].
  - apply Huint.
  - unfold all_chars. cbn [list_ascii_of_string forallb]. rewrite Hminus. apply Huint.
Qed.

Section TreeTexts.
Context (name_ok kind_ok property_ok value_ok : string -> Prop).

Lemma tree_texts_children (ns : list NodeView) :
  (fix children (ns : list NodeView) : Prop :=
     match ns with
     | [] => True
     | n :: ns' => tree_texts name_ok kind_ok property_ok value_ok n /\ children ns'
     end) ns <-> Forall (tree_texts name_ok kind_ok property_ok value_ok) ns.
Proof.
  induction ns as [|n ns IH]; [split; [constructor | trivial]|].
  rewrite Forall_cons, <- IH. reflexivity.
Qed.

Lemma tree_texts_unfold (tree : NodeView) :
  tree_texts name_ok kind_ok property_ok value_ok tree <->
  cstr_holds name_ok (nv_name tree) /\ cstr_holds kind_ok (nv_kind tree) /\
  Forall (property_texts property_ok value_ok) (nv_properties tree) /\
  Forall (tree_texts name_ok kind_ok property_ok value_ok) (nv_children tree).
Proof.
  destruct tree as [name kind ps cs]. cbn [tree_texts nv_name nv_kind nv_properties nv_children].
  rewrite tree_texts_children. reflexivity.
Qed.

End TreeTexts.

Lemma node_count_unfold (tree : NodeView) :
  node_count tree = S (sum_counts (nv_children tree)).
Proof.
  destruct tree as [name kind ps cs]. cbn [node_count nv_children].
  apply (f_equal S). induction cs as [|c cs IH]; [reflexivity|].
  cbn [sum_counts foldr]. rewrite IH. reflexivity.
Qed.

Lemma brace_excess_dq : brace_excess dq = 0%Z.
Proof. reflexivity. Qed.

Lemma Json_OnValue_excess s type v out :
  value_holds (all_chars not_brace) v ->
  JsonPrinter.OnValue s type v = Some out -> brace_excess out = brace_excess s.
Proof.
  intros Hv Hout. unfold JsonPrinter.OnValue in Hout.
  destruct type.
  - destruct (read_i v) as [i|]; [|discriminate]. injection Hout as <-.
    rewrite brace_excess_put, (brace_excess_all_chars (decimal i)); [lia|].
    apply all_chars_decimal. reflexivity.
  - destruct (read_b v) as [[]|]; [| |discriminate]; injection Hout as <-;
      rewrite brace_excess_put; cbn; lia.
  - destruct v as [| | |text]; try discriminate. cbn in Hout. injection Hout as <-.
    rewrite !brace_excess_put, (brace_excess_all_chars text), brace_excess_dq by exact Hv. lia.
Qed.

Lemma Json_OnValues_excess type vs : forall s out,
  Forall (value_holds (all_chars not_brace)) vs ->
  JsonPrinter.OnValues s type vs = Some out -> brace_excess out = brace_excess s.
Proof.
  induction vs as [|v vs IH]; intros s out Hall Hout; cbn in Hout.
  - injection Hout as <-. reflexivity.
  - apply Forall_cons in Hall as [Hv Hall].
    destruct (JsonPrinter.OnValue s type v) as [s1|] eqn:H1; [|discriminate].
    apply (Json_OnValue_excess _ _ _ _ Hv) in H1.
    apply (IH _ _ Hall) in Hout. rewrite Hout.
    destruct vs; [exact H1|]. rewrite brace_excess_put, H1. cbn. lia.
Qed.

Lemma Json_OnProperty_excess s p out :
  property_texts (all_chars not_brace) (all_chars not_brace) p ->
  JsonPrinter.OnProperty s p = Some out -> brace_excess out = brace_excess s.
Proof.
  intros [Hname Hvalues]. unfold JsonPrinter.OnProperty.
  destruct (pv_name p) as [name|]; [|discriminate]. cbn in Hname.
  match goal with
  | |- match JsonPrinter.OnValues ?s0 _ _ with _ => _ end = _ -> _ =>
      destruct (JsonPrinter.OnValues s0 (pv_type p) (pv_values p)) as [s1|] eqn:Hvs;
      [|discriminate]
  end.
  intros Hout. injection Hout as <-.
  apply (Json_OnValues_excess _ _ _ _ Hvalues) in Hvs.
  destruct (negb _); rewrite ?brace_excess_put, Hvs, !brace_excess_put,
    (brace_excess_all_chars name), !brace_excess_dq by exact Hname; cbn; lia.
Qed.

Lemma Json_OnProperties_excess ps : forall s out,
  Forall (property_texts (all_chars not_brace) (all_chars not_brace)) ps ->
  JsonPrinter.OnProperties s ps = Some out -> brace_excess out = brace_excess s.
Proof.
  induction ps as [|p ps IH]; intros s out Hall Hout; cbn in Hout.
  - injection Hout as <-. reflexivity.
  - apply Forall_cons in Hall as [Hp Hall].
    destruct (JsonPrinter.OnProperty s p) as [s1|] eqn:H1; [|discriminate].
    apply (Json_OnProperty_excess _ _ _ Hp) in H1.
    apply (IH _ _ Hall) in Hout. rewrite Hout.
    destruct ps; [exact H1|]. rewrite brace_excess_put, H1. cbn. lia.
Qed.

Lemma Json_OnChildren_excess cs :
  Forall (fun c => forall s out, brace_free c ->
                     JsonPrinter.OnNode s c = Some out ->
                     brace_excess out = (brace_excess s + Z.of_nat (node_count c))%Z) cs ->
  forall s out, Forall (brace_free) cs ->
    JsonPrinter.OnChildren s cs = Some out ->
    brace_excess out = (brace_excess s + Z.of_nat (sum_counts cs))%Z.
Proof.
  induction 1 as [|c cs Hc _ IH]; intros s out Hall Hout; cbn in Hout.
  - injection Hout as <-. cbn. lia.
  - apply Forall_cons in Hall as [Hok Hall].
    destruct (JsonPrinter.OnNode s c) as [s1|] eqn:H1; [|discriminate].
    apply (Hc _ _ Hok) in H1. apply (IH _ _ Hall) in Hout. rewrite Hout.
    cbn [sum_counts foldr]. fold (sum_counts cs).
    destruct cs; [|rewrite brace_excess_put]; rewrite H1; cbn; lia.
Qed.

Lemma Json_OnNode_excess node : forall s out,
  brace_free node ->
  JsonPrinter.OnNode s node = Some out ->
  brace_excess out = (brace_excess s + Z.of_nat (node_count node))%Z.
Proof.
  induction node as [name kind ps cs IH] using NodeView_forall_ind.
  intros s out Hok Hout. apply tree_texts_unfold in Hok as (Hname & _ & Hps & Hcs).
  rewrite node_count_unfold. cbn [nv_name nv_properties nv_children] in *.
  rewrite OnNode_unfold in Hout. cbn in Hout.
  destruct name as [name|]; [|discriminate]. cbn in Hname.
  match type of Hout with
  | match ?c with _ => _ end = _ => destruct c as [s1|] eqn:H1; [|discriminate]
  end.
  match type of Hout with
  | match ?c with _ => _ end = _ => destruct c as [s2|] eqn:H2; [|discriminate]
  end.
  injection Hout as <-.
  assert (brace_excess s1 = brace_excess s + 2
                            + (match ps with [] => 0 | _ => -0 end))%Z as E1.
  { destruct ps as [|p ps].
    - injection H1 as <-. rewrite !brace_excess_put.
      rewrite (brace_excess_all_chars name), !brace_excess_dq by exact Hname. cbn. lia.
    - apply (Json_OnProperties_excess _ _ _ Hps) in H1. rewrite H1.
      rewrite !brace_excess_put, (brace_excess_all_chars name), !brace_excess_dq
        by exact Hname. cbn. lia. }
  assert (brace_excess s2 = brace_excess s1 + Z.of_nat (sum_counts cs))%Z as E2.
  { destruct cs as [|c cs].
    - injection H2 as <-. rewrite !brace_excess_put, !brace_excess_dq. cbn. lia.
    - apply (Json_OnChildren_excess _ IH _ _ Hcs) in H2. rewrite H2.
      rewrite !brace_excess_put, !brace_excess_dq. cbn. lia. }
  rewrite brace_excess_put, E2, E1. destruct ps; cbn; lia.
Qed.


Ltac text_normalize :=
  unfold put, joined, xml_attribute; cbn [map foldr fst snd];
  rewrite ?append_assoc, ?append_empty_r.

Lemma joined_app (a b : list string) : joined (a ++ b) = joined a +:+ joined b.
Proof.
  unfold joined. induction a as [|x a IH]; [reflexivity|].
  cbn [app foldr]. rewrite IH, append_assoc. reflexivity.
Qed.

Lemma Xml_OnNode_unfold (s : string) (node : NodeView) :
  XmlPrinter.OnNode s node =
    match nv_name node with
    | None => None
    | Some name =>
        let s := s << "<" << name in
        let s := match nv_kind node with
                 | Some kind => s << " Kind=" << dq << kind << dq
                 | None => s
                 end in
        let s := s << ">" in
        match XmlPrinter.OnProperties s (nv_properties node) with
        | None => None
        | Some s =>
            match XmlPrinter.OnChildren s (nv_children node) with
            | Some s => Some (s << "</" << name << ">")
            | None => None
            end
        end
    end.
Proof. destruct node as [name kind ps cs]. reflexivity. Qed.

Lemma plain_value_total s type v :
  value_typed type v -> exists out, plain_value s type v = Some out.
Proof.
  destruct type, v as [|i|[]|text]; cbn; intros H; try contradiction; eauto.
Qed.

Lemma Json_OnValue_total s type v :
  value_typed type v -> exists out, JsonPrinter.OnValue s type v = Some out.
Proof.
  destruct type, v as [|i|[]|text]; cbn; intros H; try contradiction; eauto.
Qed.

(** A loop over a list that threads the stream through a body which
    returns on every element returns. *)
Lemma loop_total {A} (body : string -> A -> option string) (separate : string -> list A -> string)
    (loop : string -> list A -> option string) (l : list A) :
  (forall s, loop s [] = Some s) ->
  (forall s x l', loop s (x :: l') =
                  match body s x with
                  | Some s => loop (separate s l') l'
                  | None => None
                  end) ->
  Forall (fun x => forall s, exists out, body s x = Some out) l ->
  forall s, exists out, loop s l = Some out.
Proof.
  intros Hnil Hcons Hall. induction Hall as [|x l Hx _ IH]; intros s.
  - rewrite Hnil. eauto.
  - rewrite Hcons. destruct (Hx s) as [s1 ->]. apply IH.
Qed.

Lemma Forall_typed_total {A} (P : A -> Prop) (Q : A -> Prop) (l : list A) :
  (forall x, P x -> Q x) -> Forall P l -> Forall Q l.
Proof. intros H Hall. eapply Forall_impl; [exact Hall | exact H]. Qed.

Lemma Xml_OnProperty_total s p :
  property_printable p -> exists out, XmlPrinter.OnProperty s p = Some out.
Proof.
  intros [Hname Hvalues]. unfold XmlPrinter.OnProperty.
  destruct (pv_name p) as [name|]; [|contradiction].
  match goal with
  | |- exists out, match XmlPrinter.OnValues ?s0 _ _ with _ => _ end = _ =>
      destruct (loop_total (fun s v => XmlPrinter.OnValue s (pv_type p) v) (fun s _ => s)
                  (fun s vs => XmlPrinter.OnValues s (pv_type p) vs) (pv_values p)
                  (fun _ => eq_refl) (fun _ _ _ => eq_refl)) with (s := s0) as [s1 ->]
  end; [|eauto].
  eapply Forall_impl; [exact Hvalues|]. intros v Hv s0. unfold XmlPrinter.OnValue.
  destruct (plain_value_total (s0 << "<Value>") _ _ Hv) as [s1 ->]. eauto.
Qed.

Lemma Json_OnProperty_total s p :
  property_printable p -> exists out, JsonPrinter.OnProperty s p = Some out.
Proof.
  intros [Hname Hvalues]. unfold JsonPrinter.OnProperty.
  destruct (pv_name p) as [name|]; [|contradiction].
  match goal with
  | |- exists out, match JsonPrinter.OnValues ?s0 _ _ with _ => _ end = _ =>
      destruct (loop_total (fun s v => JsonPrinter.OnValue s (pv_type p) v)
                  (fun s vs' => match vs' with [] => s | _ :: _ => s << "," end)
                  (fun s vs => JsonPrinter.OnValues s (pv_type p) vs) (pv_values p)
                  (fun _ => eq_refl) (fun _ _ _ => eq_refl)) with (s := s0) as [s1 ->]
  end; [|eauto].
  eapply Forall_impl; [exact Hvalues|]. intros v Hv s0. apply Json_OnValue_total. exact Hv.
Qed.

Lemma Console_OnProperty_total s p width indentation :
  property_printable p ->
  exists out, ConsolePrinter.OnProperty s p width indentation = Some out.
Proof.
  intros [Hname Hvalues]. unfold ConsolePrinter.OnProperty.
  destruct (pv_name p) as [name|]; [|contradiction].
  match goal with
  | |- exists out, match ConsolePrinter.OnValues ?s0 _ _ with _ => _ end = _ =>
      destruct (loop_total (fun s v => plain_value s (pv_type p) v)
                  (fun s vs' => match vs' with [] => s | _ :: _ => s << " " end)
                  (fun s vs => ConsolePrinter.OnValues s (pv_type p) vs) (pv_values p)
                  (fun _ => eq_refl) (fun _ _ _ => eq_refl)) with (s := s0) as [s1 ->]
  end; [|eauto].
  eapply Forall_impl; [exact Hvalues|]. intros v Hv s0. apply plain_value_total. exact Hv.
Qed.

Lemma maxPropertyLength_total ps : forall acc,
  Forall property_printable ps -> exists width, ConsolePrinter.maxPropertyLength acc ps = Some width.
Proof.
  induction ps as [|p ps IH]; intros acc Hall; [cbn; eauto|].
  apply Forall_cons in Hall as [[Hname _] Hall]. cbn.
  destruct (pv_name p); [|contradiction]. apply IH. exact Hall.
Qed.

Lemma Xml_OnNode_total (tree : NodeView) :
  printable tree -> forall s, exists out, XmlPrinter.OnNode s tree = Some out.
Proof.
  induction tree as [name kind ps cs IH] using NodeView_forall_ind.
  intros Hok s. apply printable_unfold in Hok as (Hname & Hps & Hcs).
  cbn [nv_name nv_properties nv_children] in *. rewrite Xml_OnNode_unfold.
  cbn [nv_name nv_kind nv_properties nv_children].
  destruct name as [name|]; [|contradiction]. cbn zeta.
  match goal with
  | |- exists out, match XmlPrinter.OnProperties ?s0 _ with _ => _ end = _ =>
      destruct (loop_total XmlPrinter.OnProperty (fun s _ => s) XmlPrinter.OnProperties ps
                  (fun _ => eq_refl) (fun _ _ _ => eq_refl)) with (s := s0) as [s1 ->]
  end.
  { eapply Forall_impl; [exact Hps|]. intros p Hp s0. apply Xml_OnProperty_total. exact Hp. }
  destruct (loop_total XmlPrinter.OnNode (fun s _ => s) XmlPrinter.OnChildren cs
              (fun _ => eq_refl) (fun _ _ _ => eq_refl)) with (s := s1) as [s2 ->]; [|eauto].
  rewrite Forall_forall in IH, Hcs. apply Forall_forall. intros c Hc. apply (IH c Hc). apply (Hcs c Hc).
Qed.

Lemma Json_OnNode_total (tree : NodeView) :
  printable tree -> forall s, exists out, JsonPrinter.OnNode s tree = Some out.
Proof.
  induction tree as [name kind ps cs IH] using NodeView_forall_ind.
  intros Hok s. apply printable_unfold in Hok as (Hname & Hps & Hcs).
  cbn [nv_name nv_properties nv_children] in *. rewrite OnNode_unfold.
  cbn [nv_name nv_kind nv_properties nv_children].
  destruct name as [name|]; [|contradiction]. cbn zeta.
  assert (forall s0, exists out, JsonPrinter.OnProperties s0 ps = Some out) as Hprops.
  { apply (loop_total JsonPrinter.OnProperty
             (fun s ps' => match ps' with [] => s | _ :: _ => s << "," end)
             JsonPrinter.OnProperties ps (fun _ => eq_refl) (fun _ _ _ => eq_refl)).
    eapply Forall_impl; [exact Hps|]. intros p Hp s0. apply Json_OnProperty_total. exact Hp. }
  assert (forall s0, exists out, JsonPrinter.OnChildren s0 cs = Some out) as Hchildren.
  { apply (loop_total JsonPrinter.OnNode
             (fun s ns' => match ns' with [] => s | _ :: _ => s << "," end)
             JsonPrinter.OnChildren cs (fun _ => eq_refl) (fun _ _ _ => eq_refl)).
    rewrite Forall_forall in IH, Hcs. apply Forall_forall. intros c Hc. apply (IH c Hc). apply (Hcs c Hc). }
  match goal with
  | |- exists out, match ?c with _ => _ end = _ =>
      assert (exists s1, c = Some s1) as [s1 ->]
          by (destruct ps; [eauto | apply Hprops])
  end.
  match goal with
  | |- exists out, match ?c with _ => _ end = _ =>
      assert (exists s2, c = Some s2) as [s2 ->]
          by (destruct cs; [eauto | apply Hchildren])
  end.
  eauto.
Qed.

Lemma Console_OnNode_unfold (s : string) (node : NodeView) (k : nat) :
  ConsolePrinter.OnNode s node k =
    match nv_name node with
    | None => None
    | Some name =>
        match ConsolePrinter.maxPropertyLength 0 (nv_properties node) with
        | None => None
        | Some width =>
            match ConsolePrinter.OnProperties
                    (ConsolePrinter.Indent s k << name << nl) (nv_properties node)
                    width (S k) with
            | None => None
            | Some s => ConsolePrinter.OnChildren s (nv_children node) (S k)
            end
        end
    end.
Proof.
  destruct node as [name kind ps cs].
  cbn [ConsolePrinter.OnNode nv_name nv_properties nv_children].
  destruct name as [name|]; [|reflexivity].
  destruct (ConsolePrinter.maxPropertyLength 0 ps) as [width|]; [|reflexivity].
  destruct (ConsolePrinter.OnProperties _ ps width (S k)) as [s1|]; [|reflexivity].
  generalize s1. induction cs as [|c cs IHcs]; intros s0; [reflexivity|].
  cbn [ConsolePrinter.OnChildren].
  destruct (ConsolePrinter.OnNode s0 c (S k)); [apply IHcs | reflexivity].
Qed.

Lemma Console_OnNode_total (tree : NodeView) :
  printable tree -> forall s k, exists out, ConsolePrinter.OnNode s tree k = Some out.
Proof.
  induction tree as [name kind ps cs IH] using NodeView_forall_ind.
  intros Hok s k. apply printable_unfold in Hok as (Hname & Hps & Hcs).
  cbn [nv_name nv_properties nv_children] in *.
  rewrite Console_OnNode_unfold. cbn [nv_name nv_properties nv_children].
  destruct name as [name|]; [|contradiction].
  destruct (maxPropertyLength_total ps 0 Hps) as [width ->].
  destruct (loop_total (fun s p => ConsolePrinter.OnProperty s p width (S k)) (fun s _ => s)
              (fun s ps => ConsolePrinter.OnProperties s ps width (S k)) ps
              (fun _ => eq_refl) (fun _ _ _ => eq_refl))
    with (s := ConsolePrinter.Indent s k << name << nl) as [s1 ->].
  { eapply Forall_impl; [exact Hps|]. intros p Hp s0.
    apply Console_OnProperty_total. exact Hp. }
  apply (loop_total (fun s n => match ConsolePrinter.OnNode s n (S k) with
                                | Some s => Some (s << nl)
                                | None => None
                                end) (fun s _ => s)
           (fun s ns => ConsolePrinter.OnChildren s ns (S k)) cs).
  - reflexivity.
  - intros s0 x l'. cbn [ConsolePrinter.OnChildren].
    destruct (ConsolePrinter.OnNode s0 x (S k)); reflexivity.
  - rewrite Forall_forall in IH, Hcs. apply Forall_forall. intros c Hc s0.
    destruct (IH c Hc (Hcs c Hc) s0 (S k)) as [out ->]. eauto.
Qed.


Lemma printers_return (tree : NodeView) :
  printable tree ->
  (exists out, XmlPrinter.Write EmptyString tree = Some out) /\
  (exists out, JsonPrinter.Write EmptyString tree = Some out) /\
  (exists out, ConsolePrinter.Write EmptyString tree = Some out).
Proof.
  intros Hok. split_all;
    [apply Xml_OnNode_total | apply Json_OnNode_total | apply Console_OnNode_total]; exact Hok.
Qed.

Lemma length_append (a b : string) :
  String.length (a +:+ b) = String.length a + String.length b.
Proof.
  induction a as [|c a IH]; [reflexivity|]. rewrite append_cons. cbn. rewrite IH. reflexivity.
Qed.

Lemma length_spaces (n : nat) : String.length (spaces n) = n.
Proof. unfold spaces. rewrite length_string_of_list_ascii. apply length_replicate. Qed.

Lemma spaces_S (n : nat) : spaces (S n) = " " +:+ spaces n.
Proof. reflexivity. Qed.

Lemma Indent_spaces (k : nat) : forall s, ConsolePrinter.Indent s k = s +:+ spaces (2 * k).
Proof.
  induction k as [|k IH]; intros s.
  - cbn. rewrite append_empty_r. reflexivity.
  - cbn [ConsolePrinter.Indent]. rewrite IH. unfold put.
    replace (2 * S k) with (S (S (2 * k))) by lia. rewrite !spaces_S.
    rewrite !append_assoc. reflexivity.
Qed.

Lemma widest_bound ps : Forall (fun p => name_length p <= widest ps) ps.
Proof.
  induction ps as [|p ps IH]; [constructor|].
  unfold widest. cbn [map foldr]. fold (widest ps). constructor; [lia|].
  eapply Forall_impl; [exact IH|]. cbn. intros x Hx. lia.
Qed.

(** A loop that writes the text of each element of a list, one behind
    the other. *)
Lemma joined_loop {A} (body : string -> A -> option string)
    (loop : string -> list A -> option string) :
  (forall s, loop s [] = Some s) ->
  (forall s x l, loop s (x :: l) =
                 match body s x with
                 | Some s => loop s l
                 | None => None
                 end) ->
  forall (l : list A) (texts : list string),
    Forall2 (fun x text => forall s, body s x = Some (s +:+ text)) l texts ->
    forall s, loop s l = Some (s +:+ joined texts).
Proof.
  intros Hnil Hcons l texts Hall. induction Hall as [|x text l texts Hx Hall IH]; intros s.
  - rewrite Hnil. cbn. rewrite append_empty_r. reflexivity.
  - rewrite Hcons, Hx, IH. unfold joined. cbn [foldr]. rewrite append_assoc. reflexivity.
Qed.

Lemma plain_value_scalar (type : cliPropertyType) (v : cliUnion) (text : string) :
  scalar_text type v text -> forall s, plain_value s type v = Some (s +:+ text).
Proof. intros H s. destruct H; reflexivity. Qed.

Lemma value_typed_scalar (type : cliPropertyType) (v : cliUnion) :
  value_typed type v -> exists text, scalar_text type v text.
Proof.
  destruct type, v as [|i|[]|text]; cbn; intros H; try contradiction;
    eexists; constructor.
Qed.

Lemma printable_scalars (p : PropertyView) :
  property_printable p ->
  exists name texts,
    pv_name p = Some name /\ Forall2 (scalar_text (pv_type p)) (pv_values p) texts.
Proof.
  intros [Hname Hvalues]. destruct (pv_name p) as [name|]; [|contradiction].
  destruct (Forall_exists_Forall2 (scalar_text (pv_type p)) (pv_values p)) as [texts Htexts].
  { eapply Forall_impl; [exact Hvalues|]. intros v. apply value_typed_scalar. }
  exists name, texts. split; [reflexivity | exact Htexts].
Qed.

(** *** [XmlPrinter] *)

Lemma Xml_OnValues_text (type : cliPropertyType) (vs : list cliUnion) (texts : list string) :
  Forall2 (scalar_text type) vs texts ->
  forall s, XmlPrinter.OnValues s type vs
            = Some (s +:+ joined (map (fun t => xml_tag "Value" [] [t]) texts)).
Proof.
  intros Hall.
  apply (joined_loop (fun s v => XmlPrinter.OnValue s type v)
           (fun s vs => XmlPrinter.OnValues s type vs) (fun _ => eq_refl) (fun _ _ _ => eq_refl)).
  apply Forall2_fmap_r. eapply Forall2_impl; [exact Hall|].
  intros v t Ht s. unfold XmlPrinter.OnValue. rewrite (plain_value_scalar _ _ _ Ht).
  f_equal. unfold xml_tag. text_normalize. reflexivity.
Qed.

Lemma Xml_OnProperty_text (p : PropertyView) (text : string) :
  xml_property p text -> forall s, XmlPrinter.OnProperty s p = Some (s +:+ text).
Proof.
  intros (name & texts & Hname & Hall & ->) s. unfold XmlPrinter.OnProperty.
  rewrite Hname, (Xml_OnValues_text _ _ _ Hall). f_equal.
  unfold xml_tag, type_name. destruct (pv_type p); text_normalize; reflexivity.
Qed.

Lemma Xml_OnNode_text (node : NodeView) :
  forall text, xml_node node text -> forall s, XmlPrinter.OnNode s node = Some (s +:+ text).
Proof.
  induction node as [name kind ps cs IH] using NodeView_forall_ind.
  intros text Htext s. inversion Htext as [name' kind' ps' cs' ptexts ctexts Hps Hcs]; subst.
  rewrite Xml_OnNode_unfold. cbn [nv_name nv_kind nv_properties nv_children]. cbn zeta.
  rewrite (joined_loop XmlPrinter.OnProperty XmlPrinter.OnProperties
             (fun _ => eq_refl) (fun _ _ _ => eq_refl) ps ptexts).
  2:{ eapply Forall2_impl; [exact Hps|]. intros p t. apply Xml_OnProperty_text. }
  rewrite (joined_loop XmlPrinter.OnNode XmlPrinter.OnChildren
             (fun _ => eq_refl) (fun _ _ _ => eq_refl) cs ctexts).
  2:{ clear -IH Hcs. induction Hcs as [|c t cs ctexts Hc Hcs IHcs]; [constructor|].
      apply Forall_cons in IH as [IHc IH].
      constructor; [apply IHc; exact Hc | apply IHcs; exact IH]. }
  f_equal. unfold xml_tag. rewrite joined_app. destruct kind; text_normalize; reflexivity.
Qed.

Lemma printable_xml_node (node : NodeView) :
  printable node -> exists text, xml_node node text.
Proof.
  induction node as [name kind ps cs IH] using NodeView_forall_ind.
  intros Hok. apply printable_unfold in Hok as (Hname & Hps & Hcs).
  cbn [nv_name nv_properties nv_children] in *.
  destruct name as [name|]; [|contradiction].
  destruct (Forall_exists_Forall2 xml_property ps) as [ptexts Hptexts].
  { eapply Forall_impl; [exact Hps|]. intros p Hp.
    destruct (printable_scalars p Hp) as (pname & texts & Hn & Htexts).
    eexists. exists pname, texts. split_all; [exact Hn | exact Htexts | reflexivity]. }
  destruct (Forall_exists_Forall2 xml_node cs) as [ctexts Hctexts].
  { rewrite Forall_forall in IH, Hcs. apply Forall_forall. intros c Hc.
    apply (IH c Hc). apply (Hcs c Hc). }
  eexists. econstructor; eassumption.
Qed.

Lemma scalar_text_chars (type : cliPropertyType) (v : cliUnion) (text : string) :
  scalar_text type v text ->
  value_holds (all_chars xml_text_char) v -> all_chars xml_text_char text.
Proof.
  intros H Hv. destruct H; try reflexivity; [|exact Hv].
  apply all_chars_decimal. reflexivity.
Qed.

Lemma xml_property_element (p : PropertyView) (text : string) :
  xml_property p text ->
  property_texts (all_chars xml_attribute_char) (all_chars xml_text_char) p ->
  xml_element text.
Proof.
  intros (name & texts & Hname & Hall & ->) [Hn Hvalues]. rewrite Hname in Hn. cbn in Hn.
  constructor.
  - split; reflexivity.
  - constructor; [split; [split; reflexivity | exact Hn]|].
    constructor; [|constructor].
    split; [split; reflexivity|]. destruct (pv_type p); reflexivity.
  - cbn. repeat constructor; [|apply not_elem_of_nil].
    intros Hin. apply elem_of_cons in Hin as [Hin | Hin]; [discriminate | inversion Hin].
  - apply Forall_fmap. clear Hname Hn.
    induction Hall as [|v t vs texts Hv Hall IH]; [constructor|].
    apply Forall_cons in Hvalues as [Hok Hvalues]. constructor; [|apply IH; exact Hvalues].
    cbn. apply xml_child. constructor; [split; reflexivity | constructor | constructor |].
    constructor; [|constructor]. apply xml_text. eapply scalar_text_chars; eassumption.
Qed.

Lemma xml_node_element (node : NodeView) :
  forall text, xml_node node text -> xml_safe node -> xml_element text.
Proof.
  induction node as [name kind ps cs IH] using NodeView_forall_ind.
  intros text Htext Hsafe. inversion Htext as [name' kind' ps' cs' ptexts ctexts Hps Hcs]; subst.
  apply tree_texts_unfold in Hsafe as (Hname & Hkind & Hpsafe & Hcsafe).
  cbn [nv_name nv_kind nv_properties nv_children cstr_holds] in *.
  constructor; [exact Hname | | |].
  - destruct kind as [k|]; [|constructor].
    constructor; [|constructor]. split; [split; reflexivity | exact Hkind].
  - destruct kind; cbn; repeat constructor. apply not_elem_of_nil.
  - apply Forall_app. split.
    + clear -Hps Hpsafe. induction Hps as [|p t ps ptexts Hp Hps IHps]; [constructor|].
      apply Forall_cons in Hpsafe as [Hok Hpsafe].
      constructor; [|apply IHps; exact Hpsafe].
      apply xml_child. eapply xml_property_element; eassumption.
    + clear -IH Hcs Hcsafe. induction Hcs as [|c t cs ctexts Hc Hcs IHcs]; [constructor|].
      apply Forall_cons in Hcsafe as [Hok Hcsafe]. apply Forall_cons in IH as [IHc IH].
      constructor; [|apply IHcs; assumption].
      apply xml_child. apply IHc; assumption.
Qed.

(** *** [ConsolePrinter] *)

Lemma Console_OnValues_text (type : cliPropertyType) (vs : list cliUnion)
    (texts : list string) :
  Forall2 (scalar_text type) vs texts ->
  forall s, ConsolePrinter.OnValues s type vs = Some (s +:+ String.concat " " texts).
Proof.
  intros Hall s.
  apply (separated_loop " " (fun s v => plain_value s type v)
           (fun s vs => ConsolePrinter.OnValues s type vs)
           (fun _ => eq_refl) (fun _ _ _ => eq_refl)).
  eapply Forall2_impl; [exact Hall|]. intros v t. apply plain_value_scalar.
Qed.

Lemma Console_OnProperty_line (p : PropertyView) (width k : nat) (line : string) :
  property_line k (2 * k + width) p line ->
  forall s, ConsolePrinter.OnProperty s p width k = Some (s +:+ line).
Proof.
  intros (name & texts & Hname & Hall & -> & _) s. unfold ConsolePrinter.OnProperty.
  rewrite Hname. unfold ConsolePrinter.left_setw. fold (spaces (width - String.length name)).
  rewrite Indent_spaces, (Console_OnValues_text _ _ _ Hall). f_equal.
  replace (2 * k + width - 2 * k - String.length name) with (width - String.length name)
    by lia.
  unfold put. rewrite !append_assoc. reflexivity.
Qed.

Lemma printable_property_line (p : PropertyView) (width k : nat) :
  property_printable p -> name_length p <= width ->
  exists line, property_line k (2 * k + width) p line.
Proof.
  intros Hp Hwidth. destruct (printable_scalars p Hp) as (name & texts & Hn & Htexts).
  unfold name_length in Hwidth. rewrite Hn in Hwidth.
  eexists. exists name, texts. split_all; [exact Hn | exact Htexts | reflexivity |].
  rewrite !length_append, !length_spaces. lia.
Qed.

Lemma maxPropertyLength_named ps : forall acc,
  Forall (fun p => pv_name p <> None) ps ->
  ConsolePrinter.maxPropertyLength acc ps = Some (Nat.max acc (widest ps)).
Proof.
  induction ps as [|p ps IH]; intros acc Hall.
  - cbn. rewrite Nat.max_0_r. reflexivity.
  - apply Forall_cons in Hall as [Hname Hall]. cbn [ConsolePrinter.maxPropertyLength].
    unfold widest. cbn [map foldr]. fold (widest ps). unfold name_length at 1.
    destruct (pv_name p) as [name|]; [|contradiction].
    rewrite IH by exact Hall. f_equal. lia.
Qed.

Lemma property_lines_named (k column : nat) (ps : list PropertyView) (lines : list string) :
  Forall2 (property_line k column) ps lines -> Forall (fun p => pv_name p <> None) ps.
Proof.
  induction 1 as [|p l ps lines Hp Hps IHps]; [constructor|].
  constructor; [|exact IHps]. destruct Hp as (n & texts & -> & _). discriminate.
Qed.

Lemma Console_OnNode_text (node : NodeView) :
  forall k text, console_node k node text ->
  forall s, ConsolePrinter.OnNode s node k = Some (s +:+ text).
Proof.
  induction node as [name kind ps cs IH] using NodeView_forall_ind.
  intros k text Htext s.
  inversion Htext as [k' name' kind' ps' cs' lines below Hps Hcs]; subst.
  rewrite Console_OnNode_unfold. cbn [nv_name nv_properties nv_children].
  rewrite (maxPropertyLength_named ps 0), Nat.max_0_l.
  2:{ eapply property_lines_named. exact Hps. }
  rewrite (joined_loop (fun s p => ConsolePrinter.OnProperty s p (widest ps) (S k))
             (fun s ps0 => ConsolePrinter.OnProperties s ps0 (widest ps) (S k))
             (fun _ => eq_refl) (fun _ _ _ => eq_refl) ps lines).
  2:{ eapply Forall2_impl; [exact Hps|]. intros p l. apply Console_OnProperty_line. }
  assert (forall s x l,
            ConsolePrinter.OnChildren s (x :: l) (S k) =
              match match ConsolePrinter.OnNode s x (S k) with
                    | Some s => Some (s << nl)
                    | None => None
                    end with
              | Some s => ConsolePrinter.OnChildren s l (S k)
              | None => None
              end) as Hcons.
  { intros s0 x l. cbn [ConsolePrinter.OnChildren].
    destruct (ConsolePrinter.OnNode s0 x (S k)); reflexivity. }
  rewrite (joined_loop _ (fun s cs0 => ConsolePrinter.OnChildren s cs0 (S k))
             (fun _ => eq_refl) Hcons cs (map (fun t => t +:+ nl) below)).
  - f_equal. rewrite Indent_spaces. unfold put. rewrite !append_assoc. reflexivity.
  - apply Forall2_fmap_r. clear -IH Hcs.
    induction Hcs as [|c t cs below Hc Hcs IHcs]; [constructor|].
    apply Forall_cons in IH as [IHc IH]. constructor; [|apply IHcs; exact IH].
    intros s0. rewrite (IHc _ _ Hc). unfold put. rewrite append_assoc. reflexivity.
Qed.

Lemma printable_console_node (node : NodeView) :
  printable node -> forall k, exists text, console_node k node text.
Proof.
  induction node as [name kind ps cs IH] using NodeView_forall_ind.
  intros Hok k. apply printable_unfold in Hok as (Hname & Hps & Hcs).
  cbn [nv_name nv_properties nv_children] in *.
  destruct name as [name|]; [|contradiction].
  destruct (Forall_exists_Forall2 (property_line (S k) (2 * S k + widest ps)) ps)
    as [lines Hlines].
  { pose proof (widest_bound ps) as Hbound. revert Hps Hbound. generalize (widest ps).
    intros width Hps Hbound. rewrite Forall_forall in Hps, Hbound. apply Forall_forall.
    intros p Hp. apply printable_property_line; [apply Hps | apply Hbound]; exact Hp. }
  destruct (Forall_exists_Forall2 (console_node (S k)) cs) as [below Hbelow].
  { rewrite Forall_forall in IH, Hcs. apply Forall_forall. intros c Hc.
    apply (IH c Hc). apply (Hcs c Hc). }
  eexists. econstructor; eassumption.
Qed.

(** X12. [ConsolePrinter] writes a node as a line with its name,
    indented by two spaces per level, then one line per property: the
    name of the property, indented one level more and filled with
    spaces on the right to the length of the longest property name of
    the node, the separator [ : ], the texts of the values separated
    by single spaces (numbers in decimal, [true] or [false], strings
    as they are), and a line feed; then the text of every child, one
    level deeper and built in the same way, each followed by a line
    feed.  The separators of all properties of a node stand in the
    same column. *)
Theorem ConsolePrinter_aligned (node : NodeView) (s : string) (k : nat) :
  printable node ->
  exists name lines below,
    nv_name node = Some name /\
    ConsolePrinter.OnNode s node k
      = Some (s +:+ spaces (2 * k) +:+ name +:+ nl +:+ joined lines
                +:+ joined (map (fun text => text +:+ nl) below)) /\
    Forall2 (property_line (S k) (2 * S k + widest (nv_properties node)))
      (nv_properties node) lines /\
    Forall2 (console_node (S k)) (nv_children node) below.
Proof.
  intros Hok. destruct (printable_console_node node Hok k) as [text Htext].
  rewrite (Console_OnNode_text node k text Htext).
  inversion Htext as [k' name kind ps cs lines below Hps Hcs]; subst.
  exists name, lines, below. cbn [nv_name nv_properties nv_children].
  split_all; [reflexivity | rewrite ?append_assoc; reflexivity | exact Hps | exact Hcs].
Qed.

Lemma ConsolePrinter_aligned_witness :
  ConsolePrinter.Write EmptyString
    (mkNodeView (Some "Device") None
       [mkPropertyView (Some "CL_DEVICE_NAME") None CLI_PropertyType_String [U_s "Mock"];
        mkPropertyView (Some "CL_DEVICE_AVAILABLE") None CLI_PropertyType_Bool [U_b true]]
       [])
  = Some ("Device" +:+ nl
          +:+ "  CL_DEVICE_NAME      : Mock" +:+ nl
          +:+ "  CL_DEVICE_AVAILABLE : true" +:+ nl).
Proof.
  destruct (ConsolePrinter_aligned
              (mkNodeView (Some "Device") None
                 [mkPropertyView (Some "CL_DEVICE_NAME") None CLI_PropertyType_String
                    [U_s "Mock"];
                  mkPropertyView (Some "CL_DEVICE_AVAILABLE") None CLI_PropertyType_Bool
                    [U_b true]] []) EmptyString 0)
    as (name & lines & below & _ & Hrun & _ & _).
  - cbn. repeat split; try discriminate; repeat constructor; discriminate.
  - reflexivity.
Defined.

(** X13. For every tree that can be printed and whose texts are
    ASCII without markup (node names being XML names; no [<], [&] or
    double quote in kinds and property names, which become attribute
    values; no [<], [&] or [>] in string values), [XmlPrinter] writes
    the element of the tree, and it is well formed: the node as an
    element of its name with the attribute [Kind] when it has a kind,
    its properties as [Property] elements with the attributes [Name]
    and [Type] and one [Value] element per value, then the elements of
    its children.  Nothing is escaped. *)
Theorem XmlPrinter_well_formed (tree : NodeView) :
  printable tree -> xml_safe tree ->
  exists out,
    XmlPrinter.Write EmptyString tree = Some out /\
    xml_node tree out /\
    xml_element out.
Proof.
  intros Hok Hsafe. destruct (printable_xml_node tree Hok) as [text Htext].
  exists text. split_all.
  - unfold XmlPrinter.Write. rewrite (Xml_OnNode_text tree text Htext). reflexivity.
  - exact Htext.
  - eapply xml_node_element; eassumption.
Qed.

Lemma XmlPrinter_well_formed_witness :
  exists out,
    XmlPrinter.Write EmptyString
      (mkNodeView (Some "ObjectType") (Some "Image2D")
         [mkPropertyView (Some "ChannelOrder") None CLI_PropertyType_String [U_s "RGBA"]] [])
    = Some out /\
    out = "<ObjectType Kind=" +:+ dq +:+ "Image2D" +:+ dq +:+ ">"
            +:+ "<Property Name=" +:+ dq +:+ "ChannelOrder" +:+ dq
            +:+ " Type=" +:+ dq +:+ "string" +:+ dq +:+ ">"
            +:+ "<Value>RGBA</Value></Property></ObjectType>" /\
    xml_element out.
Proof.
  destruct (XmlPrinter_well_formed
              (mkNodeView (Some "ObjectType") (Some "Image2D")
                 [mkPropertyView (Some "ChannelOrder") None CLI_PropertyType_String
                    [U_s "RGBA"]] [])) as (out & Hrun & _ & Helement).
  - cbn. repeat split; try discriminate; repeat constructor; discriminate.
  - cbn. repeat split; try discriminate; repeat constructor.
  - exists out. split; [exact Hrun|]. split; [|exact Helement].
    cbv in Hrun. injection Hrun as <-. reflexivity.
Defined.

(** X14. For every tree that can be printed and whose texts hold no
    brace, the output of [JsonPrinter] has exactly as many more opening
    than closing braces as the tree has nodes: [OnNode] opens two
    braces per node and closes one.  The braces of the output never
    balance. *)
Theorem JsonPrinter_braces_never_balance (tree : NodeView) :
  printable tree -> brace_free tree ->
  exists out,
    JsonPrinter.Write EmptyString tree = Some out /\
    brace_excess out = Z.of_nat (node_count tree) /\ (0 < brace_excess out)%Z.
Proof.
  intros Hok Hfree. destruct (Json_OnNode_total tree Hok EmptyString) as [out Hout].
  exists out. split; [exact Hout|].
  apply (Json_OnNode_excess _ _ _ Hfree) in Hout. cbn in Hout.
  split; [exact Hout|]. rewrite Hout, node_count_unfold. lia.
Qed.

Lemma JsonPrinter_braces_never_balance_witness :
  exists out,
    JsonPrinter.Write EmptyString
      (mkNodeView (Some "Platforms") None []
         [mkNodeView (Some "Platform") None
            [mkPropertyView (Some "CL_PLATFORM_NAME") None CLI_PropertyType_String
               [U_s "Mock"]] []])
    = Some out /\ brace_excess out = 2%Z.
Proof.
  destruct (JsonPrinter_braces_never_balance
              (mkNodeView (Some "Platforms") None []
                 [mkNodeView (Some "Platform") None
                    [mkPropertyView (Some "CL_PLATFORM_NAME") None CLI_PropertyType_String
                       [U_s "Mock"]] []])) as (out & Hout & Hexcess & _).
  - cbn. repeat split; try discriminate; repeat constructor; discriminate.
  - cbn. repeat split; repeat constructor.
  - exists out. split; [exact Hout | exact Hexcess].
Defined.

(** ** The command line tool *)

Section MainFacts.
Context {hdr : cl_h}.

(** X15. [main] of the command line tool does not test the statuses of
    the library calls.  After a run of [cliInfo_Gather] that left no
    root, [main] reads its uninitialised local [root] when a printer
    is selected (outside defined behaviour), and writes nothing and
    returns 0 when none is; after a run that left a root whose tree
    is printable it returns 0, whatever the status was, with the text
    of the selected printer on the standard output and the messages
    of the library on the error stream. *)
Theorem main_ignores_the_statuses (drv : Driver) (args : list string)
    (status : cliStatus) (info : cliInfo) (d : list Diag) :
  cliInfo_Gather drv (mk_cliInfo empty_pool None) = Some (status, info, d) ->
  (root info = None ->
   main drv args = match selected_printer args with
                   | Some _ => None
                   | None => Some (0%Z, EmptyString, d)
                   end) /\
  (forall a tree,
     root info = Some a -> read_node (pool info) a = Some tree -> printable tree ->
     exists out,
       main drv args = Some (0%Z, out, d) /\
       match selected_printer args with
       | Some printer => run_printer printer tree = Some out
       | None => out = EmptyString
       end).
Proof.
  intros Hgather. unfold main. cbn [cliInfo_Create]. rewrite Hgather. split.
  - intros Hroot. unfold cliInfo_GetRoot. rewrite Hroot.
    destruct (selected_printer args); reflexivity.
  - intros a tree Hroot Hread Hok. unfold cliInfo_GetRoot. rewrite Hroot, Hread.
    destruct (selected_printer args) as [printer|]; [|eauto].
    destruct (printers_return tree Hok) as (Hxml & Hjson & Hconsole).
    assert (exists out, run_printer printer tree = Some out) as [out Hout]
        by (destruct printer; assumption).
    exists out. rewrite Hout. split; reflexivity || exact Hout.
Qed.

End MainFacts.

Lemma main_ignores_the_statuses_witness :
  main (sample_driver [] [] "" []) [] = None /\
  main (sample_driver [] [] "" []) ["--json"]
    = Some (0%Z, EmptyString, [Message "Failed to find any OpenCL platform."]).
Proof.
  destruct (main_ignores_the_statuses (sample_driver [] [] "" []) []
              CLI_Success (mk_cliInfo (mkPool [] [] [mkNode (Some "Platforms") None None None None]) None)
              [Message "Failed to find any OpenCL platform."]) as [Hnone _];
    [vm_compute; reflexivity|].
  destruct (main_ignores_the_statuses (sample_driver [] [] "" []) ["--json"]
              CLI_Success (mk_cliInfo (mkPool [] [] [mkNode (Some "Platforms") None None None None]) None)
              [Message "Failed to find any OpenCL platform."]) as [Hsome _];
    [vm_compute; reflexivity|].
  split; [exact (Hnone eq_refl) | exact (Hsome eq_refl)].
Defined.

(** ** The pool at the level of bytes *)

Module BytePoolFacts.
Import BytePool.
Local Open Scope Z_scope.

Lemma aligned_size (size : Z) :
  0 <= size -> size <= (size + 7) / 8 * 8 < size + 8 /\ ((size + 7) / 8 * 8) mod 8 = 0.
Proof.
  intros Hsize. pose proof (Z.div_mod (size + 7) 8 ltac:(lia)) as Hdm.
  pose proof (Z.mod_pos_bound (size + 7) 8 ltac:(lia)) as Hmod.
  split; [lia|]. apply Z.mod_mul. lia.
Qed.

Lemma aligned_fits (offset size : Z) :
  offset mod 8 = 0 -> 0 <= size -> offset + size <= BlockSize ->
  offset + (size + 7) / 8 * 8 <= BlockSize /\ (offset + (size + 7) / 8 * 8) mod 8 = 0.
Proof.
  intros Hoff Hsize Hfit. unfold BlockSize in *.
  destruct (aligned_size size Hsize) as [Hbound Hal].
  assert ((offset + (size + 7) / 8 * 8) mod 8 = 0) as Hsum.
  { rewrite Z.add_mod, Hoff, Hal by lia. reflexivity. }
  split; [|exact Hsum].
  apply Z.mod_divide in Hsum as [k Hk]; [|lia].
  apply Z.mod_divide in Hoff as [j Hj]; [|lia]. lia.
Qed.

(** What one allocation does. *)
Lemma Allocate_Ok (size : Z) (st : state) :
  well_formed st -> 0 <= size < BlockSize ->
  0 < size \/ currentBlock_ st <> None ->
  exists a st',
    Allocate size st = (Ok a, st') /\
    well_formed st' /\
    within_block (a, size) /\
    snd a mod 8 = 0 /\
    handed_out st' (a, size) /\
    (forall r, handed_out st r -> handed_out st' r /\ disjoint r (a, size)) /\
    (forall i, snd a <= i < BlockSize -> load st' (fst a, i) = Some NUL) /\
    (forall b i, b <> fst a -> load st' (b, i) = load st (b, i)) /\
    currentBlock_ st' = Some (fst a) /\
    snd a + size <= currentBlockOffset_ st' /\
    (forall a' c, load st a' = Some c -> load st' a' = Some c).
Proof.
  intros (Hrange & Hal & Hcur) Hsize Hsome. unfold Allocate.
  destruct (Z.ltb_spec size 0); [lia|]. rewrite Z.geb_leb.
  destruct (Z.leb_spec BlockSize size); [lia|]. cbn [orb].
  destruct (aligned_size size ltac:(lia)) as [Hbound Hal'].
  rewrite Z.gtb_ltb. destruct (Z.ltb_spec BlockSize (currentBlockOffset_ st + size)) as [Hnew|Hfit].
  - (* a new block *)
    cbn [currentBlock_ currentBlockOffset_ blocks_].
    destruct (aligned_fits 0 size eq_refl ltac:(lia) ltac:(lia)) as [Hfit' Hal''].
    eexists (_, _), _. split; [reflexivity|]. cbn [fst snd].
    split_all.
    + unfold well_formed. cbn [currentBlock_ currentBlockOffset_ blocks_]. split_all.
      * lia.
      * lia.
      * exact Hal''.
      * rewrite length_app. cbn. lia.
      * exists zero_block. split; [apply lookup_fresh | intros; reflexivity].
    + unfold within_block. cbn. lia.
    + reflexivity.
    + split; [unfold within_block; cbn; lia|].
      eexists. split; [reflexivity|]. right. cbn. split; [reflexivity | lia].
    + intros r (Hwithin & current & Hc & Hr). rewrite Hc in Hcur.
      destruct Hcur as (Hlen & _).
      assert (fst (fst r) < length (blocks_ st))%nat as Hlt by lia.
      split.
      * split; [exact Hwithin|]. eexists. split; [reflexivity|]. left. exact Hlt.
      * left. cbn. lia.
    + intros i Hi. unfold load. cbn [fst snd blocks_]. rewrite lookup_fresh.
      unfold in_block. destruct (Z.leb_spec 0 i); [|lia].
      destruct (Z.ltb_spec i BlockSize); [|lia]. reflexivity.
    + intros b i Hb. unfold load. cbn [fst snd blocks_].
      destruct (Nat.lt_ge_cases b (length (blocks_ st))) as [Hlt|Hge].
      * rewrite lookup_app_l by exact Hlt. reflexivity.
      * rewrite (lookup_ge_None_2 (_ ++ _)) by (rewrite length_app; cbn; lia).
        rewrite lookup_ge_None_2 by exact Hge. reflexivity.
    + reflexivity.
    + cbn. lia.
    + intros [b i] c. unfold load. cbn [fst snd blocks_].
      destruct (blocks_ st !! b) as [block|] eqn:Hb; [|discriminate].
      rewrite lookup_app_l by (eapply lookup_lt_Some; exact Hb). rewrite Hb. trivial.
  - (* the current block *)
    destruct (currentBlock_ st) as [current|] eqn:Hc.
    2:{ destruct Hcur as [_ Hoff]. destruct Hsome as [Hpos | Hne]; [lia | contradiction]. }
    destruct Hcur as (Hlen & block & Hblock & Hzero).
    destruct (aligned_fits (currentBlockOffset_ st) size Hal ltac:(lia) Hfit) as [Hfit' Hal''].
    eexists (_, _), _. split; [reflexivity|]. cbn [fst snd].
    split_all.
    + unfold well_formed. cbn [currentBlock_ currentBlockOffset_ blocks_]. rewrite ?Hc.
      split_all; [lia | exact Hfit' | exact Hal'' | exact Hlen |].
      exists block. split; [exact Hblock|]. intros offset Hoff. apply Hzero. lia.
    + unfold within_block. cbn. lia.
    + exact Hal.
    + split; [unfold within_block; cbn; lia|].
      exists current. cbn [currentBlock_ currentBlockOffset_]. split; [first [exact Hc | reflexivity]|].
      right. cbn. split; [reflexivity | lia].
    + intros r (Hwithin & current' & Hc' & Hr). rewrite Hc in Hc'. injection Hc' as <-.
      split.
      * split; [exact Hwithin|]. exists current.
        cbn [currentBlock_ currentBlockOffset_]. split; [first [exact Hc | reflexivity]|].
        destruct Hr as [Hlt | [Heq Hle]]; [left; exact Hlt | right; split; [exact Heq | lia]].
      * destruct Hr as [Hlt | [Heq Hle]]; [left; cbn; lia | right; left; cbn; lia].
    + intros i Hi. unfold load. cbn [fst snd blocks_]. rewrite Hblock.
      unfold in_block. destruct (Z.leb_spec 0 i); [|lia].
      destruct (Z.ltb_spec i BlockSize); [|lia]. cbn. rewrite Hzero by lia. reflexivity.
    + intros b i Hb. reflexivity.
    + cbn. first [exact Hc | reflexivity].
    + cbn. lia.
    + intros a' c Hload. exact Hload.
Qed.


Lemma store_spec (st : state) (a : address) (c c0 : ascii) :
  load st a = Some c0 ->
  exists st',
    store st a c = Some st' /\
    load st' a = Some c /\
    (forall a', a' <> a -> load st' a' = load st a') /\
    same_shape st st'.
Proof.
  unfold load, store. destruct a as [b off]. cbn [fst snd].
  destruct (blocks_ st !! b) as [block|] eqn:Hb; [|discriminate].
  destruct (in_block off) eqn:Hin; [|discriminate]. intros _.
  eexists. split; [reflexivity|]. cbn [blocks_ currentBlock_ currentBlockOffset_].
  split_all.
  - rewrite list_lookup_insert_eq by (eapply lookup_lt_Some; exact Hb).
    rewrite ?Hin, Z.eqb_refl. reflexivity.
  - intros [b' off'] Hne. cbn [fst snd].
    destruct (Nat.eq_dec b' b) as [->|Hb'].
    + rewrite list_lookup_insert_eq by (eapply lookup_lt_Some; exact Hb). rewrite Hb.
      destruct (in_block off'); [|reflexivity].
      destruct (Z.eqb_spec off' off) as [->|_]; [contradiction Hne; reflexivity | reflexivity].
    + rewrite list_lookup_insert_ne by congruence. reflexivity.
  - unfold same_shape. cbn. rewrite length_insert. auto.
Qed.

Lemma same_shape_trans (st1 st2 st3 : state) :
  same_shape st1 st2 -> same_shape st2 st3 -> same_shape st1 st3.
Proof. unfold same_shape. intros (A1 & B1 & C1) (A2 & B2 & C2). split_all; congruence. Qed.

Lemma memcpy_spec (src : list ascii) : forall (st : state) (b : nat) (off : Z),
  (forall i, off <= i < off + Z.of_nat (length src) -> exists c, load st (b, i) = Some c) ->
  exists st',
    memcpy st (b, off) src = Some st' /\
    (forall i, (i < length src)%nat -> load st' (b, off + Z.of_nat i) = src !! i) /\
    (forall a, (fst a <> b \/ snd a < off \/ off + Z.of_nat (length src) <= snd a) ->
               load st' a = load st a) /\
    same_shape st st'.
Proof.
  induction src as [|c src IH]; intros st b off Hvalid.
  - exists st. split; [reflexivity|]. split_all; [intros i Hi; cbn in Hi; lia | reflexivity |].
    unfold same_shape. auto.
  - cbn [length] in Hvalid. destruct (Hvalid off ltac:(lia)) as [c0 Hc0].
    destruct (store_spec st (b, off) c c0 Hc0) as (st1 & Hstore & Hload & Hother & Hshape).
    cbn [memcpy fst snd]. rewrite Hstore.
    destruct (IH st1 b (off + 1)) as (st2 & Hcopy & Hloads & Hothers & Hshape2).
    { intros i Hi. rewrite Hother by (intros Heq; injection Heq; lia).
      apply Hvalid. lia. }
    exists st2. split; [exact Hcopy|]. split_all.
    + intros i Hi. destruct i as [|i].
      * change ((c :: src) !! 0%nat) with (Some c).
        rewrite Z.add_0_r. rewrite Hothers by (right; left; cbn; lia).
        exact Hload.
      * cbn [length] in Hi. replace (off + Z.of_nat (S i)) with (off + 1 + Z.of_nat i) by lia.
        rewrite Hloads by lia. reflexivity.
    + intros a Ha. cbn [length] in Ha. rewrite Hothers by lia.
      apply Hother. destruct a as [b' off']. cbn in Ha. intros Heq. injection Heq as -> ->. lia.
    + eapply same_shape_trans; eassumption.
Qed.

Lemma c_string_spec (text : list ascii) : forall (st : state) (b : nat) (off : Z) (fuel : nat),
  NUL ∉ text ->
  (forall i, (i < length text)%nat -> load st (b, off + Z.of_nat i) = text !! i) ->
  load st (b, off + Z.of_nat (length text)) = Some NUL ->
  (length text < fuel)%nat ->
  c_string fuel st (b, off) = Some (string_of_list_ascii text).
Proof.
  induction text as [|c text IH]; intros st b off fuel Hnul Hloads Hend Hfuel.
  - destruct fuel as [|fuel]; [cbn in Hfuel; lia|]. cbn [c_string].
    cbn [length] in Hend. rewrite Z.add_0_r in Hend. rewrite Hend. reflexivity.
  - apply not_elem_of_cons in Hnul as [Hc Hnul].
    destruct fuel as [|fuel]; [cbn in Hfuel; lia|]. cbn [c_string fst snd].
    pose proof (Hloads 0%nat ltac:(cbn; lia)) as H0.
    change ((c :: text) !! 0%nat) with (Some c) in H0.
    rewrite Z.add_0_r in H0. rewrite H0.
    destruct (Ascii.eqb_spec c NUL) as [->|_]; [contradiction Hc; reflexivity|].
    rewrite (IH st b (off + 1) fuel Hnul); [reflexivity | | |cbn in Hfuel; lia].
    + intros i Hi. replace (off + 1 + Z.of_nat i) with (off + Z.of_nat (S i)) by lia.
      rewrite Hloads by (cbn; lia). reflexivity.
    + cbn [length] in Hend.
      replace (off + 1 + Z.of_nat (length text)) with (off + Z.of_nat (S (length text))) by lia.
      exact Hend.
Qed.

(** Stores below the offset of the current block, or into another
    block, keep the pool well formed. *)
Lemma well_formed_stores (st st' : state) :
  well_formed st -> same_shape st st' ->
  (forall current i, currentBlock_ st = Some current -> currentBlockOffset_ st <= i ->
                     load st' (current, i) = load st (current, i)) ->
  well_formed st'.
Proof.
  intros (Hrange & Hal & Hcur) (Hc & Ho & Hl) Hsame. unfold well_formed.
  rewrite Hc, Ho. split_all; [lia | lia | exact Hal |].
  destruct (currentBlock_ st) as [current|] eqn:Hcurrent.
  - destruct Hcur as (Hlen & block & Hblock & Hzero). split; [lia|].
    destruct (blocks_ st' !! current) as [block'|] eqn:Hblock'.
    2:{ apply lookup_ge_None in Hblock'. lia. }
    exists block'. split; [reflexivity|]. intros offset Hoff.
    specialize (Hsame current offset eq_refl ltac:(lia)). unfold load in Hsame.
    cbn [fst snd] in Hsame. rewrite Hblock, Hblock' in Hsame. unfold in_block in Hsame.
    destruct (Z.leb_spec 0 offset); [|lia]. destruct (Z.ltb_spec offset BlockSize); [|lia].
    cbn in Hsame. injection Hsame as ->. apply Hzero. lia.
  - destruct Hcur as [Hnil Hoff]. split; [|exact Hoff].
    apply length_zero_iff_nil. rewrite Hl, Hnil. reflexivity.
Qed.

End BytePoolFacts.

Module BytePoolSequences.
Import BytePool BytePoolFacts.
Local Open Scope Z_scope.

Lemma handed_out_same_shape (st st' : state) (r : range) :
  same_shape st st' -> handed_out st r -> handed_out st' r.
Proof.
  intros (C & O & _) (Hw & current & Hc & Hr). split; [exact Hw|].
  exists current. rewrite C, O. split; assumption.
Qed.

Lemma disjoint_sym (r1 r2 : range) : disjoint r1 r2 -> disjoint r2 r1.
Proof. unfold disjoint. intros [H | [H | H]]; auto. Qed.

(** A sequence of allocations, from any state the pool can be in. *)
Lemma Allocate_all_Ok (sizes : list Z) : forall st : state,
  well_formed st ->
  Forall (fun size => 0 < size < BlockSize) sizes ->
  exists rs st',
    Allocate_all sizes st = (Ok rs, st') /\
    well_formed st' /\
    map snd rs = sizes /\
    (forall r, handed_out st r -> handed_out st' r) /\
    Forall (fun r => within_block r /\ snd (fst r) mod 8 = 0 /\ handed_out st' r /\
                     forall r0, handed_out st r0 -> disjoint r0 r) rs /\
    (forall i j r1 r2, i <> j -> rs !! i = Some r1 -> rs !! j = Some r2 -> disjoint r1 r2).
Proof.
  induction sizes as [|size sizes IH]; intros st Hwf Hsizes.
  - exists [], st. cbn. split_all; auto.
    intros i j r1 r2 _ Hi. rewrite lookup_nil in Hi. discriminate.
  - apply Forall_cons in Hsizes as [Hsize Hsizes].
    destruct (Allocate_Ok size st Hwf ltac:(lia) ltac:(left; lia))
      as (a & st1 & Ha & Hwf1 & Hin & Hal & Hout & Hold & _).
    destruct (IH st1 Hwf1 Hsizes) as (rs & st2 & Hrs & Hwf2 & Hmap & Hkeep & Hall & Hpair).
    exists ((a, size) :: rs), st2. cbn [Allocate_all]. rewrite Ha, Hrs. split_all.
    + reflexivity.
    + exact Hwf2.
    + cbn. rewrite Hmap. reflexivity.
    + intros r Hr. apply Hkeep. apply Hold. exact Hr.
    + constructor.
      * split_all; [exact Hin | exact Hal | apply Hkeep; exact Hout |].
        intros r0 Hr0. apply Hold. exact Hr0.
      * eapply Forall_impl; [exact Hall|]. cbn beta.
        intros r (Hr1 & Hr2 & Hr3 & Hr4). split_all; auto.
        intros r0 Hr0. apply Hr4. apply Hold. exact Hr0.
    + intros i j r1 r2 Hij Hi Hj.
      assert (forall r, r ∈ rs -> disjoint (a, size) r) as Hfirst.
      { intros r Hr. rewrite Forall_forall in Hall. apply (Hall r Hr). exact Hout. }
      destruct i as [|i], j as [|j]; cbn in Hi, Hj.
      * congruence.
      * injection Hi as <-. apply Hfirst. eapply list_elem_of_lookup_2. exact Hj.
      * injection Hj as <-. apply disjoint_sym. apply Hfirst.
        eapply list_elem_of_lookup_2. exact Hi.
      * apply (Hpair i j); [congruence | exact Hi | exact Hj].
Qed.

End BytePoolSequences.

Section BytePoolTheorems.
Import BytePool BytePoolFacts BytePoolSequences.
Local Open Scope Z_scope.

(** X16. [Pool::Allocate] on a pool in a state that allocations lead to:
    it throws [std::bad_alloc] exactly for a negative size and a size
    of [BlockSize] or more; it leaves defined behaviour exactly for
    size 0 on a pool that has no block yet (the null [currentBlock_]
    is dereferenced); otherwise it returns an address at a multiple of
    8 whose [size] bytes lie inside one block, are all zero, and meet
    no range handed out before. *)
Theorem Pool_Allocate_outcomes (size : Z) (st : state) :
  well_formed st ->
  (fst (Allocate size st) = BadAlloc <-> size < 0 \/ BlockSize <= size) /\
  (fst (Allocate size st) = Stuck <-> size = 0 /\ currentBlock_ st = None) /\
  (forall a, fst (Allocate size st) = Ok a ->
     well_formed (snd (Allocate size st)) /\
     snd a mod 8 = 0 /\
     within_block (a, size) /\
     (forall i, 0 <= i < size -> load (snd (Allocate size st)) (fst a, snd a + i) = Some NUL) /\
     (forall r, handed_out st r ->
                handed_out (snd (Allocate size st)) r /\ disjoint r (a, size))).
Proof.
  intros Hwf.
  destruct (Z.ltb_spec size 0) as [Hneg | Hpos];
    [|destruct (Z.ltb_spec size BlockSize) as [Hlt | Hge]].
  - assert (Allocate size st = (BadAlloc, st)) as ->.
    { unfold Allocate. destruct (Z.ltb_spec size 0); [reflexivity | lia]. }
    cbn [fst snd]. split_all; [split; auto | split; [discriminate | lia] | discriminate].
  - destruct (Z.eq_dec size 0) as [Hzero | Hnonzero];
      [destruct (currentBlock_ st) as [current|] eqn:Hcurrent|].
    + destruct (Allocate_Ok size st Hwf ltac:(lia) ltac:(right; congruence))
        as (a & st' & -> & Hwf' & Hin & Hal & Hout & Hold & Hzeros & _).
      cbn [fst snd]. split_all.
      * split; [discriminate | lia].
      * split; [discriminate | intros [_ ?]; discriminate].
      * intros a' [= <-]. split_all; auto. intros i Hi. lia.
    + assert (Allocate size st = (Stuck, st)) as ->.
      { destruct Hwf as (_ & _ & Hnone). rewrite Hcurrent in Hnone.
        destruct Hnone as [_ Hoffset]. unfold Allocate. subst size.
        rewrite Hoffset. unfold BlockSize. cbn.
        change (1048576 + 0 >? 1048576) with false. cbn iota. rewrite Hcurrent. reflexivity. }
      cbn [fst snd]. split_all; [split; [discriminate | lia] | split; auto | discriminate].
    + destruct (Allocate_Ok size st Hwf ltac:(lia) ltac:(left; lia))
        as (a & st' & -> & Hwf' & Hin & Hal & Hout & Hold & Hzeros & _).
      cbn [fst snd]. split_all.
      * split; [discriminate | lia].
      * split; [discriminate | intros [? _]; lia].
      * intros a' [= <-]. split_all; auto.
        intros i Hi. apply Hzeros. unfold within_block in Hin. cbn [fst snd] in Hin. lia.
  - assert (Allocate size st = (BadAlloc, st)) as ->.
    { unfold Allocate. destruct (Z.ltb_spec size 0); [reflexivity|].
      destruct (Z.geb_spec size BlockSize); [reflexivity | lia]. }
    cbn [fst snd]. unfold BlockSize in Hge.
    split_all; [split; auto | split; [discriminate | lia] | discriminate].
Qed.

(** X17. Allocations of sizes from 1 up to [BlockSize - 1], one after
    the other on a pool in any state that allocations lead to (a new
    pool is one), all succeed; the ranges returned have the sizes
    asked for, start at multiples of 8, lie each inside one block, no
    two of them share a byte, and none shares a byte with a range
    handed out before. *)
Theorem Pool_allocations_never_overlap (sizes : list Z) (st : state) :
  well_formed st ->
  Forall (fun size => 0 < size < BlockSize) sizes ->
  exists rs st',
    Allocate_all sizes st = (Ok rs, st') /\
    map snd rs = sizes /\
    Forall (fun r => within_block r /\ snd (fst r) mod 8 = 0 /\
                     forall r0, handed_out st r0 -> disjoint r0 r) rs /\
    (forall i j r1 r2, i <> j -> rs !! i = Some r1 -> rs !! j = Some r2 -> disjoint r1 r2).
Proof.
  intros Hwf Hsizes.
  destruct (Allocate_all_Ok sizes st Hwf Hsizes)
    as (rs & st' & Hrs & _ & Hmap & _ & Hall & Hpair).
  exists rs, st'. split_all; auto.
  eapply Forall_impl; [exact Hall|]. cbn beta. intros r (H1 & H2 & _ & H3). auto.
Qed.

End BytePoolTheorems.

Lemma Pool_Allocate_outcomes_witness :
  fst (BytePool.Allocate 24 BytePool.fresh) = Ok (0%nat, 0%Z) /\
  BytePool.currentBlockOffset_ (snd (BytePool.Allocate 24 BytePool.fresh)) = 24%Z /\
  (fst (BytePool.Allocate 0 BytePool.fresh) = Stuck <->
     0%Z = 0%Z /\ BytePool.currentBlock_ BytePool.fresh = None).
Proof.
  split; [reflexivity|]. split; [reflexivity|].
  apply (Pool_Allocate_outcomes 0 BytePool.fresh).
  unfold BytePool.well_formed, BytePool.fresh, BlockSize. cbn.
  repeat split; lia.
Defined.

Lemma Pool_allocations_never_overlap_witness :
  exists rs st',
    BytePool.Allocate_all [16; 5; 1048575; 3]%Z BytePool.fresh = (Ok rs, st') /\
    map snd rs = [16; 5; 1048575; 3]%Z /\
    Forall (fun r => BytePool.within_block r /\ (snd (fst r) mod 8 = 0)%Z /\
                     forall r0, BytePool.handed_out BytePool.fresh r0 -> BytePool.disjoint r0 r) rs /\
    (forall i j r1 r2, i <> j -> rs !! i = Some r1 -> rs !! j = Some r2 ->
                       BytePool.disjoint r1 r2).
Proof.
  apply (Pool_allocations_never_overlap [16; 5; 1048575; 3]%Z BytePool.fresh).
  - unfold BytePool.well_formed, BytePool.fresh, BlockSize. cbn. repeat split; lia.
  - unfold BlockSize. repeat constructor; lia.
Defined.

Section BytePoolCopy.
Import BytePool BytePoolFacts BytePoolSequences.
Local Open Scope Z_scope.
Context (pointer_bytes : address -> list ascii).
Hypothesis pointer_size : forall a, length (pointer_bytes a) = sizeof_pointer.

(** X18. [CreateValue] for a string of fewer than [BlockSize - 1]
    characters without NUL, on a pool in a state that allocations lead
    to and with pointers of eight bytes: it returns a cell and a copy
    of the string that reads back as the string up to a terminating
    NUL (the terminator is never written: the bytes of a block start
    as zero and no range is handed out twice); the cell holds the
    address of the copy; the cell and the copy share no byte; and the
    bytes of every range handed out before are unchanged. *)
Theorem CreateValue_string_copy (value : string) (st : state) :
  well_formed st ->
  NUL ∉ list_ascii_of_string value ->
  Z.of_nat (String.length value) + 1 < BlockSize ->
  exists v s st',
    CreateValue pointer_bytes value st = (Ok (v, s), st') /\
    well_formed st' /\
    c_string (S (String.length value)) st' s = Some value /\
    (forall i, (i < sizeof_pointer)%nat ->
               load st' (fst v, snd v + Z.of_nat i) = pointer_bytes s !! i) /\
    disjoint (v, sizeof_cliValue) (s, Z.of_nat (String.length value) + 1) /\
    handed_out st' (v, sizeof_cliValue) /\
    handed_out st' (s, Z.of_nat (String.length value) + 1) /\
    (forall r, handed_out st r ->
       handed_out st' r /\
       disjoint r (v, sizeof_cliValue) /\
       disjoint r (s, Z.of_nat (String.length value) + 1) /\
       forall i, 0 <= i < snd r ->
         load st' (fst (fst r), snd (fst r) + i) = load st (fst (fst r), snd (fst r) + i)).
Proof.
  intros Hwf Hnul Hsize. unfold CreateValue.
  set (l := Z.of_nat (String.length value)) in *.
  assert (length (list_ascii_of_string value) = String.length value) as Hlen
      by apply length_list_ascii_of_string.
  destruct (Allocate_Ok sizeof_cliValue st Hwf ltac:(unfold sizeof_cliValue, BlockSize; lia)
              ltac:(left; unfold sizeof_cliValue; lia))
    as ([bv ov] & st1 & -> & Hwf1 & Hin1 & Hal1 & Hout1 & Hold1 & Hzero1 & Hother1 & Hcur1
        & Hoff1 & Hkeep1).
  assert (static_cast_int l = l) as ->.
  { unfold static_cast_int, BlockSize in *. rewrite Z.mod_small by lia. lia. }
  destruct (Allocate_Ok (l + 1) st1 Hwf1 ltac:(lia) ltac:(left; lia))
    as ([bs os] & st2 & -> & Hwf2 & Hin2 & Hal2 & Hout2 & Hold2 & Hzero2 & Hother2 & Hcur2
        & Hoff2 & Hkeep2).
  destruct (Hold2 _ Hout1) as [Hout1' Hdisj].
  unfold within_block, sizeof_cliValue in *. cbn [fst snd] in *.
  destruct (memcpy_spec (list_ascii_of_string value) st2 bs os)
    as (st3 & Hcopy & Hloads3 & Hframe3 & Hshape3).
  { intros i Hi. exists NUL. apply Hzero2. rewrite Hlen in Hi. lia. }
  rewrite Hcopy.
  assert (bv <> bs \/ ov + 16 <= os \/ os + (l + 1) <= ov) as Hapart.
  { unfold disjoint in Hdisj. cbn [fst snd] in Hdisj. lia. }
  destruct (memcpy_spec (pointer_bytes (bs, os)) st3 bv ov)
    as (st4 & Hcopy4 & Hloads4 & Hframe4 & Hshape4).
  { intros i Hi. rewrite pointer_size in Hi. unfold sizeof_pointer in Hi. exists NUL.
    rewrite Hframe3 by (cbn [fst snd]; rewrite Hlen; fold l; lia).
    apply Hkeep2. apply Hzero1. lia. }
  rewrite Hcopy4.
  assert (forall a, (fst a <> bv \/ snd a < ov \/ ov + 8 <= snd a) ->
                    (fst a <> bs \/ snd a < os \/ os + l <= snd a) ->
                    load st4 a = load st2 a) as Hframe.
  { intros a Hv Hs. rewrite Hframe4 by (rewrite pointer_size; unfold sizeof_pointer; lia).
    apply Hframe3. rewrite Hlen. fold l. lia. }
  assert (same_shape st2 st4) as Hshape by (eapply same_shape_trans; eassumption).
  exists (bv, ov), (bs, os), st4. split; [reflexivity|]. cbn [fst snd]. split_all.
  - eapply well_formed_stores; [exact Hwf2 | exact Hshape |].
    intros current i Hc Hi. rewrite Hcur2 in Hc. injection Hc as <-.
    apply Hframe; cbn [fst snd]; [|lia].
    destruct Hout1' as (_ & current & Hc & Hr). rewrite Hcur2 in Hc. injection Hc as <-.
    cbn [fst snd] in Hr. lia.
  - rewrite <- (string_of_list_ascii_of_string value) at 2.
    apply c_string_spec; [exact Hnul | | |lia].
    + intros i Hi. rewrite Hframe4.
      2:{ cbn [fst snd]. rewrite pointer_size. unfold sizeof_pointer. rewrite Hlen in Hi. lia. }
      apply Hloads3. exact Hi.
    + rewrite Hframe; cbn [fst snd]; rewrite ?Hlen; fold l; [|lia|lia].
      apply Hzero2. lia.
  - intros i Hi. apply Hloads4. rewrite pointer_size. exact Hi.
  - exact Hdisj.
  - eapply handed_out_same_shape; eassumption.
  - eapply handed_out_same_shape; eassumption.
  - intros r Hr. destruct (Hold1 _ Hr) as [Hr1 Hd1]. destruct (Hold2 _ Hr1) as [Hr2 Hd2].
    split_all.
    + eapply handed_out_same_shape; eassumption.
    + exact Hd1.
    + exact Hd2.
    + intros i Hi. destruct Hr as ((Hr0 & Hr0' & Hr0'') & current & Hc & Hr).
      unfold disjoint in Hd1, Hd2. cbn [fst snd] in Hd1, Hd2.
      rewrite Hframe by (cbn [fst snd]; lia).
      destruct (load st (fst (fst r), snd (fst r) + i)) as [c|] eqn:Hload.
      * apply Hkeep2. apply Hkeep1. exact Hload.
      * exfalso. destruct Hwf as (_ & _ & Hcurrent). rewrite Hc in Hcurrent.
        destruct Hcurrent as (Hlength & _).
        unfold load in Hload. cbn [fst snd] in Hload.
        destruct (blocks_ st !! fst (fst r)) as [block|] eqn:Hb.
        -- unfold in_block in Hload.
           destruct (Z.leb_spec 0 (snd (fst r) + i)); [|lia].
           destruct (Z.ltb_spec (snd (fst r) + i) BlockSize); [|unfold BlockSize in *; lia].
           discriminate.
        -- apply lookup_ge_None in Hb. lia.
Qed.

End BytePoolCopy.

Lemma CreateValue_string_copy_witness :
  exists v s st',
    BytePool.CreateValue
      (fun a => le_bytes 8 (Z.of_nat (fst a) * BlockSize + snd a)) "abc" BytePool.fresh
      = (Ok (v, s), st') /\
    BytePool.c_string 4 st' s = Some "abc".
Proof.
  destruct (CreateValue_string_copy
              (fun a => le_bytes 8 (Z.of_nat (fst a) * BlockSize + snd a))
              (fun a => length_le_bytes 8 _) "abc" BytePool.fresh)
    as (v & s & st' & Hrun & _ & Hcopy & _).
  - unfold BytePool.well_formed, BytePool.fresh, BlockSize. cbn. repeat split; lia.
  - decide_by_compute.
  - unfold BlockSize. cbn. lia.
  - exists v, s, st'. split; [exact Hrun | exact Hcopy].
Defined.

(** ** The decoder of partition types *)

Section PartitionProperty.
Context {hdr : cl_h}.

Lemma CreateBitfield_values (config : Z) (fields : list BitfieldFetcher) (p : Pool) :
  exists p' result,
    CreateBitfield config fields p = (Ok result, p', []) /\
    read_values (length (values p')) p' result = Some (selected_names config fields).
Proof.
  destruct (CreateBitfield_loop_building config fields _ _ _ _ _ _ (building_start p))
    as (p' & result & last' & l' & Hrun & (Hc & Hall & _) & _).
  cbn [app] in Hc, Hall. exists p', result. split; [exact Hrun|].
  apply (read_values_list p' result). { exists l'. split; assumption. }
  apply Forall2_length in Hall. rewrite <- Hall. eapply chain_length. exact Hc.
Qed.

(** X19. [CreateDevicePartitionProperty] on the list of partition types
    that a driver reports for [CL_DEVICE_PARTITION_PROPERTIES] (entries
    of pointer size; the enumerators with the values of the Khronos
    header): only the first entry is decoded, and it is decoded as a
    bit mask although the partition types are consecutive numbers.  A
    list that starts with [CL_DEVICE_PARTITION_BY_COUNTS] reads as
    [CL_DEVICE_PARTITION_EQUALLY] and [CL_DEVICE_PARTITION_BY_COUNTS];
    one that starts with another partition type reads as that type
    alone; the entries behind the first are never shown. *)
Theorem CreateDevicePartitionProperty_reads_a_mask (first : Z) (others : list Z)
    (size : nat) (p : Pool) :
  CL_DEVICE_PARTITION_EQUALLY = 4230%Z ->
  CL_DEVICE_PARTITION_BY_COUNTS = 4231%Z ->
  CL_DEVICE_PARTITION_BY_AFFINITY_DOMAIN = 4232%Z ->
  first ∈ [0; 4230; 4231; 4232]%Z ->
  exists p' result,
    CreateDevicePartitionProperty (size_t_entries (first :: others)) size p
      = (Ok result, p', []) /\
    read_values (length (values p')) p' result =
      Some (map U_s
              (if (first =? 4230)%Z then ["CL_DEVICE_PARTITION_EQUALLY"]
               else if (first =? 4231)%Z then
                 ["CL_DEVICE_PARTITION_EQUALLY"; "CL_DEVICE_PARTITION_BY_COUNTS"]
               else if (first =? 4232)%Z then ["CL_DEVICE_PARTITION_BY_AFFINITY_DOMAIN"]
               else [])).
Proof.
  intros Hequally Hcounts Haffinity Hfirst.
  unfold CreateDevicePartitionProperty, size_t_entries. cbn [map concat].
  assert (0 <= first < 4233)%Z as Hrange.
  { repeat (apply elem_of_cons in Hfirst as [-> | Hfirst]; [lia|]). inversion Hfirst. }
  rewrite (le_uint_exact 8) by (cbn; lia).
  assert (static_cast_int64 first = first) as ->.
  { rewrite static_cast_int64_as_int64 by lia. unfold as_int64.
    destruct (Z.ltb_spec first 9223372036854775808); [reflexivity | lia]. }
  match goal with
  | |- context [CreateBitfield first ?fields p] =>
      destruct (CreateBitfield_values first fields p) as (p' & result & Hrun & Hread)
  end.
  exists p', result. split; [exact Hrun|]. rewrite Hread. f_equal.
  unfold selected_names, fully_set, bitfield. cbn [List.filter value bf_n].
  rewrite Hequally, Hcounts, Haffinity.
  repeat (apply elem_of_cons in Hfirst as [-> | Hfirst]; [reflexivity|]). inversion Hfirst.
Qed.

End PartitionProperty.

Lemma CreateDevicePartitionProperty_reads_a_mask_witness :
  exists p' result,
    CreateDevicePartitionProperty (hdr := khronos_cl_h)
      (size_t_entries [4231; 4232; 0]%Z) 24 empty_pool = (Ok result, p', []) /\
    read_values (length (values p')) p' result =
      Some [U_s "CL_DEVICE_PARTITION_EQUALLY"; U_s "CL_DEVICE_PARTITION_BY_COUNTS"].
Proof.
  apply (CreateDevicePartitionProperty_reads_a_mask (hdr := khronos_cl_h)
           4231 [4232; 0]%Z 24 empty_pool); try reflexivity.
  decide_by_compute.
Defined.

(** ** Trees in the pool *)

Lemma node_tree_children (p : Pool) (hi : nat) (cs : list NodeView) : forall lo l,
  (fix children (cs : list NodeView) (lo : nat) (l : list nat) {struct cs} : Prop :=
     match cs, l with
     | [], [] => True
     | v :: cs', a' :: l' =>
         lo < a' /\
         node_tree p a' (match l' with [] => hi | b :: _ => b end) v /\
         children cs' a' l'
     | _, _ => False
     end) cs lo l <-> sibling_trees (node_tree p) lo hi l cs.
Proof.
  induction cs as [|v cs IH]; intros lo l; destruct l as [|a' l']; cbn; try tauto.
  rewrite IH. tauto.
Qed.

Lemma node_tree_unfold (p : Pool) (a hi : nat) name kind ps cs :
  node_tree p a hi (mkNodeView name kind ps cs) <->
  a < hi /\
  exists c, nodes p !! a = Some c /\ n_name c = name /\ n_kind c = kind /\
    property_list p (n_firstProperty c) ps /\
    exists l, chain n_next (nodes p) (n_firstChild c) l /\
              sibling_trees (node_tree p) a hi l cs.
Proof.
  cbn [node_tree]. split.
  - intros (Hlt & c & Hc & Hn & Hk & Hps & l & Hl & Hcs).
    split; [exact Hlt|]. exists c. split_all; auto. exists l. split; [exact Hl|].
    apply node_tree_children. exact Hcs.
  - intros (Hlt & c & Hc & Hn & Hk & Hps & l & Hl & Hcs).
    split; [exact Hlt|]. exists c. split_all; auto. exists l. split; [exact Hl|].
    apply node_tree_children. exact Hcs.
Qed.

Lemma node_tree_lt (p : Pool) (a hi : nat) (view : NodeView) :
  node_tree p a hi view -> a < hi.
Proof. destruct view. cbn. tauto. Qed.

Section SiblingTrees.
Context (tree : nat -> nat -> NodeView -> Prop).
Hypothesis tree_lt : forall a b v, tree a b v -> a < b.

Lemma sibling_trees_bounds (cs : list NodeView) : forall lo hi l,
  sibling_trees tree lo hi l cs -> Forall (fun x => lo < x < hi) l.
Proof.
  induction cs as [|v cs IH]; intros lo hi l Hs; destruct l as [|a' l']; cbn in Hs;
    try contradiction; [constructor|].
  destruct Hs as (Hlo & Ht & Hrest). apply tree_lt in Ht as Hlt.
  specialize (IH _ _ _ Hrest).
  constructor.
  - split; [exact Hlo|]. destruct l' as [|b l'']; [exact Hlt|].
    apply Forall_cons in IH as [[_ Hb] _]. lia.
  - eapply Forall_impl; [exact IH|]. cbn. intros x Hx. lia.
Qed.

Lemma sibling_trees_length (cs : list NodeView) : forall lo hi l,
  sibling_trees tree lo hi l cs -> length l = length cs.
Proof.
  induction cs as [|v cs IH]; intros lo hi l Hs; destruct l as [|a' l']; cbn in Hs;
    try contradiction; [reflexivity|].
  destruct Hs as (_ & _ & Hrest). cbn. f_equal. eapply IH. exact Hrest.
Qed.

End SiblingTrees.

(** A change of the trees of all siblings, tree by tree. *)
Lemma sibling_trees_impl (T T' : nat -> nat -> NodeView -> Prop) (lo0 hi0 : nat)
    (cs : list NodeView) :
  (forall a b v, T a b v -> a < b) ->
  Forall (fun v => forall a b, lo0 < a -> b <= hi0 -> T a b v -> T' a b v) cs ->
  forall lo hi l, lo0 <= lo -> hi <= hi0 ->
    sibling_trees T lo hi l cs -> sibling_trees T' lo hi l cs.
Proof.
  intros Hlt Hall. induction Hall as [|v cs Hv _ IH]; intros lo hi l Hlo Hhi Hs;
    destruct l as [|a' l']; cbn in Hs |- *; try contradiction; [exact I|].
  destruct Hs as (Ha & Ht & Hrest). split; [exact Ha|]. split.
  - apply Hv; [lia | | exact Ht].
    destruct l' as [|b l'']; [exact Hhi|].
    apply (sibling_trees_bounds T Hlt) in Hrest. apply Forall_cons in Hrest as [[_ Hb] _]. lia.
  - apply IH; [lia | exact Hhi | exact Hrest].
Qed.

(** The bound of the last sibling may grow. *)
Lemma sibling_trees_mono (T : nat -> nat -> NodeView -> Prop) (hi hi' : nat)
    (cs : list NodeView) :
  Forall (fun v => forall a, T a hi v -> T a hi' v) cs ->
  forall lo l, sibling_trees T lo hi l cs -> sibling_trees T lo hi' l cs.
Proof.
  induction 1 as [|v cs Hv _ IH]; intros lo l Hs;
    destruct l as [|a' l']; cbn in Hs |- *; try contradiction; [exact I|].
  destruct Hs as (Ha & Ht & Hrest). split; [exact Ha|]. split.
  - destruct l' as [|b l'']; [apply Hv; exact Ht | exact Ht].
  - apply IH. exact Hrest.
Qed.

Lemma node_tree_mono (p : Pool) (view : NodeView) : forall a hi hi',
  hi <= hi' -> node_tree p a hi view -> node_tree p a hi' view.
Proof.
  induction view as [name kind ps cs IH] using NodeView_forall_ind.
  intros a hi hi' Hhi. rewrite !node_tree_unfold.
  intros (Hlt & c & Hc & Hn & Hk & Hps & l & Hl & Hcs).
  split; [lia|]. exists c. split_all; auto. exists l. split; [exact Hl|].
  apply (sibling_trees_mono _ hi hi'); [|exact Hcs].
  eapply Forall_impl; [exact IH|]. cbn. intros v Hv a0. apply Hv. exact Hhi.
Qed.

Lemma chain_agree {T} (next : T -> ptr) (h h' : list T) (q : ptr) (l : list nat) :
  chain next h q l -> (forall x, x ∈ l -> h' !! x = h !! x) -> chain next h' q l.
Proof.
  induction 1 as [|a c l Ha _ IH]; intros Hsame; [constructor|].
  econstructor.
  - rewrite Hsame by apply list_elem_of_here. exact Ha.
  - apply IH. intros x Hx. apply Hsame. apply list_elem_of_further. exact Hx.
Qed.

Lemma property_list_kept (p p' : Pool) (q : ptr) (ps : list PropertyView) :
  cells_kept p p' -> property_list p q ps -> property_list p' q ps.
Proof.
  intros ([ev Hv] & [ep Hp]) (l & Hc & Hall). exists l. split.
  - rewrite Hp. apply chain_app. exact Hc.
  - eapply Forall2_impl; [exact Hall|].
    intros a pv (c & Ha & Hn & Hh & Ht & Hvs). exists c. split_all; auto.
    + rewrite Hp. apply lookup_app_l_Some. exact Ha.
    + eapply value_list_app; eassumption.
Qed.

Lemma cells_kept_refl (p : Pool) : cells_kept p p.
Proof. split; exists []; rewrite app_nil_r; reflexivity. Qed.

Lemma cells_kept_trans (p1 p2 p3 : Pool) :
  cells_kept p1 p2 -> cells_kept p2 p3 -> cells_kept p1 p3.
Proof.
  intros ([e1 H1] & [f1 G1]) ([e2 H2] & [f2 G2]). split.
  - exists (e1 ++ e2). rewrite H2, H1, app_assoc. reflexivity.
  - exists (f1 ++ f2). rewrite G2, G1, app_assoc. reflexivity.
Qed.

Lemma grows_from_refl (base : nat) (p : Pool) : grows_from base p p.
Proof. split; [apply cells_kept_refl|]. split; [lia | reflexivity]. Qed.

Lemma grows_from_trans (base : nat) (p1 p2 p3 : Pool) :
  grows_from base p1 p2 -> grows_from base p2 p3 -> grows_from base p1 p3.
Proof.
  intros (C1 & L1 & N1) (C2 & L2 & N2). split; [eapply cells_kept_trans; eassumption|].
  split; [lia|]. intros x Hx. rewrite N2, N1 by exact Hx. reflexivity.
Qed.

Lemma grows_from_le (base base' : nat) (p p' : Pool) :
  base' <= base -> grows_from base p p' -> grows_from base' p p'.
Proof. intros Hle (C & L & N). split; [exact C|]. split; [exact L|]. intros x Hx. apply N. lia. Qed.

(** A subtree is kept by a change of the pool outside of it. *)
Lemma node_tree_frame (p p' : Pool) (view : NodeView) : forall a hi,
  cells_kept p p' ->
  node_kept a p p' ->
  (forall x, a < x < hi -> nodes p' !! x = nodes p !! x) ->
  node_tree p a hi view -> node_tree p' a hi view.
Proof.
  induction view as [name kind ps cs IH] using NodeView_forall_ind.
  intros a hi Hcells Hkept Hsame. rewrite !node_tree_unfold.
  intros (Hlt & c & Hc & Hn & Hk & Hps & l & Hl & Hcs).
  destruct (Hkept c Hc) as (c' & Hc' & Hn' & Hk' & Hchild' & Hprop').
  split; [exact Hlt|]. exists c'. split_all; try congruence.
  - rewrite Hprop'. eapply property_list_kept; eassumption.
  - exists l. rewrite Hchild'.
    pose proof (sibling_trees_bounds _ (node_tree_lt p) _ _ _ _ Hcs) as Hbounds.
    rewrite Forall_forall in Hbounds. split.
    + eapply chain_agree; [exact Hl|]. intros x Hx. apply Hsame. apply Hbounds. exact Hx.
    + eapply (sibling_trees_impl _ _ a hi); [apply node_tree_lt | | lia | lia | exact Hcs].
      eapply Forall_impl; [exact IH|]. cbn. intros v Hv a0 b Ha0 Hb Ht.
      apply node_tree_lt in Ht as Hlt0.
      apply Hv; [exact Hcells | | | exact Ht].
      * intros c0 Hc0. exists c0. rewrite Hsame by lia. auto.
      * intros x Hx. apply Hsame. lia.
Qed.

(** The walks read what the tree predicates describe. *)
Lemma value_list_length (p : Pool) (v : ptr) (us : list cliUnion) :
  value_list p v us -> length us <= length (values p).
Proof.
  intros (l & Hc & Hall). apply Forall2_length in Hall. rewrite <- Hall.
  eapply chain_length. exact Hc.
Qed.

Lemma read_properties_list (p : Pool) (q : ptr) (ps : list PropertyView) :
  property_list p q ps ->
  forall fuel, length (properties p) + length (values p) <= fuel ->
    read_properties fuel p q = Some ps.
Proof.
  intros (l & Hc & Hall) fuel Hfuel.
  pose proof (chain_length _ _ _ _ Hc) as Hlen.
  assert (length l + length (values p) <= fuel) as Hl by lia. clear Hfuel Hlen.
  revert ps Hall fuel Hl.
  induction Hc as [|a c l Ha _ IH]; intros ps Hall fuel Hl.
  - apply Forall2_nil_inv_l in Hall as ->. destruct fuel; reflexivity.
  - apply Forall2_cons_inv_l in Hall as (pv & ps' & (c' & Ha' & Hn & Hh & Ht & Hvs) & Hall & ->).
    rewrite Ha in Ha'. injection Ha' as <-.
    destruct fuel as [|fuel]; [cbn in Hl; lia|].
    cbn [read_properties]. rewrite Ha.
    rewrite (read_values_list _ _ _ Hvs)
      by (apply value_list_length in Hvs; cbn in Hl; lia).
    rewrite (IH ps' Hall fuel) by (cbn in Hl; lia).
    destruct pv as [name hint type vs]. cbn in *. subst. reflexivity.
Qed.

Lemma read_nodes_siblings (p : Pool) (views : list NodeView) :
  Forall (fun v => forall a hi c fuel,
            node_tree p a hi v -> nodes p !! a = Some c ->
            length (nodes p) + length (properties p) + length (values p) <= fuel + a + 1 ->
            n_name c = nv_name v /\ n_kind c = nv_kind v /\
            read_properties fuel p (n_firstProperty c) = Some (nv_properties v) /\
            read_nodes fuel p (n_firstChild c) = Some (nv_children v)) views ->
  forall l q lo hi fuel,
    chain n_next (nodes p) q l ->
    sibling_trees (node_tree p) lo hi l views ->
    length (nodes p) + length (properties p) + length (values p) <= fuel + lo + 1 ->
    read_nodes fuel p q = Some views.
Proof.
  induction 1 as [|v views Hv _ IH]; intros l q lo hi fuel Hc Hs Hfuel;
    destruct l as [|a' l']; cbn in Hs; try contradiction.
  - inversion Hc. destruct fuel; reflexivity.
  - destruct Hs as (Hlo & Ht & Hrest).
    inversion Hc as [|a0 c l0 Ha Hl]; subst.
    pose proof (lookup_lt_Some _ _ _ Ha) as Hlt.
    destruct fuel as [|fuel]; [lia|].
    cbn [read_nodes]. rewrite Ha.
    destruct (Hv a' _ c fuel Ht Ha ltac:(lia)) as (Hn & Hk & Hps & Hcs).
    rewrite Hps, Hcs.
    rewrite (IH l' (n_next c) a' hi fuel Hl Hrest) by lia.
    destruct v as [name kind ps cs]. cbn in *. subst. reflexivity.
Qed.

Lemma read_node_tree_parts (p : Pool) (view : NodeView) : forall a hi c fuel,
  node_tree p a hi view -> nodes p !! a = Some c ->
  length (nodes p) + length (properties p) + length (values p) <= fuel + a + 1 ->
  n_name c = nv_name view /\ n_kind c = nv_kind view /\
  read_properties fuel p (n_firstProperty c) = Some (nv_properties view) /\
  read_nodes fuel p (n_firstChild c) = Some (nv_children view).
Proof.
  induction view as [name kind ps cs IH] using NodeView_forall_ind.
  intros a hi c fuel Ht Ha Hfuel. apply node_tree_unfold in Ht.
  destruct Ht as (Hlt & c' & Hc' & Hn & Hk & Hps & l & Hl & Hcs).
  rewrite Ha in Hc'. injection Hc' as <-.
  pose proof (lookup_lt_Some _ _ _ Ha) as Hbound.
  cbn [nv_name nv_kind nv_properties nv_children]. split_all; auto.
  - apply read_properties_list; [exact Hps | lia].
  - eapply (read_nodes_siblings p cs IH); [exact Hl | exact Hcs | lia].
Qed.

Lemma read_node_tree (p : Pool) (a hi : nat) (view : NodeView) :
  node_tree p a hi view -> read_node p a = Some view.
Proof.
  intros Ht. pose proof Ht as Hu. destruct view as [name kind ps cs].
  apply node_tree_unfold in Hu. destruct Hu as (_ & c & Hc & _).
  unfold read_node. rewrite Hc.
  destruct (read_node_tree_parts p _ a hi c
              (length (nodes p) + length (properties p) + length (values p) + 1) Ht Hc
              ltac:(lia)) as (Hn & Hk & Hps & Hcs).
  rewrite Hps, Hcs. cbn in *. subst. reflexivity.
Qed.

(** Running the code that links a child. *)
Lemma link_run {A} (parent : nat) (last_ new : ptr) (k : ptr -> M A) (p : Pool) :
  match last_ with
  | Some l => is_Some (nodes p !! l)
  | None => is_Some (nodes p !! parent)
  end ->
  bind (match last_ with
        | Some l =>
            store_node l (set_n_next new) ;;;
            c <- load_node l ;;
            ret (n_next c)
        | None =>
            store_node parent (set_n_firstChild new) ;;;
            ret new
        end) k p
  = k new (linked_child parent last_ new p).
Proof.
  unfold linked_child. destruct last_ as [l|]; intros [c Hc].
  - unfold bind, store_node, load_node, ret. rewrite Hc. cbn [values properties nodes].
    rewrite list_lookup_insert_eq by (eapply lookup_lt_Some; exact Hc).
    rewrite (alter_insert _ _ _ c Hc). cbn [n_next set_n_next].
    destruct (k _ _) as [[r p2] d2]. reflexivity.
  - unfold bind, store_node, ret. rewrite Hc. cbn [values properties nodes].
    rewrite (alter_insert _ _ _ c Hc).
    destruct (k _ _) as [[r p2] d2]. reflexivity.
Qed.

(** The trees of siblings are kept by a change of the pool that
    leaves their cells alone but for the links of the siblings. *)
Lemma sibling_trees_frame (p p' : Pool) (views : list NodeView) : forall lo hi l,
  cells_kept p p' ->
  (forall y, lo < y < hi -> y ∉ l -> nodes p' !! y = nodes p !! y) ->
  (forall y, y ∈ l -> node_kept y p p') ->
  sibling_trees (node_tree p) lo hi l views ->
  sibling_trees (node_tree p') lo hi l views.
Proof.
  induction views as [|v views IH]; intros lo hi l Hcells Hsame Hkept Hs;
    destruct l as [|a' l']; cbn in Hs |- *; try contradiction; [exact I|].
  destruct Hs as (Hlo & Ht & Hrest).
  pose proof (sibling_trees_bounds _ (node_tree_lt p) _ _ _ _ Hrest) as Hbounds.
  pose proof (node_tree_lt _ _ _ _ Ht) as Hab.
  assert (match l' with [] => hi | b :: _ => b end <= hi) as Hb.
  { destruct l' as [|b l'']; [lia|]. apply Forall_cons in Hbounds as [[_ ?] _]. lia. }
  assert (Forall (fun x => match l' with [] => hi | b :: _ => b end <= x) l') as Habove.
  { destruct l' as [|b l'']; [constructor|].
    destruct views as [|v2 views2]; [contradiction|]. cbn in Hrest.
    destruct Hrest as (_ & _ & Hrest2).
    apply (sibling_trees_bounds _ (node_tree_lt p)) in Hrest2.
    constructor; [lia|]. eapply Forall_impl; [exact Hrest2|]. cbn. intros x Hx. lia. }
  split; [exact Hlo|]. split.
  - eapply node_tree_frame; [exact Hcells | | | exact Ht].
    + apply Hkept. apply list_elem_of_here.
    + intros y Hy. apply Hsame; [lia|].
      intros Hin. apply elem_of_cons in Hin as [-> | Hin]; [lia|].
      rewrite Forall_forall in Habove. specialize (Habove y Hin). lia.
  - apply IH; [exact Hcells | | | exact Hrest].
    + intros y Hy Hnotin. apply Hsame; [lia|].
      intros Hin. apply elem_of_cons in Hin as [-> | Hin]; [lia | contradiction].
    + intros y Hy. apply Hkept. apply list_elem_of_further. exact Hy.
Qed.

Lemma sibling_trees_snoc (T : nat -> nat -> NodeView -> Prop) (views : list NodeView) :
  (forall a b b' v, b <= b' -> T a b v -> T a b' v) ->
  (forall a b v, T a b v -> a < b) ->
  forall lo hi hi' l n v,
    sibling_trees T lo hi l views -> lo < hi -> hi <= n -> T n hi' v ->
    sibling_trees T lo hi' (l ++ [n]) (views ++ [v]).
Proof.
  intros Hmono Hlt.
  induction views as [|v0 views IH]; intros lo hi hi' l n v Hs Hlo Hn Ht;
    destruct l as [|a' l']; cbn in Hs; try contradiction.
  - cbn. split; [lia|]. split; [exact Ht | exact I].
  - destruct Hs as (Ha & Ht0 & Hrest). cbn [app sibling_trees]. split; [exact Ha|].
    pose proof (Hlt _ _ _ Ht0) as Hab.
    split.
    + destruct l' as [|b l'']; cbn [app].
      * eapply Hmono; [|exact Ht0]. exact Hn.
      * exact Ht0.
    + apply (IH a' hi hi'); [exact Hrest | | exact Hn | exact Ht].
      destruct l' as [|b l'']; [exact Hab|].
      apply (sibling_trees_bounds T Hlt) in Hrest.
      apply Forall_cons in Hrest as [[? ?] _]. lia.
Qed.

Lemma children_state_grows (p p' : Pool) (parent hi : nat) (last_ : ptr)
    (views : list NodeView) :
  grows_from hi p p' ->
  children_state p parent hi last_ views -> children_state p' parent hi last_ views.
Proof.
  intros (Hcells & Hlen & Hsame) (Hpar & Hhi & c & l & Hc & Hl & Hs & Hlast).
  pose proof (sibling_trees_bounds _ (node_tree_lt p) _ _ _ _ Hs) as Hbounds.
  rewrite Forall_forall in Hbounds.
  split; [exact Hpar|]. split; [lia|]. exists c, l. split_all.
  - rewrite Hsame by exact Hpar. exact Hc.
  - eapply chain_agree; [exact Hl|]. intros x Hx. apply Hsame. apply Hbounds. exact Hx.
  - eapply sibling_trees_frame; [exact Hcells | | | exact Hs].
    + intros y Hy _. apply Hsame. lia.
    + intros y Hy c0 Hc0. exists c0. rewrite Hsame by (apply Hbounds; exact Hy). auto.
  - exact Hlast.
Qed.

Lemma children_state_mono (p : Pool) (parent hi hi' : nat) (last_ : ptr)
    (views : list NodeView) :
  hi <= hi' -> hi' <= length (nodes p) ->
  children_state p parent hi last_ views -> children_state p parent hi' last_ views.
Proof.
  intros Hle Hlen (Hpar & Hhi & c & l & Hc & Hl & Hs & Hlast).
  split; [lia|]. split; [exact Hlen|]. exists c, l. split_all; auto.
  eapply sibling_trees_mono; [|exact Hs].
  apply Forall_forall. intros v _ a. apply node_tree_mono. exact Hle.
Qed.

(** Linking a new subtree. *)
Lemma linked_child_state (p : Pool) (parent hi hi' n : nat) (last_ : ptr)
    (views : list NodeView) (v : NodeView) (cn : cliNode) :
  children_state p parent hi last_ views ->
  hi <= n -> node_tree p n hi' v -> hi' <= length (nodes p) ->
  nodes p !! n = Some cn -> n_next cn = None ->
  children_state (linked_child parent last_ (Some n) p) parent hi' (Some n)
    (match last_ with Some _ => views ++ [v] | None => [v] end) /\
  grows_from parent p (linked_child parent last_ (Some n) p) /\
  parent_kept parent p (linked_child parent last_ (Some n) p).
Proof.
  intros (Hpar & Hhi & c & l & Hc & Hl & Hs & Hlast) Hn Ht Hhi' Hcn Hnext.
  pose proof (node_tree_lt _ _ _ _ Ht) as Hnhi.
  pose proof (sibling_trees_bounds _ (node_tree_lt p) _ _ _ _ Hs) as Hbounds.
  rewrite Forall_forall in Hbounds.
  assert (cells_kept p (linked_child parent last_ (Some n) p)) as Hcells
      by (unfold linked_child; split; exists []; cbn; rewrite app_nil_r; reflexivity).
  destruct last_ as [x|].
  - (* behind the last child *)
    destruct (chain_last _ _ _ _ _ Hl Hlast) as (cx & Hx & Hxnext).
    assert (x ∈ l) as Hxl.
    { rewrite last_lookup in Hlast. eapply list_elem_of_lookup_2. exact Hlast. }
    pose proof (Hbounds x Hxl) as Hxb.
    unfold linked_child in *. rewrite (alter_insert _ _ _ cx Hx) in *.
    split; [|split].
    + split; [lia|]. split; [cbn; rewrite length_insert; exact Hhi'|].
      exists c, (l ++ [n]). cbn [nodes]. split_all.
      * rewrite list_lookup_insert_ne by lia. exact Hc.
      * eapply chain_snoc; [exact Hl | exact Hlast | reflexivity | exact Hcn | exact Hnext |].
        intros Hin. specialize (Hbounds n Hin). lia.
      * apply (sibling_trees_snoc _ _ (fun a b b' v0 Hb => node_tree_mono _ v0 a b b' Hb)
                 (node_tree_lt _) parent hi hi'); [| lia | exact Hn |].
        -- eapply sibling_trees_frame; [exact Hcells | | | exact Hs].
           ++ intros y Hy Hnotin. cbn [nodes]. apply list_lookup_insert_ne.
              intros ->. contradiction.
           ++ intros y Hy c0 Hc0. cbn [nodes].
              destruct (decide (y = x)) as [-> | Hne].
              ** rewrite Hx in Hc0. injection Hc0 as <-.
                 eexists. split; [apply list_lookup_insert_eq; eapply lookup_lt_Some; exact Hx|].
                 cbn. auto.
              ** exists c0. rewrite list_lookup_insert_ne by congruence. auto.
        -- eapply node_tree_frame; [exact Hcells | | | exact Ht].
           ++ intros c0 Hc0. exists c0. cbn [nodes].
              rewrite list_lookup_insert_ne by lia. auto.
           ++ intros y Hy. cbn [nodes]. apply list_lookup_insert_ne. lia.
      * apply last_snoc.
    + split; [exact Hcells|]. split; [cbn; rewrite length_insert; lia|].
      intros y Hy. cbn [nodes]. apply list_lookup_insert_ne. lia.
    + intros c0 Hc0. exists c0. cbn [nodes]. rewrite list_lookup_insert_ne by lia. auto.
  - (* as the first child *)
    unfold linked_child in *. rewrite (alter_insert _ _ _ c Hc) in *.
    split; [|split].
    + split; [lia|]. split; [cbn; rewrite length_insert; exact Hhi'|].
      exists (set_n_firstChild (Some n) c), [n]. cbn [nodes]. split_all.
      * apply list_lookup_insert_eq. eapply lookup_lt_Some. exact Hc.
      * cbn [n_firstChild set_n_firstChild]. econstructor.
        -- rewrite list_lookup_insert_ne by lia. exact Hcn.
        -- rewrite Hnext. constructor.
      * cbn. split; [lia|]. split; [|exact I].
        eapply node_tree_frame; [exact Hcells | | | exact Ht].
        -- intros c0 Hc0. exists c0. cbn [nodes].
           rewrite list_lookup_insert_ne by lia. auto.
        -- intros y Hy. cbn [nodes]. apply list_lookup_insert_ne. lia.
      * reflexivity.
    + split; [exact Hcells|]. split; [cbn; rewrite length_insert; lia|].
      intros y Hy. cbn [nodes]. apply list_lookup_insert_ne. lia.
    + intros c0 Hc0. rewrite Hc in Hc0. injection Hc0 as <-.
      eexists. cbn [nodes].
      split; [apply list_lookup_insert_eq; eapply lookup_lt_Some; exact Hc|]. cbn. auto.
Qed.

(** ** [GatherContextInfo] *)

Lemma lookup_fresh2 {A} (l : list A) (x : A) (rest : list A) :
  (l ++ x :: rest) !! length l = Some x.
Proof. apply list_lookup_middle. reflexivity. Qed.

Lemma insert_fresh2 {A} (l : list A) (x y : A) (rest : list A) :
  <[length l := y]> (l ++ x :: rest) = l ++ y :: rest.
Proof.
  replace (length l) with (length l + 0) by lia.
  rewrite insert_app_r. reflexivity.
Qed.

Lemma lookup_second {A} (l : list A) (x y : A) : (l ++ [x; y]) !! S (length l) = Some y.
Proof.
  change (l ++ [x; y]) with (l ++ [x] ++ [y]). rewrite app_assoc.
  replace (S (length l)) with (length (l ++ [x])) by (rewrite length_app; cbn; lia).
  apply lookup_fresh.
Qed.

Lemma bind_Allocate_cliNode {A} (k : nat -> M A) (p : Pool) :
  bind Allocate_cliNode k p
  = k (length (nodes p)) (mkPool (values p) (properties p) (nodes p ++ [zero_node])).
Proof. unfold bind, Allocate_cliNode. destruct (k _ _) as [[r p2] d2]. reflexivity. Qed.

Lemma bind_Allocate_cliProperty {A} (k : nat -> M A) (p : Pool) :
  bind Allocate_cliProperty k p
  = k (length (properties p))
      (mkPool (values p) (properties p ++ [zero_property]) (nodes p)).
Proof. unfold bind, Allocate_cliProperty. destruct (k _ _) as [[r p2] d2]. reflexivity. Qed.

Lemma bind_store_node {A} (a : nat) (f : cliNode -> cliNode) (c : cliNode)
    (k : unit -> M A) (p : Pool) :
  nodes p !! a = Some c ->
  bind (store_node a f) k p
  = k tt (mkPool (values p) (properties p) (<[a := f c]> (nodes p))).
Proof.
  intros Hc. unfold bind, store_node. rewrite Hc.
  destruct (k _ _) as [[r p2] d2]. reflexivity.
Qed.

Lemma bind_store_property {A} (a : nat) (f : cliProperty -> cliProperty) (c : cliProperty)
    (k : unit -> M A) (p : Pool) :
  properties p !! a = Some c ->
  bind (store_property a f) k p
  = k tt (mkPool (values p) (<[a := f c]> (properties p)) (nodes p)).
Proof.
  intros Hc. unfold bind, store_property. rewrite Hc.
  destruct (k _ _) as [[r p2] d2]. reflexivity.
Qed.

Lemma bind_CreateValue_s {A} (value : string) (k : nat -> M A) (p : Pool) :
  (Z.of_nat (String.length value) + 1 < BlockSize)%Z ->
  bind (CreateValue_s value) k p = k (length (values p)) (with_value p (U_s value)).
Proof. intros Hlen. apply bind_Ok_nil. apply CreateValue_s_run. exact Hlen. Qed.

Section ContextInfo.
Context {hdr : cl_h} (drv : Driver).

Lemma switch_string_short (x : Z) (cases : list (Z * string)) (default : string) (n : nat) :
  Forall (fun c => String.length (snd c) <= n) cases -> String.length default <= n ->
  String.length (switch_string x cases default) <= n.
Proof.
  intros Hall Hd. induction Hall as [|[label s] cases Hs _ IH]; cbn; [exact Hd|].
  destruct (x =? label)%Z; [exact Hs | exact IH].
Qed.

Lemma ChannelOrderToString_short (order : Z) :
  (Z.of_nat (String.length (ChannelOrderToString order)) + 1 < BlockSize)%Z.
Proof.
  assert (String.length (ChannelOrderToString order) <= 30) as H.
  { apply switch_string_short; [|cbn; lia]. repeat constructor; cbn; lia. }
  unfold BlockSize. lia.
Qed.

Lemma ChannelDataTypeToString_short (type : Z) :
  (Z.of_nat (String.length (ChannelDataTypeToString type)) + 1 < BlockSize)%Z.
Proof.
  assert (String.length (ChannelDataTypeToString type) <= 30) as H.
  { apply switch_string_short; [|cbn; lia]. repeat constructor; cbn; lia. }
  unfold BlockSize. lia.
Qed.

(** The cells of one format node. *)
Lemma format_node_run {A} (format : cl_image_format) (k : nat -> M A) (p : Pool) :
  (formatcliNode <- Allocate_cliNode ;;
   store_node formatcliNode (set_n_name (Some "Format")) ;;;
   channelOrderProperty <- Allocate_cliProperty ;;
   store_property channelOrderProperty (set_p_name (Some "ChannelOrder")) ;;;
   store_property channelOrderProperty (set_p_type CLI_PropertyType_String) ;;;
   v <- CreateValue_s (ChannelOrderToString (image_channel_order format)) ;;
   store_property channelOrderProperty (set_p_value (Some v)) ;;;
   channelDataTypeProperty <- Allocate_cliProperty ;;
   store_property channelDataTypeProperty (set_p_name (Some "ChannelDataType")) ;;;
   store_property channelDataTypeProperty (set_p_type CLI_PropertyType_String) ;;;
   v <- CreateValue_s (ChannelDataTypeToString (image_channel_data_type format)) ;;
   store_property channelDataTypeProperty (set_p_value (Some v)) ;;;
   store_property channelOrderProperty (set_p_next (Some channelDataTypeProperty)) ;;;
   store_node formatcliNode (set_n_firstProperty (Some channelOrderProperty)) ;;;
   k formatcliNode) p
  = k (length (nodes p)) (with_format p format).
Proof.
  rewrite bind_Allocate_cliNode.
  erewrite bind_store_node by (cbn [nodes]; apply lookup_fresh).
  cbn [values properties nodes]. rewrite insert_fresh.
  rewrite bind_Allocate_cliProperty. cbn [values properties nodes].
  erewrite bind_store_property by (cbn [properties]; apply lookup_fresh).
  cbn [values properties nodes]. rewrite insert_fresh.
  erewrite bind_store_property by (cbn [properties]; apply lookup_fresh).
  cbn [values properties nodes]. rewrite insert_fresh.
  rewrite bind_CreateValue_s by apply ChannelOrderToString_short.
  unfold with_value at 1. cbn [values properties nodes].
  erewrite bind_store_property by (cbn [properties]; apply lookup_fresh).
  cbn [values properties nodes]. rewrite insert_fresh.
  rewrite bind_Allocate_cliProperty. cbn [values properties nodes].
  erewrite bind_store_property by (cbn [properties]; apply lookup_fresh).
  cbn [values properties nodes]. rewrite insert_fresh.
  erewrite bind_store_property by (cbn [properties]; apply lookup_fresh).
  cbn [values properties nodes]. rewrite insert_fresh.
  rewrite bind_CreateValue_s by apply ChannelDataTypeToString_short.
  unfold with_value at 1. cbn [values properties nodes].
  erewrite bind_store_property by (cbn [properties]; apply lookup_fresh).
  cbn [values properties nodes]. rewrite insert_fresh.
  rewrite <- (app_assoc (properties p)). cbn [app].
  erewrite bind_store_property by (cbn [properties]; apply lookup_fresh2).
  cbn [values properties nodes]. rewrite insert_fresh2.
  erewrite bind_store_node by (cbn [nodes]; apply lookup_fresh).
  cbn [values properties nodes]. rewrite insert_fresh.
  unfold with_format. rewrite !length_app. cbn [length].
  rewrite <- (app_assoc (values p)). cbn [app].
  replace (length (values p) + 1) with (S (length (values p))) by lia.
  replace (length (properties p) + 1) with (S (length (properties p))) by lia.
  reflexivity.
Qed.

Lemma with_format_grows (p : Pool) (format : cl_image_format) :
  grows_from (length (nodes p)) p (with_format p format).
Proof.
  unfold with_format. split; [split; eexists; reflexivity|].
  split; [cbn; rewrite length_app; lia|].
  intros x Hx. cbn. apply lookup_app_l. exact Hx.
Qed.

Lemma with_format_tree (p : Pool) (format : cl_image_format) :
  node_tree (with_format p format) (length (nodes p)) (S (length (nodes p)))
    (format_view format).
Proof.
  unfold format_view. apply node_tree_unfold. split; [lia|].
  eexists. split; [unfold with_format; cbn [nodes]; apply lookup_fresh|].
  cbn [n_name n_kind n_firstProperty n_firstChild]. split_all; try reflexivity.
  - exists [length (properties p); S (length (properties p))]. split.
    + econstructor; [unfold with_format; cbn [properties]; apply lookup_fresh2|].
      cbn [p_next]. econstructor.
      * unfold with_format. cbn [properties].
        apply lookup_second.
      * cbn [p_next]. constructor.
    + constructor; [|constructor; [|constructor]].
      * eexists. split; [unfold with_format; cbn [properties]; apply lookup_fresh2|].
        cbn. split_all; try reflexivity.
        exists [length (values p)]. split.
        -- econstructor; [apply lookup_fresh2 | constructor].
        -- constructor; [|constructor]. eexists. split; [apply lookup_fresh2 | reflexivity].
      * eexists. split.
        { unfold with_format. cbn [properties].
          apply lookup_second. }
        cbn. split_all; try reflexivity.
        exists [S (length (values p))]. split.
        -- econstructor; [apply lookup_second | constructor].
        -- constructor; [|constructor]. eexists. split; [apply lookup_second | reflexivity].
  - exists []. split; [constructor | exact I].
Qed.

Lemma grows_from_parent_kept_trans (parent : nat) (p1 p2 p3 : Pool) :
  parent_kept parent p1 p2 -> parent_kept parent p2 p3 -> parent_kept parent p1 p3.
Proof.
  intros H1 H2 c Hc. destruct (H1 c Hc) as (c2 & Hc2 & ? & ? & ? & ?).
  destruct (H2 c2 Hc2) as (c3 & Hc3 & ? & ? & ? & ?).
  exists c3. split_all; congruence.
Qed.

Lemma parent_kept_same (parent : nat) (p p' : Pool) :
  nodes p' !! parent = nodes p !! parent -> parent_kept parent p p'.
Proof. intros Heq c Hc. exists c. rewrite Heq. auto. Qed.

Lemma children_state_last (p : Pool) (parent hi : nat) (x : nat) (views : list NodeView) :
  children_state p parent hi (Some x) views -> is_Some (nodes p !! x).
Proof.
  intros (_ & _ & c & l & _ & Hl & _ & Hlast).
  destruct (chain_last _ _ _ _ _ Hl Hlast) as (cx & Hx & _). eauto.
Qed.

Lemma children_state_parent (p : Pool) (parent hi : nat) (last_ : ptr)
    (views : list NodeView) :
  children_state p parent hi last_ views -> is_Some (nodes p !! parent).
Proof. intros (_ & _ & c & l & Hc & _). eauto. Qed.

(** The inner loop of [GatherContextInfo]. *)
Lemma GatherContextInfo_formats_builds (formats : list cl_image_format) :
  forall p parent hi last_ views,
    children_state p parent hi last_ views ->
    (last_ = None -> views = []) ->
    exists p' last',
      GatherContextInfo_formats parent formats last_ p = (Ok tt, p', []) /\
      children_state p' parent (length (nodes p')) last' (views ++ map format_view formats) /\
      (last' = None -> views ++ map format_view formats = []) /\
      grows_from parent p p' /\ parent_kept parent p p'.
Proof.
  induction formats as [|format formats IH]; intros p parent hi last_ views Hstate Hnone.
  - exists p, last_. cbn [GatherContextInfo_formats map]. rewrite app_nil_r. split_all.
    + reflexivity.
    + pose proof Hstate as (_ & Hhi & _).
      eapply children_state_mono; [exact Hhi | lia | exact Hstate].
    + exact Hnone.
    + apply grows_from_refl.
    + apply parent_kept_same. reflexivity.
  - cbn [GatherContextInfo_formats]. rewrite format_node_run.
    pose proof Hstate as (Hpar & Hhi & _).
    assert (children_state (with_format p format) parent hi last_ views) as Hstate1.
    { eapply children_state_grows; [|exact Hstate].
      eapply grows_from_le; [|apply with_format_grows]. exact Hhi. }
    rewrite link_run.
    2:{ destruct last_ as [x|];
          [eapply children_state_last | eapply children_state_parent]; exact Hstate1. }
    destruct (linked_child_state (with_format p format) parent hi (S (length (nodes p)))
                (length (nodes p)) last_ views (format_view format)
                (mkNode (Some "Format") None None None (Some (length (properties p))))
                Hstate1 Hhi (with_format_tree p format))
      as (Hstate2 & Hgrow2 & Hkept2).
    { unfold with_format. cbn [nodes]. rewrite length_app. cbn. lia. }
    { unfold with_format. cbn [nodes]. apply lookup_fresh. }
    { reflexivity. }
    destruct (IH _ _ _ _ _ Hstate2 ltac:(discriminate))
      as (p' & last' & Hrun & Hstate' & Hnone' & Hgrow' & Hkept').
    exists p', last'. split_all.
    + exact Hrun.
    + cbn [map]. destruct last_ as [x|].
      * rewrite <- app_assoc in Hstate'. exact Hstate'.
      * rewrite (Hnone eq_refl). exact Hstate'.
    + intros Hl. specialize (Hnone' Hl). destruct last_ as [x|].
      * rewrite <- app_assoc in Hnone'. exact Hnone'.
      * rewrite (Hnone eq_refl). exact Hnone'.
    + eapply grows_from_trans; [|eapply grows_from_trans; [exact Hgrow2 | exact Hgrow']].
      eapply grows_from_le; [|apply with_format_grows]. lia.
    + eapply grows_from_parent_kept_trans; [|eapply grows_from_parent_kept_trans;
                                              [exact Hkept2 | exact Hkept']].
      apply parent_kept_same. unfold with_format. cbn [nodes].
      apply lookup_app_l. lia.
Qed.

Lemma property_list_null (p : Pool) : property_list p None [].
Proof. exists []. split; constructor. Qed.

(** The node of an image type after the inner loop. *)
Lemma object_type_tree (p : Pool) (t : nat) (last_ : ptr) (name kind : cstr)
    (views : list NodeView) (c : cliNode) :
  children_state p t (length (nodes p)) last_ views ->
  nodes p !! t = Some c -> n_name c = name -> n_kind c = kind -> n_firstProperty c = None ->
  node_tree p t (length (nodes p)) (mkNodeView name kind [] views).
Proof.
  intros (Hpar & Hhi & c' & l & Hc' & Hl & Hs & _) Hc Hn Hk Hp.
  rewrite Hc in Hc'. injection Hc' as <-.
  apply node_tree_unfold. split; [exact Hpar|]. exists c. split_all; auto.
  - rewrite Hp. apply property_list_null.
  - exists l. split; assumption.
Qed.

Lemma fresh_node_state (p : Pool) (c : cliNode) :
  n_firstChild c = None ->
  children_state (mkPool (values p) (properties p) (nodes p ++ [c]))
    (length (nodes p)) (S (length (nodes p))) None [].
Proof.
  intros Hc. split; [lia|]. split; [cbn; rewrite length_app; cbn; lia|].
  exists c, []. cbn [nodes]. split_all; [apply lookup_fresh | rewrite Hc; constructor | exact I | exact I].
Qed.

Lemma fresh_node_grows (p : Pool) (c : cliNode) :
  grows_from (length (nodes p)) p (mkPool (values p) (properties p) (nodes p ++ [c])).
Proof.
  split; [split; exists []; cbn; rewrite app_nil_r; reflexivity|].
  split; [cbn; rewrite length_app; lia|].
  intros x Hx. cbn. apply lookup_app_l. exact Hx.
Qed.

(** The outer loop of [GatherContextInfo]. *)
Lemma GatherContextInfo_types_builds (ctx : cl_context) (types : list ImageType) :
  forall p F hi last_ views,
    children_state p F hi last_ views ->
    (last_ = None -> views = []) ->
    match object_type_views drv ctx types with
    | inl news =>
        exists p' last',
          GatherContextInfo_types drv ctx F types last_ p = (Ok true, p', []) /\
          children_state p' F (length (nodes p')) last' (views ++ news) /\
          grows_from F p p' /\ parent_kept F p p'
    | inr d =>
        exists p',
          GatherContextInfo_types drv ctx F types last_ p = (Ok false, p', [d]) /\
          grows_from F p p'
    end.
Proof.
  induction types as [|t types IH]; intros p F hi last_ views Hstate Hnone.
  - cbn [object_type_views GatherContextInfo_types]. exists p, last_. rewrite app_nil_r.
    pose proof Hstate as (_ & Hhi & _). split_all.
    + reflexivity.
    + eapply children_state_mono; [exact Hhi | lia | exact Hstate].
    + apply grows_from_refl.
    + apply parent_kept_same. reflexivity.
  - cbn [object_type_views GatherContextInfo_types].
    pose proof Hstate as (Hpar & Hhi & _).
    rewrite bind_Allocate_cliNode.
    erewrite bind_store_node by (cbn [nodes]; apply lookup_fresh).
    cbn [values properties nodes]. rewrite insert_fresh.
    erewrite bind_store_node by (cbn [nodes]; apply lookup_fresh).
    cbn [values properties nodes]. rewrite insert_fresh.
    unfold zero_node, set_n_kind, set_n_name.
    cbn [n_name n_kind n_firstChild n_next n_firstProperty].
    set (cell := mkNode (Some "ObjectType") (Some (it_n t)) None None None).
    set (p1 := mkPool (values p) (properties p) (nodes p ++ [cell])).
    assert (grows_from (length (nodes p)) p p1) as Hgrow1 by apply fresh_node_grows.
    assert (children_state p1 F hi last_ views) as Hstate1.
    { eapply children_state_grows; [|exact Hstate]. eapply grows_from_le; [|exact Hgrow1]. lia. }
    destruct (clGetSupportedImageFormats drv ctx (it_type t) 0) as [[r n] w0].
    unfold NIV_SAFE_CL.
    destruct (r =? CL_SUCCESS)%Z.
    2:{ exists p1. split; [reflexivity|]. eapply grows_from_le; [|exact Hgrow1]. lia. }
    destruct (n =? 0)%nat.
    { specialize (IH p1 F hi last_ views Hstate1 Hnone).
      destruct (object_type_views drv ctx types) as [news | d].
      - destruct IH as (p' & last' & Hrun & Hstate' & Hgrow' & Hkept').
        exists p', last'. split_all; [exact Hrun | exact Hstate' | |].
        + eapply grows_from_trans; [|exact Hgrow']. eapply grows_from_le; [|exact Hgrow1]. lia.
        + eapply grows_from_parent_kept_trans; [|exact Hkept'].
          apply parent_kept_same. cbn. apply lookup_app_l. lia.
      - destruct IH as (p' & Hrun & Hgrow'). exists p'. split; [exact Hrun|].
        eapply grows_from_trans; [|exact Hgrow']. eapply grows_from_le; [|exact Hgrow1]. lia. }
    destruct (clGetSupportedImageFormats drv ctx (it_type t) n) as [[r2 n2] written].
    destruct (r2 =? CL_SUCCESS)%Z.
    2:{ exists p1. split; [reflexivity|]. eapply grows_from_le; [|exact Hgrow1]. lia. }
    set (formats := filled (mk_cl_image_format 0 0) n written).
    destruct (GatherContextInfo_formats_builds formats p1 (length (nodes p))
                (S (length (nodes p))) None [] (fresh_node_state p cell eq_refl)
                (fun _ => eq_refl))
      as (p2 & lastF & Hrun2 & Hstate2 & _ & Hgrow2 & Hkept2).
    cbn [app] in Hstate2.
    erewrite bind_Ok_nil; [|exact Hrun2].
    assert (children_state p2 F hi last_ views) as HstateF2.
    { eapply children_state_grows; [|exact Hstate1]. eapply grows_from_le; [|exact Hgrow2]. lia. }
    rewrite link_run.
    2:{ destruct last_ as [x|];
          [eapply children_state_last | eapply children_state_parent]; exact HstateF2. }
    destruct (Hkept2 cell) as (cell2 & Hcell2 & Hn2 & Hk2 & Hnext2 & Hprop2).
    { cbn. apply lookup_fresh. }
    pose proof Hstate2 as (_ & Hlen2 & _).
    destruct (linked_child_state p2 F hi (length (nodes p2)) (length (nodes p)) last_ views
                (mkNodeView (Some "ObjectType") (Some (it_n t)) [] (map format_view formats))
                cell2 HstateF2 Hhi)
      as (Hstate3 & Hgrow3 & Hkept3).
    { eapply object_type_tree; [exact Hstate2 | exact Hcell2 | | |]; assumption. }
    { lia. }
    { exact Hcell2. }
    { rewrite Hnext2. reflexivity. }
    specialize (IH _ F _ _ _ Hstate3 ltac:(discriminate)).
    assert (grows_from F p (linked_child F last_ (Some (length (nodes p))) p2)) as Hgrow03.
    { eapply grows_from_trans; [eapply grows_from_le; [|exact Hgrow1]; lia|].
      eapply grows_from_trans; [eapply grows_from_le; [|exact Hgrow2]; lia | exact Hgrow3]. }
    destruct (object_type_views drv ctx types) as [news | d].
    + destruct IH as (p' & last' & Hrun & Hstate' & Hgrow' & Hkept').
      exists p', last'. split_all.
      * exact Hrun.
      * destruct last_ as [x|].
        -- rewrite <- app_assoc in Hstate'. exact Hstate'.
        -- rewrite (Hnone eq_refl). exact Hstate'.
      * eapply grows_from_trans; [exact Hgrow03 | exact Hgrow'].
      * eapply grows_from_parent_kept_trans; [|exact Hkept'].
        eapply grows_from_parent_kept_trans; [|exact Hkept3].
        apply parent_kept_same. destruct Hgrow2 as (_ & _ & Hsame2).
        rewrite Hsame2 by lia. cbn. apply lookup_app_l. lia.
    + destruct IH as (p' & Hrun & Hgrow'). exists p'. split; [exact Hrun|].
      eapply grows_from_trans; [exact Hgrow03 | exact Hgrow'].
Qed.

Lemma grows_from_extended (p p' : Pool) :
  grows_from (length (nodes p)) p p' -> pool_extended p p'.
Proof.
  intros ((Hv & Hp) & Hlen & Hsame). split; [exact Hv|]. split; [exact Hp|].
  exists (drop (length (nodes p)) (nodes p')).
  rewrite <- (take_drop (length (nodes p)) (nodes p')) at 1. f_equal.
  apply list_eq. intros x. destruct (decide (x < length (nodes p))) as [Hx | Hx].
  - rewrite lookup_take_lt by exact Hx. apply Hsame. exact Hx.
  - rewrite lookup_take_ge by lia. symmetry. apply lookup_ge_None. lia.
Qed.

Lemma GatherContextInfo_builds (ctx : cl_context) (clVersion : Version) (p : Pool) :
  match object_type_views drv ctx (image_types clVersion) with
  | inl views =>
      exists p',
        GatherContextInfo drv ctx clVersion p = (Ok (Some (length (nodes p))), p', []) /\
        node_tree p' (length (nodes p)) (length (nodes p'))
          (mkNodeView (Some "ImageFormats") None [] views) /\
        (exists c, nodes p' !! length (nodes p) = Some c /\ n_next c = None) /\
        grows_from (length (nodes p)) p p'
  | inr d =>
      exists p',
        GatherContextInfo drv ctx clVersion p = (Ok None, p', [d]) /\
        grows_from (length (nodes p)) p p'
  end.
Proof.
  unfold GatherContextInfo.
  assert ((if Version_ge clVersion (mkVersion 1 2) then types_CL_1_0 ++ types_CL_1_2
           else types_CL_1_0) = image_types clVersion) as -> by reflexivity.
  rewrite bind_Allocate_cliNode.
  erewrite bind_store_node by (cbn [nodes]; apply lookup_fresh).
  cbn [values properties nodes]. rewrite insert_fresh.
  unfold zero_node, set_n_name. cbn [n_name n_kind n_firstChild n_next n_firstProperty].
  set (cell := mkNode (Some "ImageFormats") None None None None).
  set (p1 := mkPool (values p) (properties p) (nodes p ++ [cell])).
  pose proof (GatherContextInfo_types_builds ctx (image_types clVersion) p1
                (length (nodes p)) (S (length (nodes p))) None []
                (fresh_node_state p cell eq_refl) (fun _ => eq_refl)) as Hloop.
  destruct (object_type_views drv ctx (image_types clVersion)) as [views | d].
  - destruct Hloop as (p' & last' & Hrun & Hstate & Hgrow & Hkept).
    cbn [app] in Hstate. exists p'.
    erewrite bind_Ok_nil; [|exact Hrun]. split; [reflexivity|].
    destruct (Hkept cell) as (cell' & Hcell' & Hn & Hk & Hnext & Hprop).
    { cbn. apply lookup_fresh. }
    split_all.
    + eapply object_type_tree; [exact Hstate | exact Hcell' | | |]; assumption.
    + exists cell'. split; [exact Hcell' | rewrite Hnext; reflexivity].
    + eapply grows_from_trans; [apply fresh_node_grows | exact Hgrow].
  - destruct Hloop as (p' & Hrun & Hgrow). exists p'.
    erewrite bind_Ok; [|exact Hrun]. split; [reflexivity|].
    eapply grows_from_trans; [apply fresh_node_grows | exact Hgrow].
Qed.

(** X20. [GatherContextInfo] always returns.  When every query of
    [clGetSupportedImageFormats] succeeds it returns a new node
    [ImageFormats] without properties whose children are, in the order
    of the image types asked for (three, and three more from version
    1.2 on), one node [ObjectType] per image type with at least one
    format, of the kind of the image type and without properties; the
    children of such a node are the formats in the order of the
    driver, each a node [Format] with the string properties
    [ChannelOrder] and [ChannelDataType].  An image type without
    formats has no node in the tree.  When a query fails it writes the
    line of this query and returns the null pointer.  In both cases
    the cells that were in the pool are unchanged. *)
Theorem GatherContextInfo_image_formats (ctx : cl_context) (clVersion : Version) (p : Pool) :
  match object_type_views drv ctx (image_types clVersion) with
  | inl views =>
      exists p',
        GatherContextInfo drv ctx clVersion p = (Ok (Some (length (nodes p))), p', []) /\
        read_node p' (length (nodes p))
          = Some (mkNodeView (Some "ImageFormats") None [] views) /\
        pool_extended p p'
  | inr d =>
      exists p',
        GatherContextInfo drv ctx clVersion p = (Ok None, p', [d]) /\
        pool_extended p p'
  end.
Proof.
  pose proof (GatherContextInfo_builds ctx clVersion p) as H.
  destruct (object_type_views drv ctx (image_types clVersion)) as [views | d].
  - destruct H as (p' & Hrun & Htree & _ & Hgrow). exists p'. split_all.
    + exact Hrun.
    + eapply read_node_tree. exact Htree.
    + apply grows_from_extended. exact Hgrow.
  - destruct H as (p' & Hrun & Hgrow). exists p'. split; [exact Hrun|].
    apply grows_from_extended. exact Hgrow.
Qed.

End ContextInfo.

(** ** [GatherDeviceInfo] *)

Section PopulateFresh.
Context {hdr : cl_h} {O I : Type} (f : GetInfoFunction O I) (clObject : O).

(** [GetProperties] leaves the property cells below the list it
    extends alone. *)
Lemma GetProperties_loop_above (node : nat) (container : list (PropertyFetcher I)) :
  (forall entry, entry ∈ container ->
                 fetch_returns (GetValue f clObject (info entry) (cf entry))) ->
  forall p lastProperty l ps base p' d,
    populating node p lastProperty l ps ->
    base <= length (properties p) ->
    match lastProperty with Some b => base <= b | None => True end ->
    GetProperties_loop node f clObject container lastProperty p = (Ok tt, p', d) ->
    take base (properties p') = take base (properties p).
Proof.
  induction container as [|entry container IH];
    intros Hfetch p lastProperty l ps base p' d0 Hpop Hbase Hlast Hrun.
  - cbn in Hrun. injection Hrun as <- _. reflexivity.
  - cbn [GetProperties_loop] in Hrun. rewrite Allocate_store_property in Hrun.
    set (a := length (properties p)) in *.
    set (p2 := mkPool (values p)
                 (properties p ++ [mkProperty None (n entry) (h entry) None (type entry)])
                 (nodes p)) in *.
    destruct (Hfetch entry (list_elem_of_here _ _) p2)
      as (v & p3 & d & us & Hget & Hgrow & Hus).
    erewrite bind_Ok in Hrun; [|exact Hget].
    destruct Hgrow as ([ext Hext] & Hprops3 & Hnodes3).
    cbn [properties nodes values p2] in Hprops3, Hnodes3, Hext.
    destruct (linked_populating node p p3 ext (n entry) (h entry) (type entry) v us
                l ps lastProperty Hpop Hext Hprops3 Hnodes3 Hus) as (Hpop5 & Hframe5).
    fold a in Hpop5, Hframe5.
    rewrite store_link_run in Hrun.
    + destruct (GetProperties_loop node f clObject container (Some a)
                  (linked node a v lastProperty p3)) as [[r p4] d4] eqn:Hrec.
      injection Hrun as -> -> _.
      assert (take base (properties (linked node a v lastProperty p3))
              = take base (properties p)) as Hlinked.
      { unfold linked. destruct lastProperty as [b|]; cbn [properties].
        - rewrite !take_alter_ge by lia. rewrite Hprops3. apply take_app_le. exact Hbase.
        - rewrite take_alter_ge by lia. rewrite Hprops3. apply take_app_le. exact Hbase. }
      rewrite <- Hlinked.
      eapply (IH (fun e He => Hfetch e (list_elem_of_further _ _ _ He)));
        [exact Hpop5 | | | exact Hrec].
      * unfold linked. destruct lastProperty as [b|]; cbn [properties];
          rewrite ?length_alter, Hprops3, length_app; lia.
      * cbn. exact Hbase.
    + rewrite Hprops3. eexists. apply lookup_fresh.
    + destruct Hpop as ((cn & Hcn & Hchain) & _ & Hl). destruct lastProperty as [b|].
      * destruct (chain_last _ _ _ _ _ Hchain Hl) as (cb & Hb & _).
        rewrite Hprops3. exists cb. apply lookup_app_l_Some. exact Hb.
      * rewrite Hnodes3. exists cn. exact Hcn.
Qed.

(** [GetProperties] on a node that has no property yet: the node gets
    a property list, and nothing else changes but for new cells. *)
Lemma GetProperties_fresh (node : nat) (container : list (PropertyFetcher I))
    (p : Pool) (c : cliNode) :
  nodes p !! node = Some c -> n_firstProperty c = None ->
  (forall entry, entry ∈ container ->
                 fetch_returns (GetValue f clObject (info entry) (cf entry))) ->
  exists p' d news c',
    GetProperties node f clObject container p = (Ok tt, p', d) /\
    Forall2 (built_by f clObject) container news /\
    nodes p' !! node = Some c' /\
    property_list p' (n_firstProperty c') news /\
    n_name c' = n_name c /\ n_kind c' = n_kind c /\
    n_firstChild c' = n_firstChild c /\ n_next c' = n_next c /\
    cells_kept p p' /\
    length (nodes p') = length (nodes p) /\
    (forall x, x <> node -> nodes p' !! x = nodes p !! x).
Proof.
  intros Hc Hnone Hfetch.
  assert (node_properties p node []) as Hnode.
  { exists c. split; [exact Hc|]. rewrite Hnone. exists []. split; constructor. }
  destruct (GetProperties_appends f clObject node container p [] Hnode Hfetch)
    as (p' & d & news & Hrun & (c' & Hc' & Hlist) & Hbuilt & (Hvals & Hlen & Hother & Hsame)).
  destruct (Hsame c Hc) as (c2 & Hc2 & Hn & Hk & Hchild & Hnext).
  rewrite Hc' in Hc2. injection Hc2 as <-.
  exists p', d, news, c'. split_all; auto.
  split; [exact Hvals|].
  pose proof Hrun as Hrun'. unfold GetProperties in Hrun'.
  erewrite bind_Ok in Hrun'; [|unfold load_node; rewrite Hc; reflexivity].
  erewrite bind_Ok in Hrun'; [|reflexivity].
  rewrite Hnone in Hrun'.
  assert (skip_to_last (length (properties p)) None p = (Ok None, p, [])) as Hskip
      by (destruct (length (properties p)); reflexivity).
  erewrite bind_Ok in Hrun'; [|exact Hskip].
  cbn [app] in Hrun'.
  destruct (GetProperties_loop node f clObject container None p) as [[r p4] d4] eqn:Hloop.
  injection Hrun' as -> -> _.
  assert (populating node p None [] []) as Hpop.
  { unfold populating. split_all; [|constructor | reflexivity].
    exists c. split; [exact Hc|]. rewrite Hnone. constructor. }
  pose proof (GetProperties_loop_above node container Hfetch p None [] []
                (length (properties p)) p' d4 Hpop ltac:(lia) Logic.I Hloop) as Htake.
  rewrite (take_ge (properties p)) in Htake by lia.
  exists (drop (length (properties p)) (properties p')).
  rewrite <- (take_drop (length (properties p)) (properties p')) at 1.
  rewrite Htake. reflexivity.
Qed.

End PopulateFresh.

Lemma c_str_terminated (buffer : list ascii) : is_Some (c_str (buffer ++ [NUL])).
Proof.
  induction buffer as [|c buffer [text IH]]; cbn; [eauto|].
  destruct (Ascii.eqb c NUL); [eauto|]. rewrite IH. eauto.
Qed.

Lemma store_node_run (a : nat) (f : cliNode -> cliNode) (c : cliNode) (p : Pool) :
  nodes p !! a = Some c ->
  store_node a f p = (Ok tt, mkPool (values p) (properties p) (<[a := f c]> (nodes p)), []).
Proof. intros Hc. unfold store_node. rewrite Hc. reflexivity. Qed.

Section DeviceInfo.
Context {hdr : cl_h} (drv : Driver).

(** A version query that fails: the line of the query is written, the
    null pointer is returned, and the node allocated first stays in
    the pool. *)
Lemma GatherDeviceInfo_version_fails (id : cl_device_id) (p : Pool) (line : Diag) :
  device_version_text drv id = inr line ->
  GatherDeviceInfo drv id p
    = (Ok None,
       mkPool (values p) (properties p)
         (nodes p ++ [mkNode (Some "Device") None None None None]),
       [line]).
Proof.
  unfold device_version_text, GatherDeviceInfo. intros Hline.
  rewrite bind_Allocate_cliNode.
  erewrite bind_store_node by (cbn [nodes]; apply lookup_fresh).
  cbn [values properties nodes]. rewrite insert_fresh.
  unfold zero_node, set_n_name. cbn [n_name n_kind n_firstChild n_next n_firstProperty].
  destruct (clGetDeviceInfo drv id "CL_DEVICE_VERSION" 0) as [[r versionSize] w0].
  unfold NIV_SAFE_CL.
  destruct (r =? CL_SUCCESS)%Z.
  2:{ injection Hline as <-. reflexivity. }
  destruct (clGetDeviceInfo drv id "CL_DEVICE_VERSION" versionSize) as [[r2 size2] written].
  destruct (r2 =? CL_SUCCESS)%Z; [discriminate|].
  injection Hline as <-. reflexivity.
Qed.

Lemma GatherDeviceInfo_builds (id : cl_device_id) (p : Pool) :
  device_answers drv id ->
  exists p' d result,
    GatherDeviceInfo drv id p
      = (Ok (match result with Some _ => Some (length (nodes p)) | None => None end), p', d) /\
    device_gathered drv id result /\
    (forall v, result = Some v ->
       node_tree p' (length (nodes p)) (length (nodes p')) v /\
       exists c, nodes p' !! length (nodes p) = Some c /\ n_next c = None) /\
    grows_from (length (nodes p)) p p'.
Proof.
  unfold device_answers, device_gathered, device_version_text, GatherDeviceInfo.
  intros Hanswers.
  rewrite bind_Allocate_cliNode.
  erewrite bind_store_node by (cbn [nodes]; apply lookup_fresh).
  cbn [values properties nodes]. rewrite insert_fresh.
  unfold zero_node, set_n_name. cbn [n_name n_kind n_firstChild n_next n_firstProperty].
  set (D := length (nodes p)).
  set (cell := mkNode (Some "Device") None None None None).
  set (p1 := mkPool (values p) (properties p) (nodes p ++ [cell])).
  assert (grows_from D p p1) as Hgrow1 by apply fresh_node_grows.
  destruct (clGetDeviceInfo drv id "CL_DEVICE_VERSION" 0) as [[r versionSize] w0].
  unfold NIV_SAFE_CL.
  destruct (r =? CL_SUCCESS)%Z.
  2:{ exists p1, [Failed "clGetDeviceInfo (id, CL_DEVICE_VERSION, 0, nullptr, &versionSize)" r],
        None.
      split_all; [reflexivity | reflexivity | discriminate | exact Hgrow1]. }
  destruct (clGetDeviceInfo drv id "CL_DEVICE_VERSION" versionSize) as [[r2 size2] written].
  destruct (r2 =? CL_SUCCESS)%Z.
  2:{ eexists p1, _, None.
      split_all; [reflexivity | reflexivity | discriminate | exact Hgrow1]. }
  destruct (c_str_terminated (filled NUL versionSize written)) as [text Htext].
  rewrite Htext in *. cbn [default from_option] in Hanswers |- *.
  unfold Datatypes.id in Hanswers |- *.
  destruct Hanswers as (version & Hparse & Hfetch). rewrite Hparse.
  destruct (GetProperties_fresh (clGetDeviceInfo drv) id D (propertiesToFetch version) p1 cell)
    as (p2 & d2 & news & c2 & Hrun2 & Hbuilt & Hc2 & Hlist2 & Hn2 & Hk2 & Hchild2 & Hnext2
        & Hcells2 & Hlen2 & Hother2).
  { cbn. apply lookup_fresh. }
  { reflexivity. }
  { exact Hfetch. }
  erewrite bind_Ok; [|exact Hrun2].
  assert (grows_from D p1 p2) as Hgrow2.
  { split; [exact Hcells2|]. split; [lia|]. intros x Hx. apply Hother2. lia. }
  assert (length (nodes p1) = S D) as Hlen1 by (cbn; rewrite length_app; cbn; lia).
  unfold device_children.
  destruct (clCreateContext drv id) as [res ctx].
  destruct (res =? CL_SUCCESS)%Z.
  - pose proof (GatherContextInfo_builds drv ctx version p2) as Hctx.
    destruct (object_type_views drv ctx (image_types version)) as [views | dctx] eqn:Hviews.
    + destruct Hctx as (p3 & Hrun3 & Htree3 & (cF & HcF & HnextF) & Hgrow3).
      erewrite bind_Ok.
      2:{ erewrite bind_Ok_nil; [|exact Hrun3]. apply store_node_run.
          destruct Hgrow3 as (_ & _ & Hsame3). rewrite Hsame3 by lia. exact Hc2. }
      cbn [ret app].
      set (p4 := mkPool (values p3) (properties p3)
                   (<[D := set_n_firstChild (Some (length (nodes p2))) c2]> (nodes p3))).
      eexists p4, _, (Some (mkNodeView (Some "Device") None news
                                      [mkNodeView (Some "ImageFormats") None [] views])).
      pose proof Hgrow3 as (Hcells3 & Hlen3 & Hsame3).
      assert (D < length (nodes p2)) as HD by lia.
      assert (cells_kept p3 p4) as Hcells4
          by (split; exists []; cbn; rewrite app_nil_r; reflexivity).
      split_all.
      * reflexivity.
      * exists version, news. split_all; auto. rewrite Hviews. reflexivity.
      * intros v [= <-]. split.
        -- apply node_tree_unfold. split; [cbn; rewrite length_insert; lia|].
           exists (set_n_firstChild (Some (length (nodes p2))) c2). cbn [nodes p4].
           split_all.
           ++ apply list_lookup_insert_eq. lia.
           ++ cbn. rewrite Hn2. reflexivity.
           ++ cbn. rewrite Hk2. reflexivity.
           ++ cbn [n_firstProperty set_n_firstChild].
              eapply property_list_kept; [exact Hcells4|].
              eapply property_list_kept; [exact Hcells3 | exact Hlist2].
           ++ exists [length (nodes p2)]. cbn [n_firstChild set_n_firstChild]. split.
              ** econstructor; [rewrite list_lookup_insert_ne by lia; exact HcF|].
                 rewrite HnextF. constructor.
              ** cbn [sibling_trees]. split; [lia|]. split; [|exact Logic.I].
                 rewrite length_insert.
                 eapply node_tree_frame; [exact Hcells4 | | | exact Htree3].
                 --- intros c0 Hc0. exists c0. cbn [nodes p4].
                     rewrite list_lookup_insert_ne by lia. auto.
                 --- intros x Hx. cbn [nodes p4]. apply list_lookup_insert_ne. lia.
        -- exists (set_n_firstChild (Some (length (nodes p2))) c2). cbn [nodes p4]. split.
           ++ apply list_lookup_insert_eq. lia.
           ++ cbn. rewrite Hnext2. reflexivity.
      * eapply grows_from_trans; [exact Hgrow1|].
        eapply grows_from_trans; [exact Hgrow2|].
        eapply grows_from_trans; [eapply grows_from_le; [|exact Hgrow3]; lia|].
        split; [exact Hcells4|]. split; [cbn; rewrite length_insert; lia|].
        intros x Hx. cbn. apply list_lookup_insert_ne. lia.
    + destruct Hctx as (p3 & Hrun3 & Hgrow3).
      erewrite bind_Ok.
      2:{ erewrite bind_Ok; [|exact Hrun3]. erewrite store_node_run; [reflexivity|].
          destruct Hgrow3 as (_ & _ & Hsame3). rewrite Hsame3 by lia. exact Hc2. }
      cbn [ret app].
      set (p4 := mkPool (values p3) (properties p3)
                   (<[D := set_n_firstChild None c2]> (nodes p3))).
      eexists p4, _, (Some (mkNodeView (Some "Device") None news [])).
      pose proof Hgrow3 as (Hcells3 & Hlen3 & Hsame3).
      assert (D < length (nodes p2)) as HD by lia.
      assert (cells_kept p3 p4) as Hcells4
          by (split; exists []; cbn; rewrite app_nil_r; reflexivity).
      split_all.
      * reflexivity.
      * exists version, news. split_all; auto. rewrite Hviews. reflexivity.
      * intros v [= <-]. split.
        -- apply node_tree_unfold. split; [cbn; rewrite length_insert; lia|].
           exists (set_n_firstChild None c2). cbn [nodes p4].
           split_all.
           ++ apply list_lookup_insert_eq. lia.
           ++ cbn. rewrite Hn2. reflexivity.
           ++ cbn. rewrite Hk2. reflexivity.
           ++ cbn [n_firstProperty set_n_firstChild].
              eapply property_list_kept; [exact Hcells4|].
              eapply property_list_kept; [exact Hcells3 | exact Hlist2].
           ++ exists []. cbn [n_firstChild set_n_firstChild]. split; [constructor | exact Logic.I].
        -- exists (set_n_firstChild None c2). cbn [nodes p4]. split.
           ++ apply list_lookup_insert_eq. lia.
           ++ cbn. rewrite Hnext2. reflexivity.
      * eapply grows_from_trans; [exact Hgrow1|].
        eapply grows_from_trans; [exact Hgrow2|].
        eapply grows_from_trans; [eapply grows_from_le; [|exact Hgrow3]; lia|].
        split; [exact Hcells4|]. split; [cbn; rewrite length_insert; lia|].
        intros x Hx. cbn. apply list_lookup_insert_ne. lia.
  - rewrite bind_ret. cbn [ret].
    eexists p2, _, (Some (mkNodeView (Some "Device") None news [])).
    split_all.
    + reflexivity.
    + exists version, news. split_all; auto; reflexivity.
    + intros v [= <-]. split.
      * apply node_tree_unfold. split; [lia|].
        exists c2. split_all; auto.
        exists []. rewrite Hchild2. split; [constructor | exact Logic.I].
      * exists c2. split; [exact Hc2 | rewrite Hnext2; reflexivity].
    + eapply grows_from_trans; [exact Hgrow1 | exact Hgrow2].
Qed.

End DeviceInfo.

(** ** [GatherOpenCLInfo] *)

(** Linking the null pointer. *)
Lemma linked_child_null (p : Pool) (parent hi : nat) (last_ : ptr) (views : list NodeView) :
  children_state p parent hi last_ views ->
  children_state (linked_child parent last_ None p) parent hi None
    (match last_ with Some _ => views | None => [] end) /\
  grows_from parent p (linked_child parent last_ None p) /\
  parent_kept parent p (linked_child parent last_ None p).
Proof.
  intros (Hpar & Hhi & c & l & Hc & Hl & Hs & Hlast).
  assert (cells_kept p (linked_child parent last_ None p)) as Hcells
      by (unfold linked_child; split; exists []; cbn; rewrite app_nil_r; reflexivity).
  destruct last_ as [x|].
  - destruct (chain_last _ _ _ _ _ Hl Hlast) as (cx & Hx & Hxnext).
    assert (nodes (linked_child parent (Some x) None p) = nodes p) as Hsame.
    { unfold linked_child. cbn [nodes]. rewrite (alter_insert _ _ _ cx Hx).
      apply list_insert_id. rewrite Hx. f_equal.
      destruct cx. cbn in *. subst. reflexivity. }
    split; [|split].
    + split; [exact Hpar|]. split; [rewrite Hsame; exact Hhi|].
      exists c, l. rewrite Hsame. split_all; auto.
      eapply sibling_trees_frame; [exact Hcells | | | exact Hs].
      * intros y _ _. rewrite Hsame. reflexivity.
      * intros y _ c0 Hc0. exists c0. rewrite Hsame. auto.
    + split; [exact Hcells|]. split; [rewrite Hsame; lia|].
      intros y _. rewrite Hsame. reflexivity.
    + apply parent_kept_same. rewrite Hsame. reflexivity.
  - unfold linked_child in *. rewrite (alter_insert _ _ _ c Hc) in *.
    split; [|split].
    + split; [exact Hpar|]. split; [cbn; rewrite length_insert; exact Hhi|].
      exists (set_n_firstChild None c), []. cbn [nodes]. split_all.
      * apply list_lookup_insert_eq. eapply lookup_lt_Some. exact Hc.
      * constructor.
      * exact Logic.I.
      * exact Logic.I.
    + split; [exact Hcells|]. split; [cbn; rewrite length_insert; lia|].
      intros y Hy. cbn. apply list_lookup_insert_ne. lia.
    + intros c0 Hc0. rewrite Hc in Hc0. injection Hc0 as <-.
      eexists. cbn [nodes].
      split; [apply list_lookup_insert_eq; eapply lookup_lt_Some; exact Hc|]. cbn. auto.
Qed.

Section OpenCLInfo.
Context {hdr : cl_h} (drv : Driver).

(** The loop over the devices of a platform. *)
Lemma GatherOpenCLInfo_devices_builds (deviceIds : list cl_device_id) :
  Forall (device_answers drv) deviceIds ->
  forall p N hi last_ views,
    children_state p N hi last_ views ->
    exists p' d results last',
      GatherOpenCLInfo_devices drv N deviceIds last_ p = (Ok tt, p', d) /\
      Forall2 (device_gathered drv) deviceIds results /\
      children_state p' N (length (nodes p')) last'
        (fst (fold_left link_result results
                (views, match last_ with Some _ => true | None => false end))) /\
      grows_from N p p' /\ parent_kept N p p'.
Proof.
  induction 1 as [|id deviceIds Hid _ IH]; intros p N hi last_ views Hstate.
  - exists p, [], [], last_. cbn [GatherOpenCLInfo_devices fold_left fst].
    pose proof Hstate as (_ & Hhi & _). split_all.
    + reflexivity.
    + constructor.
    + eapply children_state_mono; [exact Hhi | lia | exact Hstate].
    + apply grows_from_refl.
    + apply parent_kept_same. reflexivity.
  - cbn [GatherOpenCLInfo_devices].
    pose proof Hstate as (Hpar & Hhi & _).
    destruct (GatherDeviceInfo_builds drv id p Hid)
      as (p1 & d1 & result & Hrun1 & Hgathered & Htree & Hgrow1).
    erewrite bind_Ok; [|exact Hrun1].
    assert (children_state p1 N hi last_ views) as Hstate1.
    { eapply children_state_grows; [|exact Hstate]. eapply grows_from_le; [|exact Hgrow1]. lia. }
    rewrite link_run.
    2:{ destruct last_ as [x|];
          [eapply children_state_last | eapply children_state_parent]; exact Hstate1. }
    destruct result as [v|].
    + destruct (Htree v eq_refl) as (Hv & cv & Hcv & Hnext).
      destruct (linked_child_state p1 N hi (length (nodes p1)) (length (nodes p)) last_ views
                  v cv Hstate1 Hhi Hv ltac:(lia) Hcv Hnext)
        as (Hstate2 & Hgrow2 & Hkept2).
      destruct (IH _ _ _ _ _ Hstate2) as (p' & d' & results & last' & Hrun & Hall & Hstate' & Hgrow' & Hkept').
      rewrite Hrun. eexists p', _, (Some v :: results), last'. split_all.
      * reflexivity.
      * constructor; assumption.
      * cbn [fold_left]. unfold link_result at 2. cbn [fst snd].
        destruct last_ as [x|]; exact Hstate'.
      * eapply grows_from_trans; [eapply grows_from_le; [|exact Hgrow1]; lia|].
        eapply grows_from_trans; [exact Hgrow2 | exact Hgrow'].
      * eapply grows_from_parent_kept_trans; [|eapply grows_from_parent_kept_trans;
                                                [exact Hkept2 | exact Hkept']].
        apply parent_kept_same. destruct Hgrow1 as (_ & _ & Hsame1). apply Hsame1. lia.
    + destruct (linked_child_null p1 N hi last_ views Hstate1) as (Hstate2 & Hgrow2 & Hkept2).
      destruct (IH _ _ _ _ _ Hstate2) as (p' & d' & results & last' & Hrun & Hall & Hstate' & Hgrow' & Hkept').
      rewrite Hrun. eexists p', _, (None :: results), last'. split_all.
      * reflexivity.
      * constructor; assumption.
      * cbn [fold_left]. unfold link_result at 2. cbn [fst snd].
        destruct last_ as [x|]; exact Hstate'.
      * eapply grows_from_trans; [eapply grows_from_le; [|exact Hgrow1]; lia|].
        eapply grows_from_trans; [exact Hgrow2 | exact Hgrow'].
      * eapply grows_from_parent_kept_trans; [|eapply grows_from_parent_kept_trans;
                                                [exact Hkept2 | exact Hkept']].
        apply parent_kept_same. destruct Hgrow1 as (_ & _ & Hsame1). apply Hsame1. lia.
Qed.

End OpenCLInfo.

Lemma chain_keeps_links {T} (next : T -> ptr) (h h' : list T) (q : ptr) (l : list nat) :
  chain next h q l ->
  (forall x c, x ∈ l -> h !! x = Some c -> exists c', h' !! x = Some c' /\ next c' = next c) ->
  chain next h' q l.
Proof.
  induction 1 as [|a c l Ha _ IH]; intros Hsame; [constructor|].
  destruct (Hsame a c (list_elem_of_here _ _) Ha) as (c' & Ha' & Hnext).
  econstructor; [exact Ha'|]. rewrite Hnext. apply IH.
  intros x c0 Hx. apply Hsame. apply list_elem_of_further. exact Hx.
Qed.

Lemma sibling_trees_snoc_inv (T : nat -> nat -> NodeView -> Prop) (views : list NodeView) :
  forall lo hi l0 P v,
    length l0 = length views ->
    sibling_trees T lo hi (l0 ++ [P]) (views ++ [v]) ->
    sibling_trees T lo P l0 views.
Proof.
  induction views as [|v0 views IH]; intros lo hi l0 P v Hlen Hs;
    destruct l0 as [|a' l0']; cbn in Hlen; try discriminate; [exact Logic.I|].
  cbn [app sibling_trees] in Hs |- *. destruct Hs as (Ha & Ht & Hrest).
  split; [exact Ha|]. split.
  - destruct l0' as [|b l0'']; exact Ht.
  - eapply IH; [|exact Hrest]. lia.
Qed.

(** The subtree of the child linked last may change. *)
Lemma children_state_update_last (p p' : Pool) (R hi hi' P : nat)
    (views : list NodeView) (v v' : NodeView) :
  children_state p R hi (Some P) (views ++ [v]) ->
  grows_from P p p' ->
  (exists c', nodes p' !! P = Some c' /\ n_next c' = None) ->
  node_tree p' P hi' v' -> hi' <= length (nodes p') ->
  children_state p' R hi' (Some P) (views ++ [v']).
Proof.
  intros (Hpar & Hhi & c & l & Hc & Hl & Hs & Hlast) (Hcells & Hlen & Hsame)
    (cP' & HcP' & HnextP') Htree Hhi'.
  apply last_Some in Hlast as [l0 ->].
  pose proof (sibling_trees_length _ _ _ _ _ Hs) as Hlength.
  rewrite !length_app in Hlength. cbn in Hlength.
  pose proof (sibling_trees_bounds _ (node_tree_lt p) _ _ _ _ Hs) as Hbounds.
  rewrite Forall_forall in Hbounds.
  assert (R < P < hi) as HP by (apply Hbounds; apply elem_of_app; right; apply list_elem_of_here).
  apply sibling_trees_snoc_inv in Hs as Hs0; [|lia].
  pose proof (sibling_trees_bounds _ (node_tree_lt p) _ _ _ _ Hs0) as Hbounds0.
  rewrite Forall_forall in Hbounds0.
  pose proof (node_tree_lt _ _ _ _ Htree) as HPhi.
  split; [lia|]. split; [exact Hhi'|]. exists c, (l0 ++ [P]). split_all.
  - rewrite Hsame by lia. exact Hc.
  - eapply chain_keeps_links; [exact Hl|].
    intros x c0 Hx Hc0. apply elem_of_app in Hx as [Hx | Hx].
    + exists c0. rewrite Hsame by (apply Hbounds0; exact Hx). auto.
    + apply list_elem_of_singleton in Hx as ->.
      destruct (chain_last _ _ _ _ _ Hl (last_snoc _ _)) as (cP & HcP & HnextP).
      rewrite HcP in Hc0. injection Hc0 as <-.
      exists cP'. split; [exact HcP' | congruence].
  - apply (sibling_trees_snoc _ _ (fun a b b' v0 Hb => node_tree_mono _ v0 a b b' Hb)
             (node_tree_lt _) R P hi'); [| lia | lia | exact Htree].
    eapply sibling_trees_frame; [exact Hcells | | | exact Hs0].
    + intros y Hy _. apply Hsame. lia.
    + intros y Hy c0 Hc0. exists c0. rewrite Hsame by (apply Hbounds0; exact Hy). auto.
  - apply last_snoc.
Qed.

Section OpenCLInfoPlatforms.
Context {hdr : cl_h} (drv : Driver).

Lemma store_grows (base a : nat) (f : cliNode -> cliNode) (p : Pool) :
  base <= a ->
  grows_from base p (mkPool (values p) (properties p) (alter f a (nodes p))).
Proof.
  intros Ha. split; [split; exists []; cbn; rewrite app_nil_r; reflexivity|].
  split; [cbn; rewrite length_alter; lia|].
  intros x Hx. cbn. apply list_lookup_alter_ne. lia.
Qed.

(** The body of the loop over the platforms behind the code that links
    the node of the platform: it fills the node at [P], the last node
    of the pool, which has no link yet. *)
Lemma platform_node_builds (platformId : cl_platform_id) (P : nat) (p : Pool) :
  platform_answers drv platformId ->
  nodes p !! P = Some zero_node -> P < length (nodes p) ->
  forall (k : M bool),
  match platform_devices drv platformId with
  | inl _ =>
      exists p' d view cP,
        (forall r pk dk, k p' = (r, pk, dk) ->
           (store_node P (set_n_name (Some "Platform")) ;;;
            GetProperties P (clGetPlatformInfo drv) platformId infos ;;;
            let '(r, numDevices, _) := clGetDeviceIDs drv platformId 0 in
            NIV_SAFE_CL
              "clGetDeviceIDs (platformId, CL_DEVICE_TYPE_ALL, 0, nullptr, &numDevices)" r false
              (let '(r, _, written) := clGetDeviceIDs drv platformId numDevices in
               let deviceIds := filled 0%Z numDevices written in
               NIV_SAFE_CL
                 "clGetDeviceIDs (platformId, CL_DEVICE_TYPE_ALL, numDevices, deviceIds.data (), 0)"
                 r false
                 (devicesNode <- Allocate_cliNode ;;
                  store_node devicesNode (set_n_name (Some "Devices")) ;;;
                  store_node P (set_n_firstChild (Some devicesNode)) ;;;
                  GatherOpenCLInfo_devices drv devicesNode deviceIds None ;;;
                  k))) p = (r, pk, d ++ dk)) /\
        platform_gathered drv platformId view /\
        node_tree p' P (length (nodes p')) view /\
        nodes p' !! P = Some cP /\ n_next cP = None /\
        grows_from P p p'
  | inr dfail =>
      exists p' d,
        (store_node P (set_n_name (Some "Platform")) ;;;
         GetProperties P (clGetPlatformInfo drv) platformId infos ;;;
         let '(r, numDevices, _) := clGetDeviceIDs drv platformId 0 in
         NIV_SAFE_CL
           "clGetDeviceIDs (platformId, CL_DEVICE_TYPE_ALL, 0, nullptr, &numDevices)" r false
           (let '(r, _, written) := clGetDeviceIDs drv platformId numDevices in
            let deviceIds := filled 0%Z numDevices written in
            NIV_SAFE_CL
              "clGetDeviceIDs (platformId, CL_DEVICE_TYPE_ALL, numDevices, deviceIds.data (), 0)"
              r false
              (devicesNode <- Allocate_cliNode ;;
               store_node devicesNode (set_n_name (Some "Devices")) ;;;
               store_node P (set_n_firstChild (Some devicesNode)) ;;;
               GatherOpenCLInfo_devices drv devicesNode deviceIds None ;;;
               k))) p = (Ok false, p', d ++ [dfail]) /\
        grows_from P p p'
  end.
Proof.
  intros (Hinfos & Hdevices) HP Hlt k.
  unfold platform_gathered.
  assert (
    exists p4 d4 news c4,
      (forall (m : M bool) r pk dk, m p4 = (r, pk, dk) ->
         (store_node P (set_n_name (Some "Platform")) ;;;
          GetProperties P (clGetPlatformInfo drv) platformId infos ;;; m) p
         = (r, pk, d4 ++ dk)) /\
      Forall2 (built_by (clGetPlatformInfo drv) platformId) infos news /\
      nodes p4 !! P = Some c4 /\
      property_list p4 (n_firstProperty c4) news /\
      n_name c4 = Some "Platform" /\ n_kind c4 = None /\
      n_firstChild c4 = None /\ n_next c4 = None /\
      length (nodes p4) = length (nodes p) /\
      grows_from P p p4) as Hprops.
  { set (p3 := mkPool (values p) (properties p)
                 (<[P := set_n_name (Some "Platform") zero_node]> (nodes p))).
    destruct (GetProperties_fresh (clGetPlatformInfo drv) platformId P infos p3
                (set_n_name (Some "Platform") zero_node))
      as (p4 & d4 & news & c4 & Hrun4 & Hbuilt & Hc4 & Hlist4 & Hn4 & Hk4 & Hchild4 & Hnext4
          & Hcells4 & Hlen4 & Hother4).
    { cbn. apply list_lookup_insert_eq. exact Hlt. }
    { reflexivity. }
    { exact Hinfos. }
    exists p4, d4, news, c4. split_all; auto.
    - intros m r pk dk Hm.
      erewrite bind_store_node by exact HP. fold p3.
      erewrite bind_Ok; [|exact Hrun4]. rewrite Hm. reflexivity.
    - rewrite Hlen4. cbn. apply length_insert.
    - split; [|split].
      + eapply cells_kept_trans; [|exact Hcells4].
        split; exists []; cbn; rewrite app_nil_r; reflexivity.
      + rewrite Hlen4. cbn. rewrite length_insert. lia.
      + intros x Hx. rewrite Hother4 by lia. cbn. apply list_lookup_insert_ne. lia. }
  unfold platform_devices in *.
  destruct (clGetDeviceIDs drv platformId 0) as [[r numDevices] w0].
  unfold NIV_SAFE_CL.
  destruct (r =? CL_SUCCESS)%Z.
  2:{ destruct Hprops as (p4 & d4 & news & c4 & Hrun & _ & _ & _ & _ & _ & _ & _ & _ & Hgrow).
      exists p4, d4. split; [|exact Hgrow]. apply Hrun. reflexivity. }
  destruct (clGetDeviceIDs drv platformId numDevices) as [[r2 n2] written].
  destruct (r2 =? CL_SUCCESS)%Z.
  2:{ destruct Hprops as (p4 & d4 & news & c4 & Hrun & _ & _ & _ & _ & _ & _ & _ & _ & Hgrow).
      exists p4, d4. split; [|exact Hgrow]. apply Hrun. reflexivity. }
  set (deviceIds := filled 0%Z numDevices written) in *.
  destruct Hprops
    as (p4 & d4 & news & c4 & Hrun4 & Hbuilt & Hc4 & Hlist4 & Hn4 & Hk4 & Hchild4 & Hnext4
        & Hlen4 & Hgrow4).
  set (N := length (nodes p4)).
  set (cellN := mkNode (Some "Devices") None None None None).
  set (p7 := mkPool (values p4) (properties p4)
               (<[P := set_n_firstChild (Some N) c4]> (nodes p4 ++ [cellN]))).
  assert (children_state p7 N (S N) None []) as Hstate7.
  { split; [lia|]. split; [cbn; rewrite length_insert, length_app; cbn; unfold N; lia|].
    exists cellN, []. cbn [nodes p7]. split_all; [|constructor | exact Logic.I | exact Logic.I].
    rewrite list_lookup_insert_ne by (unfold N; lia). apply lookup_fresh. }
  destruct (GatherOpenCLInfo_devices_builds drv deviceIds Hdevices p7 N (S N) None [] Hstate7)
    as (p8 & d8 & results & last8 & Hrun8 & Hall8 & Hstate8 & Hgrow8 & Hkept8).
  fold (linked_devices results) in Hstate8.
  destruct (Hkept8 cellN) as (c8 & Hc8 & HnN & HkN & HnextN & HpropN).
  { cbn [nodes p7]. rewrite list_lookup_insert_ne by (unfold N; lia). apply lookup_fresh. }
  assert (nodes p8 !! P = Some (set_n_firstChild (Some N) c4)) as HP8.
  { destruct Hgrow8 as (_ & _ & Hsame8). rewrite Hsame8 by (unfold N; lia).
    cbn [nodes p7]. apply list_lookup_insert_eq. rewrite length_app. lia. }
  assert (grows_from P p4 p7) as Hgrow7.
  { split; [split; exists []; cbn; rewrite app_nil_r; reflexivity|].
    split; [cbn; rewrite length_insert, length_app; lia|].
    intros x Hx. cbn. rewrite list_lookup_insert_ne by lia. apply lookup_app_l. lia. }
  exists p8, (d4 ++ d8),
    (mkNodeView (Some "Platform") None news
       [mkNodeView (Some "Devices") None [] (linked_devices results)]),
    (set_n_firstChild (Some N) c4).
  split_all.
  - intros r0 pk dk Hk. rewrite <- app_assoc. apply Hrun4.
    rewrite bind_Allocate_cliNode.
    erewrite bind_store_node by (cbn [nodes]; apply lookup_fresh).
    cbn [values properties nodes]. rewrite insert_fresh.
    erewrite bind_store_node
      by (cbn [nodes]; apply lookup_app_l_Some; exact Hc4).
    cbn [values properties nodes].
    unfold zero_node, set_n_name. cbn [n_name n_kind n_firstChild n_next n_firstProperty].
    fold cellN. fold N. fold p7.
    erewrite bind_Ok; [|exact Hrun8]. rewrite Hk. reflexivity.
  - exists deviceIds, news, results. split_all; auto.
  - destruct Hgrow8 as (Hcells8 & Hlen8 & Hsame8).
    assert (length (nodes p7) = S N) as Hlen7
        by (cbn; rewrite length_insert, length_app; cbn; unfold N; lia).
    apply node_tree_unfold. split; [unfold N in Hlen7; lia|].
    exists (set_n_firstChild (Some N) c4). split_all; auto.
    + cbn [n_firstProperty set_n_firstChild].
      eapply property_list_kept; [exact Hcells8|].
      eapply property_list_kept; [|exact Hlist4].
      split; exists []; cbn; rewrite app_nil_r; reflexivity.
    + exists [N]. cbn [n_firstChild set_n_firstChild]. split.
      * econstructor; [exact Hc8|]. rewrite HnextN. constructor.
      * cbn [sibling_trees]. split; [unfold N; lia|]. split; [|exact Logic.I].
        eapply object_type_tree; [exact Hstate8 | exact Hc8 | | |]; assumption.
  - exact HP8.
  - cbn. exact Hnext4.
  - eapply grows_from_trans; [exact Hgrow4|].
    eapply grows_from_trans; [exact Hgrow7|].
    eapply grows_from_le; [|exact Hgrow8]. unfold N. lia.
Qed.

Lemma bare_node_tree (p : Pool) :
  node_tree (mkPool (values p) (properties p) (nodes p ++ [zero_node]))
    (length (nodes p)) (S (length (nodes p))) (mkNodeView None None [] []).
Proof.
  apply node_tree_unfold. split; [lia|]. exists zero_node. cbn [nodes].
  split_all; [apply lookup_fresh | reflexivity | reflexivity | apply property_list_null |].
  exists []. split; [constructor | exact Logic.I].
Qed.

(** The loop over the platforms. *)
Lemma GatherOpenCLInfo_platforms_builds (platformIds : list cl_platform_id) :
  Forall (platform_answers drv) platformIds ->
  forall p R hi last_ views,
    children_state p R hi last_ views ->
    (last_ = None ->
     views = [] /\ forall c, nodes p !! R = Some c -> n_firstChild c = None) ->
    match first_failure drv platformIds with
    | None =>
        exists p' d news last',
          GatherOpenCLInfo_platforms drv R platformIds last_ p = (Ok true, p', d) /\
          Forall2 (platform_gathered drv) platformIds news /\
          children_state p' R (length (nodes p')) last' (views ++ news) /\
          grows_from R p p' /\ parent_kept R p p'
    | Some dfail =>
        exists p' d,
          GatherOpenCLInfo_platforms drv R platformIds last_ p = (Ok false, p', d ++ [dfail]) /\
          grows_from R p p'
    end.
Proof.
  induction 1 as [|platformId platformIds Hanswers _ IH]; intros p R hi last_ views Hstate Hnone.
  - cbn [first_failure GatherOpenCLInfo_platforms]. exists p, [], [], last_.
    rewrite app_nil_r. pose proof Hstate as (_ & Hhi & _). split_all.
    + reflexivity.
    + constructor.
    + eapply children_state_mono; [exact Hhi | lia | exact Hstate].
    + apply grows_from_refl.
    + apply parent_kept_same. reflexivity.
  - cbn [first_failure GatherOpenCLInfo_platforms].
    pose proof Hstate as (Hpar & Hhi & _).
    rewrite bind_Allocate_cliNode.
    set (P := length (nodes p)).
    set (p1 := mkPool (values p) (properties p) (nodes p ++ [zero_node])).
    assert (grows_from P p p1) as Hgrow1 by apply fresh_node_grows.
    assert (children_state p1 R hi last_ views) as Hstate1.
    { eapply children_state_grows; [|exact Hstate]. eapply grows_from_le; [|exact Hgrow1].
      unfold P. lia. }
    pose proof Hstate1 as (_ & _ & c & l & Hc1 & Hl1 & _ & Hlast1).
    erewrite bind_Ok_nil; [|unfold load_node; rewrite Hc1; reflexivity].
    assert (match n_firstChild c with
            | Some _ =>
                match last_ with
                | Some l0 =>
                    store_node l0 (set_n_next (Some P)) ;;;
                    c0 <- load_node l0 ;;
                    ret (n_next c0)
                | None => undefined
                end
            | None =>
                store_node R (set_n_firstChild (Some P)) ;;;
                ret (Some P)
            end
            = match last_ with
              | Some l0 =>
                  store_node l0 (set_n_next (Some P)) ;;;
                  c0 <- load_node l0 ;;
                  ret (n_next c0)
              | None =>
                  store_node R (set_n_firstChild (Some P)) ;;;
                  ret (Some P)
              end) as ->.
    { destruct last_ as [x|].
      - destruct (n_firstChild c) as [a|]; [reflexivity|].
        inversion Hl1; subst. discriminate.
      - destruct (Hnone eq_refl) as [_ Hfirst].
        rewrite (Hfirst c); [reflexivity|].
        destruct Hgrow1 as (_ & _ & Hsame1). rewrite <- Hsame1 by (unfold P; lia). exact Hc1. }
    rewrite link_run.
    2:{ destruct last_ as [x|];
          [eapply children_state_last | eapply children_state_parent]; exact Hstate1. }
    destruct (linked_child_state p1 R hi (S P) P last_ views (mkNodeView None None [] [])
                zero_node Hstate1 Hhi (bare_node_tree p))
      as (Hstate2 & Hgrow2 & Hkept2).
    { cbn. rewrite length_app. cbn. unfold P. lia. }
    { cbn. apply lookup_fresh. }
    { reflexivity. }
    set (p2 := linked_child R last_ (Some P) p1) in *.
    assert (match last_ with
            | Some _ => views ++ [mkNodeView None None [] []]
            | None => [mkNodeView None None [] []]
            end = views ++ [mkNodeView None None [] []]) as Hviews.
    { destruct last_; [reflexivity|]. destruct (Hnone eq_refl) as [-> _]. reflexivity. }
    rewrite Hviews in Hstate2.
    assert (nodes p2 !! P = Some zero_node) as HP2.
    { pose proof Hstate1 as (_ & _ & c1 & l0 & Hc0 & Hl0 & Hs0 & Hlast0).
      pose proof (sibling_trees_bounds _ (node_tree_lt p1) _ _ _ _ Hs0) as Hb.
      rewrite Forall_forall in Hb.
      unfold p2, linked_child. cbn [nodes]. destruct last_ as [x|].
      - assert (x ∈ l0) as Hx.
        { rewrite last_lookup in Hlast0. eapply list_elem_of_lookup_2. exact Hlast0. }
        specialize (Hb x Hx).
        rewrite list_lookup_alter_ne by (unfold P; lia). apply lookup_fresh.
      - rewrite list_lookup_alter_ne by (unfold P; lia). apply lookup_fresh. }
    assert (P < length (nodes p2)) as HPlt by (eapply lookup_lt_Some; exact HP2).
    pose proof (platform_node_builds platformId P p2 Hanswers HP2 HPlt
                  (GatherOpenCLInfo_platforms drv R platformIds (Some P))) as Hnode.
    destruct (platform_devices drv platformId) as [deviceIds | dfail].
    + destruct Hnode as (p' & d & view & cP & Hrun & Hgathered & Htree & HcP & HnextP & Hgrow').
      assert (children_state p' R (length (nodes p')) (Some P) (views ++ [view])) as Hstate'.
      { eapply children_state_update_last;
          [exact Hstate2 | exact Hgrow' | exists cP; split; assumption | exact Htree | lia]. }
      specialize (IH p' R _ (Some P) _ Hstate' ltac:(discriminate)).
      assert (grows_from R p p') as Hgrow0.
      { eapply grows_from_trans; [eapply grows_from_le; [|exact Hgrow1]; unfold P; lia|].
        eapply grows_from_trans; [exact Hgrow2|].
        eapply grows_from_le; [|exact Hgrow']. unfold P. lia. }
      destruct (first_failure drv platformIds) as [dfail|].
      * destruct IH as (p'' & d'' & Hrun'' & Hgrow'').
        exists p'', (d ++ d''). split.
        -- rewrite <- app_assoc. apply Hrun. exact Hrun''.
        -- eapply grows_from_trans; [exact Hgrow0 | exact Hgrow''].
      * destruct IH as (p'' & d'' & news & last'' & Hrun'' & Hall'' & Hstate'' & Hgrow'' & Hkept'').
        exists p'', (d ++ d''), (view :: news), last''. split_all.
        -- apply Hrun. exact Hrun''.
        -- constructor; assumption.
        -- rewrite <- app_assoc in Hstate''. exact Hstate''.
        -- eapply grows_from_trans; [exact Hgrow0 | exact Hgrow''].
        -- eapply grows_from_parent_kept_trans; [|exact Hkept''].
           eapply grows_from_parent_kept_trans; [|eapply grows_from_parent_kept_trans;
                                                   [exact Hkept2|]].
           ++ apply parent_kept_same. destruct Hgrow1 as (_ & _ & Hsame1).
              apply Hsame1. unfold P. lia.
           ++ apply parent_kept_same. destruct Hgrow' as (_ & _ & Hsame').
              apply Hsame'. unfold P. lia.
    + destruct Hnode as (p' & d & Hrun & Hgrow').
      exists p', d. split; [exact Hrun|].
      eapply grows_from_trans; [eapply grows_from_le; [|exact Hgrow1]; unfold P; lia|].
      eapply grows_from_trans; [exact Hgrow2|].
      eapply grows_from_le; [|exact Hgrow']. unfold P. lia.
Qed.

End OpenCLInfoPlatforms.

Section GatherTheorems.
Context {hdr : cl_h} (drv : Driver).

Lemma GatherOpenCLInfo_builds (p : Pool) :
  driver_answers drv ->
  exists p' d tree,
    GatherOpenCLInfo drv p
      = (Ok (match tree with Some _ => Some (length (nodes p)) | None => None end), p', d) /\
    tree_gathered drv tree /\
    (forall t, tree = Some t -> node_tree p' (length (nodes p)) (length (nodes p')) t) /\
    grows_from (length (nodes p)) p p'.
Proof.
  unfold driver_answers, tree_gathered, platforms, GatherOpenCLInfo. intros Hanswers.
  rewrite bind_Allocate_cliNode.
  erewrite bind_store_node by (cbn [nodes]; apply lookup_fresh).
  cbn [values properties nodes]. rewrite insert_fresh.
  unfold zero_node, set_n_name. cbn [n_name n_kind n_firstChild n_next n_firstProperty].
  set (R := length (nodes p)).
  set (cell := mkNode (Some "Platforms") None None None None).
  set (p1 := mkPool (values p) (properties p) (nodes p ++ [cell])).
  assert (grows_from R p p1) as Hgrow1 by apply fresh_node_grows.
  destruct (clGetPlatformIDs drv 0) as [[r numPlatforms] w0].
  unfold NIV_SAFE_CL.
  destruct (r =? CL_SUCCESS)%Z.
  2:{ eexists p1, _, None. split_all; [reflexivity | reflexivity | discriminate | exact Hgrow1]. }
  destruct (numPlatforms <=? 0)%nat.
  { eexists p1, _, None. split_all; [reflexivity | reflexivity | discriminate | exact Hgrow1]. }
  destruct (clGetPlatformIDs drv numPlatforms) as [[r2 n2] written].
  destruct (r2 =? CL_SUCCESS)%Z.
  2:{ eexists p1, _, None. split_all; [reflexivity | reflexivity | discriminate | exact Hgrow1]. }
  set (platformIds := filled 0%Z numPlatforms written) in *.
  pose proof (GatherOpenCLInfo_platforms_builds drv platformIds Hanswers p1 R (S R) None []
                (fresh_node_state p cell eq_refl)) as Hloop.
  destruct (first_failure drv platformIds) as [dfail|].
  - destruct Hloop as (p' & d & Hrun & Hgrow).
    { intros _. split; [reflexivity|]. intros c Hc. cbn in Hc. unfold R in Hc.
      rewrite lookup_fresh in Hc. injection Hc as <-. reflexivity. }
    eexists p', _, None. erewrite bind_Ok; [|exact Hrun].
    split_all; [reflexivity | reflexivity | discriminate |].
    eapply grows_from_trans; [exact Hgrow1 | exact Hgrow].
  - destruct Hloop as (p' & d & views & last' & Hrun & Hall & Hstate & Hgrow & Hkept).
    { intros _. split; [reflexivity|]. intros c Hc. cbn in Hc. unfold R in Hc.
      rewrite lookup_fresh in Hc. injection Hc as <-. reflexivity. }
    cbn [app] in Hstate.
    eexists p', _, (Some (mkNodeView (Some "Platforms") None [] views)).
    erewrite bind_Ok; [|exact Hrun].
    destruct (Hkept cell) as (cell' & Hcell' & Hn & Hk & Hnext & Hprop).
    { cbn. apply lookup_fresh. }
    split_all.
    + reflexivity.
    + exists views. split; [exact Hall | reflexivity].
    + intros t [= <-].
      eapply object_type_tree; [exact Hstate | exact Hcell' | | |]; assumption.
    + eapply grows_from_trans; [exact Hgrow1 | exact Hgrow].
Qed.

Lemma linked_devices_all (vs : list NodeView) : linked_devices (map Some vs) = vs.
Proof.
  unfold linked_devices. destruct vs as [|v vs]; [reflexivity|].
  cbn [map fold_left]. unfold link_result at 2. cbn [fst snd].
  assert (forall ws acc, fold_left link_result (map Some ws) (acc, true) = (acc ++ ws, true))
    as Hfold.
  { induction ws as [|w ws IH]; intros acc; cbn [map fold_left].
    - rewrite app_nil_r. reflexivity.
    - unfold link_result at 2. cbn [fst snd]. rewrite IH, <- app_assoc. reflexivity. }
  rewrite Hfold. reflexivity.
Qed.

Lemma linked_devices_dropped (results : list (option NodeView)) (v : NodeView)
    (vs : list NodeView) :
  linked_devices (results ++ None :: map Some (v :: vs)) = v :: vs.
Proof.
  unfold linked_devices. rewrite fold_left_app. cbn [fold_left map].
  destruct (fold_left link_result results ([], false)) as [acc [|]];
    unfold link_result at 3; cbn [fst snd]; unfold link_result at 2; cbn [fst snd].
  - assert (forall ws acc0, fold_left link_result (map Some ws) (acc0, true)
                            = (acc0 ++ ws, true)) as Hfold.
    { induction ws as [|w ws IH]; intros acc0; cbn [map fold_left].
      - rewrite app_nil_r. reflexivity.
      - unfold link_result at 2. cbn [fst snd]. rewrite IH, <- app_assoc. reflexivity. }
    rewrite Hfold. reflexivity.
  - assert (forall ws acc0, fold_left link_result (map Some ws) (acc0, true)
                            = (acc0 ++ ws, true)) as Hfold.
    { induction ws as [|w ws IH]; intros acc0; cbn [map fold_left].
      - rewrite app_nil_r. reflexivity.
      - unfold link_result at 2. cbn [fst snd]. rewrite IH, <- app_assoc. reflexivity. }
    rewrite Hfold. reflexivity.
Qed.

(** X21. [GatherDeviceInfo] on a device whose answers the library can
    decode (when the version queries succeed, the text parses as a
    version and every fetch of an attribute selected for this version
    returns).  When a version query fails, the null pointer is
    returned, the line of the failed query is the one line written,
    and the pool is the pool before the call with one more node, named
    [Device], that nothing points to.  Otherwise a new node [Device]
    is returned; a walk reads it with one property per attribute
    selected for the version, in the order of the sorted table, and
    with the node [ImageFormats] as its one child, or without children
    when no context is created or a query of the image formats fails.
    The cells that were in the pool are unchanged. *)
Theorem GatherDeviceInfo_device_node (id : cl_device_id) (p : Pool) :
  device_answers drv id ->
  exists p' d result,
    GatherDeviceInfo drv id p
      = (Ok (match result with Some _ => Some (length (nodes p)) | None => None end), p', d) /\
    device_gathered drv id result /\
    (forall v, result = Some v -> read_node p' (length (nodes p)) = Some v) /\
    pool_extended p p' /\
    (forall line, device_version_text drv id = inr line ->
       result = None /\
       d = [line] /\
       p' = mkPool (values p) (properties p)
              (nodes p ++ [mkNode (Some "Device") None None None None])).
Proof.
  intros Hanswers.
  destruct (GatherDeviceInfo_builds drv id p Hanswers)
    as (p' & d & result & Hrun & Hgathered & Htree & Hgrow).
  exists p', d, result. split_all; auto.
  - intros v Hv. destruct (Htree v Hv) as [Ht _]. eapply read_node_tree. exact Ht.
  - apply grows_from_extended. exact Hgrow.
  - intros line Hline.
    rewrite (GatherDeviceInfo_version_fails drv id p line Hline) in Hrun.
    injection Hrun as Hresult <- <-.
    split; [|split; reflexivity]. destruct result; [discriminate | reflexivity].
Qed.

(** X22. The loop of [GatherOpenCLInfo] over the devices of a platform,
    run on a pool whose last node is the new node [Devices], for
    devices whose answers the library can decode: it returns, and the
    children of the node are what the rounds of the loop link.  When
    every device is gathered these are all devices in order.  When
    [GatherDeviceInfo] returns the null pointer for a device, the
    devices gathered before it are no longer children of the node if a
    later device is gathered: the children are then the devices behind
    the last device that failed. *)
Theorem GatherOpenCLInfo_devices_linked (deviceIds : list cl_device_id) (p : Pool)
    (name kind : cstr) :
  Forall (device_answers drv) deviceIds ->
  let N := length (nodes p) in
  let p0 := mkPool (values p) (properties p) (nodes p ++ [mkNode name kind None None None]) in
  (exists p' d results,
     GatherOpenCLInfo_devices drv N deviceIds None p0 = (Ok tt, p', d) /\
     Forall2 (device_gathered drv) deviceIds results /\
     read_node p' N = Some (mkNodeView name kind [] (linked_devices results)) /\
     pool_extended p p') /\
  (forall vs, linked_devices (map Some vs) = vs) /\
  (forall results v vs, linked_devices (results ++ None :: map Some (v :: vs)) = v :: vs).
Proof.
  intros Hanswers N p0. split; [|split; [apply linked_devices_all | apply linked_devices_dropped]].
  destruct (GatherOpenCLInfo_devices_builds drv deviceIds Hanswers p0 N (S N) None []
              (fresh_node_state p (mkNode name kind None None None) eq_refl))
    as (p' & d & results & last' & Hrun & Hall & Hstate & Hgrow & Hkept).
  fold (linked_devices results) in Hstate.
  destruct (Hkept (mkNode name kind None None None)) as (c' & Hc' & Hn & Hk & Hnext & Hprop).
  { cbn. apply lookup_fresh. }
  exists p', d, results. split_all; auto.
  - eapply read_node_tree.
    eapply object_type_tree; [exact Hstate | exact Hc' | | |]; assumption.
  - apply grows_from_extended.
    eapply grows_from_trans; [apply fresh_node_grows | exact Hgrow].
Qed.

(** X23. [cliInfo_Gather] on an object without a root, for a driver
    whose answers the library can decode: it returns [CLI_Success].
    When the platforms and the devices of every platform are
    enumerated, the object has a root that a walk reads as the node
    [Platforms] with one child [Platform] per platform, in order, each
    with its properties and one child [Devices] with the devices
    linked.  When there is no platform or an enumeration fails, the
    status is [CLI_Success] all the same and the object has no root,
    whatever was gathered before the failure.  The cells that were in
    the pool are unchanged. *)
Theorem cliInfo_Gather_tree (info : cliInfo) :
  driver_answers drv -> root info = None ->
  exists info' d tree,
    cliInfo_Gather drv info = Some (CLI_Success, info', d) /\
    tree_gathered drv tree /\
    match tree with
    | Some t =>
        root info' = Some (length (nodes (pool info))) /\
        read_node (pool info') (length (nodes (pool info))) = Some t
    | None => root info' = None
    end /\
    pool_extended (pool info) (pool info').
Proof.
  intros Hanswers Hroot.
  destruct (GatherOpenCLInfo_builds (pool info) Hanswers)
    as (p' & d & tree & Hrun & Hgathered & Htree & Hgrow).
  unfold cliInfo_Gather. rewrite Hroot, Hrun.
  eexists _, d, tree. split_all.
  - reflexivity.
  - exact Hgathered.
  - destruct tree as [t|]; cbn [pool root].
    + split; [reflexivity|]. eapply read_node_tree. apply Htree. reflexivity.
    + reflexivity.
  - cbn [pool]. apply grows_from_extended. exact Hgrow.
Qed.

End GatherTheorems.

(** ** Decoders on decodable answers *)

Lemma le_uint_Some (n : nat) : forall buffer, n <= length buffer -> is_Some (le_uint n buffer).
Proof.
  induction n as [|n IH]; intros buffer Hlen; [cbn; eauto|].
  destruct buffer as [|b rest]; [cbn in Hlen; lia|].
  cbn [le_uint]. destruct (IH rest) as [x Hx]; [cbn in Hlen; lia|]. rewrite Hx. eauto.
Qed.

Lemma fetch_typed_returns (type : cliPropertyType) (m : M ptr) :
  fetch_typed type m -> fetch_returns m.
Proof.
  intros Hm p. destruct (Hm p) as (v & p' & d & us & Hrun & Hgrow & Hlist & _).
  exists v, p', d, us. auto.
Qed.

Lemma fetch_typed_single (type : cliPropertyType) (m : M ptr) (u : cliUnion) :
  (forall p, m p = (Ok (Some (length (values p))), with_value p u, [])) ->
  value_typed type u -> fetch_typed type m.
Proof.
  intros Hm Hu p.
  exists (Some (length (values p))), (with_value p u), [], [u].
  split_all; [apply Hm | | |constructor; [exact Hu | constructor]].
  - split_unfold; [exists [mkValue u None]; reflexivity | reflexivity | reflexivity].
  - exists [length (values p)]. split.
    + econstructor; [apply lookup_fresh|]. constructor.
    + constructor; [|constructor]. exists (mkValue u None). split; [apply lookup_fresh | reflexivity].
Qed.

Lemma fetch_typed_null (type : cliPropertyType) (m : M ptr) :
  (forall p, exists d, m p = (Ok None, p, d)) -> fetch_typed type m.
Proof.
  intros Hm p. destruct (Hm p) as [d Hd]. exists None, p, d, [].
  split_all; [exact Hd | apply values_grow_refl | exists []; split; constructor | constructor].
Qed.

Lemma fetch_typed_building (type : cliPropertyType) (m : M ptr) :
  (forall p, exists p' result last' l' us,
     m p = (Ok result, p', []) /\
     building (length (values p)) p' result last' l' us /\
     keeps_below (length (values p)) p p' /\
     Forall (value_typed type) us) ->
  fetch_typed type m.
Proof.
  intros Hm p. destruct (Hm p) as (p' & result & last' & l' & us & Hrun & (Hc & Hall & _) & Hk & Hus).
  exists result, p', [], us.
  split_all; [exact Hrun | apply keeps_below_grow; exact Hk | exists l'; split; assumption | exact Hus].
Qed.

Lemma CreateUInt_typed (buffer : list ascii) (size : nat) :
  4 <= length buffer -> fetch_typed CLI_PropertyType_Int64 (CreateUInt buffer size).
Proof.
  intros Hlen. destruct (le_uint_Some 4 buffer Hlen) as [x Hx].
  apply (fetch_typed_single _ _ (U_i x)); [|exact Logic.I].
  intros p. apply CreateUInt_run. exact Hx.
Qed.

Lemma CreateBool_typed (buffer : list ascii) (size : nat) :
  4 <= length buffer -> fetch_typed CLI_PropertyType_Bool (CreateBool buffer size).
Proof.
  intros Hlen. destruct (le_uint_Some 4 buffer Hlen) as [x Hx].
  apply (fetch_typed_single _ _ (U_b (negb (x =? 0)%Z))); [|exact Logic.I].
  intros p. apply CreateBool_run. exact Hx.
Qed.

Lemma CreateULong_typed (buffer : list ascii) (size : nat) :
  8 <= length buffer -> fetch_typed CLI_PropertyType_Int64 (CreateULong buffer size).
Proof.
  intros Hlen. destruct (le_uint_Some 8 buffer Hlen) as [x Hx].
  apply (fetch_typed_single _ _ (U_i (static_cast_int64 x))); [|exact Logic.I].
  intros p. unfold CreateULong, sizeof_cl_ulong. rewrite Hx.
  erewrite bind_Ok; [|apply CreateValue_i_run]. reflexivity.
Qed.

Lemma CreateSizeT_typed (buffer : list ascii) (size : nat) :
  8 <= length buffer -> fetch_typed CLI_PropertyType_Int64 (CreateSizeT buffer size).
Proof.
  intros Hlen. destruct (le_uint_Some 8 buffer Hlen) as [x Hx].
  apply (fetch_typed_single _ _ (U_i (static_cast_int64 x))); [|exact Logic.I].
  intros p. unfold CreateSizeT, sizeof_size_t. rewrite Hx.
  erewrite bind_Ok; [|apply CreateValue_i_run]. reflexivity.
Qed.

Lemma CreateSizeTList_loop_typed (count : nat) : forall entries base p result last_ l us,
  8 * count <= length entries ->
  building base p result last_ l us ->
  exists p' result' last' l' news,
    CreateSizeTList_loop count entries result last_ p = (Ok result', p', []) /\
    building base p' result' last' (l ++ l') (us ++ news) /\
    keeps_below base p p' /\
    Forall (value_typed CLI_PropertyType_Int64) news.
Proof.
  induction count as [|count IH]; intros entries base p result last_ l us Hlen Hb.
  - exists p, result, last_, [], []. cbn. rewrite !app_nil_r.
    split_all; [reflexivity | exact Hb | apply keeps_below_refl | constructor].
  - cbn [CreateSizeTList_loop]. unfold sizeof_size_t.
    destruct (le_uint_Some 8 entries ltac:(lia)) as [x Hx]. rewrite Hx.
    rewrite (bind_Ok_nil _ _ _ _ _ (CreateValue_i_run (static_cast_int64 x) p)).
    destruct (with_value_building _ _ _ _ _ _ (U_i (static_cast_int64 x)) Hb)
      as (Hb1 & Hk1 & Hv & Hnotin & Hbase).
    destruct (append_value_building _ _ _ _ _ _ _ _ Hb1 Hv eq_refl Hnotin Hbase)
      as (p2 & result2 & Happ & Hb2 & Hk2).
    rewrite (bind_Ok_nil _ _ _ _ _ Happ). cbn [fst snd].
    destruct (IH (drop 8 entries) _ _ _ _ _ _ ltac:(rewrite length_drop; lia) Hb2)
      as (p3 & result3 & last3 & l3 & news & Hrun & Hb3 & Hk3 & Hnews).
    rewrite Hrun.
    exists p3, result3, last3, (length (values p) :: l3), (U_i (static_cast_int64 x) :: news).
    split_all.
    + reflexivity.
    + rewrite <- !app_assoc in Hb3. exact Hb3.
    + eapply keeps_below_trans; [exact Hk1|].
      eapply keeps_below_trans; [exact Hk2 | exact Hk3].
    + constructor; [exact Logic.I | exact Hnews].
Qed.

Lemma CreateSizeTList_typed (buffer : list ascii) :
  fetch_typed CLI_PropertyType_Int64 (CreateSizeTList buffer (length buffer)).
Proof.
  apply fetch_typed_building. intros p. unfold CreateSizeTList, sizeof_size_t.
  destruct (CreateSizeTList_loop_typed (length buffer / 8) buffer _ p None None [] []
              ltac:(apply Nat.Div0.mul_div_le) (building_start p))
    as (p' & result & last' & l' & news & Hrun & Hb & Hk & Hnews).
  exists p', result, last', l', news. cbn [app] in Hb. auto.
Qed.

Lemma split_at_NUL (buffer : list ascii) :
  NUL ∈ buffer -> exists rest tail, buffer = rest ++ NUL :: tail /\ NUL ∉ rest.
Proof.
  induction buffer as [|c buffer IH]; intros Hin; [inversion Hin|].
  destruct (decide (c = NUL)) as [-> | Hc].
  - exists [], buffer. split; [reflexivity|]. intros H. inversion H.
  - apply elem_of_cons in Hin as [Hin | Hin]; [congruence|].
    destruct (IH Hin) as (rest & tail & -> & Hrest).
    exists (c :: rest), tail. split; [reflexivity|].
    intros H. apply elem_of_cons in H as [H | H]; [congruence | contradiction].
Qed.

Lemma CreateChar_typed (buffer : list ascii) (size : nat) :
  NUL ∈ buffer -> (Z.of_nat (length buffer) < BlockSize)%Z ->
  fetch_typed CLI_PropertyType_String (CreateChar buffer size).
Proof.
  intros Hnul Hsize. destruct (split_at_NUL buffer Hnul) as (rest & tail & -> & Hrest).
  apply (fetch_typed_single _ _ (U_s (string_of_list_ascii rest))); [|exact Logic.I].
  intros p. unfold CreateChar. rewrite c_str_token by exact Hrest.
  erewrite bind_Ok; [|apply CreateValue_s_run;
                       rewrite length_string_of_list_ascii, length_app in *; cbn in Hsize; lia].
  reflexivity.
Qed.

Lemma CreateCharList_typed (buffer : list ascii) (size : nat) :
  NUL ∈ buffer -> (Z.of_nat (length buffer) < BlockSize)%Z ->
  fetch_typed CLI_PropertyType_String (CreateCharList buffer size).
Proof.
  intros Hnul Hsize. destruct (split_at_NUL buffer Hnul) as (rest & tail & -> & Hrest).
  apply fetch_typed_building. intros p. unfold CreateCharList.
  rewrite length_app in Hsize. cbn [length] in Hsize.
  destruct (CreateCharList_loop_tokens (length (rest ++ NUL :: tail)) (rest ++ NUL :: tail) 0
              rest tail (length (values p)) p None None [] [])
    as (p' & result & last' & l' & Hrun & Hb & Hk).
  { reflexivity. }
  { exact Hrest. }
  { rewrite length_app. lia. }
  { lia. }
  { apply building_start. }
  exists p', result, last', l', (map U_s (library_tokens (length (rest ++ NUL :: tail)) rest)).
  cbn [app] in Hb. split_all; auto.
  apply Forall_forall. intros u Hu. apply list_elem_of_fmap in Hu as (s & -> & _). exact Logic.I.
Qed.

Lemma CreateBitfield_typed (config : Z) (fields : list BitfieldFetcher) :
  fetch_typed CLI_PropertyType_String (CreateBitfield config fields).
Proof.
  apply fetch_typed_building. intros p.
  destruct (CreateBitfield_loop_building config fields _ _ _ _ _ _ (building_start p))
    as (p' & result & last' & l' & Hrun & Hb & Hk).
  exists p', result, last', l', (selected_names config fields). cbn [app] in Hb.
  split_all; auto.
  apply Forall_forall. intros u Hu. unfold selected_names in Hu.
  apply list_elem_of_fmap in Hu as (s & -> & _). exact Logic.I.
Qed.

Section Tables.
Context {hdr : cl_h}.

Ltac bitfield_typed width :=
  let Hlen := fresh "Hlen" in
  let x := fresh "x" in
  let Hx := fresh "Hx" in
  intros Hlen;
  match goal with
  | |- fetch_typed _ (?decoder ?buffer _) =>
      destruct (le_uint_Some width buffer ltac:(lia)) as [x Hx];
      cbv delta [CreateDeviceFPConfig CreateDeviceExecCapabilities CreateDeviceMemCacheType
                 CreateDeviceLocalMemType CreateDeviceAffinityDomain
                 CreateDevicePartitionProperty CreateCommandQueueProperties
                 CreateDeviceType CreateDeviceSVMCapabilities
                 sizeof_cl_ulong sizeof_cl_uint sizeof_size_t];
      cbv beta; rewrite Hx;
      apply CreateBitfield_typed
  end.

Lemma CreateDeviceFPConfig_typed (buffer : list ascii) (size : nat) :
  8 <= length buffer -> fetch_typed CLI_PropertyType_String (CreateDeviceFPConfig buffer size).
Proof. bitfield_typed 8. Qed.

Lemma CreateDeviceExecCapabilities_typed (buffer : list ascii) (size : nat) :
  8 <= length buffer ->
  fetch_typed CLI_PropertyType_String (CreateDeviceExecCapabilities buffer size).
Proof. bitfield_typed 8. Qed.

Lemma CreateDeviceMemCacheType_typed (buffer : list ascii) (size : nat) :
  4 <= length buffer ->
  fetch_typed CLI_PropertyType_String (CreateDeviceMemCacheType buffer size).
Proof. bitfield_typed 4. Qed.

Lemma CreateDeviceLocalMemType_typed (buffer : list ascii) (size : nat) :
  4 <= length buffer ->
  fetch_typed CLI_PropertyType_String (CreateDeviceLocalMemType buffer size).
Proof. bitfield_typed 4. Qed.

Lemma CreateDeviceAffinityDomain_typed (buffer : list ascii) (size : nat) :
  8 <= length buffer ->
  fetch_typed CLI_PropertyType_String (CreateDeviceAffinityDomain buffer size).
Proof. bitfield_typed 8. Qed.

Lemma CreateDevicePartitionProperty_typed (buffer : list ascii) (size : nat) :
  8 <= length buffer ->
  fetch_typed CLI_PropertyType_String (CreateDevicePartitionProperty buffer size).
Proof. bitfield_typed 8. Qed.

Lemma CreateCommandQueueProperties_typed (buffer : list ascii) (size : nat) :
  8 <= length buffer ->
  fetch_typed CLI_PropertyType_String (CreateCommandQueueProperties buffer size).
Proof. bitfield_typed 8. Qed.

Lemma CreateDeviceType_typed (buffer : list ascii) (size : nat) :
  8 <= length buffer -> fetch_typed CLI_PropertyType_String (CreateDeviceType buffer size).
Proof. bitfield_typed 8. Qed.

Lemma CreateDeviceSVMCapabilities_typed (buffer : list ascii) (size : nat) :
  8 <= length buffer ->
  fetch_typed CLI_PropertyType_String (CreateDeviceSVMCapabilities buffer size).
Proof. bitfield_typed 8. Qed.

(** The contract of the decoders. *)
Lemma decoder_kind_typed (cf : CreateFunc) (kind : DecoderKind) (type : cliPropertyType)
    (buffer : list ascii) :
  decoder_kind cf kind type -> fits kind buffer ->
  fetch_typed type (cf buffer (length buffer)).
Proof.
  intros Hkind Hfits. destruct Hkind; cbn [fits] in Hfits.
  - apply CreateChar_typed; tauto.
  - apply CreateCharList_typed; tauto.
  - apply CreateUInt_typed; exact Hfits.
  - apply CreateULong_typed; exact Hfits.
  - apply CreateSizeT_typed; exact Hfits.
  - apply CreateSizeTList_typed.
  - apply CreateBool_typed; exact Hfits.
  - apply CreateDeviceFPConfig_typed; exact Hfits.
  - apply CreateDeviceExecCapabilities_typed; exact Hfits.
  - apply CreateDeviceMemCacheType_typed; exact Hfits.
  - apply CreateDeviceLocalMemType_typed; exact Hfits.
  - apply CreateDeviceAffinityDomain_typed; exact Hfits.
  - apply CreateDevicePartitionProperty_typed; exact Hfits.
  - apply CreateCommandQueueProperties_typed; exact Hfits.
  - apply CreateDeviceType_typed; exact Hfits.
  - apply CreateDeviceSVMCapabilities_typed; exact Hfits.
Qed.

Ltac entry_typed :=
  split; [discriminate|];
  unfold fetcher, NIV_VALUESTRING; cbn [type cf fst snd];
  eexists; constructor.

Ltac table_typed :=
  repeat (apply Forall_cons; split; [entry_typed|]); constructor.

Lemma infos_CL_shared_typed : Forall entry_typed infos_CL_shared.
Proof. unfold infos_CL_shared. table_typed. Qed.

Lemma infos_CL_1_0_typed : Forall entry_typed infos_CL_1_0.
Proof. unfold infos_CL_1_0. table_typed. Qed.

Lemma infos_CL_1_1_typed : Forall entry_typed infos_CL_1_1.
Proof. unfold infos_CL_1_1. table_typed. Qed.

Lemma infos_CL_1_2_typed : Forall entry_typed infos_CL_1_2.
Proof. unfold infos_CL_1_2. table_typed. Qed.

Lemma infos_CL_2_0_typed : Forall entry_typed infos_CL_2_0.
Proof. unfold infos_CL_2_0. table_typed. Qed.

Lemma infos_typed : Forall entry_typed infos.
Proof. unfold infos. table_typed. Qed.

Lemma propertiesToFetch_typed (version : Version) :
  Forall entry_typed (propertiesToFetch version).
Proof.
  unfold propertiesToFetch.
  eapply Permutation_Forall; [symmetry; apply std_sort_perm|].
  repeat match goal with
         | |- Forall _ (if ?b then _ else _) => destruct b
         | |- Forall _ (_ ++ _) => apply Forall_app; split
         end;
    first [ apply infos_CL_shared_typed | apply infos_CL_1_0_typed
          | apply infos_CL_1_1_typed | apply infos_CL_1_2_typed
          | apply infos_CL_2_0_typed ].
Qed.

Section Fetch.
Context {O I : Type} (f : GetInfoFunction O I) (clObject : O).

Lemma GetValue_typed (entry : PropertyFetcher I) :
  answer_fits f clObject entry ->
  fetch_typed (type entry) (GetValue f clObject (info entry) (cf entry)).
Proof.
  unfold answer_fits. intros Hfits.
  destruct (f clObject (info entry) 0) as [[r size] w0] eqn:H0.
  destruct (Z.eqb_spec r CL_SUCCESS) as [-> | Hr].
  2:{ apply fetch_typed_null. intros p. eexists.
      eapply GetValue_size_failure; eassumption. }
  destruct (Nat.eqb_spec size 0) as [-> | Hsize].
  { apply fetch_typed_null. intros p. eexists. eapply GetValue_empty. exact H0. }
  cbn [andb negb] in Hfits.
  destruct (f clObject (info entry) size) as [[r' size'] written] eqn:H1.
  destruct (Z.eqb_spec r' CL_SUCCESS) as [-> | Hr'].
  2:{ apply fetch_typed_null. intros p. eexists.
      eapply GetValue_data_failure; eassumption. }
  destruct Hfits as (kind & Hkind & Hbuffer).
  pose proof (decoder_kind_typed _ _ _ _ Hkind Hbuffer) as Htyped.
  rewrite length_filled in Htyped.
  intros p. destruct (Htyped p) as (v & p' & d & us & Hrun & Hrest).
  exists v, p', d, us. split; [|exact Hrest].
  erewrite GetValue_decodes; eassumption.
Qed.

End Fetch.
End Tables.

(** ** From the driver to the printed tree *)

Lemma value_list_functional (p : Pool) (v : ptr) (us us' : list cliUnion) :
  value_list p v us -> value_list p v us' -> us = us'.
Proof.
  intros (l & Hc & Hall) (l' & Hc' & Hall').
  rewrite (chain_functional _ _ _ _ _ Hc' Hc) in Hall'. clear Hc Hc' l'.
  revert us' Hall'. induction Hall as [|a u l us (c & Ha & Hu) _ IH]; intros us' Hall'.
  - apply Forall2_nil_inv_l in Hall'. congruence.
  - apply Forall2_cons_inv_l in Hall' as (u' & us'' & (c' & Ha' & Hu') & Hall' & ->).
    rewrite Ha in Ha'. injection Ha' as <-. f_equal; [congruence | apply IH; exact Hall'].
Qed.

Section Printable.
Context {hdr : cl_h} (drv : Driver).

Lemma built_by_printable {O I} (f : GetInfoFunction O I) (clObject : O)
    (entry : PropertyFetcher I) (pv : PropertyView) :
  entry_typed entry -> answer_fits f clObject entry ->
  built_by f clObject entry pv -> property_printable pv.
Proof.
  intros (Hname & _) Hfits (Hn & _ & Ht & p0 & v & p1 & d & Hget & Hus).
  split; [rewrite Hn; exact Hname|].
  destruct (GetValue_typed f clObject entry Hfits p0) as (v' & p1' & d' & us' & Hget' & _ & Hus' & Htyped).
  rewrite Hget in Hget'. injection Hget' as <- <- <-.
  rewrite Ht, (value_list_functional _ _ _ _ Hus Hus'). exact Htyped.
Qed.

Lemma built_by_all_printable {O I} (f : GetInfoFunction O I) (clObject : O)
    (table : list (PropertyFetcher I)) (news : list PropertyView) :
  Forall entry_typed table ->
  (forall entry, entry ∈ table -> answer_fits f clObject entry) ->
  Forall2 (built_by f clObject) table news -> Forall property_printable news.
Proof.
  intros Htyped Hfits Hall. induction Hall as [|entry pv table news Hb _ IH]; [constructor|].
  apply Forall_cons in Htyped as [He Htyped]. constructor.
  - eapply built_by_printable; [exact He | apply Hfits; apply list_elem_of_here | exact Hb].
  - apply IH; [exact Htyped|]. intros e Hin. apply Hfits. apply list_elem_of_further. exact Hin.
Qed.

Lemma format_view_printable (format : cl_image_format) : printable (format_view format).
Proof.
  apply printable_unfold. cbn. split; [discriminate|]. split; [|constructor].
  repeat constructor; cbn; discriminate.
Qed.

Lemma object_type_views_printable (ctx : cl_context) (types : list ImageType) :
  forall views, object_type_views drv ctx types = inl views -> Forall printable views.
Proof.
  induction types as [|t types IH]; intros views Hviews; cbn [object_type_views] in Hviews.
  - injection Hviews as <-. constructor.
  - destruct (clGetSupportedImageFormats drv ctx (it_type t) 0) as [[r n0] w0].
    destruct (r =? CL_SUCCESS)%Z; [|discriminate].
    destruct (n0 =? 0)%nat; [apply IH; exact Hviews|].
    destruct (clGetSupportedImageFormats drv ctx (it_type t) n0) as [[r2 n2] written].
    destruct (r2 =? CL_SUCCESS)%Z; [|discriminate].
    destruct (object_type_views drv ctx types) as [rest | d]; [|discriminate].
    injection Hviews as <-. constructor; [|apply IH; reflexivity].
    apply printable_unfold. cbn. split; [discriminate|]. split; [constructor|].
    apply Forall_forall. intros v Hv. apply list_elem_of_fmap in Hv as (format & -> & _).
    apply format_view_printable.
Qed.

Lemma device_children_printable (id : cl_device_id) (version : Version) :
  Forall printable (device_children drv id version).
Proof.
  unfold device_children. destruct (clCreateContext drv id) as [result ctx].
  destruct (result =? CL_SUCCESS)%Z; [|constructor].
  destruct (object_type_views drv ctx (image_types version)) as [views | d] eqn:Hviews;
    [|constructor].
  constructor; [|constructor]. apply printable_unfold. cbn.
  split; [discriminate|]. split; [constructor|].
  eapply object_type_views_printable. exact Hviews.
Qed.

Lemma link_result_printable (results : list (option NodeView)) :
  (forall v, Some v ∈ results -> printable v) ->
  forall state, Forall printable (fst state) ->
    Forall printable (fst (fold_left link_result results state)).
Proof.
  induction results as [|r results IH]; intros Hresults state Hstate; [exact Hstate|].
  cbn [fold_left]. apply IH.
  - intros v Hv. apply Hresults. apply list_elem_of_further. exact Hv.
  - unfold link_result. destruct r as [v|], (snd state); cbn [fst].
    + apply Forall_app. split; [exact Hstate|]. constructor; [|constructor].
      apply Hresults. apply list_elem_of_here.
    + constructor; [|constructor]. apply Hresults. apply list_elem_of_here.
    + exact Hstate.
    + constructor.
Qed.

Hypothesis Hfits : driver_fits drv.

Lemma driver_fits_device (id : cl_device_id) : device_answers drv id.
Proof.
  destruct Hfits as (_ & Hdevices & Hversions). unfold device_answers.
  destruct (device_version_text drv id) as [text | d] eqn:Htext; [|exact Logic.I].
  destruct (ParseVersion text) as [version|] eqn:Hparse;
    [|exfalso; eapply Hversions; eassumption].
  exists version. split; [reflexivity|]. intros entry Hentry.
  eapply fetch_typed_returns. apply GetValue_typed. eapply Hdevices. exact Hentry.
Qed.

Lemma driver_fits_platform (platformId : cl_platform_id) : platform_answers drv platformId.
Proof.
  destruct Hfits as (Hplatforms & _ & _). split.
  - intros entry Hentry. eapply fetch_typed_returns. apply GetValue_typed.
    apply Hplatforms. exact Hentry.
  - destruct (platform_devices drv platformId); [|exact Logic.I].
    apply Forall_forall. intros id _. apply driver_fits_device.
Qed.

Lemma driver_fits_answers : driver_answers drv.
Proof.
  unfold driver_answers. destruct (platforms drv); [|exact Logic.I].
  apply Forall_forall. intros platformId _. apply driver_fits_platform.
Qed.

Lemma device_gathered_printable (id : cl_device_id) (v : NodeView) :
  device_gathered drv id (Some v) -> printable v.
Proof.
  unfold device_gathered. destruct (device_version_text drv id) as [text | d]; [|discriminate].
  intros (version & news & _ & Hbuilt & [= ->]).
  apply printable_unfold. cbn. split; [discriminate|]. split.
  - destruct Hfits as (_ & Hdevices & _).
    eapply built_by_all_printable; [apply propertiesToFetch_typed | | exact Hbuilt].
    intros entry Hentry. eapply Hdevices. exact Hentry.
  - apply device_children_printable.
Qed.

Lemma platform_gathered_printable (platformId : cl_platform_id) (v : NodeView) :
  platform_gathered drv platformId v -> printable v.
Proof.
  intros (deviceIds & news & results & _ & Hbuilt & Hall & ->).
  apply printable_unfold. cbn. split; [discriminate|]. split.
  - destruct Hfits as (Hplatforms & _ & _).
    eapply built_by_all_printable; [apply infos_typed | | exact Hbuilt].
    intros entry Hentry. apply Hplatforms. exact Hentry.
  - constructor; [|constructor]. apply printable_unfold. cbn.
    split; [discriminate|]. split; [constructor|].
    apply link_result_printable; [|constructor].
    intros v Hv. apply list_elem_of_lookup_1 in Hv as [i Hi].
    destruct (Forall2_lookup_r _ _ _ _ _ Hall Hi) as (id & _ & Hgathered).
    eapply device_gathered_printable. exact Hgathered.
Qed.

Lemma tree_gathered_printable (t : NodeView) :
  tree_gathered drv (Some t) -> printable t.
Proof.
  unfold tree_gathered. destruct (platforms drv) as [platformIds | d]; [|discriminate].
  destruct (first_failure drv platformIds); [discriminate|].
  intros (views & Hall & [= ->]).
  apply printable_unfold. cbn. split; [discriminate|]. split; [constructor|].
  apply Forall_forall. intros v Hv. apply list_elem_of_lookup_1 in Hv as [i Hi].
  destruct (Forall2_lookup_r _ _ _ _ _ Hall Hi) as (platformId & _ & Hgathered).
  eapply platform_gathered_printable. exact Hgathered.
Qed.

End Printable.

Lemma fits_any (kind : DecoderKind) (buffer : list ascii) :
  8 <= length buffer -> NUL ∈ buffer -> (Z.of_nat (length buffer) < BlockSize)%Z ->
  fits kind buffer.
Proof. intros H8 Hnul Hsize. destruct kind; cbn; auto; lia. Qed.

(** The mock driver fits the decoders. *)
Lemma mock_driver_fits (platforms : list cl_platform_id) (devices broken : list cl_device_id)
    (formats : list cl_image_format) :
  driver_fits (hdr := khronos_cl_h)
    (mock_driver platforms devices "OpenCL 1.2 Mock" broken formats).
Proof.
  split; [|split].
  - intros platformId entry Hentry. unfold answer_fits. cbn.
    pose proof (infos_typed (hdr := khronos_cl_h)) as Htyped.
    rewrite Forall_forall in Htyped. destruct (Htyped entry Hentry) as (_ & kind & Hkind).
    exists kind. split; [exact Hkind|].
    apply fits_any; [cbn; lia | decide_by_compute | unfold BlockSize; cbn; lia].
  - intros id version entry Hentry. unfold answer_fits. cbn.
    pose proof (propertiesToFetch_typed (hdr := khronos_cl_h) version) as Htyped.
    rewrite Forall_forall in Htyped. destruct (Htyped entry Hentry) as (_ & kind & Hkind).
    destruct (bool_decide (id ∈ broken)); [exact Logic.I|].
    destruct (String.eqb (info entry) "CL_DEVICE_VERSION"); cbn.
    + exists kind. split; [exact Hkind|].
      apply fits_any; [cbn; lia | decide_by_compute | unfold BlockSize; cbn; lia].
    + exists kind. split; [exact Hkind|].
      apply fits_any; [cbn; lia | decide_by_compute | unfold BlockSize; cbn; lia].
  - intros id text. unfold device_version_text. cbn.
    destruct (bool_decide (id ∈ broken)); [discriminate|]. cbn.
    intros [= <-]. vm_compute. discriminate.
Qed.

Section EndToEnd.
Context {hdr : cl_h}.

(** X24. [GetValue] for an entry of a table, on an object for which the
    answer of the driver fits the decoder of the entry: it returns,
    whatever the pool, with a value list (null when a query fails or
    the size is 0) whose values all hold the member of the union that
    the type of the entry names; only value cells are added to the
    pool.  An answer fits when it has the four or eight bytes of the
    number the decoder reads, or, for a text, when it holds a NUL and
    is shorter than a block of the pool; a list of [size_t] numbers
    always fits. *)
Theorem GetValue_returns_typed_values {O I} (f : GetInfoFunction O I) (clObject : O)
    (entry : PropertyFetcher I) :
  answer_fits f clObject entry ->
  fetch_typed (type entry) (GetValue f clObject (info entry) (cf entry)).
Proof. apply GetValue_typed. Qed.


(** X26. [main] of the command line tool on a driver whose answers fit
    the decoders.  When the platforms and the devices of every
    platform are enumerated, the tree gathered can be printed: every
    node and every property has a name and every value holds the
    member of the union that its property names, so that the printer
    selected returns; [main] writes its text to the standard output
    and returns 0.  When nothing is gathered (no platform, or an
    enumeration fails) [main] still runs the printer selected, on its
    uninitialised [root]; it is defined only when no printer is
    selected. *)
Theorem main_prints_the_gathered_tree (drv : Driver) (args : list string) :
  driver_fits drv ->
  exists d tree,
    tree_gathered drv tree /\
    match tree with
    | Some t =>
        printable t /\
        exists out,
          main drv args = Some (0%Z, out, d) /\
          match selected_printer args with
          | Some printer => run_printer printer t = Some out
          | None => out = EmptyString
          end
    | None =>
        main drv args = match selected_printer args with
                        | Some _ => None
                        | None => Some (0%Z, EmptyString, d)
                        end
    end.
Proof.
  intros Hfits.
  destruct (GatherOpenCLInfo_builds drv empty_pool (driver_fits_answers drv Hfits))
    as (p' & d & tree & Hrun & Hgathered & Htree & _).
  exists d, tree. split; [exact Hgathered|].
  unfold main. cbn [cliInfo_Create]. unfold cliInfo_Gather. cbn [root pool]. rewrite Hrun.
  destruct tree as [t|].
  - pose proof (tree_gathered_printable drv Hfits t Hgathered) as Hprintable.
    split; [exact Hprintable|].
    pose proof (read_node_tree _ _ _ _ (Htree t eq_refl)) as Hread.
    cbn in Hread. cbn [cliInfo_GetRoot root pool]. cbn [empty_pool nodes length].
    rewrite Hread.
    destruct (selected_printer args) as [printer|]; [|eauto].
    destruct (printers_return t Hprintable) as (Hxml & Hjson & Hconsole).
    assert (exists out, run_printer printer t = Some out) as [out Hout]
        by (destruct printer; assumption).
    exists out. rewrite Hout. split; reflexivity.
  - cbn [cliInfo_GetRoot root pool].
    destruct (selected_printer args); reflexivity.
Qed.

End EndToEnd.

Lemma GetValue_returns_typed_values_witness :
  fetch_typed CLI_PropertyType_String
    (GetValue (hdr := khronos_cl_h) (fun (_ : unit) (_ : string) size => answer (bytes_of "FULL_PROFILE") size) tt
       "CL_PLATFORM_PROFILE" CreateChar).
Proof.
  apply (GetValue_returns_typed_values (hdr := khronos_cl_h)
           (fun (_ : unit) (_ : string) size => answer (bytes_of "FULL_PROFILE") size) tt
           (fetcher (NIV_VALUESTRING "CL_PLATFORM_PROFILE") CreateChar
              CLI_PropertyType_String None)).
  unfold answer_fits. cbn. exists Text. split; [constructor|].
  split; [decide_by_compute | unfold BlockSize; cbn; lia].
Defined.

Lemma GatherDeviceInfo_device_node_witness :
  (exists p' d result,
     GatherDeviceInfo (hdr := khronos_cl_h) sample_mock_driver 10%Z empty_pool
       = (Ok (match result with Some _ => Some 0 | None => None end), p', d) /\
     device_gathered (hdr := khronos_cl_h) sample_mock_driver 10%Z result /\
     (forall v, result = Some v -> read_node p' 0 = Some v) /\
     pool_extended empty_pool p') /\
  GatherDeviceInfo (hdr := khronos_cl_h) sample_mock_driver 11%Z empty_pool
    = (Ok None, mkPool [] [] [mkNode (Some "Device") None None None None],
       [Failed "clGetDeviceInfo (id, CL_DEVICE_VERSION, 0, nullptr, &versionSize)" (-30)]).
Proof.
  split.
  - destruct (GatherDeviceInfo_device_node (hdr := khronos_cl_h) sample_mock_driver 10%Z
                empty_pool) as (p' & d & result & Hrun & Hgathered & Hread & Hpool & _).
    { apply driver_fits_device. apply mock_driver_fits. }
    exists p', d, result. split_all; assumption.
  - destruct (GatherDeviceInfo_device_node (hdr := khronos_cl_h) sample_mock_driver 11%Z
                empty_pool) as (p' & d & result & Hrun & _ & _ & _ & Hfails).
    { apply driver_fits_device. apply mock_driver_fits. }
    destruct (Hfails _ eq_refl) as (-> & -> & ->). exact Hrun.
Defined.

Lemma GatherOpenCLInfo_devices_linked_witness :
  exists p' d v,
    GatherOpenCLInfo_devices (hdr := khronos_cl_h) sample_mock_driver 0 [10%Z; 11%Z; 12%Z] None
      (mkPool [] [] [mkNode (Some "Devices") None None None None]) = (Ok tt, p', d) /\
    read_node p' 0 = Some (mkNodeView (Some "Devices") None [] [v]).
Proof.
  destruct (GatherOpenCLInfo_devices_linked (hdr := khronos_cl_h) sample_mock_driver
              [10%Z; 11%Z; 12%Z] empty_pool (Some "Devices") None)
    as [(p' & d & results & Hrun & Hall & Hread & _) _].
  { apply Forall_forall. intros id _. apply driver_fits_device. apply mock_driver_fits. }
  apply Forall2_cons_inv_l in Hall as (r10 & rest1 & H10 & Hall & ->).
  apply Forall2_cons_inv_l in Hall as (r11 & rest2 & H11 & Hall & ->).
  apply Forall2_cons_inv_l in Hall as (r12 & rest3 & H12 & Hall & ->).
  apply Forall2_nil_inv_l in Hall as ->.
  unfold device_gathered in H10, H11, H12.
  change (device_version_text sample_mock_driver 10%Z) with (@inl string Diag "OpenCL 1.2 Mock")
    in H10.
  change (device_version_text sample_mock_driver 12%Z) with (@inl string Diag "OpenCL 1.2 Mock")
    in H12.
  change (device_version_text sample_mock_driver 11%Z)
    with (@inr string Diag
            (Failed "clGetDeviceInfo (id, CL_DEVICE_VERSION, 0, nullptr, &versionSize)" (-30)))
    in H11.
  cbv beta iota in H10, H11, H12.
  destruct H10 as (version10 & news10 & _ & _ & ->).
  destruct H12 as (version12 & news12 & _ & _ & ->).
  rewrite H11 in Hread.
  eexists p', d, _. split; [exact Hrun|]. exact Hread.
Defined.

Lemma cliInfo_Gather_tree_witness :
  exists info' d t,
    cliInfo_Gather (hdr := khronos_cl_h) sample_mock_driver (mk_cliInfo empty_pool None)
      = Some (CLI_Success, info', d) /\
    root info' = Some 0 /\
    read_node (pool info') 0 = Some t /\
    nv_name t = Some "Platforms" /\ length (nv_children t) = 1.
Proof.
  destruct (cliInfo_Gather_tree (hdr := khronos_cl_h) sample_mock_driver
              (mk_cliInfo empty_pool None))
    as (info' & d & tree & Hrun & Hgathered & Hroot & _).
  { apply driver_fits_answers. apply mock_driver_fits. }
  { reflexivity. }
  unfold tree_gathered in Hgathered.
  change (platforms sample_mock_driver) with (@inl (list cl_platform_id) Diag [1%Z])
    in Hgathered.
  change (first_failure sample_mock_driver [1%Z]) with (@None Diag) in Hgathered.
  cbv beta iota in Hgathered. destruct Hgathered as (views & Hall & ->).
  destruct Hroot as [Hroot Hread].
  apply Forall2_length in Hall.
  eexists info', d, _. split_all; [exact Hrun | exact Hroot | exact Hread | reflexivity |].
  cbn [nv_children]. rewrite <- Hall. reflexivity.
Defined.

Lemma main_prints_the_gathered_tree_witness :
  exists out d,
    main (hdr := khronos_cl_h) sample_mock_driver ["-j"] = Some (0%Z, out, d).
Proof.
  destruct (main_prints_the_gathered_tree (hdr := khronos_cl_h) sample_mock_driver ["-j"]
              (mock_driver_fits _ _ _ _))
    as (d & tree & Hgathered & Hmain).
  unfold tree_gathered in Hgathered.
  change (platforms sample_mock_driver) with (@inl (list cl_platform_id) Diag [1%Z])
    in Hgathered.
  change (first_failure sample_mock_driver [1%Z]) with (@None Diag) in Hgathered.
  cbv beta iota in Hgathered. destruct Hgathered as (views & _ & ->).
  destruct Hmain as (_ & out & Hmain & _).
  exists out, d. exact Hmain.
Defined.

(** ** The lookups of the viewer on gathered nodes *)

Lemma Allocate_store_union_head {A} (k : nat -> M A) (p : Pool) :
  bind Allocate_cliValue k p
  = k (length (values p)) (mkPool (values p ++ [zero_value]) (properties p) (nodes p)).
Proof. unfold bind, Allocate_cliValue. destruct (k _ _) as [[r p2] d2]. reflexivity. Qed.

Lemma CreateValue_s_Ok (value : string) (p p' : Pool) (a : nat) (d : list Diag) :
  CreateValue_s value p = (Ok a, p', d) ->
  a = length (values p) /\ p' = with_value p (U_s value).
Proof.
  unfold CreateValue_s. rewrite Allocate_store_union_head.
  unfold bind, Allocate, throw_bad_alloc, ret, undefined, store_value.
  destruct ((_ <? 0)%Z || (_ >=? BlockSize)%Z); [discriminate|].
  destruct (_ <=? _)%Z; [discriminate|].
  cbn [values properties nodes]. rewrite lookup_fresh. cbn [values properties nodes].
  rewrite insert_fresh. intros [= <- <- _]. split; reflexivity.
Qed.

Section Viewer.
Context {hdr : cl_h}.

Lemma with_value_list (p : Pool) (u : cliUnion) :
  value_list (with_value p u) (Some (length (values p))) [u].
Proof.
  exists [length (values p)]. split.
  - econstructor; [apply lookup_fresh|]. constructor.
  - constructor; [|constructor]. exists (mkValue u None). split; [apply lookup_fresh | reflexivity].
Qed.

(** The values of a property that [GetProperties] builds with
    [CreateChar]. *)
Lemma built_by_CreateChar {O I} (f : GetInfoFunction O I) (clObject : O)
    (entry : PropertyFetcher I) (pv : PropertyView) :
  cf entry = CreateChar ->
  built_by f clObject entry pv ->
  pv_values pv = match attribute_text f clObject (info entry) with
                 | Some text => [U_s text]
                 | None => []
                 end.
Proof.
  intros Hcf (_ & _ & _ & p0 & v & p1 & d & Hget & Hus). rewrite Hcf in Hget.
  unfold attribute_text. unfold GetValue, NIV_SAFE_CL in Hget.
  destruct (f clObject (info entry) 0) as [[r size] w0].
  destruct (r =? CL_SUCCESS)%Z; cbn [andb].
  2:{ cbn in Hget. injection Hget as <- <- _. apply value_list_null in Hus. exact Hus. }
  destruct (size =? 0)%nat; cbn [negb].
  { cbn in Hget. injection Hget as <- <- _. apply value_list_null in Hus. exact Hus. }
  destruct (f clObject (info entry) size) as [[r' size'] written].
  destruct (r' =? CL_SUCCESS)%Z.
  2:{ cbn in Hget. injection Hget as <- <- _. apply value_list_null in Hus. exact Hus. }
  unfold CreateChar in Hget.
  destruct (c_str (filled NUL size written)) as [text|]; [|discriminate].
  unfold bind in Hget.
  destruct (CreateValue_s text p0) as [[[a| |] p2] d2] eqn:Hvalue; try discriminate.
  apply CreateValue_s_Ok in Hvalue as [-> ->].
  cbn in Hget. injection Hget as <- <- _.
  eapply value_list_functional; [exact Hus | apply with_value_list].
Qed.

(** The lookup of the viewer on properties that [GetProperties]
    built: the first entry of the name decides. *)
Lemma GetPropertyString_built {O} (f : GetInfoFunction O string) (clObject : O)
    (wanted : string) (table : list (PropertyFetcher string)) (news : list PropertyView) :
  Forall (fun entry => n entry <> None /\
                       (n entry = Some wanted ->
                        cf entry = CreateChar /\ info entry = wanted)) table ->
  Forall2 (built_by f clObject) table news ->
  GetPropertyString wanted news =
    match List.find (fun entry => bool_decide (n entry = Some wanted)) table with
    | Some entry =>
        match attribute_text f clObject (info entry) with
        | Some text => Some (Some text)
        | None => None
        end
    | None => Some None
    end.
Proof.
  intros Htable Hall. induction Hall as [|entry pv table news Hb _ IH]; [reflexivity|].
  apply Forall_cons in Htable as [[Hname Hcf] Htable].
  cbn [GetPropertyString List.find].
  pose proof Hb as (Hn & _). rewrite Hn.
  destruct (n entry) as [name|] eqn:Hentry; [|contradiction].
  destruct (String.eqb_spec name wanted) as [-> | Hne].
  - rewrite bool_decide_eq_true_2 by reflexivity.
    rewrite (built_by_CreateChar f clObject entry pv (proj1 (Hcf eq_refl)) Hb).
    destruct (attribute_text f clObject (info entry)); reflexivity.
  - rewrite bool_decide_eq_false_2 by congruence. apply IH. exact Htable.
Qed.

Ltac name_decides :=
  split; [discriminate|];
  unfold fetcher, NIV_VALUESTRING; cbn [n cf fst snd];
  first [ intros _; split; reflexivity | intros Hname; discriminate Hname ].

Ltac table_names :=
  repeat (apply Forall_cons; split; [name_decides|]); constructor.

Lemma infos_platform_name :
  Forall (fun entry => n entry <> None /\
                       (n entry = Some "CL_PLATFORM_NAME" ->
                        cf entry = CreateChar /\ info entry = "CL_PLATFORM_NAME")) infos.
Proof. unfold infos. table_names. Qed.

Lemma tables_device_name (version : Version) :
  Forall (fun entry => n entry <> None /\
                       (n entry = Some "CL_DEVICE_NAME" ->
                        cf entry = CreateChar /\ info entry = "CL_DEVICE_NAME"))
    (propertiesToFetch version).
Proof.
  unfold propertiesToFetch.
  eapply Permutation_Forall; [symmetry; apply std_sort_perm|].
  repeat match goal with
         | |- Forall _ (if ?b then _ else _) => destruct b
         | |- Forall _ (_ ++ _) => apply Forall_app; split
         end;
    first [ unfold infos_CL_shared; table_names | unfold infos_CL_1_0; table_names
          | unfold infos_CL_1_1; table_names | unfold infos_CL_1_2; table_names
          | unfold infos_CL_2_0; table_names ].
Qed.

Lemma GetPropertyString_gathered {O} (f : GetInfoFunction O string) (clObject : O)
    (wanted : string) (table : list (PropertyFetcher string)) (news : list PropertyView) :
  Forall (fun entry => n entry <> None /\
                       (n entry = Some wanted ->
                        cf entry = CreateChar /\ info entry = wanted)) table ->
  (exists entry, entry ∈ table /\ n entry = Some wanted) ->
  Forall2 (built_by f clObject) table news ->
  GetPropertyString wanted news =
    match attribute_text f clObject wanted with
    | Some text => Some (Some text)
    | None => None
    end.
Proof.
  intros Htable (entry0 & Hin0 & Hname0) Hall.
  rewrite (GetPropertyString_built f clObject wanted table news Htable Hall).
  destruct (List.find (fun entry => bool_decide (n entry = Some wanted)) table)
    as [entry|] eqn:Hfind.
  - apply List.find_some in Hfind as [Hin Hname].
    apply bool_decide_eq_true_1 in Hname.
    rewrite Forall_forall in Htable.
    destruct (Htable entry (proj2 (list_elem_of_In _ _) Hin)) as [_ Hentry].
    destruct (Hentry Hname) as [_ ->]. reflexivity.
  - exfalso. pose proof (List.find_none _ _ Hfind entry0 (proj1 (list_elem_of_In _ _) Hin0)) as H.
    cbv beta in H. rewrite bool_decide_eq_true_2 in H by exact Hname0. discriminate.
Qed.

Lemma device_name_fetched (version : Version) :
  exists entry, entry ∈ propertiesToFetch version /\ n entry = Some "CL_DEVICE_NAME".
Proof.
  exists (fetcher (NIV_VALUESTRING "CL_DEVICE_NAME") CreateChar CLI_PropertyType_String None).
  split; [|reflexivity].
  unfold propertiesToFetch. rewrite std_sort_perm.
  assert (fetcher (NIV_VALUESTRING "CL_DEVICE_NAME") CreateChar CLI_PropertyType_String None
          ∈ infos_CL_shared) as Hshared.
  { unfold infos_CL_shared. repeat first [apply list_elem_of_here | apply list_elem_of_further]. }
  repeat match goal with
         | |- _ ∈ (if ?b then _ else _) => destruct b
         end;
    rewrite ?elem_of_app; tauto.
Qed.

(** X27. The lookups of the viewer on the nodes that the library
    gathers.  [GetDeviceName] and [GetPlatformName] return the text
    that the driver reports for [CL_DEVICE_NAME] and
    [CL_PLATFORM_NAME]; when the driver reports none (a query fails or
    the size is 0) the property has no value and the lookup reads
    through the null pointer.  [GetImageFormats] returns the first
    child of a device node, which is the node [ImageFormats], or the
    null pointer when the device node has no child. *)
Theorem viewer_lookups_on_gathered_nodes (drv : Driver) :
  (forall id v,
     device_gathered drv id (Some v) ->
     GetDeviceName v =
       match attribute_text (clGetDeviceInfo drv) id "CL_DEVICE_NAME" with
       | Some text => Some (Some text)
       | None => None
       end /\
     GetImageFormats v = Some (head (nv_children v))) /\
  (forall platformId v,
     platform_gathered drv platformId v ->
     GetPlatformName v =
       match attribute_text (clGetPlatformInfo drv) platformId "CL_PLATFORM_NAME" with
       | Some text => Some (Some text)
       | None => None
       end).
Proof.
  split.
  - intros id v. unfold device_gathered.
    destruct (device_version_text drv id) as [text | d]; [|discriminate].
    intros (version & news & _ & Hbuilt & [= ->]). split.
    + unfold GetDeviceName. cbn [nv_properties].
      apply (GetPropertyString_gathered _ _ _ (propertiesToFetch version));
        [apply tables_device_name | apply device_name_fetched | exact Hbuilt].
    + unfold GetImageFormats, device_children. cbn [nv_children].
      destruct (clCreateContext drv id) as [result ctx].
      destruct (result =? CL_SUCCESS)%Z; [|reflexivity].
      destruct (object_type_views drv ctx (image_types version)); reflexivity.
  - intros platformId v (deviceIds & news & results & _ & Hbuilt & _ & ->).
    unfold GetPlatformName. cbn [nv_properties].
    apply (GetPropertyString_gathered _ _ _ infos); [apply infos_platform_name | | exact Hbuilt].
    exists (fetcher (NIV_VALUESTRING "CL_PLATFORM_NAME") CreateChar CLI_PropertyType_String None).
    split; [|reflexivity].
    unfold infos. repeat first [apply list_elem_of_here | apply list_elem_of_further].
Qed.

End Viewer.
